(* ===== verification/_CoqProject ===== *)
-Q . S2P
Prelude.v
CLib.v
Str2buf.v
ODInterface.v
FileSys.v
MemFS.v
SdoClient.v
SdoValues.v
System.v
Logger.v
OdExt.v
OsCommand.v
Fcache.v
FileTransfer.v
EcssTime.v
SystemExt.v
IpcMsg.v
IpcBroadcast.v
Ipc.v
IpcConsume.v
IpcRespond.v
LoadConfigs.v
LoadCsv.v
CanConfig.v
Main.v
MainLoop.v
Scripts.v
