(* ===== verification/Prelude.v ===== *)
(** * A verification of oresat-cand

    oresat-cand is the daemon of an OreSat satellite card that connects the applications of
    the card to its CAN bus.  It runs a CANopen node (the library CANopenLinux, a submodule)
    whose object dictionary is the state shared by the bus and the applications; the
    applications talk to the daemon over three ZeroMQ sockets.  This library models the
    daemon's own C code, function by function, and proves what each part does.

    ** Parts and files

    The files are listed in the order in which they depend on each other.

    - [Prelude]: bytes, integers of a given width, little-endian integers, the outcome of C
      code ([res]: a value or undefined behaviour, with its kind), memory objects with
      bounds-checked reads and writes, and the automation the other files share.
    - [CLib]: the part of the C library the sources use on strings: NUL-terminated strings,
      [strncmp], [strtoul], [strtol], [sscanf]; the class [Platform] of what differs between
      targets (the width of [long], [strtof], allocation), with an
      instance for 32-bit ARM, the daemon's target, and one for 64-bit hosts.
    - [Str2buf]: src/common/str2buf.c, the values of the configuration and the scripts.
    - [ODInterface]: the types of CANopenNode that the extensions are called with.  That
      library's code is not part of the repository: its constants and sizes are classes.
    - [FileSys], [MemFS]: the calls on files and directories as a class with the laws the
      code relies on, and a file system in memory that satisfies them.
    - [SdoClient]: src/canopenlinux/sdo_client.c, reading and writing entries of other nodes.
      CANopenNode's SDO client is the class [SdoLib], its documented behaviour [SdoLibLaws];
      the class [SdoOps] with [SdoLaws] is what [IpcRespond] uses of the result.  What each
      operation ends in, the cases without a defined result included, is
      [sdo_client_outcomes].
    - [SdoValues]: src/canopenlinux/sdo_client.h, the same for values of a type.
    - [System]: src/common/system.c, run_bash_command, paths, files, directories, CRC.  What
      the kernel's [sendfile] does at each call is the class [CopyEnv]: [copied] is what the
      copy loop makes of it, [at_once] says that the first transfer takes the whole file.
    - [Logger]: src/common/logger.c and src/canopenlinux/log_prinf.c, messages by priority.
    - [OdExt]: src/od_extensions/od_ext.c, segmented reads and writes of data and files.
    - [OsCommand]: src/od_extensions/os_command_ext.c, a shell command over the bus: the
      handlers of the SDO server and the thread as a step relation, one step per character
      of output, so that every interleaving of the two is covered.
    - [Fcache]: src/common/fcache.c, the file cache, with its mutex, and the listing as
      JSON; [add_undefined] are the cases in which adding a file has no defined result.
    - [FileTransfer]: src/od_extensions/file_transfer_ext.c, files to and from the cache over the
      bus: the two dictionary entries and the state of their transfers.
    - [EcssTime]: src/common/ecss_time.c and src/od_extensions/ecss_time_ext.c, two time formats
      as bit fields and their entries.
    - [SystemExt]: src/od_extensions/system_ext.c, the entry with the state of the system.
    - [IpcMsg]: src/ipc/ipc_msg.h, the messages of the sockets: layouts of the packed
      structs, access to members at their offsets, and the Python client's [pack] and
      [unpack] (libs/python/oresat_cand/message.py), the other end of the sockets.
    - [IpcBroadcast]: src/ipc/ipc_broadcast.c, from the dictionary and the bus to the
      applications (socket 6001), with the count of clients kept by the socket monitor.
    - [Ipc]: src/ipc/ipc.c and the parts of the three modules that open and close sockets.
    - [IpcConsume]: src/ipc/ipc_consume.c, from the applications to the dictionary and the
      bus (socket 6002), and the update of the configuration file.
    - [IpcRespond]: src/ipc/ipc_respond.c, requests with a reply (socket 6000).
    - [LoadConfigs]: src/load_configs.c, the node configuration and the object dictionary
      from their files, and the release of the dictionary.  The list is built by [realloc]
      with the code's 32-bit and [size_t] arithmetic ([list_bytes]); [entry_ptr] is the
      pointer [entry], which dangles when the list moves.
    - [LoadCsv]: what a configuration file describes, and that [LoadConfigs] makes it.
    - [CanConfig]: src/canopenlinux/config.c, the configuration of the CANopen stack counted
      from the dictionary.
    - [Main]: src/main.c up to its loop: callbacks, options, node configuration, dictionary,
      PDO identifiers, caches.
    - [MainLoop]: the loop of src/main.c with its communication resets, the threads of the
      interface and the end of the program.
    - [Scripts]: src/scripts, the command line programs, and the node they start with its
      thread as a step relation.

    [Main] loads what [LoadConfigs] builds (with values from [Str2buf]), [CanConfig] counts it,
    [MainLoop] starts the threads: the responder's runs [IpcRespond], the consumer's
    [IpcConsume] until a new configuration asks for a restart, and the broadcaster's and the
    callbacks [IpcBroadcast].  [IpcBroadcast.ipc_broadcast_data] is the write extension of
    every dictionary entry from 0x4000; [OsCommand], [FileTransfer], [EcssTime] and [SystemExt]
    serve their own entries, and the first two rest on [OdExt].  [IpcRespond] calls the SDO
    client through [SdoOps]: its theorems ask for [SdoLaws], which [SdoClient.sdo_client_laws]
    derives from the laws of the library; it calls the cache of [Fcache] as it is.
    [IpcConsume], [Fcache] and [FileTransfer] call [System].  The [Scripts] are clients of
    other nodes through [SdoValues], and show what [FileTransfer] and [Fcache] of those nodes
    send.

    ** How the code is read

    A C function is a definition of the same name.  Static variables and objects it changes
    are a record passed in and out; what it sends, or calls of a library, are a list of
    events or messages in order; a result pointer is an [option].  What the system or a
    library answers is an argument (a [pass] or [tick] of the main loop, a [kernel_info]).  Every memory access goes
    through an object with its length, so a definition that returns [Ret] did nothing
    undefined; [Undef] says which rule was broken.  Fixed-width integers are [Z] with [wrap]
    and [swrap] where the code converts.  Log calls are left out, but in [MainLoop], where
    they tell why the program ends.

    Loops of the code are structural recursions on their data (the output of a command, the
    entries of a directory, the lines of a file, the columns of a row, the answers of the
    system to the main loop), except some with fuel: [System.copy_loop] takes the length of the file, enough because each call of
    [sendfile] moves at least a byte (lemma [copy_loop_fuel]); [Fcache.json_grow] takes 8,
    as six doublings of 256 pass the limit of 10024; [CLib.to_digits], which only states
    round trips, takes the number itself; the transfers of [SdoClient] run while the library
    says so, at most [rounds] times, which a law bounds by the library's timeout, and the
    theorems exclude running out; [Scripts.list_tokens] takes the length of the text, as
    every token is a position further ([list_tokens_names]).  The main loop and the threads
    have no end of their own: they run along a list of inputs, and say whether it was left.

    ** What is proved

    - The data that crosses the bus in segments, of any sizes, arrives: [od_ext_read_data],
      [od_ext_write_data], [od_ext_read_file], [od_ext_write_file]; a file sent to
      [FileTransfer] is stored in the cache and one fetched from it is delivered, with what
      the transfers of the kernel give, all of it when the first takes the whole file
      ([file_transfer_stores], [file_transfer_fetches]); its buffers stay well formed
      where its calls are defined ([file_transfer_buffers]).
    - The SDO client ends every transfer ([sdo_client_outcomes]) and delivers exactly what the node sent
      ([sdo_read_dynamic_receives], [sdo_read_fits], [sdo_read_to_file_receives]); values
      are read as they were written ([sdo_integer_roundtrip]); the conditions where a buffer
      is left or old bytes are sent ([sdo_read_overflow], [sdo_write_overread],
      [sdo_write_from_file_stale]).
    - Memory safety: of every message the consumer can receive while the PDO table is as
      long as it must be, of every request that fits the responder's buffer (with exactly
      one reply each) unless the operation of the client or of the cache it asks for is
      undefined ([fcache_add_undefined] and [sdo_client_outcomes] say when), of the command
      extension under every interleaving.  The theorems
      also give the exact conditions where the code leaves its buffers:
      [run_bash_command_bounds], [fcache_list_json], [load_row_index],
      [fill_entry_subindex_array_shift], [ipc_consume_tpdo_send_packed],
      [file_transfer_long_name].
    - The threads: the responder's answers the requests in order up to the first whose
      operation is undefined ([responder_thread_answers]); the consumer's runs on ([consumer_thread_runs_on]) until
      a new configuration is in place, and then stops the program
      ([consumer_thread_stops]).
    - The main loop: it ends when it is asked to ([main_loop_ends]), starts the threads once
      ([threads_started_once]), broadcasts the bus status at most every five seconds
      ([bus_status_spaced]); the exit status tells a failure ([run_main_status]), and the end
      is defined exactly when the threads were started ([run_main_defined]).
    - The messages: what one end packs the other reads ([ipc_broadcast_unpack],
      [ipc_consume_od_write_packed], [ipc_respond_sdo_write_packed], [py_unpack_pack]), and
      for which messages the two ends disagree on the format ([py_fmt_matches]).
    - Values: every printed integer, byte string and type name is read back, with the exact
      range in which that holds; the programs show what was written
      ([sdo_tools_roundtrip]) and list the names of a cache ([list_files_json]).
    - The configuration: a file of variables and records is loaded as the dictionary it
      describes, alone or behind the internal one ([od_config_load_objects]); how rows become
      entries, members and elements, the size of the list ([od_config_load_sized]), when its
      release is defined and what it gives back ([od_config_free_exact]), and that it is not
      for what is loaded ([loaded_dictionary_release]); what is counted of it ([fill_config_counts]) and the identifiers of its PDOs
      ([fix_cob_ids_spec]).
    - The command extension refines the sequence execute, reply, and rejects a second
      command while one runs.
    - Files: copying, joining paths, adding to and listing the cache.
    - The programs' node: stopping it joins its thread ([node_stop_joins]) unless the thread
      had not begun ([node_stop_lost]).

    ** What is not modelled

    [rt_thread] of main.c, which only calls CANopenLinux; the usage texts and the log lines of
    the handlers; the Python client apart from its messages (sockets, caches of values, code
    generators); the unit tests, but for those of str2buf, which are examples.  ZeroMQ is
    a list of events and messages: what happens to a thread in a call on a socket that
    [ipc_free] closes is not said.  Threads share state only as the models name it (the flag
    [CO_endProgram] as an input, the steps of [OsCommand] and of the programs' node); the
    dictionary lock of the library is not modelled.  Of external code nothing is defined:
    CANopenNode, ZeroMQ, zlib's crc32, the allocator, the formatting of floating point
    numbers and the file system are classes or arguments. *)

From Stdlib Require Export ZArith Lia.
From Stdlib Require Import Strings.Byte.
From stdpp Require Export base list option numbers strings sets tactics.

#[global] Set Default Goal Selector "!".
#[global] Open Scope Z_scope.

(** Proves a closed decidable proposition by evaluating its decision procedure. *)
Ltac by_decide := apply (bool_decide_unpack _); vm_compute; exact I.

(** Discharges a closed hypothesis of a witness: an equation, an inequality of numbers or
    of lists, a conjunction or a list of such. *)
Ltac by_compute :=
  match goal with
  | |- _ = _ => vm_compute; reflexivity
  | |- _ <> _ => vm_compute; congruence
  | |- (_ < _)%Z => vm_compute; reflexivity
  | |- (_ <= _)%Z => vm_compute; congruence
  | |- _ /\ _ => split; by_compute
  | |- Forall _ [] => constructor
  | |- Forall _ (_ :: _) => constructor; [cbv beta; by_compute|by_compute]
  | |- _ -> False => vm_compute; congruence
  | |- True => exact I
  | |- ?P => let Q := eval hnf in P in progress change Q; by_compute
  end.

(** * Bytes *)

Abbreviation byte := Corelib.Init.Byte.byte.
Abbreviation bytes := (list Corelib.Init.Byte.byte).

(** The value of an [uint8_t]. *)
Definition b2z (b : byte) : Z := Z.of_N (Byte.to_N b).

(** Conversion of an integer to [uint8_t]: C reduces modulo 256. *)
Definition z2b (z : Z) : byte :=
  match Byte.of_N (Z.to_N (z mod 256)) with Some b => b | None => x00 end.

(** The bytes of a string literal (without the terminating NUL). *)
Definition cs (s : string) : bytes := String.list_byte_of_string s.

Definition NUL : byte := x00.

#[export] Instance byte_eq_dec : EqDecision byte.
Proof. intros x y. apply Byte.byte_eq_dec. Defined.
#[global] Arguments byte_eq_dec : simpl never.

Lemma b2z_range b : 0 <= b2z b < 256.
Proof. unfold b2z. pose proof (Byte.to_N_bounded b). lia. Qed.

Lemma z2b_of_N z : Byte.of_N (Z.to_N (z mod 256)) = Some (z2b z).
Proof.
  unfold z2b. destruct (Byte.of_N _) eqn:E; [done|].
  apply Byte.of_N_None_iff in E. pose proof (Z.mod_pos_bound z 256). lia.
Qed.

Lemma b2z_z2b z : b2z (z2b z) = z mod 256.
Proof.
  unfold b2z. rewrite (Byte.to_of_N _ (z2b_of_N z)).
  pose proof (Z.mod_pos_bound z 256). lia.
Qed.

Lemma b2z_inj b1 b2 : b2z b1 = b2z b2 -> b1 = b2.
Proof.
  unfold b2z. intros H%N2Z.inj.
  pose proof (Byte.of_to_N b1). pose proof (Byte.of_to_N b2). congruence.
Qed.

Lemma z2b_b2z b : z2b (b2z b) = b.
Proof.
  apply b2z_inj. rewrite b2z_z2b. apply Z.mod_small, b2z_range.
Qed.

Lemma z2b_mod z : z2b (z mod 256) = z2b z.
Proof. apply b2z_inj. rewrite !b2z_z2b. apply Zmod_mod. Qed.

(** * Integers of a given width *)

(** Conversion to a [w]-bit unsigned integer. *)
Definition wrap (w z : Z) : Z := z mod 2 ^ w.

(** Conversion to a [w]-bit two's complement integer. *)
Definition swrap (w z : Z) : Z := (z + 2 ^ (w - 1)) mod 2 ^ w - 2 ^ (w - 1).

Definition in_u (w z : Z) : Prop := 0 <= z < 2 ^ w.
Definition in_s (w z : Z) : Prop := - 2 ^ (w - 1) <= z < 2 ^ (w - 1).

Lemma wrap_range w z : 0 <= w -> in_u w (wrap w z).
Proof. intros. apply Z.mod_pos_bound. lia. Qed.

Lemma wrap_small w z : in_u w z -> wrap w z = z.
Proof. apply Z.mod_small. Qed.

Lemma pow2_double w : 0 < w -> 2 ^ w = 2 * 2 ^ (w - 1).
Proof. intros. rewrite <- Z.pow_succ_r by lia. f_equal. lia. Qed.

Lemma swrap_range w z : 0 < w -> in_s w (swrap w z).
Proof.
  intros Hw. unfold in_s, swrap. pose proof (pow2_double w Hw).
  assert (0 < 2 ^ (w - 1)) by lia.
  pose proof (Z.mod_pos_bound (z + 2 ^ (w - 1)) (2 ^ w)). lia.
Qed.

Lemma swrap_small w z : 0 < w -> in_s w z -> swrap w z = z.
Proof.
  intros Hw [H1 H2]. unfold swrap. pose proof (pow2_double w Hw).
  rewrite Z.mod_small; lia.
Qed.

(** * Little-endian integers in memory *)

Fixpoint le_bytes (n : nat) (z : Z) : bytes :=
  match n with
  | O => []
  | S n => z2b z :: le_bytes n (z / 256)
  end.

Fixpoint le_val (l : bytes) : Z :=
  match l with
  | [] => 0
  | b :: l => b2z b + 256 * le_val l
  end.

Lemma length_le_bytes n z : length (le_bytes n z) = n.
Proof. revert z. induction n; intros; simpl; [done|by rewrite IHn]. Qed.

Lemma pow256_succ n : 256 ^ Z.of_nat (S n) = 256 * 256 ^ Z.of_nat n.
Proof. rewrite Nat2Z.inj_succ, Z.pow_succ_r by lia. done. Qed.

Lemma le_val_range l : 0 <= le_val l < 256 ^ Z.of_nat (length l).
Proof.
  induction l as [|b l IH]; [simpl; lia|].
  simpl length. rewrite pow256_succ. simpl. pose proof (b2z_range b). lia.
Qed.

Lemma le_val_le_bytes n z : le_val (le_bytes n z) = z mod 256 ^ Z.of_nat n.
Proof.
  revert z. induction n as [|n IH]; intros z.
  - simpl. by rewrite Z.mod_1_r.
  - simpl le_bytes. simpl le_val. rewrite IH, b2z_z2b, pow256_succ.
    rewrite Z.rem_mul_r by lia. done.
Qed.

Lemma le_val_le_bytes_small n z :
  0 <= z < 256 ^ Z.of_nat n -> le_val (le_bytes n z) = z.
Proof. intros. rewrite le_val_le_bytes. by apply Z.mod_small. Qed.

Lemma le_bytes_le_val l : le_bytes (length l) (le_val l) = l.
Proof.
  induction l as [|b l IH]; [done|].
  simpl. pose proof (b2z_range b). f_equal.
  - apply b2z_inj. rewrite b2z_z2b, Z.mul_comm, Z.mod_add by lia.
    by apply Z.mod_small.
  - rewrite Z.mul_comm, Z.div_add, Z.div_small by lia. done.
Qed.

Lemma le_bytes_mod n z : le_bytes n (z mod 256 ^ Z.of_nat n) = le_bytes n z.
Proof. by rewrite <- le_val_le_bytes, <- (length_le_bytes n z) at 1; rewrite le_bytes_le_val. Qed.

(** * Outcomes of C code

    A C function either returns or runs into undefined behaviour; the model keeps
    the two apart, so that memory safety is a theorem and not an assumption. *)

Inductive ub :=
| UbBounds      (* access outside an object *)
| UbNull        (* null pointer dereference *)
| UbOverflow    (* signed integer overflow *)
| UbDivZero     (* division by zero *)
| UbLifetime    (* use of an object that is no longer alive *)
| UbUninit      (* use of an indeterminate value *)
| UbDeadlock.   (* no result: waits for a mutex it holds itself *)

Inductive res (A : Type) :=
| Ret (a : A)
| Undef (u : ub).
Arguments Ret {A} a.
Arguments Undef {A} u.

#[export] Instance ub_eq_dec : EqDecision ub.
Proof. solve_decision. Defined.

#[export] Instance res_ret : MRet res := fun A a => Ret a.
#[export] Instance res_bind : MBind res := fun A B f m =>
  match m with Ret a => f a | Undef u => Undef u end.
#[export] Instance res_fmap : FMap res := fun A B f m =>
  match m with Ret a => Ret (f a) | Undef u => Undef u end.

(** Runs the next operation of a sequence whose outcome is known. *)
Ltac run := cbn [mbind res_bind mret res_ret].

(** Equations between returned values. *)
Ltac ret_eq := unfold mret, res_ret in *; simplify_eq.

Definition defined {A} (m : res A) : Prop := exists a, m = Ret a.

Lemma res_bind_ret {A B} (a : A) (f : A -> res B) : (Ret a ≫= f) = f a.
Proof. done. Qed.

Lemma res_bind_Ret_inv {A B} (m : res A) (f : A -> res B) b :
  (m ≫= f) = Ret b -> exists a, m = Ret a /\ f a = Ret b.
Proof. destruct m; simpl; [eauto|done]. Qed.

(** * Memory objects

    An object is the list of its bytes.  Reads and writes are bounds checked. *)

Definition zlen {A} (l : list A) : Z := Z.of_nat (length l).

Create Rewrite HintDb zlen.
#[export] Hint Rewrite @length_app @length_take @length_drop @length_map @length_replicate
  @length_insert : zlen.

(** Arithmetic on lengths. *)
Ltac zlia := unfold zlen in *; rewrite ?length_app in *; cbn [length] in *; simpl; autorewrite with zlen; simpl; lia.

Lemma zlen_nonneg {A} (l : list A) : 0 <= zlen l.
Proof. zlia. Qed.

Lemma zlen_pos {A} (l : list A) : l <> [] -> 0 < zlen l.
Proof. destruct l; [done|]. unfold zlen. simpl. lia. Qed.

Lemma zlen_ne {A} (l : list A) : 0 < zlen l -> l <> [].
Proof. by intros H ->. Qed.

Lemma zlen_app {A} (l k : list A) : zlen (l ++ k) = zlen l + zlen k.
Proof. zlia. Qed.

Lemma zlen_take {A} n (l : list A) : 0 <= n <= zlen l -> zlen (take (Z.to_nat n) l) = n.
Proof. intros. zlia. Qed.

Lemma zlen_drop {A} n (l : list A) : 0 <= n <= zlen l -> zlen (drop (Z.to_nat n) l) = zlen l - n.
Proof. intros. zlia. Qed.

Lemma zlen_replicate {A} n (x : A) : 0 <= n -> zlen (replicate (Z.to_nat n) x) = n.
Proof. unfold zlen. rewrite length_replicate. lia. Qed.

Lemma take_zlen {A} (l : list A) : take (Z.to_nat (zlen l)) l = l.
Proof. unfold zlen. by rewrite Nat2Z.id, firstn_all. Qed.

(** [n] bytes of [m] from offset [off]. *)
Definition mem_read (m : bytes) (off n : Z) : res bytes :=
  if bool_decide (0 <= off /\ 0 <= n /\ off + n <= zlen m)
  then Ret (take (Z.to_nat n) (drop (Z.to_nat off) m))
  else Undef UbBounds.

(** [memcpy(&m[off], d, length d)]. *)
Definition mem_write (m : bytes) (off : Z) (d : bytes) : res bytes :=
  if bool_decide (0 <= off /\ off + zlen d <= zlen m)
  then Ret (take (Z.to_nat off) m ++ d ++ drop (Z.to_nat off + length d) m)
  else Undef UbBounds.

Lemma mem_read_ok m off n :
  0 <= off -> 0 <= n -> off + n <= zlen m ->
  mem_read m off n = Ret (take (Z.to_nat n) (drop (Z.to_nat off) m)).
Proof. intros. unfold mem_read. by rewrite bool_decide_eq_true_2. Qed.

Lemma mem_write_ok m off d :
  0 <= off -> off + zlen d <= zlen m ->
  mem_write m off d = Ret (take (Z.to_nat off) m ++ d ++ drop (Z.to_nat off + length d) m).
Proof. intros. unfold mem_write. by rewrite bool_decide_eq_true_2. Qed.

Lemma mem_write_length m off d m' : mem_write m off d = Ret m' -> length m' = length m.
Proof.
  unfold mem_write, zlen. case_bool_decide as H; [|done]. intros [= <-].
  rewrite !length_app, length_take, length_drop. lia.
Qed.

Lemma mem_write_read m off d m' :
  mem_write m off d = Ret m' -> mem_read m' off (zlen d) = Ret d.
Proof.
  intros Hw. pose proof (mem_write_length _ _ _ _ Hw) as Hl. revert Hw.
  unfold mem_write. case_bool_decide as H; [|done]. intros [= <-].
  rewrite mem_read_ok; [..|unfold zlen in *; lia]; [|lia|unfold zlen; lia].
  unfold zlen in *. rewrite Nat2Z.id.
  rewrite drop_app_length' by (rewrite length_take; lia).
  by rewrite take_app_length.
Qed.

Lemma mem_write_at (pre rest d : bytes) :
  zlen d <= zlen rest ->
  mem_write (pre ++ rest) (zlen pre) d = Ret ((pre ++ d) ++ drop (length d) rest).
Proof.
  intros Hd. rewrite mem_write_ok; [|apply zlen_nonneg|rewrite zlen_app; lia].
  unfold zlen. rewrite Nat2Z.id, take_app_length, <- app_assoc. do 2 f_equal.
  rewrite drop_app, drop_ge by lia. simpl. do 2 f_equal. f_equal. lia.
Qed.

Lemma mem_write_idem m off d m' : mem_write m off d = Ret m' -> mem_write m' off d = Ret m'.
Proof.
  intros Hw. pose proof (mem_write_length _ _ _ _ Hw) as Hl. revert Hw.
  unfold mem_write. case_bool_decide as H; [|done]. intros [= Hm].
  rewrite bool_decide_eq_true_2 by (unfold zlen in *; lia). f_equal. rewrite <- Hm.
  rewrite take_app_length' by (rewrite length_take; unfold zlen in *; lia).
  f_equal. f_equal.
  rewrite drop_app, length_take, drop_ge by (rewrite length_take; unfold zlen in *; lia).
  simpl. replace (_ - _)%nat with (length d) by (unfold zlen in *; lia).
  by rewrite drop_app_length.
Qed.

Lemma mem_read_oob m off n : zlen m < off + n -> mem_read m off n = Undef UbBounds.
Proof. intros. unfold mem_read. by rewrite bool_decide_eq_false_2 by lia. Qed.

Lemma mem_write_oob m off d : zlen m < off + zlen d -> mem_write m off d = Undef UbBounds.
Proof. intros. unfold mem_write. by rewrite bool_decide_eq_false_2 by lia. Qed.
