(* ===== verification/CLib.v ===== *)
(** * The C library functions the program calls

    C strings, number parsing ([strtoul], [strtol], [sscanf] with [%d] and [%x]) as the
    C standard and glibc define them, and the platform the program is compiled for: the
    width of [long] (32 bits on the armhf boards the package is built for, 64 on a
    development host), the allocator and [strtof]. *)

From Stdlib Require Import Strings.Byte.
From S2P Require Import Prelude.

(** ** C strings *)

(** The C string at the start of an object: the bytes before the first NUL. *)
Fixpoint upto_nul (m : bytes) : bytes :=
  match m with
  | [] => []
  | b :: m => if decide (b = NUL) then [] else b :: upto_nul m
  end.

(** [strlen(m)] of an object: reading past its end is undefined. *)
Definition c_str (m : bytes) : res bytes :=
  if decide (NUL ∈ m) then Ret (upto_nul m) else Undef UbBounds.

(** A C string seen as a value: its bytes, none of them NUL. *)
Definition wf_cstr (s : bytes) : Prop := NUL ∉ s.

(** The object that holds the C string [s]. *)
Definition with_nul (s : bytes) : bytes := s ++ [NUL].

(** [strncmp(a, b, n) == 0] on C strings. *)
Fixpoint strncmp_eq (a b : bytes) (n : nat) : bool :=
  match n with
  | O => true
  | S n =>
      match a, b with
      | [], [] => true
      | x :: a, y :: b => if decide (x = y) then strncmp_eq a b n else false
      | _, _ => false
      end
  end.

Definition starts_with (s : bytes) (prefix : string) : bool :=
  strncmp_eq s (cs prefix) (length (cs prefix)).

Lemma upto_nul_wf m : wf_cstr (upto_nul m).
Proof.
  unfold wf_cstr. induction m as [|b m IH]; simpl; [apply not_elem_of_nil|].
  case_decide; [apply not_elem_of_nil|]. by apply not_elem_of_cons.
Qed.

Lemma upto_nul_app s r : wf_cstr s -> upto_nul (s ++ NUL :: r) = s.
Proof.
  unfold wf_cstr. induction s as [|b s IH]; simpl; intros Hs; [done|].
  rewrite decide_False by set_solver. f_equal. apply IH. set_solver.
Qed.

Lemma upto_nul_app_nul m r : upto_nul (m ++ NUL :: r) = upto_nul m.
Proof. induction m as [|b m IH]; simpl; [done|]. case_decide; [done|]. by rewrite IH. Qed.

Lemma upto_nul_id s : wf_cstr s -> upto_nul s = s.
Proof.
  unfold wf_cstr. induction s as [|b s IH]; simpl; intros Hs; [done|].
  rewrite decide_False by set_solver. f_equal. apply IH. set_solver.
Qed.

Lemma upto_nul_prefix m : upto_nul m `prefix_of` m.
Proof.
  induction m as [|b m IH]; simpl; [done|]. case_decide.
  - apply prefix_nil.
  - by apply prefix_cons.
Qed.

Lemma length_upto_nul m : (length (upto_nul m) <= length m)%nat.
Proof. apply prefix_length, upto_nul_prefix. Qed.

Lemma length_upto_nul_lt m : NUL ∈ m -> (length (upto_nul m) < length m)%nat.
Proof.
  induction m as [|b m IH]; simpl; [set_solver|].
  intros [->|Hin]%elem_of_cons; [rewrite decide_True by done; simpl; lia|].
  case_decide; simpl; [lia|]. specialize (IH Hin). lia.
Qed.

Lemma c_str_with_nul s r : wf_cstr s -> c_str (s ++ NUL :: r) = Ret s.
Proof.
  intros. unfold c_str. rewrite decide_True by set_solver. by rewrite upto_nul_app.
Qed.

(** An object of [n] bytes that ends in NUL: it holds a string whatever the others are. *)
Definition terminated (m : bytes) (n : Z) : Prop :=
  zlen m = n /\ m !! Z.to_nat (n - 1) = Some NUL.

Lemma terminated_c_str m n : terminated m n -> c_str m = Ret (upto_nul m) /\ zlen (upto_nul m) < n.
Proof.
  intros [Hl Hn]. apply list_elem_of_lookup_2 in Hn as Hin. split.
  - unfold c_str. by rewrite decide_True.
  - pose proof (length_upto_nul_lt m Hin). unfold zlen in *. lia.
Qed.

(** A write below the last byte leaves the terminator in place. *)
Lemma terminated_mem_write m n off d m' :
  terminated m n -> mem_write m off d = Ret m' ->
  off + zlen d < n \/ d = [NUL] -> terminated m' n.
Proof.
  intros [Hl Hn] Hw Hd. pose proof (mem_write_length _ _ _ _ Hw) as Hl'.
  split; [unfold zlen in *; lia|].
  revert Hw. unfold mem_write. case_bool_decide as Hb; [|done]. intros [= <-].
  destruct (decide (off + zlen d < n)) as [Hlt|Hge].
  - rewrite lookup_app_r by (rewrite length_take; unfold zlen in *; lia).
    rewrite lookup_app_r by (rewrite length_take; unfold zlen in *; lia).
    rewrite lookup_drop, length_take. rewrite <- Hn. f_equal. unfold zlen in *. lia.
  - destruct Hd as [Hd|Hd]; [done|subst d].
    rewrite lookup_app_r by (rewrite length_take; unfold zlen in *; simpl in *; lia).
    rewrite length_take. replace (_ - _)%nat with 0%nat; [done|].
    unfold zlen in *. simpl in *. lia.
Qed.

(** [strncmp(a, b, strlen(a)) == 0], the way most of the program compares strings, only
    says that [a] is a prefix of [b]. *)
Lemma strncmp_eq_prefix a b : strncmp_eq a b (length a) = true <-> a `prefix_of` b.
Proof.
  revert b. induction a as [|x a IH]; intros b; simpl.
  - split; [intros _; apply prefix_nil|done].
  - destruct b as [|y b].
    + split; [done|]. intros H%prefix_nil_inv. done.
    + case_decide as Hxy.
      * subst. rewrite IH. split; [apply prefix_cons|apply prefix_cons_inv_2].
      * split; [done|]. intros H%prefix_cons_inv_1. done.
Qed.

Lemma strncmp_eq_refl a n : strncmp_eq a a n = true.
Proof.
  revert a. induction n as [|n IH]; intros [|x a]; simpl; [done..|].
  by rewrite decide_True.
Qed.

(** Comparing one byte more than [strlen(a)] is string equality. *)
Lemma strncmp_eq_succ a b : strncmp_eq a b (S (length a)) = true <-> a = b.
Proof.
  split; [|intros ->; apply strncmp_eq_refl].
  revert b. induction a as [|x a IH]; intros [|y b]; simpl; [done..|].
  case_decide as Hxy; [|done]. intros Hs. subst. f_equal. by apply IH.
Qed.

Lemma starts_with_app p r : starts_with (cs p ++ r) p = true.
Proof.
  unfold starts_with. induction (cs p) as [|b l IH]; [by destruct r|]. simpl.
  by rewrite decide_True.
Qed.

(** ** Characters *)

(** [isspace] in the C locale. *)
Definition isspace (b : byte) : bool :=
  let c := b2z b in ((9 <=? c) && (c <=? 13)) || (c =? 32).

(** [tolower] in the C locale. *)
Definition tolower (b : byte) : byte :=
  let c := b2z b in if (65 <=? c) && (c <=? 90) then z2b (c + 32) else b.

Definition char (z : Z) : byte := z2b z.

(** Value of a digit character in [base]. *)
Definition digit_val (base : Z) (b : byte) : option Z :=
  let c := b2z b in
  let d := if (48 <=? c) && (c <=? 57) then c - 48
           else if (97 <=? c) && (c <=? 102) then c - 87
           else if (65 <=? c) && (c <=? 70) then c - 55
           else base in
  if d <? base then Some d else None.

(** ** Number parsing *)

Fixpoint skip_space (s : bytes) : nat * bytes :=
  match s with
  | b :: r => if isspace b then let '(n, r) := skip_space r in (S n, r) else (O, s)
  | [] => (O, s)
  end.

(** Longest run of digits: its value (continuing [acc]) and length. *)
Fixpoint scan_digits (base acc : Z) (s : bytes) : Z * nat :=
  match s with
  | b :: r =>
      match digit_val base b with
      | Some d => let '(v, n) := scan_digits base (acc * base + d) r in (v, S n)
      | None => (acc, O)
      end
  | [] => (acc, O)
  end.

Definition scan_sign (s : bytes) : bool * nat * bytes :=
  match s with
  | b :: r => if b2z b =? 45 then (true, 1%nat, r)
              else if b2z b =? 43 then (false, 1%nat, r) else (false, O, s)
  | [] => (false, O, s)
  end.

(** The optional [0x] prefix, taken only when a hexadecimal digit follows. *)
Definition scan_prefix (base : Z) (s : bytes) : nat * bytes :=
  match s with
  | z :: x :: d :: _ =>
      if (base =? 16) && (b2z z =? 48) && ((b2z x =? 120) || (b2z x =? 88))
         && bool_decide (is_Some (digit_val 16 d))
      then (2%nat, drop 2 s) else (O, s)
  | _ => (O, s)
  end.

(** The subject sequence: sign, magnitude and the number of bytes up to its end. *)
Definition scan_number (base : Z) (s : bytes) : option (bool * Z * nat) :=
  let '(k1, s1) := skip_space s in
  let '(neg, k2, s2) := scan_sign s1 in
  let '(k3, s3) := scan_prefix base s2 in
  let '(v, k4) := scan_digits base 0 s3 in
  match k4 with
  | O => None
  | _ => Some (neg, v, (k1 + k2 + k3 + k4)%nat)
  end.

(** [strtoul] for a [w]-bit result: the value and the offset of [endptr]. *)
Definition strtoul (w base : Z) (s : bytes) : Z * nat :=
  match scan_number base s with
  | None => (0, O)
  | Some (neg, m, k) =>
      if 2 ^ w - 1 <? m then (2 ^ w - 1, k)
      else ((if neg then wrap w (- m) else m), k)
  end.

(** [strtol] for a [w]-bit result. *)
Definition strtol (w base : Z) (s : bytes) : Z * nat :=
  match scan_number base s with
  | None => (0, O)
  | Some (neg, m, k) =>
      if neg then ((if 2 ^ (w - 1) <? m then - 2 ^ (w - 1) else - m), k)
      else ((if 2 ^ (w - 1) - 1 <? m then 2 ^ (w - 1) - 1 else m), k)
  end.

(** ** The platform *)

Class Platform := {
  LONG_BITS : Z;                    (* width of long and unsigned long *)
  LONG_BITS_ok : LONG_BITS = 32 \/ LONG_BITS = 64;
  malloc_ok : Z -> bool;            (* whether an allocation of that size succeeds *)
  strtof : bytes -> Z * nat;        (* binary32 bits of the result, offset of endptr *)
  strtof_range : forall s, in_u 32 (fst (strtof s));
}.

(** [sscanf(s, "%d", &v)]: the return value and the [int] stored, if any; glibc converts
    with [strtol] and truncates to [int]. *)
Definition sscanf_d `{Platform} (s : bytes) : Z * option Z :=
  match scan_number 10 s with
  | Some _ => (1, Some (swrap 32 (fst (strtol LONG_BITS 10 s))))
  | None => (match snd (skip_space s) with [] => -1 | _ => 0 end, None)
  end.

(** [sscanf(s, "%x", &v)] into an [unsigned int]. *)
Definition sscanf_x `{Platform} (s : bytes) : Z * option Z :=
  match scan_number 16 s with
  | Some _ => (1, Some (wrap 32 (fst (strtoul LONG_BITS 16 s))))
  | None => (match snd (skip_space s) with [] => -1 | _ => 0 end, None)
  end.

(** Concrete platforms, for evaluation: every allocation succeeds, and [strtof] knows
    the numbers [0] and [1] and rejects everything else. *)
Definition strtof_tiny (s : bytes) : Z * nat :=
  if decide (s = cs "1") then (0x3f800000, 1%nat)
  else if decide (s = cs "0") then (0, 1%nat) else (0, O).

Lemma strtof_tiny_range s : in_u 32 (fst (strtof_tiny s)).
Proof. unfold strtof_tiny, in_u. repeat case_decide; simpl; lia. Qed.

Definition armhf : Platform := {|
  LONG_BITS := 32; LONG_BITS_ok := or_introl eq_refl; malloc_ok _ := true;
  strtof := strtof_tiny; strtof_range := strtof_tiny_range |}.
Definition lp64 : Platform := {|
  LONG_BITS := 64; LONG_BITS_ok := or_intror eq_refl; malloc_ok _ := true;
  strtof := strtof_tiny; strtof_range := strtof_tiny_range |}.

Lemma LONG_BITS_range `{Platform} : 32 <= LONG_BITS <= 64.
Proof. destruct LONG_BITS_ok; lia. Qed.

(** ** Printing, the reference for the parsers *)

(** Digits of [n] in [base], most significant first, in front of [acc]. *)
Fixpoint to_digits (fuel : nat) (base n : Z) (acc : list Z) : list Z :=
  match fuel with
  | O => n :: acc
  | S fuel => if n <? base then n :: acc else to_digits fuel base (n / base) (n mod base :: acc)
  end.

Definition digit_char (d : Z) : byte := if d <? 10 then z2b (48 + d) else z2b (87 + d).

Definition digits_val (base acc : Z) (ds : list Z) : Z := fold_left (fun a d => a * base + d) ds acc.

Definition print_nat (base n : Z) : bytes :=
  digit_char <$> to_digits (Z.to_nat (Z.log2 n)) base n [].

(** Decimal notation of an integer, and [0x] hexadecimal notation of a natural number. *)
Definition print_dec (n : Z) : bytes :=
  if n <? 0 then cs "-" ++ print_nat 10 (- n) else print_nat 10 n.
Definition print_hex (n : Z) : bytes := cs "0x" ++ print_nat 16 n.

Definition base_ok (base : Z) : Prop := base = 10 \/ base = 16.

Lemma digit_char_b2z d : 0 <= d < 16 ->
  b2z (digit_char d) = if d <? 10 then 48 + d else 87 + d.
Proof.
  intros. unfold digit_char. destruct (Z.ltb_spec d 10); rewrite b2z_z2b, Z.mod_small; lia.
Qed.

Lemma digit_val_char base d : base_ok base -> 0 <= d < base ->
  digit_val base (digit_char d) = Some d.
Proof.
  intros Hb Hd. unfold digit_val. rewrite digit_char_b2z by (destruct Hb; lia).
  destruct (Z.ltb_spec d 10); simpl.
  - rewrite (proj2 (Z.leb_le 48 _)) by lia. rewrite (proj2 (Z.leb_le _ 57)) by lia. simpl.
    replace (48 + d - 48) with d by lia. by rewrite (proj2 (Z.ltb_lt d base)) by lia.
  - rewrite (proj2 (Z.leb_le 48 _)) by lia. rewrite (proj2 (Z.leb_gt _ 57)) by lia. simpl.
    assert (base = 16) as -> by (destruct Hb; lia).
    rewrite (proj2 (Z.leb_le 97 _)) by lia. rewrite (proj2 (Z.leb_le _ 102)) by lia. simpl.
    replace (87 + d - 87) with d by lia. by rewrite (proj2 (Z.ltb_lt d 16)) by lia.
Qed.

Lemma to_digits_range fuel base n acc :
  2 <= base -> 0 <= n < 2 ^ Z.of_nat (S fuel) -> Forall (fun d => 0 <= d < base) acc ->
  Forall (fun d => 0 <= d < base) (to_digits fuel base n acc).
Proof.
  revert n acc. induction fuel as [|fuel IH]; intros n acc Hb Hn Hacc; simpl.
  - constructor; [|done]. change (2 ^ Z.of_nat 1) with 2 in Hn. lia.
  - destruct (Z.ltb_spec n base); [constructor; [lia|done]|].
    apply IH; [done| |].
    + rewrite Nat2Z.inj_succ, Z.pow_succ_r in Hn by lia. split.
      * apply Z.div_pos; lia.
      * apply Z.div_lt_upper_bound; [lia|]. nia.
    + constructor; [|done]. apply Z.mod_pos_bound. lia.
Qed.

Lemma to_digits_val fuel base n acc :
  2 <= base -> 0 <= n < 2 ^ Z.of_nat (S fuel) ->
  digits_val base 0 (to_digits fuel base n acc) = digits_val base n acc.
Proof.
  revert n acc. induction fuel as [|fuel IH]; intros n acc Hb Hn; simpl; [done|].
  destruct (Z.ltb_spec n base); [done|].
  rewrite IH; [|done|].
  - unfold digits_val. simpl. f_equal. pose proof (Z.div_mod n base). lia.
  - rewrite Nat2Z.inj_succ, Z.pow_succ_r in Hn by lia. split.
    + apply Z.div_pos; lia.
    + apply Z.div_lt_upper_bound; [lia|]. nia.
Qed.

Lemma to_digits_nonempty fuel base n acc : to_digits fuel base n acc <> [].
Proof.
  revert n acc. induction fuel; intros; simpl; [done|]. by case_match.
Qed.

(** Digits are read up to the first byte that is not one. *)
Definition no_digit (base : Z) (rest : bytes) : Prop :=
  match rest with [] => True | b :: _ => digit_val base b = None end.

Lemma scan_digits_app base acc ds rest :
  base_ok base -> Forall (fun d => 0 <= d < base) ds -> no_digit base rest ->
  scan_digits base acc ((digit_char <$> ds) ++ rest) = (digits_val base acc ds, length ds).
Proof.
  intros Hb Hds Hrest. revert acc. induction Hds as [|d ds Hd Hds IH]; intros acc; simpl.
  - destruct rest as [|b rest]; simpl in *; [done|]. by rewrite Hrest.
  - rewrite digit_val_char by done. by rewrite IH.
Qed.

Lemma log2_fuel n : 0 <= n -> 0 <= n < 2 ^ Z.of_nat (S (Z.to_nat (Z.log2 n))).
Proof.
  intros. split; [done|]. rewrite Nat2Z.inj_succ, Z2Nat.id by apply Z.log2_nonneg.
  destruct (decide (n = 0)) as [->|]; [done|].
  apply Z.log2_spec. lia.
Qed.

Lemma scan_digits_print base n rest :
  base_ok base -> 0 <= n -> no_digit base rest ->
  scan_digits base 0 (print_nat base n ++ rest) = (n, length (print_nat base n)).
Proof.
  intros Hb Hn Hr. unfold print_nat. pose proof (log2_fuel n Hn).
  rewrite scan_digits_app; [|done| |done].
  - rewrite length_fmap. f_equal. rewrite to_digits_val; [done|destruct Hb; lia|done].
  - apply to_digits_range; [destruct Hb; lia|done|constructor].
Qed.

(** The first byte of a printed number is a digit: no space, no sign. *)
Lemma print_nat_head base n : base_ok base -> 0 <= n ->
  exists d r, print_nat base n = digit_char d :: (digit_char <$> r) /\ 0 <= d < base
              /\ Forall (fun d => 0 <= d < base) r.
Proof.
  intros Hb Hn. unfold print_nat.
  pose proof (to_digits_range (Z.to_nat (Z.log2 n)) base n []) as H.
  pose proof (to_digits_nonempty (Z.to_nat (Z.log2 n)) base n []).
  destruct (to_digits _ _ _ _) as [|d r]; [done|]. exists d, r.
  assert (2 <= base) by (destruct Hb; lia).
  specialize (H ltac:(done) (log2_fuel n Hn) ltac:(constructor)).
  inversion_clear H. done.
Qed.

Lemma digit_char_not_space d : 0 <= d < 16 -> isspace (digit_char d) = false.
Proof.
  intros Hd. unfold isspace. rewrite digit_char_b2z by done.
  destruct (Z.ltb_spec d 10); apply orb_false_iff; split;
    try (apply andb_false_iff; right; apply Z.leb_gt; lia); apply Z.eqb_neq; lia.
Qed.

Lemma digit_char_not_sign d r : 0 <= d < 16 ->
  scan_sign (digit_char d :: r) = (false, O, digit_char d :: r).
Proof.
  intros Hd. unfold scan_sign. rewrite digit_char_b2z by done.
  destruct (Z.ltb_spec d 10); rewrite !(proj2 (Z.eqb_neq _ _)) by lia; done.
Qed.

Lemma scan_prefix_10 s : scan_prefix 10 s = (O, s).
Proof. unfold scan_prefix. destruct s as [|? [|? [|? ?]]]; done. Qed.

Lemma length_print_nat base n : base_ok base -> 0 <= n -> (0 < length (print_nat base n))%nat.
Proof. intros. destruct (print_nat_head base n) as (d & r & -> & _); simpl; [done..|lia]. Qed.

Lemma scan_number_dec n rest : 0 <= n -> no_digit 10 rest ->
  scan_number 10 (print_nat 10 n ++ rest) = Some (false, n, length (print_nat 10 n)).
Proof.
  intros Hn Hr. assert (base_ok 10) as Hb by (by left).
  pose proof (scan_digits_print 10 n rest Hb Hn Hr) as Hs.
  pose proof (length_print_nat 10 n Hb Hn).
  destruct (print_nat_head 10 n Hb Hn) as (d & r & He & Hd & _).
  rewrite He in *. unfold scan_number. simpl app in *. simpl skip_space.
  rewrite digit_char_not_space, digit_char_not_sign, scan_prefix_10, Hs by lia. done.
Qed.

Lemma scan_number_neg_dec n rest : 0 <= n -> no_digit 10 rest ->
  scan_number 10 (cs "-" ++ print_nat 10 n ++ rest)
  = Some (true, n, S (length (print_nat 10 n))).
Proof.
  intros Hn Hr. assert (base_ok 10) as Hb by (by left).
  pose proof (scan_digits_print 10 n rest Hb Hn Hr) as Hs.
  pose proof (length_print_nat 10 n Hb Hn).
  unfold scan_number. change (skip_space (cs "-" ++ print_nat 10 n ++ rest))
    with (O, cs "-" ++ print_nat 10 n ++ rest). cbv beta iota.
  change (scan_sign (cs "-" ++ print_nat 10 n ++ rest))
    with (true, 1%nat, print_nat 10 n ++ rest). cbv beta iota.
  rewrite scan_prefix_10, Hs. by destruct (length (print_nat 10 n)); [lia|].
Qed.

Lemma scan_number_hex n rest : 0 <= n -> no_digit 16 rest ->
  scan_number 16 (print_hex n ++ rest) = Some (false, n, length (print_hex n)).
Proof.
  intros Hn Hr. assert (base_ok 16) as Hb by (by right).
  pose proof (scan_digits_print 16 n rest Hb Hn Hr) as Hs.
  pose proof (length_print_nat 16 n Hb Hn).
  destruct (print_nat_head 16 n Hb Hn) as (d & r & He & Hd & _).
  unfold print_hex. rewrite He in *. unfold scan_number.
  change (skip_space ?s) with (O, s). cbv beta iota.
  change (scan_sign ?s) with (false, O, s). cbv beta iota.
  unfold scan_prefix. simpl. rewrite digit_val_char by done. simpl.
  rewrite digit_val_char by done. simpl in Hs. rewrite digit_val_char in Hs by done. by rewrite Hs.
Qed.

(** The parsers on printed numbers: the value, clamped to the range of the result. *)
Lemma strtoul_dec w n : 0 <= n ->
  strtoul w 10 (print_nat 10 n) = (Z.min n (2 ^ w - 1), length (print_nat 10 n)).
Proof.
  intros Hn. unfold strtoul. rewrite <- (app_nil_r (print_nat 10 n)) at 1.
  rewrite scan_number_dec by done. destruct (Z.ltb_spec (2 ^ w - 1) n); f_equal; lia.
Qed.

Lemma strtoul_hex w n : 0 <= n ->
  strtoul w 16 (print_hex n) = (Z.min n (2 ^ w - 1), length (print_hex n)).
Proof.
  intros Hn. unfold strtoul. rewrite <- (app_nil_r (print_hex n)) at 1.
  rewrite scan_number_hex by done. destruct (Z.ltb_spec (2 ^ w - 1) n); f_equal; lia.
Qed.

Definition clamp_s (w n : Z) : Z := Z.max (- 2 ^ (w - 1)) (Z.min n (2 ^ (w - 1) - 1)).

Lemma strtol_dec w n : 0 < w ->
  strtol w 10 (print_dec n) = (clamp_s w n, length (print_dec n)).
Proof.
  intros Hw. unfold strtol, print_dec, clamp_s.
  assert (0 < 2 ^ (w - 1)) by (apply Z.pow_pos_nonneg; lia).
  destruct (Z.ltb_spec n 0).
  - rewrite <- (app_nil_r (print_nat 10 (- n))) at 1.
    rewrite scan_number_neg_dec by (done || lia).
    f_equal. destruct (Z.ltb_spec (2 ^ (w - 1)) (- n)); lia.
  - rewrite <- (app_nil_r (print_nat 10 n)) at 1.
    rewrite scan_number_dec by (done || lia).
    destruct (Z.ltb_spec (2 ^ (w - 1) - 1) n); f_equal; lia.
Qed.

Lemma clamp_s_small w n : in_s w n -> clamp_s w n = n.
Proof. unfold in_s, clamp_s. lia. Qed.

(** What the parsers return for any string. *)
Lemma digit_val_range base b d : base_ok base -> digit_val base b = Some d -> 0 <= d < base.
Proof.
  intros Hb. unfold digit_val. pose proof (b2z_range b).
  destruct (Z.leb_spec 48 (b2z b)), (Z.leb_spec (b2z b) 57); simpl;
    destruct (Z.leb_spec 97 (b2z b)), (Z.leb_spec (b2z b) 102); simpl;
    try destruct (Z.leb_spec 65 (b2z b)), (Z.leb_spec (b2z b) 70); simpl;
    (case_match eqn:E; [|done]); apply Z.ltb_lt in E; intros [= <-]; lia.
Qed.

Lemma scan_digits_nonneg base acc s :
  base_ok base -> 0 <= acc -> 0 <= fst (scan_digits base acc s).
Proof.
  intros Hb. revert acc. induction s as [|b s IH]; intros acc Hacc; simpl; [done|].
  destruct (digit_val base b) as [d|] eqn:Ed; simpl; [|done].
  apply digit_val_range in Ed; [|done]. specialize (IH (acc * base + d)).
  destruct (scan_digits base (acc * base + d) s). simpl in *. apply IH. destruct Hb; lia.
Qed.

Lemma scan_number_nonneg base s neg m k :
  base_ok base -> scan_number base s = Some (neg, m, k) -> 0 <= m /\ (0 < k)%nat.
Proof.
  intros Hb. unfold scan_number.
  destruct (skip_space s) as [k1 s1], (scan_sign s1) as [[? k2] s2], (scan_prefix base s2) as [k3 s3].
  pose proof (scan_digits_nonneg base 0 s3 Hb). destruct (scan_digits base 0 s3) as [v k4].
  simpl in *. destruct k4; [done|]. intros [= -> <- <-]. lia.
Qed.

Lemma strtoul_range w base s : 0 <= w -> base_ok base -> in_u w (fst (strtoul w base s)).
Proof.
  intros Hw Hb. unfold strtoul, in_u. assert (0 < 2 ^ w) by (apply Z.pow_pos_nonneg; lia).
  destruct (scan_number base s) as [[[neg m] k]|] eqn:E; simpl; [|lia].
  apply scan_number_nonneg in E as [? ?]; [|done].
  destruct (Z.ltb_spec (2 ^ w - 1) m); simpl; [lia|].
  destruct neg; [by apply wrap_range|lia].
Qed.

Lemma strtol_range w base s : 0 < w -> base_ok base -> in_s w (fst (strtol w base s)).
Proof.
  intros Hw Hb. unfold strtol, in_s.
  assert (0 < 2 ^ (w - 1)) by (apply Z.pow_pos_nonneg; lia).
  destruct (scan_number base s) as [[[neg m] k]|] eqn:E; simpl; [|lia].
  apply scan_number_nonneg in E as [? ?]; [|done].
  destruct neg; simpl.
  - destruct (Z.ltb_spec (2 ^ (w - 1)) m); lia.
  - destruct (Z.ltb_spec (2 ^ (w - 1) - 1) m); lia.
Qed.
