(* ===== verification/Str2buf.v ===== *)
(** * src/common/str2buf.c: text to object dictionary values

    Each [str2buf_<type>] returns [None] for a NULL pointer and [Some v] for a pointer to
    the value [v]; [str] is [None] for NULL.  Floating point values are their bits.
    [str2buf_dtype_int] and [str2buf_dtype_str] return the bytes of the buffer and what
    was stored through [out_len]. *)

From Stdlib Require Import Strings.Byte.
From S2P Require Import Prelude CLib.

Section Str2buf.
Context `{Platform}.

Definition nth_is (s : bytes) (i : nat) (c : byte) : bool := bool_decide (s !! i = Some c).

Definition get_str_base (str : bytes) : Z :=
  if (3 <=? zlen str) && nth_is str 0 "0"%byte && nth_is str 1 "x"%byte then 16 else 10.

Definition str2buf_bool (str : option bytes) : option bool :=
  match str with
  | None | Some [] => None
  | Some str =>
      if malloc_ok 1 then
        if strncmp_eq str (cs "true") (length str) || strncmp_eq str (cs "1") (length str)
        then Some true
        else if strncmp_eq str (cs "false") (length str) || strncmp_eq str (cs "0") (length str)
        then Some false
        else None
      else None
  end.

Definition str2buf_uint8 (str : option bytes) : option Z :=
  match str with
  | None | Some [] => None
  | Some str =>
      if nth_is str 0 "-"%byte then None else
      let '(tmp, endptr) := strtoul LONG_BITS (get_str_base str) str in
      if (0xFF <? tmp) || (endptr =? 0)%nat then None
      else if malloc_ok 1 then Some (wrap 8 tmp) else None
  end.

Definition str2buf_uint16 (str : option bytes) : option Z :=
  match str with
  | None | Some [] => None
  | Some str =>
      if nth_is str 0 "-"%byte then None else
      let '(tmp, endptr) := strtoul LONG_BITS (get_str_base str) str in
      if (0xFFFF <? tmp) || (endptr =? 0)%nat then None
      else if malloc_ok 2 then Some (wrap 16 tmp) else None
  end.

Definition str2buf_uint32 (str : option bytes) : option Z :=
  match str with
  | None | Some [] => None
  | Some str =>
      if nth_is str 0 "-"%byte then None else
      let '(tmp, endptr) := strtoul LONG_BITS (get_str_base str) str in
      if (endptr =? 0)%nat then None
      else if malloc_ok 4 then Some (wrap 32 tmp) else None
  end.

Definition str2buf_uint64 (str : option bytes) : option Z :=
  match str with
  | None | Some [] => None
  | Some str =>
      if nth_is str 0 "-"%byte then None else
      let '(tmp, endptr) := strtoul 64 (get_str_base str) str in
      if (endptr =? 0)%nat then None
      else if malloc_ok 8 then Some (wrap 64 tmp) else None
  end.

Definition str2buf_int8 (str : option bytes) : option Z :=
  match str with
  | None | Some [] => None
  | Some str =>
      let '(tmp, endptr) := strtol LONG_BITS (get_str_base str) str in
      if (tmp <? -0x80) || (0x7F <? tmp) || (endptr =? 0)%nat then None
      else if malloc_ok 1 then Some (swrap 8 tmp) else None
  end.

Definition str2buf_int16 (str : option bytes) : option Z :=
  match str with
  | None | Some [] => None
  | Some str =>
      let '(tmp, endptr) := strtol LONG_BITS (get_str_base str) str in
      if (tmp <? -0x8000) || (0x7FFF <? tmp) || (endptr =? 0)%nat then None
      else if malloc_ok 2 then Some (swrap 16 tmp) else None
  end.

Definition str2buf_int32 (str : option bytes) : option Z :=
  match str with
  | None | Some [] => None
  | Some str =>
      let '(tmp, endptr) := strtol LONG_BITS (get_str_base str) str in
      if (endptr =? 0)%nat then None
      else if malloc_ok 4 then Some (swrap 32 tmp) else None
  end.

Definition str2buf_int64 (str : option bytes) : option Z :=
  match str with
  | None | Some [] => None
  | Some str =>
      let '(tmp, endptr) := strtol 64 (get_str_base str) str in
      if (endptr =? 0)%nat then None
      else if malloc_ok 8 then Some (swrap 64 tmp) else None
  end.

Definition str2buf_float32 (str : option bytes) : option Z :=
  match str with
  | None | Some [] => None
  | Some str =>
      if malloc_ok 4 then
        let '(value, endptr) := strtof str in
        if (endptr =? 0)%nat then None else Some value
      else None
  end.

(** The conversion from [float] to [double], on the bits: exact, but for a signalling
    NaN, which becomes quiet. *)
Definition f32_to_f64 (b : Z) : Z :=
  let sign := Z.shiftr b 31 in
  let e := Z.land (Z.shiftr b 23) 0xFF in
  let m := Z.land b 0x7FFFFF in
  let '(e', m') :=
    if e =? 0xFF then (0x7FF, if m =? 0 then 0 else Z.lor (m * 2 ^ 29) (2 ^ 51))
    else if e =? 0 then
      if m =? 0 then (0, 0)
      else let k := Z.log2 m in (k + 874, (m - 2 ^ k) * 2 ^ (52 - k))
    else (e + 896, m * 2 ^ 29) in
  sign * 2 ^ 63 + e' * 2 ^ 52 + m'.

Definition str2buf_float64 (str : option bytes) : option Z :=
  match str with
  | None | Some [] => None
  | Some str =>
      if malloc_ok 8 then
        let '(value, endptr) := strtof str in   (* strtof, not strtod *)
        if (endptr =? 0)%nat then None else Some (f32_to_f64 value)
      else None
  end.

(** Pointers into the two strings [str2buf_bytes] handles: [endptr] points into the
    local [tmp], and is compared with the argument [str]. *)
Inductive bytes_obj := Obj_str | Obj_tmp.
#[export] Instance bytes_obj_eq_dec : EqDecision bytes_obj.
Proof. solve_decision. Defined.
Definition ptr : Type := bytes_obj * nat.

(** The conversion loop: [None] when it stops with [valid == false]. *)
Fixpoint str2buf_bytes_loop (str : bytes) (len i : nat) : option bytes :=
  match len with
  | O => Some []
  | S len =>
      let offset := (2 * i)%nat in
      let tmp := upto_nul [nth offset str NUL; nth (S offset) str NUL] in
      let '(v, k) := strtoul LONG_BITS 16 tmp in
      let endptr : ptr := (Obj_tmp, k) in
      if decide (endptr = (Obj_str, O)) then None
      else option_map (cons (z2b v)) (str2buf_bytes_loop str len (S i))
  end.

(** [out_len] is the [size_t] behind the argument, [None] for a NULL argument. *)
Definition str2buf_bytes (str : option bytes) (out_len : option Z) : option bytes * option Z :=
  match str, out_len with
  | None, _ | _, None => (None, out_len)
  | Some str, Some _ =>
      if (zlen str =? 0) || negb (zlen str mod 2 =? 0) then (None, out_len) else
      let len := zlen str / 2 in
      if malloc_ok len then
        match str2buf_bytes_loop str (Z.to_nat len) 0 with
        | Some value => (Some value, Some len)
        | None => (None, Some 0)
        end
      else (None, out_len)
  end.

(** The CANopen data types of the [#define]s. *)
Definition BOOLEAN := 0x1.
Definition INTERGER8 := 0x2.
Definition INTERGER16 := 0x3.
Definition INTERGER32 := 0x4.
Definition UNSIGNED8 := 0x5.
Definition UNSIGNED16 := 0x6.
Definition UNSIGNED32 := 0x7.
Definition REAL32 := 0x8.
Definition VISIBLE_STRING := 0x9.
Definition OCTET_STRING := 0xA.
Definition DOMAIN := 0xF.
Definition REAL64 := 0x11.
Definition INTERGER64 := 0x15.
Definition UNSIGNED64 := 0x1B.

(** The buffer of an [n]-byte value. *)
Definition obj (n : nat) (v : option Z) : option bytes := le_bytes n <$> v.
Definition obj_bool (v : option bool) : option bytes := obj 1 ((λ b : bool, if b then 1 else 0) <$> v).

(** [VISIBLE_STRING] / "string": [strlen], an unchecked [malloc], [memcpy]. *)
Definition copy_string (str : option bytes) : res (option bytes * Z) :=
  match str with
  | None => Undef UbNull
  | Some str => if malloc_ok (zlen str + 1) then Ret (Some (with_nul str), zlen str) else Undef UbNull
  end.

(** The buffer and the final value of [buf_len]; [*out_len = buf_len] when there is a
    buffer. *)
Definition dtype_result (out_len : Z) (r : res (option bytes * Z)) : res (option bytes * Z) :=
  '(buf, buf_len) ← r; mret (buf, match buf with Some _ => buf_len | None => out_len end).

Definition bytes_result (str : option bytes) : option bytes * Z :=
  match str2buf_bytes str (Some 0) with
  | (buf, Some l) => (buf, l)
  | (buf, None) => (buf, 0)
  end.

Definition str2buf_dtype_int (dtype : Z) (str : option bytes) (out_len : Z) : res (option bytes * Z) :=
  dtype_result out_len (
    if dtype =? BOOLEAN then Ret (obj_bool (str2buf_bool str), 1)
    else if dtype =? INTERGER8 then Ret (obj 1 (str2buf_int8 str), 1)
    else if dtype =? INTERGER16 then Ret (obj 2 (str2buf_int16 str), 2)
    else if dtype =? INTERGER32 then Ret (obj 4 (str2buf_int32 str), 4)
    else if dtype =? INTERGER64 then Ret (obj 8 (str2buf_int64 str), 8)
    else if dtype =? UNSIGNED8 then Ret (obj 1 (str2buf_uint8 str), 1)
    else if dtype =? UNSIGNED16 then Ret (obj 2 (str2buf_uint16 str), 2)
    else if dtype =? UNSIGNED32 then Ret (obj 4 (str2buf_uint32 str), 4)
    else if dtype =? UNSIGNED64 then Ret (obj 8 (str2buf_uint64 str), 8)
    else if dtype =? REAL32 then Ret (obj 4 (str2buf_float32 str), 4)
    else if dtype =? REAL64 then Ret (obj 8 (str2buf_float64 str), 8)
    else if dtype =? VISIBLE_STRING then copy_string str
    else if dtype =? OCTET_STRING then Ret (bytes_result str)
    else Ret (None, 0)).

Definition is_dtype (dtype : bytes) (name : string) : bool :=
  strncmp_eq dtype (cs name) (length dtype).

Definition str2buf_dtype_str (dtype : bytes) (str : option bytes) (out_len : Z) : res (option bytes * Z) :=
  dtype_result out_len (
    if is_dtype dtype "bool" then Ret (obj_bool (str2buf_bool str), 1)
    else if is_dtype dtype "int8" then Ret (obj 1 (str2buf_int8 str), 1)
    else if is_dtype dtype "int16" then Ret (obj 2 (str2buf_int16 str), 2)
    else if is_dtype dtype "int32" then Ret (obj 4 (str2buf_int32 str), 4)
    else if is_dtype dtype "int64" then Ret (obj 8 (str2buf_int64 str), 8)
    else if is_dtype dtype "uint8" then Ret (obj 1 (str2buf_uint8 str), 1)
    else if is_dtype dtype "uint16" then Ret (obj 2 (str2buf_uint16 str), 2)
    else if is_dtype dtype "uint32" then Ret (obj 4 (str2buf_uint32 str), 4)
    else if is_dtype dtype "uint64" then Ret (obj 8 (str2buf_uint64 str), 8)
    else if is_dtype dtype "float32" then Ret (obj 4 (str2buf_float32 str), 4)
    else if is_dtype dtype "float64" then Ret (obj 8 (str2buf_float64 str), 8)
    else if is_dtype dtype "string" then copy_string str
    else if is_dtype dtype "bytes" then Ret (bytes_result str)
    else Ret (None, 0)).

End Str2buf.

(** The cases of tests/common/test_str2buf.c, evaluated on both platforms. *)
Example test_bool :
  str2buf_bool (H := armhf) (Some (cs "0")) = Some false /\
  str2buf_bool (H := armhf) (Some (cs "true")) = Some true /\
  str2buf_bool (H := armhf) (Some (cs "afalse")) = None /\
  str2buf_bool (H := armhf) (Some (cs "truea")) = None.
Proof. by vm_compute. Qed.

Example test_ints :
  str2buf_int8 (H := armhf) (Some (cs "-128")) = Some (-128) /\
  str2buf_int8 (H := lp64) (Some (cs "-129")) = None /\
  str2buf_uint8 (H := armhf) (Some (cs "0xFF")) = Some 255 /\
  str2buf_uint8 (H := lp64) (Some (cs "256")) = None /\
  str2buf_uint16 (H := armhf) (Some (cs "0xFFFF")) = Some 65535 /\
  str2buf_uint32 (H := lp64) (Some (cs "0x1FF")) = Some 0x1FF /\
  str2buf_int64 (H := armhf) (Some (cs "abc")) = None.
Proof. by vm_compute. Qed.

Example test_bytes :
  str2buf_bytes (H := armhf) (Some (cs "012345")) (Some 0) = (Some [x01; x23; x45], Some 3) /\
  str2buf_bytes (H := armhf) (Some (cs "123")) (Some 0) = (None, Some 0).
Proof. by vm_compute. Qed.

(** ** Properties *)

Section Str2bufProps.
Context `{HP : Platform}.

Lemma get_str_base_ok s : base_ok (get_str_base s).
Proof. unfold get_str_base, base_ok. case_match; auto. Qed.

Lemma digit_char_ne d c : 0 <= d < 16 -> (b2z c < 48 \/ b2z c > 102) -> digit_char d <> c.
Proof.
  intros Hd Hc E. apply (f_equal b2z) in E. rewrite digit_char_b2z in E by done.
  destruct (Z.ltb_spec d 10); lia.
Qed.

Lemma get_str_base_print_nat n : 0 <= n -> get_str_base (print_nat 10 n) = 10.
Proof.
  intros Hn. destruct (print_nat_head 10 n) as (d & r & -> & Hd & Hr); [by left|done|].
  unfold get_str_base. destruct r as [|e r]; simpl.
  - done.
  - inversion_clear Hr. unfold nth_is. simpl. rewrite (bool_decide_eq_false_2 (Some (digit_char e) = _)).
    + by rewrite andb_false_r.
    + intros [= E]. by apply (digit_char_ne e "x"%byte) in E; [|lia|right; vm_compute].
Qed.

Lemma get_str_base_print_hex n : 0 <= n -> get_str_base (print_hex n) = 16.
Proof.
  intros Hn. unfold print_hex. destruct (print_nat_head 16 n) as (d & r & -> & Hd & Hr); [by right|done|].
  unfold get_str_base. simpl. rewrite (proj2 (Z.leb_le 3 _)); [done|]. unfold zlen. simpl. lia.
Qed.

Lemma get_str_base_print_dec n : get_str_base (print_dec n) = 10.
Proof.
  unfold print_dec. destruct (Z.ltb_spec n 0); [|by apply get_str_base_print_nat].
  unfold get_str_base, nth_is. simpl. by rewrite andb_false_r.
Qed.

Lemma print_nat_cons base n : base_ok base -> 0 <= n ->
  exists c r, print_nat base n = c :: r /\ nth_is (c :: r) 0 "-"%byte = false.
Proof.
  intros Hb Hn. destruct (print_nat_head base n Hb Hn) as (d & r & -> & Hd & _).
  eexists _, _. split; [done|]. unfold nth_is. simpl. apply bool_decide_eq_false_2.
  intros [= E]. apply (digit_char_ne d "-"%byte) in E; [done|destruct Hb; lia|left; vm_compute; done].
Qed.

(** A numeral that stands for the natural number [n]: decimal or [0x] hexadecimal. *)
Definition numeral (s : bytes) (n : Z) : Prop := s = print_nat 10 n \/ s = print_hex n.

Lemma numeral_strtoul w s n : 0 <= n -> numeral s n ->
  exists c r, s = c :: r /\ nth_is s 0 "-"%byte = false
    /\ strtoul w (get_str_base s) s = (Z.min n (2 ^ w - 1), S (length r)).
Proof.
  intros Hn [-> | ->].
  - destruct (print_nat_cons 10 n) as (c & r & E & Hc); [by left|done|].
    exists c, r. rewrite get_str_base_print_nat, strtoul_dec by done. by rewrite E.
  - exists "0"%byte, ("x"%byte :: print_nat 16 n).
    rewrite get_str_base_print_hex, strtoul_hex by done. done.
Qed.

Lemma signed_strtol w n : 0 < w ->
  exists c r, print_dec n = c :: r
    /\ strtol w (get_str_base (print_dec n)) (print_dec n) = (clamp_s w n, S (length r)).
Proof.
  intros Hw. rewrite get_str_base_print_dec, strtol_dec by done.
  unfold print_dec. destruct (Z.ltb_spec n 0).
  - by eexists _, _.
  - destruct (print_nat_cons 10 n) as (c & r & E & _); [by left|done|].
    exists c, r. by rewrite E.
Qed.
End Str2bufProps.

(** Solves the final step of a conversion: the range test and the cast. *)
Ltac conv_case :=
  repeat match goal with
  | |- context [?a <? ?b] => destruct (Z.ltb_spec a b)
  end; simpl; try (rewrite ?wrap_small by (unfold in_u; lia));
  try (rewrite ?swrap_small by (unfold in_s; lia)); try done; try lia; try (f_equal; lia).

Section Str2bufSpec.
Context `{HP : Platform} (Hmalloc : forall n, malloc_ok n = true).

Lemma unsigned_roundtrip s n : 0 <= n -> numeral s n ->
  (in_u 8 n -> str2buf_uint8 (Some s) = Some n) /\
  (in_u 16 n -> str2buf_uint16 (Some s) = Some n) /\
  (in_u 32 n -> str2buf_uint32 (Some s) = Some n) /\
  (in_u 64 n -> str2buf_uint64 (Some s) = Some n).
Proof.
  intros Hn Hs. pose proof LONG_BITS_range.
  assert (2 ^ 32 <= 2 ^ LONG_BITS) by (apply Z.pow_le_mono_r; lia).
  unfold str2buf_uint8, str2buf_uint16, str2buf_uint32, str2buf_uint64.
  destruct (numeral_strtoul LONG_BITS s n Hn Hs) as (c & r & -> & Hc & EL).
  destruct (numeral_strtoul 64 (c :: r) n Hn Hs) as (? & ? & [= <- <-] & _ & E64).
  rewrite Hc, EL, E64, !Hmalloc. unfold in_u.
  repeat split; intros; rewrite Z.min_l by lia; conv_case.
Qed.

(** C40: when memory can be allocated, every natural number printed in decimal or in [0x] hexadecimal is
    read back by the unsigned conversions of every width that can hold it. *)
Theorem str2buf_unsigned_roundtrip s n : 0 <= n -> numeral s n ->
  (in_u 8 n -> str2buf_uint8 (Some s) = Some n) /\
  (in_u 16 n -> str2buf_uint16 (Some s) = Some n) /\
  (in_u 32 n -> str2buf_uint32 (Some s) = Some n) /\
  (in_u 64 n -> str2buf_uint64 (Some s) = Some n).
Proof. apply unsigned_roundtrip. Qed.

Lemma signed_roundtrip n :
  (in_s 8 n -> str2buf_int8 (Some (print_dec n)) = Some n) /\
  (in_s 16 n -> str2buf_int16 (Some (print_dec n)) = Some n) /\
  (in_s 32 n -> str2buf_int32 (Some (print_dec n)) = Some n) /\
  (in_s 64 n -> str2buf_int64 (Some (print_dec n)) = Some n).
Proof.
  pose proof LONG_BITS_range as HL.
  assert (2 ^ 31 <= 2 ^ (LONG_BITS - 1)) by (apply Z.pow_le_mono_r; lia).
  unfold str2buf_int8, str2buf_int16, str2buf_int32, str2buf_int64.
  destruct (signed_strtol LONG_BITS n) as (c & r & Er & EL); [lia|].
  destruct (signed_strtol 64 n) as (? & ? & Er' & E64); [lia|].
  rewrite Er in *. rewrite EL, E64, !Hmalloc. unfold in_s.
  repeat split; intros; rewrite clamp_s_small by (unfold in_s; lia); conv_case.
Qed.

(** Every integer printed in decimal is read back by the signed conversions of every
    width that can hold it. *)
Theorem str2buf_signed_roundtrip n :
  (in_s 8 n -> str2buf_int8 (Some (print_dec n)) = Some n) /\
  (in_s 16 n -> str2buf_int16 (Some (print_dec n)) = Some n) /\
  (in_s 32 n -> str2buf_int32 (Some (print_dec n)) = Some n) /\
  (in_s 64 n -> str2buf_int64 (Some (print_dec n)) = Some n).
Proof. apply signed_roundtrip. Qed.

(** A number too large for the type is rejected by the 8- and 16-bit conversions, but
    the 32-bit one has no such test: where [long] has 64 bits it returns the number modulo
    2^32, where it has 32 bits the largest value. *)
Theorem str2buf_out_of_range s n : 0 <= n -> numeral s n ->
  (2 ^ 8 <= n -> str2buf_uint8 (Some s) = None) /\
  (2 ^ 16 <= n -> str2buf_uint16 (Some s) = None) /\
  (2 ^ 32 <= n < 2 ^ 64 ->
     str2buf_uint32 (Some s) = Some (if LONG_BITS =? 32 then 2 ^ 32 - 1 else wrap 32 n)).
Proof.
  intros Hn Hs. pose proof LONG_BITS_range.
  assert (2 ^ 32 <= 2 ^ LONG_BITS) by (apply Z.pow_le_mono_r; lia).
  unfold str2buf_uint8, str2buf_uint16, str2buf_uint32.
  destruct (numeral_strtoul LONG_BITS s n Hn Hs) as (c & r & -> & Hc & EL).
  rewrite Hc, EL, !Hmalloc. simpl. repeat split; intros.
  - destruct (Z.ltb_spec 255 (Z.min n (2 ^ LONG_BITS - 1))); [done|lia].
  - destruct (Z.ltb_spec 65535 (Z.min n (2 ^ LONG_BITS - 1))); [done|lia].
  - destruct LONG_BITS_ok as [-> | ->]; simpl.
    + rewrite Z.min_r by lia. done.
    + rewrite Z.min_l by lia. done.
Qed.
End Str2bufSpec.

(** The hexadecimal text of a byte string. *)
Definition hex_byte (b : byte) : bytes := [digit_char (b2z b / 16); digit_char (b2z b mod 16)].
Definition print_bytes (l : bytes) : bytes := l ≫= hex_byte.

Section BytesProps.
Context `{HP : Platform} (Hmalloc : forall n, malloc_ok n = true).

Lemma strtoul_hex_byte w b : 8 <= w -> strtoul w 16 (hex_byte b) = (b2z b, 2%nat).
Proof.
  intros Hw. pose proof (b2z_range b) as Hb. unfold strtoul, hex_byte, scan_number.
  assert (0 <= b2z b / 16 < 16) by (split; [apply Z.div_pos; lia|apply Z.div_lt_upper_bound; lia]).
  assert (0 <= b2z b mod 16 < 16) by (apply Z.mod_pos_bound; lia).
  unfold skip_space. rewrite digit_char_not_space by done. cbv beta iota.
  rewrite digit_char_not_sign by done. cbv beta iota. unfold scan_prefix. cbv beta iota.
  simpl. rewrite !digit_val_char by (done || by right). simpl.
  replace ((0 * 16 + b2z b `div` 16) * 16 + b2z b `mod` 16) with (b2z b) by (pose proof (Z.div_mod (b2z b) 16); lia).
  assert (2 ^ 8 <= 2 ^ w) by (apply Z.pow_le_mono_r; lia).
  destruct (Z.ltb_spec (2 ^ w - 1) (b2z b)); [lia|done].
Qed.

Lemma upto_nul_hex_byte b : upto_nul (hex_byte b) = hex_byte b.
Proof.
  apply upto_nul_id. unfold wf_cstr, hex_byte. pose proof (b2z_range b).
  assert (0 <= b2z b / 16 < 16) by (split; [apply Z.div_pos; lia|apply Z.div_lt_upper_bound; lia]).
  assert (0 <= b2z b mod 16 < 16) by (apply Z.mod_pos_bound; lia).
  intros [E|[E|[]%elem_of_nil]%elem_of_cons]%elem_of_cons; symmetry in E;
    apply digit_char_ne in E; try done; left; vm_compute; done.
Qed.

Lemma length_print_bytes l : length (print_bytes l) = (2 * length l)%nat.
Proof.
  induction l as [|b l IH]; [done|].
  change (print_bytes (b :: l)) with (hex_byte b ++ print_bytes l). rewrite length_app, IH. simpl. lia.
Qed.

Lemma nth_print_bytes pre l i : length pre = (2 * i)%nat ->
  str2buf_bytes_loop (pre ++ print_bytes l) (length l) i = Some l.
Proof.
  revert pre i. induction l as [|b l IH]; intros pre i Hpre; [done|].
  cbn [length str2buf_bytes_loop].
  change (print_bytes (b :: l)) with (hex_byte b ++ print_bytes l).
  rewrite (app_nth2 pre _ NUL (n := 2 * i)), (app_nth2 pre _ NUL (n := S (2 * i))) by lia.
  rewrite Hpre.
  replace (2 * i - 2 * i)%nat with O by lia. replace (S (2 * i) - 2 * i)%nat with 1%nat by lia.
  change (upto_nul _) with (upto_nul (hex_byte b)). rewrite upto_nul_hex_byte.
  pose proof LONG_BITS_range. rewrite strtoul_hex_byte by lia.
  rewrite decide_False by done. rewrite app_assoc, IH.
  - simpl. by rewrite z2b_b2z.
  - rewrite length_app. simpl. lia.
Qed.

Lemma bytes_roundtrip l o : l <> [] ->
  str2buf_bytes (Some (print_bytes l)) (Some o) = (Some l, Some (zlen l)).
Proof.
  intros Hl. unfold str2buf_bytes. assert (zlen (print_bytes l) = zlen l * 2) as ->.
  { unfold zlen. rewrite length_print_bytes. lia. }
  rewrite Z.mod_mul, Z.div_mul by lia. simpl. rewrite Hmalloc.
  destruct (Z.eqb_spec (zlen l * 2) 0) as [E|_].
  { destruct l; [done|]. unfold zlen in E. simpl in E. lia. }
  simpl. unfold zlen. rewrite Nat2Z.id.
  pose proof (nth_print_bytes [] l 0 eq_refl) as E. simpl in E. by rewrite E.
Qed.

(** The bytes of an octet string printed in hexadecimal are read back, with their
    number in [*out_len]. *)
Theorem str2buf_bytes_roundtrip l o : l <> [] ->
  str2buf_bytes (Some (print_bytes l)) (Some o) = (Some l, Some (zlen l)).
Proof. apply bytes_roundtrip. Qed.

Lemma str2buf_bytes_loop_total s len i :
  exists v, str2buf_bytes_loop s len i = Some v /\ length v = len.
Proof.
  revert i. induction len as [|len IH]; intros i; [by eexists|].
  cbn [str2buf_bytes_loop]. destruct (strtoul _ _ _) as [v k]. rewrite decide_False by done.
  destruct (IH (S i)) as (l & -> & Hl). eexists. split; [done|]. simpl. by rewrite Hl.
Qed.

(** The validity test of the loop never fails, because it compares pointers into two
    different objects: text that is not hexadecimal is accepted as zero bytes whenever its
    length is even. *)
Theorem str2buf_bytes_accepts_all s o : s <> [] -> Z.even (zlen s) = true ->
  exists v, str2buf_bytes (Some s) (Some o) = (Some v, Some (zlen v)) /\ zlen s = 2 * zlen v.
Proof.
  intros Hs He. unfold str2buf_bytes. rewrite Hmalloc.
  destruct (Z.eqb_spec (zlen s) 0) as [E|_]; [by destruct s|].
  rewrite Zmod_even, He. simpl.
  destruct (str2buf_bytes_loop_total s (Z.to_nat (zlen s / 2)) 0) as (v & -> & Hv).
  pose proof (Z.div_mod (zlen s) 2) as Hd. rewrite Zmod_even, He in Hd.
  assert (zlen v = zlen s / 2) as Hz.
  { unfold zlen at 1. rewrite Hv, Z2Nat.id; [done|]. apply Z.div_pos; [apply zlen_nonneg|lia]. }
  exists v. rewrite Hz. split; [done|lia].
Qed.
End BytesProps.

(** The names of the data types, with the codes they stand for. *)
Definition dtype_names : list (string * Z) :=
  [("bool", BOOLEAN); ("int8", INTERGER8); ("int16", INTERGER16); ("int32", INTERGER32);
   ("int64", INTERGER64); ("uint8", UNSIGNED8); ("uint16", UNSIGNED16); ("uint32", UNSIGNED32);
   ("uint64", UNSIGNED64); ("float32", REAL32); ("float64", REAL64);
   ("string", VISIBLE_STRING); ("bytes", OCTET_STRING)].

Section DtypeProps.
Context `{HP : Platform}.

(** The two dispatchers agree: naming a type and giving its CANopen code convert
    every string the same way, with the same [*out_len]. *)
Theorem str2buf_dtype_agree str out_len :
  Forall (fun '(name, code) =>
    str2buf_dtype_str (cs name) str out_len = str2buf_dtype_int code str out_len) dtype_names.
Proof. repeat constructor. Qed.

(** The size of the buffer of each type, where it does not depend on the text. *)
Definition dtype_size (dtype : Z) : option nat :=
  if dtype =? BOOLEAN then Some 1%nat
  else if dtype =? INTERGER8 then Some 1%nat else if dtype =? UNSIGNED8 then Some 1%nat
  else if dtype =? INTERGER16 then Some 2%nat else if dtype =? UNSIGNED16 then Some 2%nat
  else if dtype =? INTERGER32 then Some 4%nat else if dtype =? UNSIGNED32 then Some 4%nat
  else if dtype =? REAL32 then Some 4%nat
  else if dtype =? INTERGER64 then Some 8%nat else if dtype =? UNSIGNED64 then Some 8%nat
  else if dtype =? REAL64 then Some 8%nat else None.

Lemma obj_length n v l : obj n v = Some l -> length l = n.
Proof. unfold obj. destruct v; simpl; [|done]. intros [= <-]. apply length_le_bytes. Qed.

Lemma str2buf_bytes_loop_length s len i v :
  str2buf_bytes_loop s len i = Some v -> length v = len.
Proof.
  destruct (str2buf_bytes_loop_total s len i) as (v' & -> & Hl). by intros [= <-].
Qed.

Lemma bytes_result_length str l n : bytes_result str = (Some l, n) -> zlen l = n.
Proof.
  unfold bytes_result, str2buf_bytes. destruct str as [s|]; [|done].
  repeat case_match; intros; simplify_eq.
  apply str2buf_bytes_loop_length in H2. unfold zlen at 1. rewrite H2, Z2Nat.id; [done|].
  apply Z.div_pos; [apply zlen_nonneg|lia].
Qed.

(** What a dispatcher owes its caller for a type whose values have [k] bytes. *)
Definition len_ok (str_nul : Z) (k : option nat) (o : Z) (buf : option bytes) (n : Z) : Prop :=
  match buf with
  | None => n = o
  | Some l => n = zlen l - str_nul /\ match k with Some k => n = Z.of_nat k | None => True end
  end.

Lemma sized_len_ok k v o buf n :
  dtype_result o (Ret (obj k v, Z.of_nat k)) = Ret (buf, n) -> len_ok 0 (Some k) o buf n.
Proof.
  intros [= <- <-]. unfold len_ok. destruct (obj k v) eqn:E; [|done].
  apply obj_length in E. unfold zlen. rewrite E. lia.
Qed.

Lemma string_len_ok str o buf n :
  dtype_result o (copy_string str) = Ret (buf, n) -> len_ok 1 None o buf n.
Proof.
  unfold copy_string. destruct str as [s|]; [|done]. case_match; [|done].
  intros [= <- <-]. unfold len_ok, with_nul, zlen. rewrite length_app. simpl. lia.
Qed.

Lemma bytes_len_ok str o buf n :
  dtype_result o (Ret (bytes_result str)) = Ret (buf, n) -> len_ok 0 None o buf n.
Proof.
  destruct (bytes_result str) as [[l|] m] eqn:E; intros [= <- <-]; [|done].
  apply bytes_result_length in E. simpl. lia.
Qed.

(** When there is a buffer, [*out_len] is the number of its bytes, the terminating NUL
    of a string not counted, and it is the size of the type; without one, [*out_len] is not
    written. *)
Theorem str2buf_dtype_int_len dtype str o buf n :
  str2buf_dtype_int dtype str o = Ret (buf, n) ->
  len_ok (if dtype =? VISIBLE_STRING then 1 else 0) (dtype_size dtype) o buf n.
Proof.
  unfold str2buf_dtype_int, obj_bool.
  repeat match goal with
  | |- context [if dtype =? ?c then _ else _] =>
      destruct (Z.eqb_spec dtype c); [subst dtype; first
        [apply (sized_len_ok 1)|apply (sized_len_ok 2)|apply (sized_len_ok 4)
        |apply (sized_len_ok 8)|apply string_len_ok|apply bytes_len_ok]|]
  end.
  by intros [= <- <-].
Qed.

(** Every bit pattern [f32_to_f64] builds is a multiple of [2 ^ 29]. *)
Lemma f32_to_f64_multiple b : exists q, f32_to_f64 b = q * 2 ^ 29.
Proof.
  unfold f32_to_f64. set (sign := Z.shiftr b 31). set (e := Z.land (Z.shiftr b 23) 0xFF).
  set (m := Z.land b 0x7FFFFF).
  assert (0 <= m < 2 ^ 23) as Hm.
  { subst m. change 0x7FFFFF with (Z.ones 23). rewrite Z.land_ones by lia.
    apply Z.mod_pos_bound. lia. }
  assert (forall x y, exists q, sign * 2 ^ 63 + x * 2 ^ 52 + y * 2 ^ 29 = q * 2 ^ 29) as Hq.
  { intros x y. exists (sign * 2 ^ 34 + x * 2 ^ 23 + y). lia. }
  destruct (e =? 0xFF), (Z.eqb_spec m 0) as [|Hm0].
  - apply (Hq 0x7FF 0).
  - replace (Z.lor (m * 2 ^ 29) (2 ^ 51)) with (Z.lor m (2 ^ 22) * 2 ^ 29); [apply Hq|].
    rewrite <- !Z.shiftl_mul_pow2, Z.shiftl_lor by lia. done.
  - destruct (e =? 0); [apply (Hq 0 0)|apply Hq].
  - destruct (e =? 0); [|apply Hq].
    assert (Z.log2 m <= 22) by (apply Z.lt_succ_r, Z.log2_lt_pow2; simpl; lia).
    pose proof (Z.log2_nonneg m).
    replace (52 - Z.log2 m) with (23 - Z.log2 m + 29) by lia.
    rewrite (Z.pow_add_r 2 (23 - Z.log2 m) 29), Z.mul_assoc by lia. apply Hq.
Qed.

(** [str2buf_float64] parses with [strtof]: the [double] it returns always is one of
    the numbers a [float] can hold, the low 29 bits of its significand are zero. *)
Theorem str2buf_float64_single_precision str v :
  str2buf_float64 str = Some v -> v mod 2 ^ 29 = 0.
Proof.
  unfold str2buf_float64. destruct str as [[|c s]|]; [done| |done].
  case_match; [|done]. destruct (strtof _) as [x k]. case_match; [done|]. intros [= <-].
  destruct (f32_to_f64_multiple x) as [q ->]. by apply Z.mod_mul.
Qed.

Lemma prefix_word l w1 w2 :
  strncmp_eq l w1 (length l) || strncmp_eq l w2 (length l) = true
  <-> l `prefix_of` w1 \/ l `prefix_of` w2.
Proof. by rewrite orb_true_iff, !strncmp_eq_prefix. Qed.

(** No non-empty text abbreviates both a true and a false word. *)
Lemma bool_words_disjoint c s :
  c :: s `prefix_of` cs "true" \/ c :: s `prefix_of` cs "1" ->
  c :: s `prefix_of` cs "false" \/ c :: s `prefix_of` cs "0" -> False.
Proof.
  intros [H1%prefix_cons_inv_1|H1%prefix_cons_inv_1] [H2%prefix_cons_inv_1|H2%prefix_cons_inv_1];
    by subst c.
Qed.

(** [str2buf_bool] accepts any non-empty prefix of the four words of its test table,
    and nothing else. *)
Theorem str2buf_bool_prefix s b : malloc_ok 1 = true ->
  str2buf_bool (Some s) = Some b <->
  s <> [] /\ if b then s `prefix_of` cs "true" \/ s `prefix_of` cs "1"
             else s `prefix_of` cs "false" \/ s `prefix_of` cs "0".
Proof.
  intros Hm. unfold str2buf_bool. destruct s as [|c s]; [split; [done|by intros []]|].
  rewrite Hm. pose proof (prefix_word (c :: s) (cs "true") (cs "1")) as HT.
  pose proof (prefix_word (c :: s) (cs "false") (cs "0")) as HF.
  pose proof (bool_words_disjoint c s) as HD.
  destruct (strncmp_eq (c :: s) (cs "true") _ || _), (strncmp_eq (c :: s) (cs "false") _ || _), b;
    split; [..|intros [_ Hp]]; try done; naive_solver.
Qed.
End DtypeProps.

(** ** Witnesses: the theorems at concrete inputs *)

Lemma str2buf_unsigned_roundtrip_witness :
  str2buf_uint16 (H := armhf) (Some (print_hex 4660)) = Some 4660.
Proof.
  destruct (str2buf_unsigned_roundtrip (HP := armhf) (fun _ => eq_refl) (print_hex 4660) 4660)
    as (_ & H & _); [lia|by right|]. apply H. unfold in_u. lia.
Defined.

Lemma str2buf_signed_roundtrip_witness :
  str2buf_int8 (H := lp64) (Some (print_dec (-128))) = Some (-128).
Proof.
  destruct (str2buf_signed_roundtrip (HP := lp64) (fun _ => eq_refl) (-128)) as (H & _).
  apply H. unfold in_s. simpl. lia.
Defined.

Lemma str2buf_out_of_range_witness :
  str2buf_uint8 (H := armhf) (Some (print_dec 300)) = None /\
  str2buf_uint32 (H := armhf) (Some (print_dec 4294967296)) = Some 4294967295.
Proof.
  split.
  - destruct (str2buf_out_of_range (HP := armhf) (fun _ => eq_refl) (print_nat 10 300) 300)
      as (H & _); [lia|by left|]. apply H. lia.
  - destruct (str2buf_out_of_range (HP := armhf) (fun _ => eq_refl) (print_nat 10 4294967296) 4294967296)
      as (_ & _ & H); [lia|by left|]. apply H. lia.
Defined.

Lemma str2buf_bytes_roundtrip_witness :
  str2buf_bytes (H := armhf) (Some (cs "00ff")) (Some 0) = (Some [x00; xff], Some 2).
Proof.
  exact (str2buf_bytes_roundtrip (HP := armhf) (fun _ => eq_refl) [x00; xff] 0 ltac:(done)).
Defined.

Lemma str2buf_dtype_int_len_witness :
  len_ok 0 (Some 2%nat) 7 (Some [x34; x12]) 2.
Proof.
  exact (str2buf_dtype_int_len (HP := armhf) UNSIGNED16 (Some (cs "0x1234")) 7 _ 2 ltac:(vm_compute; reflexivity)).
Defined.
