(* ===== verification/ODInterface.v ===== *)
(** * What the program uses of CANopenNode's object dictionary interface

    CANopenNode is a git submodule, not part of the repository: of its
    [CO_ODinterface.h] the model has the return codes the program names, the fields of
    [OD_stream_t] it reads and writes, and the width of [OD_size_t] as a parameter.  The
    functions it calls ([OD_readOriginal], [OD_writeOriginal], [OD_find], ...) are
    parameters of the definitions that call them. *)

From S2P Require Import Prelude.

(** The [ODR_t] codes the program returns or tests. *)
Inductive ODR :=
| ODR_PARTIAL
| ODR_OK
| ODR_READONLY
| ODR_WRITEONLY
| ODR_DEV_INCOMPAT
| ODR_SUB_NOT_EXIST
| ODR_DATA_LONG
| ODR_DATA_LOC_CTRL
| ODR_NO_DATA.

#[export] Instance ODR_eq_dec : EqDecision ODR.
Proof. solve_decision. Defined.

(** The fields of [OD_stream_t] that extensions use. *)
Record OD_stream := mkStream {
  dataLength : Z;
  dataOffset : Z;
  index : Z;
  subIndex : Z;
}.

#[export] Instance OD_stream_eq_dec : EqDecision OD_stream.
Proof. solve_decision. Defined.

Definition set_dataLength (n : Z) (st : OD_stream) : OD_stream :=
  mkStream n (dataOffset st) (index st) (subIndex st).
Definition set_dataOffset (n : Z) (st : OD_stream) : OD_stream :=
  mkStream (dataLength st) n (index st) (subIndex st).

(** [OD_size_t] is an unsigned integer type of at least 16 bits. *)
Class ODTypes := {
  OD_SIZE_BITS : Z;
  OD_SIZE_BITS_ok : 16 <= OD_SIZE_BITS;
}.

Definition od_size `{ODTypes} (z : Z) : Z := wrap OD_SIZE_BITS z.
Definition is_od_size `{ODTypes} (z : Z) : Prop := in_u OD_SIZE_BITS z.

(** The instance of CANopenNode's default configuration, [uint32_t]. *)
Definition od_u32 : ODTypes := {| OD_SIZE_BITS := 32; OD_SIZE_BITS_ok := ltac:(lia) |}.

Section ODSize.
Context `{ODTypes}.

Lemma od_size_id z : is_od_size z -> od_size z = z.
Proof. apply wrap_small. Qed.

Lemma is_od_size_16 z : 0 <= z < 2 ^ 16 -> is_od_size z.
Proof.
  intros. pose proof OD_SIZE_BITS_ok. unfold is_od_size, in_u.
  assert (2 ^ 16 <= 2 ^ OD_SIZE_BITS) by (apply Z.pow_le_mono_r; lia). lia.
Qed.

Lemma is_od_size_le z n : 0 <= z <= n -> is_od_size n -> is_od_size z.
Proof. unfold is_od_size, in_u. lia. Qed.
End ODSize.

Create HintDb od.
#[export] Hint Resolve is_od_size_16 : od.

(** The attribute bits of [OD_attributes_t] the program sets. *)
Class ODAttrs := {
  ODA_SDO_R : Z;
  ODA_SDO_W : Z;
  ODA_SDO_RW : Z;
  ODA_TRPDO : Z;
  ODA_MB : Z;
  ODA_STR : Z;
  oda_rw : ODA_SDO_RW = Z.lor ODA_SDO_R ODA_SDO_W;
}.

(** The sizes of the object dictionary's structs. *)
Class ODSizes := {
  sizeof_OD_t : Z;
  sizeof_OD_entry_t : Z;
  sizeof_OD_obj_var_t : Z;
  sizeof_OD_obj_array_t : Z;
  sizeof_OD_obj_record_t : Z;
  sizeof_OD_entry_t_pos : 0 < sizeof_OD_entry_t;
}.
