(* ===== verification/FileSys.v ===== *)
(** * The file system interface

    What the program uses of the operating system's files, as operations on a file system
    state of type [F] with the documented laws the theorems rely on.  A path is a C string.
    A [FILE] or a file descriptor opened for writing is its path: the program never
    renames or removes a file it has open.  Errors are positive [errno] values. *)

From S2P Require Import Prelude CLib.

Definition path := bytes.

Definition EPERM : Z := 1.
Definition ENOENT : Z := 2.
Definition EEXIST : Z := 17.
Definition ENOTDIR : Z := 20.
Definition EISDIR : Z := 21.
Definition EINVAL : Z := 22.
Definition ENOTEMPTY : Z := 39.
Definition PATH_MAX : Z := 4096.

Class FileSystem (F : Type) := {
  (* open for reading: the bytes the stream delivers (none for a directory, which opens too) *)
  fs_read : F -> path -> Z + bytes;
  (* opendir and readdir: the names, [.] and [..] included, in the order of the system *)
  fs_list : F -> path -> Z + list bytes;
  (* open for writing: create or truncate *)
  fs_create : F -> path -> Z + F;
  (* write at the end of the open file *)
  fs_append : F -> path -> bytes -> F;
  fs_remove : F -> path -> Z + F;
  fs_mkdir : F -> path -> Z + F;

  fs_errno_pos : forall f p e,
    fs_read f p = inl e \/ fs_list f p = inl e \/ fs_create f p = inl e \/
    fs_remove f p = inl e \/ fs_mkdir f p = inl e -> 0 < e;
  fs_create_read : forall f p f', fs_create f p = inr f' -> fs_read f' p = inr [];
  fs_append_read : forall f p c d,
    fs_read f p = inr c -> fs_list f p = inl ENOTDIR ->
    fs_read (fs_append f p d) p = inr (c ++ d);
  fs_create_file : forall f p f', fs_create f p = inr f' -> fs_list f' p = inl ENOTDIR;
  fs_append_file : forall f p d,
    fs_list f p = inl ENOTDIR -> fs_list (fs_append f p d) p = inl ENOTDIR;
  fs_append_nil : forall f p, fs_append f p [] = f;
  fs_append_app : forall f p c d, fs_append (fs_append f p c) p d = fs_append f p (c ++ d);
  fs_mkdir_list : forall f p f', fs_mkdir f p = inr f' -> exists l, fs_list f' p = inr l;
  fs_remove_gone : forall f p f', fs_remove f p = inr f' -> fs_read f' p = inl ENOENT;
}.
