(* ===== verification/MemFS.v ===== *)
(** * A file system in memory

    The instance of the file system interface that the witnesses evaluate: a finite map
    from paths to files and directories.  Only the laws of the interface are used by the
    theorems; this instance shows that they can hold. *)

From Stdlib Require Import Strings.Byte.
From stdpp Require Import gmap.
From S2P Require Import Prelude CLib FileSys.

#[local] Open Scope Z_scope.

#[export] Instance byte_countable : Countable byte :=
  inj_countable Byte.to_N Byte.of_N Byte.of_to_N.

Inductive node := NFile (b : bytes) | NDir.

Abbreviation memfs := (gmap (list byte) node).

(** A directory opens, as on Linux, and delivers nothing. *)
Definition mem_fs_read (f : memfs) (p : path) : Z + bytes :=
  match f !! p with Some (NFile b) => inr b | Some NDir => inr [] | None => inl ENOENT end.

(** The name of [q] in the directory [p], when it is an entry of it. *)
Definition entry_name (p q : path) : option bytes :=
  let pre := p ++ ["/"%byte] in
  if decide (take (length pre) q = pre) then
    let name := drop (length pre) q in
    if decide ("/"%byte ∈ name) then None else Some name
  else None.

Definition mem_fs_list (f : memfs) (p : path) : Z + list bytes :=
  match f !! p with
  | Some NDir => inr (cs "." :: cs ".." :: omap (fun '(q, _) => entry_name p q) (map_to_list f))
  | Some (NFile _) => inl ENOTDIR
  | None => inl ENOENT
  end.

Definition mem_fs_create (f : memfs) (p : path) : Z + memfs :=
  match f !! p with Some NDir => inl EISDIR | _ => inr (<[p := NFile []]> f) end.

Definition mem_fs_append (f : memfs) (p : path) (d : bytes) : memfs :=
  match f !! p with Some (NFile c) => <[p := NFile (c ++ d)]> f | _ => f end.

Definition mem_fs_remove (f : memfs) (p : path) : Z + memfs :=
  match f !! p with
  | Some (NFile _) => inr (delete p f)
  | Some NDir => match omap (fun '(q, _) => entry_name p q) (map_to_list f) with
    | [] => inr (delete p f) | _ => inl ENOTEMPTY end
  | None => inl ENOENT
  end.

Definition mem_fs_mkdir (f : memfs) (p : path) : Z + memfs :=
  match f !! p with Some _ => inl EEXIST | None => inr (<[p := NDir]> f) end.

#[export] Instance mem_fs : FileSystem memfs.
Proof.
  refine {| fs_read := mem_fs_read; fs_list := mem_fs_list; fs_create := mem_fs_create;
            fs_append := mem_fs_append; fs_remove := mem_fs_remove; fs_mkdir := mem_fs_mkdir |}.
  - intros f p e. unfold mem_fs_read, mem_fs_list, mem_fs_create, mem_fs_remove, mem_fs_mkdir.
    unfold ENOENT, EEXIST, EISDIR, ENOTDIR, ENOTEMPTY.
    intros [H|[H|[H|[H|H]]]]; repeat case_match; simplify_eq; lia.
  - intros f p f'. unfold mem_fs_create, mem_fs_read.
    destruct (f !! p) as [[b|]|]; intros [= <-]; by rewrite lookup_insert_eq.
  - intros f p c d. unfold mem_fs_read, mem_fs_append, mem_fs_list. intros H Hl.
    destruct (f !! p) as [[b|]|] eqn:E; simplify_eq. by rewrite lookup_insert_eq.
  - intros f p f'. unfold mem_fs_create, mem_fs_list.
    destruct (f !! p) as [[b|]|]; intros [= <-]; by rewrite lookup_insert_eq.
  - intros f p d. unfold mem_fs_append, mem_fs_list. destruct (f !! p) as [[b|]|] eqn:E; try done.
    by rewrite lookup_insert_eq.
  - intros f p. unfold mem_fs_append. repeat case_match; try done.
    rewrite app_nil_r. by apply insert_id.
  - intros f p c d. unfold mem_fs_append. destruct (f !! p) as [[b|]|] eqn:E; try (rewrite E; done).
    rewrite lookup_insert_eq, insert_insert_eq. by rewrite app_assoc.
  - intros f p f'. unfold mem_fs_mkdir, mem_fs_list. 
    destruct (f !! p); intros [= <-]. rewrite lookup_insert_eq. by eexists.
  - intros f p f'. unfold mem_fs_remove, mem_fs_read.
    destruct (f !! p) as [[b|]|]; [| destruct (omap _ _); [|done] |done];
      intros [= <-]; by rewrite lookup_delete_eq.
Defined.

(** A file system with one directory and one file, for the witnesses. *)
Definition sample_fs : memfs :=
  <[cs "/d" := NDir]> (<[cs "/f" := NFile (cs "hello")]> ∅).

(** A path with no node is created as an empty file. *)
Lemma mem_fs_create_new (f : memfs) p : f !! p = None -> fs_create f p = inr (<[p := NFile []]> f).
Proof. intros H. cbn. unfold mem_fs_create. by rewrite H. Qed.
