(* ===== verification/SdoClient.v ===== *)
(** * src/canopenlinux/sdo_client.c: reading and writing entries of other nodes

    The functions drive the SDO client of CANopenNode until a transfer ends.  The library is
    the class [SdoLib]; [SdoLibLaws] states what its documentation promises, with the bytes
    a transfer has received as ghost state.  The loops run while the library says that the
    transfer is in progress, at most [rounds] times: [UbDeadlock] marks a loop that does not
    end, and the theorems exclude it. *)

From Stdlib Require Import Strings.Byte.
From S2P Require Import Prelude CLib FileSys MemFS.

(** The abort codes of CiA 301 the code uses, as its table lists them. *)
Definition CO_SDO_AB_NONE : Z := 0x00000000.
Definition CO_SDO_AB_DATA_LONG : Z := 0x06070012.
Definition CO_SDO_AB_GENERAL : Z := 0x08000000.
Definition CO_SDO_AB_DATA_LOC_CTRL : Z := 0x08000021.

Definition SDO_TIMEOUT_MS : Z := 1000.

Definition ABORT_CODES : list Z :=
  [0x00000000; 0x05030000; 0x05040000; 0x05040001; 0x05040002; 0x05040003; 0x05040004; 0x05040005;
   0x06010000; 0x06010001; 0x06010002; 0x06020000; 0x06040041; 0x06040042; 0x06040043; 0x06040047;
   0x06060000; 0x06070010; 0x06070012; 0x06070013; 0x06090011; 0x06090030; 0x06090031; 0x06090032;
   0x06090036; 0x060A0023; 0x08000000; 0x08000020; 0x08000021; 0x08000022; 0x08000023; 0x08000024].

Definition ABORT_CODES_STR : list string :=
  ["No abort"; "Toggle bit not altered"; "SDO protocol timed out";
   "Command specifier not valid or unknown"; "Invalid block size in block mode";
   "Invalid sequence number in block mode"; "CRC error (block mode only)"; "Out of memory";
   "Unsupported access to an object"; "Attempt to read a write only object";
   "Attempt to write a read only object"; "Object does not exist in the object dictionary";
   "Object cannot be mapped to the PDO";
   "Number and length of object to be mapped exceeds PDO length";
   "General parameter incompatibility reasons"; "General internal incompatibility in device";
   "Access failed due to hardware error"; "length of service parameter does not match";
   "length of service parameter too high"; "length of service parameter too short";
   "Sub index does not exist"; "Invalid value for parameter (download only).";
   "Value range of parameter written too high"; "Value range of parameter written too low";
   "Maximum value is less than minimum value."; "Resource not available: SDO connection";
   "General error"; "Data cannot be transferred or stored to application";
   "Data cannot be transferred or stored to application because of local control";
   "Data cannot be transferred or stored to application because of present device state";
   "Object dictionary not present or dynamic generation fails"; "No buf available"]%string.

(** The loop goes on after a match: the last one counts. *)
Fixpoint abort_string (code : Z) (codes : list Z) (strs : list string) (r : option string)
  : option string :=
  match codes, strs with
  | x :: codes, s :: strs => abort_string code codes strs (if code =? x then Some s else r)
  | _, _ => r
  end.
Definition get_sdo_abort_string (code : Z) : option string :=
  abort_string code ABORT_CODES ABORT_CODES_STR None.

(** ** The library

    A return value is negative for an abort, 0 when the communication ended and positive
    while it is in progress. *)
Class SdoLib (C : Type) := {
  CO_CAN_ID_SDO_CLI : Z;
  CO_CAN_ID_SDO_SRV : Z;
  CO_SDOclient_setup : C -> Z -> Z -> Z -> Z * C;
  CO_SDOclientUploadInitiate : C -> Z -> Z -> Z -> bool -> Z * C;
  (* the return value, the abort code and the number of bytes transferred *)
  CO_SDOclientUpload : C -> Z -> Z * Z * Z * C;
  (* the bytes copied out of the queue, at most the given number *)
  CO_SDOclientUploadBufRead : C -> Z -> bytes * C;
  CO_SDOclientDownloadInitiate : C -> Z -> Z -> Z -> Z -> bool -> Z * C;
  (* the bytes copied into the queue *)
  CO_SDOclientDownloadBufWrite : C -> bytes -> C;
  CO_SDOclientDownload : C -> Z -> bool -> Z * Z * C;
  bufSize : C -> Z;
  CO_fifo_getSpace : C -> Z;
  (* how often a transfer can still be in progress: it ends by the timeout *)
  rounds : C -> nat;
}.

(** What the responder (ipc_respond.c) uses of an SDO client, on a file system: the abort code,
    for a read the data ([None] for NULL), and the state after the transfer. *)
Class SdoOps (D F : Type) := {
  sdo_read_dynamic : D -> Z -> Z -> Z -> bool -> res (Z * option bytes * D);
  sdo_write : D -> Z -> Z -> Z -> bytes -> res (Z * D);
  sdo_read_to_file : D -> F -> Z -> Z -> Z -> path -> res (Z * D * F);
  sdo_write_from_file : D -> F -> Z -> Z -> Z -> path -> res (Z * D);
}.

(** What the theorems on the responder ask of it: the bytes a read delivers are fewer than half the
    address space. *)
Class SdoLaws (D F : Type) `{SdoOps D F} := {
  sdo_read_size : forall s n i j blk ac d s',
    sdo_read_dynamic s n i j blk = Ret (ac, Some d, s') -> zlen d < 2 ^ 31;
}.

Module Sdo.
Section SdoClient.
Context `{HL : SdoLib C} `{HP : Platform} `{FS : FileSystem F}.

(** What fresh memory holds. *)
Variable junk : byte.

Definition time_diff_us : Z := 10000.

Definition setup (c : C) (node_id : Z) : Z * C :=
  CO_SDOclient_setup c (CO_CAN_ID_SDO_CLI + node_id) (CO_CAN_ID_SDO_SRV + node_id) node_id.

(** [realloc(tmp, n)]. *)
Definition realloc (tmp : option bytes) (n : Z) : bytes :=
  let t := match tmp with Some t => t | None => [] end in
  take (Z.to_nat n) t ++ replicate (Z.to_nat n - length t) junk.

(** The loop of [sdo_read_dynamic]: the abort code and what [*buf] and [*buf_size] give. *)
Fixpoint read_dynamic_loop (fuel : nat) (c : C) (tmp : option bytes) (offset : Z)
  : res (Z * option bytes * C) :=
  match fuel with
  | O => Undef UbDeadlock
  | S fuel =>
      let '(ret, abort_code, size_transfered, c) := CO_SDOclientUpload c time_diff_us in
      if ret <? 0 then mret (abort_code, None, c)
      else
        '(tmp, offset, c) ←
          (if size_transfered =? 0 then Ret (tmp, offset, c)
           else if malloc_ok (size_transfered + 1) then
             let t := realloc tmp (size_transfered + 1) in
             t ← mem_write t size_transfered [NUL];
             let '(d, c) := CO_SDOclientUploadBufRead c size_transfered in
             t ← mem_write t offset d;
             mret (Some t, offset + zlen d, c)
           else Undef UbNull);                     (* tmp is used before the test *)
        if 0 <? ret then read_dynamic_loop fuel c tmp offset
        else if abort_code =? CO_SDO_AB_NONE then
          mret (CO_SDO_AB_NONE, option_map (take (Z.to_nat size_transfered)) tmp, c)
        else mret (CO_SDO_AB_NONE, None, c)
  end.

Definition sdo_read_dynamic (c : C) (node_id index subindex : Z) (block_transfer : bool)
  : res (Z * option bytes * C) :=
  let '(ret, c) := setup c node_id in
  if negb (ret =? 0) then Ret (CO_SDO_AB_GENERAL, None, c) else
  let '(ret, c) := CO_SDOclientUploadInitiate c index subindex SDO_TIMEOUT_MS block_transfer in
  if negb (ret =? 0) then Ret (CO_SDO_AB_GENERAL, None, c) else
  read_dynamic_loop (S (rounds c)) c None 0.

(** The loop of [sdo_read]: the abort code, the buffer and the final [offset]. *)
Fixpoint read_loop (fuel : nat) (c : C) (data : bytes) (buf_size offset : Z)
  : res (Z * bytes * Z * C) :=
  match fuel with
  | O => Undef UbDeadlock
  | S fuel =>
      let '(ret, abort_code, _, c) := CO_SDOclientUpload c time_diff_us in
      if ret <? 0 then mret (abort_code, data, offset, c)
      else
        let '(d, c) := CO_SDOclientUploadBufRead c buf_size in
        data ← mem_write data offset d;
        let offset := offset + zlen d in
        if 0 <? ret then read_loop fuel c data buf_size offset
        else mret (CO_SDO_AB_NONE, data, offset, c)
  end.

(** [read_size] is written on success only. *)
Definition sdo_read (c : C) (node_id index subindex : Z) (buf : bytes) (buf_size : Z)
    (read_size : option Z) : res (Z * bytes * option Z * C) :=
  let '(ret, c) := setup c node_id in
  if negb (ret =? 0) then Ret (CO_SDO_AB_GENERAL, buf, read_size, c) else
  let '(ret, c) := CO_SDOclientUploadInitiate c index subindex SDO_TIMEOUT_MS true in
  if negb (ret =? 0) then Ret (CO_SDO_AB_GENERAL, buf, read_size, c) else
  '(ac, buf, offset, c) ← read_loop (S (rounds c)) c buf buf_size 0;
  mret (ac, buf, (if ac =? CO_SDO_AB_NONE then option_map (fun _ => offset) read_size else read_size), c).

(** [CO_SDOclientDownloadBufWrite(client, &data[offset], count)]: the queue takes as many of
    the [count] bytes as it has space for. *)
Definition buf_write (c : C) (data : bytes) (offset count : Z) : res (Z * C) :=
  let n := Z.min count (CO_fifo_getSpace c) in
  d ← mem_read data offset n;
  mret (n, CO_SDOclientDownloadBufWrite c d).

Fixpoint write_loop (fuel : nat) (c : C) (data : bytes) (buf_size offset : Z) (buffer_partial : bool)
  : res (Z * C) :=
  match fuel with
  | O => Undef UbDeadlock
  | S fuel =>
      '(offset, buffer_partial, c) ←
        (if offset <? buf_size then
           '(n, c) ← buf_write c data offset buf_size;
           mret (offset + n, offset + n <? buf_size, c)
         else mret (offset, buffer_partial, c));
      let '(ret, abort_code, c) := CO_SDOclientDownload c time_diff_us buffer_partial in
      if ret <? 0 then mret (abort_code, c)
      else if 0 <? ret then write_loop fuel c data buf_size offset buffer_partial
      else mret (CO_SDO_AB_NONE, c)
  end.

Definition sdo_write (c : C) (node_id index subindex : Z) (buf : bytes) (buf_size : Z) : res (Z * C) :=
  let '(ret, c) := setup c node_id in
  if negb (ret =? 0) then Ret (CO_SDO_AB_GENERAL, c) else
  let '(ret, c) := CO_SDOclientDownloadInitiate c index subindex buf_size 1000 true in
  if negb (ret =? 0) then Ret (CO_SDO_AB_DATA_LOC_CTRL, c) else
  write_loop (S (rounds c)) c buf buf_size 0 true.

(** The loop of [sdo_read_to_file]; the file is its path. *)
Fixpoint read_to_file_loop (fuel : nat) (c : C) (fs : F) (fp : path) (size : Z) : res (Z * C * F) :=
  match fuel with
  | O => Undef UbDeadlock
  | S fuel =>
      let '(ret, abort_code, _, c) := CO_SDOclientUpload c time_diff_us in
      if ret <? 0 then mret (abort_code, c, fs)
      else
        let '(d, c) := CO_SDOclientUploadBufRead c size in
        b ← mem_write (replicate (Z.to_nat size) junk) 0 d;
        d ← mem_read b 0 (zlen d);
        let fs := fs_append fs fp d in
        if 0 <? ret then read_to_file_loop fuel c fs fp size
        else mret (CO_SDO_AB_NONE, c, fs)
  end.

Definition sdo_read_to_file (c : C) (fs : F) (node_id index subindex : Z) (file_path : path)
  : res (Z * C * F) :=
  let '(ret, c) := setup c node_id in
  if negb (ret =? 0) then Ret (CO_SDO_AB_GENERAL, c, fs) else
  let '(ret, c) := CO_SDOclientUploadInitiate c index subindex 1000 true in
  if negb (ret =? 0) then Ret (CO_SDO_AB_GENERAL, c, fs) else
  match fs_create fs file_path with
  | inl _ => Ret (CO_SDO_AB_GENERAL, c, fs)
  | inr fs => read_to_file_loop (S (rounds c)) c fs file_path (bufSize c)
  end.

(** The loop of [sdo_write_from_file]: [rest] is what the file has left, [buf] the local
    buffer, which keeps the bytes of the round before. *)
Fixpoint write_from_file_loop (fuel : nat) (c : C) (rest buf : bytes) (buf_size offset : Z)
    (buffer_partial : bool) : res (Z * C) :=
  match fuel with
  | O => Undef UbDeadlock
  | S fuel =>
      let space := CO_fifo_getSpace c in
      '(offset, buffer_partial, c, rest, buf) ←
        (if (offset <? buf_size) && (0 <? space) then
           let got := take (Z.to_nat space) rest in
           buf ← mem_write buf 0 got;
           '(n, c) ← buf_write c buf 0 buf_size;
           mret (offset + n, offset + n <? buf_size, c, drop (Z.to_nat space) rest, buf)
         else mret (offset, buffer_partial, c, rest, buf));
      let '(ret, abort_code, c) := CO_SDOclientDownload c time_diff_us buffer_partial in
      if ret <? 0 then mret (abort_code, c)
      else if 0 <? ret then write_from_file_loop fuel c rest buf buf_size offset buffer_partial
      else mret (CO_SDO_AB_NONE, c)
  end.

Definition sdo_write_from_file (c : C) (fs : F) (node_id index subindex : Z) (file_path : path)
  : res (Z * C) :=
  let '(ret, c) := setup c node_id in
  if negb (ret =? 0) then Ret (CO_SDO_AB_GENERAL, c) else
  match fs_read fs file_path with
  | inl _ => Ret (CO_SDO_AB_GENERAL, c)
  | inr content =>
      let buf_size := zlen content in
      let '(ret, c) := CO_SDOclientDownloadInitiate c index subindex buf_size 1000 true in
      if negb (ret =? 0) then Ret (CO_SDO_AB_DATA_LOC_CTRL, c) else
      write_from_file_loop (S (rounds c)) c content (replicate (Z.to_nat (bufSize c)) junk) buf_size 0 true
  end.
End SdoClient.
End Sdo.

(** ** What the library promises

    [received] is what a transfer has received so far and [unread] the part of it still in the
    queue; [accepted] is what a download took from the caller. *)
Class SdoLibLaws (C : Type) `{SdoLib C} := {
  received : C -> bytes;
  unread : C -> bytes;
  total : C -> Z;               (* the size of the transfer at most *)
  accepted : C -> bytes;
  total_bound : forall c, total c < 2 ^ 31;
  space_bound : forall c, 0 <= CO_fifo_getSpace c <= bufSize c;
  unread_bound : forall c, zlen (unread c) <= bufSize c;
  upload_initiate : forall c i j t b c', CO_SDOclientUploadInitiate c i j t b = (0, c') ->
    received c' = [] /\ unread c' = [];
  upload_aborts : forall c t ret ac n c', CO_SDOclientUpload c t = (ret, ac, n, c') ->
    ret < 0 -> ac <> CO_SDO_AB_NONE;
  upload_progress : forall c t ret ac n c', CO_SDOclientUpload c t = (ret, ac, n, c') -> 0 <= ret ->
    ac = CO_SDO_AB_NONE /\
    exists x, received c' = received c ++ x /\ unread c' = unread c ++ x /\
      n = zlen (received c') /\ n <= total c /\ total c' = total c /\ bufSize c' = bufSize c /\
      (0 < ret -> (rounds c' < rounds c)%nat);
  upload_buf_read : forall c n d c', CO_SDOclientUploadBufRead c n = (d, c') -> 0 <= n ->
    d = take (Z.to_nat n) (unread c) /\ unread c' = drop (Z.to_nat n) (unread c) /\
    received c' = received c /\ total c' = total c /\ bufSize c' = bufSize c /\ rounds c' = rounds c;
  download_initiate : forall c i j n t b c', CO_SDOclientDownloadInitiate c i j n t b = (0, c') ->
    accepted c' = [];
  download_buf_write : forall c d, zlen d <= CO_fifo_getSpace c ->
    let c' := CO_SDOclientDownloadBufWrite c d in
    accepted c' = accepted c ++ d /\ rounds c' = rounds c /\ bufSize c' = bufSize c;
  download_aborts : forall c t p ret ac c', CO_SDOclientDownload c t p = (ret, ac, c') ->
    ret < 0 -> ac <> CO_SDO_AB_NONE;
  download_progress : forall c t p ret ac c', CO_SDOclientDownload c t p = (ret, ac, c') -> 0 <= ret ->
    accepted c' = accepted c /\ bufSize c' = bufSize c /\ (0 < ret -> (rounds c' < rounds c)%nat);
}.

(** ** Properties *)

Section SdoProps.
Context `{HL : SdoLib C} `{HLL : !SdoLibLaws C} `{HP : Platform} `{FS : FileSystem F}.
Variable junk : byte.

Lemma realloc_prefix (t : bytes) p n :
  (exists rest, t = p ++ rest) -> zlen p <= n ->
  exists rest, Sdo.realloc junk (Some t) n = p ++ rest /\ zlen (p ++ rest) = n.
Proof.
  intros [rest ->] Hn. unfold Sdo.realloc. pose proof (zlen_nonneg p).
  rewrite take_app_ge by zlia. rewrite <- app_assoc. eexists. split; [done|].
  unfold zlen in *. rewrite !length_app, length_take, length_replicate. lia.
Qed.

Lemma realloc_None n : 0 <= n -> zlen (Sdo.realloc junk None n) = n.
Proof.
  intros. unfold Sdo.realloc, zlen. rewrite take_nil, length_app, length_replicate. cbn [length]. lia.
Qed.

(** The buffer of a dynamic read holds what was received. *)
Definition holds (tmp : option bytes) (got : bytes) : Prop :=
  match tmp with Some t => exists rest, t = got ++ rest | None => got = [] end.

Lemma realloc_holds tmp got n :
  holds tmp got -> zlen got <= n ->
  exists rest, Sdo.realloc junk tmp n = got ++ rest /\ zlen (got ++ rest) = n.
Proof.
  intros Hh Hn. pose proof (zlen_nonneg got). destruct tmp as [t|]; [by apply realloc_prefix|].
  cbn in Hh. subst got. eexists. split; [done|]. apply realloc_None. lia.
Qed.

(** A segment stored after what was received, and the terminator before it. *)
Lemma store_segment (got rest x : bytes) :
  zlen (got ++ rest) = zlen (got ++ x) + 1 ->
  (t ← mem_write (got ++ rest) (zlen (got ++ x)) [NUL]; mem_write t (zlen got) x)
  = Ret ((got ++ x) ++ [NUL]).
Proof.
  intros Hl. pose proof (zlen_nonneg (got ++ x)).
  rewrite mem_write_ok; [|lia|change (zlen [NUL]) with 1; lia]. run.
  rewrite (drop_ge (got ++ rest)) by zlia. rewrite app_nil_r, take_app_ge by zlia.
  set (fill := take _ rest).
  assert (length fill = length x) as Hf.
  { subst fill. rewrite length_take. unfold zlen in *. rewrite !length_app in *. lia. }
  rewrite mem_write_ok; [|apply zlen_nonneg|].
  2:{ unfold zlen. rewrite !length_app. simpl. lia. }
  unfold zlen. rewrite Nat2Z.id, <- !app_assoc, take_app_length. do 3 f_equal.
  rewrite drop_app_ge by lia. replace (length got + length x - length got)%nat with (length fill) by lia.
  by rewrite drop_app_length.
Qed.

(** One round of a dynamic read in progress. *)
Lemma read_dynamic_round c tmp ret ac n c1 :
  CO_SDOclientUpload c Sdo.time_diff_us = (ret, ac, n, c1) -> 0 <= ret ->
  unread c = [] -> holds tmp (received c) -> n = 0 \/ malloc_ok (n + 1) = true ->
  exists tmp' c2,
    (if n =? 0 then Ret (tmp, zlen (received c), c1)
     else if malloc_ok (n + 1) then
       t ← mem_write (Sdo.realloc junk tmp (n + 1)) n [NUL];
       let '(d, c2) := CO_SDOclientUploadBufRead c1 n in
       t ← mem_write t (zlen (received c)) d;
       mret (Some t, zlen (received c) + zlen d, c2)
     else Undef UbNull) = Ret (tmp', zlen (received c2), c2) /\
    unread c2 = [] /\ holds tmp' (received c2) /\ n = zlen (received c2) /\ rounds c2 = rounds c1 /\
    (tmp' = None -> received c2 = []).
Proof.
  intros Hup Hret Hun Hh Hm.
  destruct (upload_progress _ _ _ _ _ _ Hup Hret) as (_ & x & Hrec & Hunr & -> & _).
  rewrite Hun in Hunr. cbn [app] in Hunr. pose proof (zlen_nonneg (received c)).
  assert (zlen (received c1) = zlen (received c) + zlen x) as Hlen by (rewrite Hrec; apply zlen_app).
  pose proof (zlen_nonneg x). destruct (Z.eqb_spec (zlen (received c1)) 0) as [E|E].
  - assert (x = []) as -> by (destruct x; [done|zlia]).
    assert (received c = []) as Hc by (destruct (received c); [done|zlia]).
    exists tmp, c1. rewrite Hrec, app_nil_r. by rewrite Hunr, Hc in *.
  - destruct Hm as [?|Hm]; [done|]. rewrite Hm.
    destruct (CO_SDOclientUploadBufRead c1 (zlen (received c1))) as [d c2] eqn:Hb.
    destruct (upload_buf_read _ _ _ _ Hb ltac:(lia)) as (-> & Hun2 & Hrec2 & _ & _ & Hro).
    rewrite Hunr in *. rewrite take_ge in * by zlia. rewrite drop_ge in Hun2 by zlia.
    destruct (realloc_holds tmp (received c) (zlen (received c1) + 1) Hh) as (rest & -> & Hl); [lia|].
    pose proof (store_segment (received c) rest x) as Hs. rewrite <- Hrec in Hs.
    exists (Some (received c1 ++ [NUL])), c2. rewrite Hun2, Hrec2, Hro.
    destruct (mem_write _ _ [NUL]) as [t|u]; cbn [mbind res_bind] in *; [|by specialize (Hs Hl)].
    rewrite (Hs Hl). run. rewrite Hlen. split_and!; try done. by exists [NUL].
Qed.

(** What a read of any size gives: an abort code, or exactly what was received (NULL when that
    is nothing). *)
Definition read_result (ac : Z) (data : option bytes) (c' : C) : Prop :=
  match data with
  | Some d => ac = CO_SDO_AB_NONE /\ d = received c' /\ zlen d < 2 ^ 31
  | None => ac <> CO_SDO_AB_NONE \/ received c' = []
  end.

(** A read that is not defined has met a failed allocation. *)
Definition out_of_memory (u : ub) : Prop := u = UbNull /\ exists k, malloc_ok k = false.

Lemma read_dynamic_loop_receives fuel c tmp :
  (rounds c < fuel)%nat -> unread c = [] -> holds tmp (received c) ->
  match Sdo.read_dynamic_loop junk fuel c tmp (zlen (received c)) with
  | Ret (ac, data, c') => read_result ac data c'
  | Undef u => out_of_memory u
  end.
Proof.
  revert c tmp. induction fuel as [|fuel IH]; intros c tmp Hfuel Hun Hh; [lia|].
  cbn [Sdo.read_dynamic_loop].
  destruct (CO_SDOclientUpload c Sdo.time_diff_us) as [[[ret ac] n] c1] eqn:Hup.
  destruct (Z.ltb_spec ret 0) as [Hneg|Hret]; [left; by eapply upload_aborts|].
  destruct (upload_progress _ _ _ _ _ _ Hup Hret) as (-> & x & Hrec & _ & _ & Hn & _ & _ & Hro).
  destruct (decide (n = 0 \/ malloc_ok (n + 1) = true)) as [Hm|Hm].
  2:{ rewrite (proj2 (Z.eqb_neq n 0)) by tauto. destruct (malloc_ok (n + 1)) eqn:Hf; [tauto|].
      split; [done|by eexists]. }
  destruct (read_dynamic_round c tmp ret _ n c1 Hup Hret Hun Hh Hm)
    as (tmp' & c2 & -> & Hun2 & Hh2 & Hlen & Hro2 & Hnone). run.
  destruct (Z.ltb_spec 0 ret) as [Hpos|Hend].
  { apply IH; [|done|done]. specialize (Hro Hpos). lia. }
  rewrite Z.eqb_refl. destruct tmp' as [t|]; cbn [option_map read_result mret res_ret].
  - destruct Hh2 as [rest ->]. pose proof (total_bound c).
    assert (take (Z.to_nat n) (received c2 ++ rest) = received c2) as ->.
    { rewrite Hlen. unfold zlen. by rewrite Nat2Z.id, take_app_length. }
    split; [done|]. split; [done|lia].
  - right. by apply Hnone.
Qed.

Lemma read_dynamic_outcome c node_id index subindex block_transfer :
  match Sdo.sdo_read_dynamic junk c node_id index subindex block_transfer with
  | Ret (ac, data, c') => read_result ac data c'
  | Undef u => out_of_memory u
  end.
Proof.
  unfold Sdo.sdo_read_dynamic, Sdo.setup.
  destruct (CO_SDOclient_setup _ _ _ _) as [ret c1]. destruct (negb (ret =? 0)); [by left|].
  destruct (CO_SDOclientUploadInitiate _ _ _ _ _) as [ret2 c2] eqn:Hi.
  destruct (Z.eqb_spec ret2 0) as [->|]; cbn [negb]; [|by left].
  destruct (upload_initiate _ _ _ _ _ _ Hi) as [Hrec Hun].
  pose proof (read_dynamic_loop_receives (S (rounds c2)) c2 None) as H. rewrite Hrec in H. by apply H; [lia|..].
Qed.

(** C13: a read of any size ends, when memory can be allocated, without leaving its buffer, with an abort
    code or with exactly the bytes the node sent, however they are cut into segments. *)
Theorem sdo_read_dynamic_receives (malloc_succeeds : forall k, malloc_ok k = true)
    c node_id index subindex block_transfer :
  exists ac data c', Sdo.sdo_read_dynamic junk c node_id index subindex block_transfer = Ret (ac, data, c') /\
    read_result ac data c'.
Proof.
  pose proof (read_dynamic_outcome c node_id index subindex block_transfer) as H.
  destruct (Sdo.sdo_read_dynamic _ _ _ _ _ _) as [[[ac data] c']|u]; [by eexists _, _, _|].
  destruct H as [_ [k Hk]]. by rewrite malloc_succeeds in Hk.
Qed.

(** *** Reads into a buffer of the caller *)

Lemma read_round c ret ac n c1 size d c2 :
  CO_SDOclientUpload c Sdo.time_diff_us = (ret, ac, n, c1) -> 0 <= ret -> unread c = [] ->
  CO_SDOclientUploadBufRead c1 size = (d, c2) -> zlen (received c1) <= zlen (received c) + size ->
  0 <= size ->
  received c2 = received c ++ d /\ unread c2 = [] /\ total c2 = total c /\ bufSize c2 = bufSize c
  /\ zlen (received c2) <= total c /\ (0 < ret -> (rounds c2 < rounds c)%nat).
Proof.
  intros Hup Hret Hun Hb Hl Hs.
  destruct (upload_progress _ _ _ _ _ _ Hup Hret) as (_ & x & Hrec & Hunr & -> & Hn & Ht & Hbuf & Hro).
  destruct (upload_buf_read _ _ _ _ Hb Hs) as (-> & Hun2 & Hrec2 & Ht2 & Hbuf2 & Hro2).
  rewrite Hun in Hunr. cbn [app] in Hunr. rewrite Hrec, zlen_app in Hl.
  rewrite Hunr, take_ge by zlia. rewrite Hunr, drop_ge in Hun2 by zlia.
  rewrite Hrec2, Hrec, Hun2. rewrite Hro2, Ht2, Hbuf2.
  split_and!; try done. by rewrite <- Hrec.
Qed.

(** The caller's object [buf], with what was received at its start. *)
Definition overlaid (got buf : bytes) : bytes := got ++ drop (length got) buf.

Lemma overlaid_write got d buf :
  zlen (got ++ d) <= zlen buf -> mem_write (overlaid got buf) (zlen got) d = Ret (overlaid (got ++ d) buf).
Proof.
  intros Hl. unfold overlaid. pose proof (zlen_nonneg got). unfold zlen in *. rewrite length_app in *.
  rewrite mem_write_ok; [|lia|unfold zlen; rewrite length_app, length_drop; lia].
  rewrite Nat2Z.id, take_app_length, drop_app_ge, drop_drop by lia. rewrite <- app_assoc. do 4 f_equal. lia.
Qed.

Lemma zlen_overlaid got buf : zlen got <= zlen buf -> zlen (overlaid got buf) = zlen buf.
Proof. intros. unfold overlaid, zlen in *. rewrite length_app, length_drop. lia. Qed.

Lemma read_loop_fits fuel c buf :
  (rounds c < fuel)%nat -> unread c = [] -> zlen (received c) <= zlen buf -> total c <= zlen buf ->
  exists ac buf' n c', Sdo.read_loop fuel c (overlaid (received c) buf) (zlen buf) (zlen (received c)) = Ret (ac, buf', n, c') /\
    zlen buf' = zlen buf /\
    (ac = CO_SDO_AB_NONE -> n = zlen (received c') /\ zlen (received c') <= zlen buf
       /\ buf' = overlaid (received c') buf).
Proof.
  revert c. induction fuel as [|fuel IH]; intros c Hfuel Hun Hgot Htot; [lia|].
  cbn [Sdo.read_loop].
  destruct (CO_SDOclientUpload c Sdo.time_diff_us) as [[[ret ac] n] c1] eqn:Hup.
  destruct (Z.ltb_spec ret 0) as [Hneg|Hret].
  { eexists _, _, _, _. split; [done|]. split; [by apply zlen_overlaid|]. intros Hac.
    by destruct (upload_aborts _ _ _ _ _ _ Hup Hneg). }
  destruct (CO_SDOclientUploadBufRead c1 (zlen buf)) as [d c2] eqn:Hb. pose proof (zlen_nonneg buf).
  destruct (upload_progress _ _ _ _ _ _ Hup Hret) as (_ & _ & _ & _ & Hn & Hnt & _).
  pose proof (zlen_nonneg (received c)).
  destruct (read_round c ret ac n c1 (zlen buf) d c2 Hup Hret Hun Hb) as (Hrec & Hun2 & Ht2 & _ & Hle & Hro);
    [lia|lia|].
  rewrite overlaid_write by (rewrite <- Hrec; lia). run.
  replace (zlen (received c) + zlen d) with (zlen (received c2)) by (rewrite Hrec, zlen_app; lia).
  rewrite <- Hrec. destruct (Z.ltb_spec 0 ret) as [Hpos|Hend].
  - apply IH; [specialize (Hro Hpos); lia|done|lia|lia].
  - eexists _, _, _, c2. split; [done|]. split; [by apply zlen_overlaid; lia|]. intros _. split_and!; [done|lia|done].
Qed.

(** The client of a transfer the library started. *)
Definition started (c : C) (node_id : Z) (initiate : C -> Z * C) (c1 : C) : Prop :=
  exists c0, Sdo.setup c node_id = (0, c0) /\ initiate c0 = (0, c1).

Lemma read_fits c node_id index subindex buf n0 c1 :
  started c node_id (fun c => CO_SDOclientUploadInitiate c index subindex SDO_TIMEOUT_MS true) c1 ->
  total c1 <= zlen buf ->
  exists ac buf' n c', Sdo.sdo_read c node_id index subindex buf (zlen buf) n0 = Ret (ac, buf', n, c') /\
    zlen buf' = zlen buf /\
    (ac = CO_SDO_AB_NONE -> n = option_map (fun _ => zlen (received c')) n0 /\
       zlen (received c') <= zlen buf /\ buf' = overlaid (received c') buf).
Proof.
  intros (c0 & Hset & Hinit) Htot. unfold Sdo.sdo_read. rewrite Hset, Hinit. cbn [Z.eqb negb].
  destruct (upload_initiate _ _ _ _ _ _ Hinit) as [Hrec Hun].
  destruct (read_loop_fits (S (rounds c1)) c1 buf) as (ac & buf' & n & c' & He & Hl & Hac);
    [lia|done|rewrite Hrec; exact (zlen_nonneg buf)|done|].
  rewrite Hrec in He. change (overlaid [] buf) with buf in He. change (zlen []) with 0 in He. rewrite He. run.
  eexists _, _, _, _. split; [done|]. split; [done|]. intros ->.
  destruct (Hac eq_refl) as [-> Hb]. by rewrite Z.eqb_refl.
Qed.

(** A read of at most the size of the caller's buffer ends with an abort code or with the
    bytes of the node at the start of the buffer and their number; the rest of the buffer
    keeps what it held. *)
Theorem sdo_read_fits c node_id index subindex buf n0 c1 :
  started c node_id (fun c => CO_SDOclientUploadInitiate c index subindex SDO_TIMEOUT_MS true) c1 ->
  total c1 <= zlen buf ->
  exists ac buf' n c', Sdo.sdo_read c node_id index subindex buf (zlen buf) (Some n0) = Ret (ac, buf', n, c') /\
    zlen buf' = zlen buf /\
    (ac = CO_SDO_AB_NONE -> n = Some (zlen (received c')) /\
       zlen (received c') <= zlen buf /\ buf' = overlaid (received c') buf).
Proof. apply read_fits. Qed.

(** The space left is not what the library is told: when the second segment of a transfer
    does not fit the rest of the caller's buffer, it is copied past its end. *)
Theorem sdo_read_overflow c node_id index subindex buf n0 c1 ret1 ac1 n1 c2 d1 c3 ret2 ac2 n2 c4 :
  started c node_id (fun c => CO_SDOclientUploadInitiate c index subindex SDO_TIMEOUT_MS true) c1 ->
  CO_SDOclientUpload c1 Sdo.time_diff_us = (ret1, ac1, n1, c2) -> 0 < ret1 ->
  CO_SDOclientUploadBufRead c2 (zlen buf) = (d1, c3) -> 0 < n1 <= zlen buf ->
  CO_SDOclientUpload c3 Sdo.time_diff_us = (ret2, ac2, n2, c4) -> 0 <= ret2 -> zlen buf < n2 ->
  Sdo.sdo_read c node_id index subindex buf (zlen buf) n0 = Undef UbBounds.
Proof.
  intros (c0 & Hset & Hinit) Hup1 Hpos Hb1 Hn1 Hup2 Hret2 Hn2.
  unfold Sdo.sdo_read. rewrite Hset, Hinit. cbn [Z.eqb negb].
  destruct (upload_initiate _ _ _ _ _ _ Hinit) as [Hrec Hun].
  destruct (upload_progress _ _ _ _ _ _ Hup1) as (_ & x1 & Hx1 & Hu1 & -> & _ & _ & _ & Hro1); [lia|].
  specialize (Hro1 Hpos). destruct (upload_buf_read _ _ _ _ Hb1) as (-> & Hu2 & Hx2 & _ & _ & Hro2); [lia|].
  rewrite Hrec in Hx1. rewrite Hun in Hu1. cbn [app] in Hx1, Hu1. rewrite Hx1 in *. rewrite Hu1 in *.
  rewrite drop_ge in Hu2 by zlia.
  destruct (upload_progress _ _ _ _ _ _ Hup2 Hret2) as (_ & x2 & Hx3 & Hu3 & -> & _).
  rewrite Hx2 in Hx3. rewrite Hu2 in Hu3. cbn [app] in Hu3.
  cbn [Sdo.read_loop]. rewrite Hup1, (proj2 (Z.ltb_ge _ _)) by lia. rewrite Hb1.
  rewrite take_ge by zlia. rewrite mem_write_ok by lia. run.
  rewrite (proj2 (Z.ltb_lt _ _)) by lia.
  destruct (rounds c1) as [|fuel] eqn:Ef; [lia|]. cbn [Sdo.read_loop].
  rewrite Hup2, (proj2 (Z.ltb_ge _ _)) by lia.
  destruct (CO_SDOclientUploadBufRead c4 (zlen buf)) as [d2 c5] eqn:Hb2.
  destruct (upload_buf_read _ _ _ _ Hb2) as (-> & _); [lia|].
  rewrite mem_write_oob; [done|]. rewrite Hu3, Hx3 in *. set (m := take _ buf ++ _).
  assert (zlen m = zlen buf) as ->.
  { subst m. unfold zlen in *. rewrite !length_app, length_take, length_drop. lia. }
  unfold zlen in *. rewrite length_app in *. rewrite length_take. lia.
Qed.

(** *** Writes *)

Lemma download_loop_ends fuel c data size offset p :
  (rounds c < fuel)%nat -> size <= offset ->
  exists ac c', Sdo.write_loop fuel c data size offset p = Ret (ac, c') /\
    (ac = CO_SDO_AB_NONE -> accepted c' = accepted c).
Proof.
  revert c. induction fuel as [|fuel IH]; intros c Hfuel Ho; [lia|]. cbn [Sdo.write_loop].
  rewrite (proj2 (Z.ltb_ge _ _)) by done. run.
  destruct (CO_SDOclientDownload c Sdo.time_diff_us p) as [[ret ac] c1] eqn:Hd.
  destruct (Z.ltb_spec ret 0) as [Hneg|Hret].
  { eexists _, _. split; [done|]. intros Hac. by destruct (download_aborts _ _ _ _ _ _ Hd Hneg). }
  destruct (download_progress _ _ _ _ _ _ Hd Hret) as (Hacc & _ & Hro).
  destruct (Z.ltb_spec 0 ret) as [Hpos|].
  - destruct (IH c1) as (ac' & c' & -> & H'); [specialize (Hro Hpos); lia|done|].
    eexists _, _. split; [done|]. intros Hac. by rewrite H'.
  - eexists _, _. by split.
Qed.

Lemma write_once fuel c data p :
  (rounds c < S fuel)%nat -> data <> [] -> zlen data <= CO_fifo_getSpace c -> accepted c = [] ->
  exists ac c', Sdo.write_loop (S fuel) c data (zlen data) 0 p = Ret (ac, c') /\
    (ac = CO_SDO_AB_NONE -> accepted c' = data).
Proof.
  intros Hfuel Hne Hsp Hacc. cbn [Sdo.write_loop]. pose proof (zlen_pos data Hne).
  rewrite (proj2 (Z.ltb_lt _ _)) by done. unfold Sdo.buf_write.
  rewrite Z.min_l by done. rewrite mem_read_ok by lia. rewrite drop_0, take_zlen. run.
  destruct (download_buf_write c data Hsp) as (Ha & Hr & _). rewrite Hacc in Ha. cbn [app] in Ha.
  set (c1 := CO_SDOclientDownloadBufWrite c data) in *. rewrite Z.add_0_l.
  destruct (CO_SDOclientDownload c1 Sdo.time_diff_us _) as [[ret ac] c2] eqn:Hd.
  destruct (Z.ltb_spec ret 0) as [Hneg|Hret].
  { eexists _, _. split; [done|]. intros Hac. by destruct (download_aborts _ _ _ _ _ _ Hd Hneg). }
  destruct (download_progress _ _ _ _ _ _ Hd Hret) as (Hacc2 & _ & Hro).
  destruct (Z.ltb_spec 0 ret) as [Hpos|].
  - destruct (download_loop_ends fuel c2 data (zlen data) (zlen data) (zlen data <? zlen data))
      as (ac' & c' & -> & H'); [specialize (Hro Hpos); lia|lia|].
    eexists _, _. split; [done|]. intros Hac. rewrite H' by done. congruence.
  - eexists _, _. split; [done|]. intros _. congruence.
Qed.

Definition download_started (c : C) (node_id index subindex size : Z) (c1 : C) : Prop :=
  started c node_id (fun c => CO_SDOclientDownloadInitiate c index subindex size 1000 true) c1.

Lemma write_sends c node_id index subindex data c1 :
  download_started c node_id index subindex (zlen data) c1 -> data <> [] ->
  zlen data <= CO_fifo_getSpace c1 ->
  exists ac c', Sdo.sdo_write c node_id index subindex data (zlen data) = Ret (ac, c') /\
    (ac = CO_SDO_AB_NONE -> accepted c' = data).
Proof.
  intros (c0 & Hset & Hinit) Hne Hsp. unfold Sdo.sdo_write. rewrite Hset, Hinit. cbn [Z.eqb negb].
  apply write_once; [lia|done|done|]. by apply download_initiate in Hinit.
Qed.

(** A write that fits the queue of the client ends, and on success the client took exactly
    the bytes of the caller. *)
Theorem sdo_write_sends c node_id index subindex data c1 :
  download_started c node_id index subindex (zlen data) c1 -> data <> [] ->
  zlen data <= CO_fifo_getSpace c1 ->
  exists ac c', Sdo.sdo_write c node_id index subindex data (zlen data) = Ret (ac, c') /\
    (ac = CO_SDO_AB_NONE -> accepted c' = data).
Proof. apply write_sends. Qed.

(** A longer write goes on with the size of the whole: when the queue then has more space
    than there are bytes left, the library is given memory past the caller's. *)
Theorem sdo_write_overread c node_id index subindex data c1 ret ac c2 :
  download_started c node_id index subindex (zlen data) c1 ->
  let s := CO_fifo_getSpace c1 in
  0 < s < zlen data ->
  CO_SDOclientDownload (CO_SDOclientDownloadBufWrite c1 (take (Z.to_nat s) data)) Sdo.time_diff_us true
    = (ret, ac, c2) -> 0 < ret -> zlen data - s < CO_fifo_getSpace c2 ->
  Sdo.sdo_write c node_id index subindex data (zlen data) = Undef UbBounds.
Proof.
  intros (c0 & Hset & Hinit) s Hs Hd Hret Hsp. unfold Sdo.sdo_write. rewrite Hset, Hinit. cbn [Z.eqb negb].
  cbn [Sdo.write_loop]. rewrite (proj2 (Z.ltb_lt _ _)) by lia. unfold Sdo.buf_write at 1. fold s.
  rewrite Z.min_r by lia. rewrite mem_read_ok by lia. rewrite drop_0. run. rewrite Z.add_0_l.
  rewrite (proj2 (Z.ltb_lt s _)) by lia. rewrite Hd, (proj2 (Z.ltb_ge _ _)) by lia.
  rewrite (proj2 (Z.ltb_lt 0 ret)) by lia.
  set (d := take _ data) in *.
  assert (zlen d = s) as Hdl by (subst d; apply zlen_take; lia).
  destruct (download_buf_write c1 d) as (_ & Hr1 & _); [fold s; lia|].
  destruct (download_progress _ _ _ _ _ _ Hd) as (_ & _ & Hr2); [lia|]. specialize (Hr2 Hret).
  destruct (rounds c1) as [|fuel]; [lia|]. cbn [Sdo.write_loop].
  rewrite (proj2 (Z.ltb_lt s _)) by lia. unfold Sdo.buf_write.
  rewrite mem_read_oob by lia. done.
Qed.

(** *** Transfers between files and nodes *)

Lemma read_to_file_loop_receives fuel c fs fp size :
  (rounds c < fuel)%nat -> unread c = [] -> bufSize c = size ->
  fs_read fs fp = inr (received c) -> fs_list fs fp = inl ENOTDIR ->
  exists ac c' fs', Sdo.read_to_file_loop junk fuel c fs fp size = Ret (ac, c', fs') /\
    (ac = CO_SDO_AB_NONE -> fs_read fs' fp = inr (received c')).
Proof.
  revert c fs. induction fuel as [|fuel IH]; intros c fs Hfuel Hun Hsize Hread Hfile; [lia|].
  cbn [Sdo.read_to_file_loop].
  destruct (CO_SDOclientUpload c Sdo.time_diff_us) as [[[ret ac] n] c1] eqn:Hup.
  destruct (Z.ltb_spec ret 0) as [Hneg|Hret].
  { eexists _, _, _. split; [done|]. intros Hac. by destruct (upload_aborts _ _ _ _ _ _ Hup Hneg). }
  destruct (upload_progress _ _ _ _ _ _ Hup Hret) as (_ & x & Hrec & Hunr & _ & _ & _ & Hbs & _).
  rewrite Hun in Hunr. cbn [app] in Hunr. pose proof (unread_bound c1) as Hx. rewrite Hunr, Hbs, Hsize in Hx.
  pose proof (zlen_nonneg x).
  destruct (CO_SDOclientUploadBufRead c1 size) as [d c2] eqn:Hb.
  pose proof (upload_buf_read _ _ _ _ Hb ltac:(lia)) as (Hd & _). rewrite Hunr, take_ge in Hd by zlia. subst d.
  destruct (read_round c ret ac n c1 size x c2 Hup Hret Hun Hb) as (Hrec2 & Hun2 & _ & Hbs2 & _ & Hro);
    [rewrite Hrec, zlen_app; lia|lia|].
  rewrite mem_write_ok; [|lia|rewrite zlen_replicate; lia]. run.
  change (take (Z.to_nat 0) _) with (@nil byte). cbn [app]. rewrite mem_read_ok; [|lia|lia|].
  2:{ rewrite zlen_app. pose proof (zlen_nonneg (drop (Z.to_nat 0 + length x) (replicate (Z.to_nat size) junk))). lia. }
  rewrite drop_0. unfold zlen at 1. rewrite Nat2Z.id, take_app_length. run.
  pose proof (fs_append_read fs fp _ x Hread Hfile) as Hread2. rewrite <- Hrec2 in Hread2.
  pose proof (fs_append_file fs fp x Hfile) as Hfile2.
  destruct (Z.ltb_spec 0 ret) as [Hpos|].
  - apply IH; [specialize (Hro Hpos); lia|done|congruence|done|done].
  - eexists _, _, _. by split.
Qed.

Lemma read_to_file_receives c fs node_id index subindex p :
  exists ac c' fs', Sdo.sdo_read_to_file junk c fs node_id index subindex p = Ret (ac, c', fs') /\
    (ac = CO_SDO_AB_NONE -> fs_read fs' p = inr (received c')).
Proof.
  unfold Sdo.sdo_read_to_file. destruct (Sdo.setup c node_id) as [ret c1].
  destruct (negb (ret =? 0)); [by eexists _, _, _|].
  destruct (CO_SDOclientUploadInitiate _ _ _ _ _) as [ret2 c2] eqn:Hi.
  destruct (Z.eqb_spec ret2 0) as [->|]; cbn [negb]; [|by eexists _, _, _].
  destruct (upload_initiate _ _ _ _ _ _ Hi) as [Hrec Hun].
  destruct (fs_create fs p) as [e|fs1] eqn:Hc; [by eexists _, _, _|].
  apply read_to_file_loop_receives; [lia|done|done|rewrite Hrec; by apply fs_create_read in Hc|].
  by apply fs_create_file in Hc.
Qed.

(** A read to a file ends, and on success the file holds exactly what the node sent. *)
Theorem sdo_read_to_file_receives c fs node_id index subindex p :
  exists ac c' fs', Sdo.sdo_read_to_file junk c fs node_id index subindex p = Ret (ac, c', fs') /\
    (ac = CO_SDO_AB_NONE -> fs_read fs' p = inr (received c')).
Proof. apply read_to_file_receives. Qed.

Lemma bufSize_nonneg c : 0 <= bufSize c.
Proof. pose proof (space_bound c). lia. Qed.

Lemma write_from_file_loop_ends fuel c rest buf size offset p :
  (rounds c < fuel)%nat -> zlen buf = bufSize c -> 0 <= size ->
  exists ac c', Sdo.write_from_file_loop fuel c rest buf size offset p = Ret (ac, c') /\
    (ac = CO_SDO_AB_NONE -> size <= offset -> accepted c' = accepted c).
Proof.
  revert c rest buf offset p.
  induction fuel as [|fuel IH]; intros c rest buf offset p Hfuel Hbuf Hsize; [lia|].
  cbn [Sdo.write_from_file_loop]. pose proof (space_bound c) as Hsp.
  set (body := if _ && _ then _ else _).
  assert (exists offset' p' c1 rest' buf', body = Ret (offset', p', c1, rest', buf') /\
    rounds c1 = rounds c /\ bufSize c1 = bufSize c /\ zlen buf' = zlen buf /\
    (size <= offset -> offset' = offset /\ accepted c1 = accepted c))
    as (offset' & p' & c1 & rest' & buf' & -> & Hr & Hb & Hbl & Hkeep).
  { subst body. destruct (Z.ltb_spec offset size) as [Ho|Ho]; cbn [andb].
    2:{ by eexists _, _, _, _, _. }
    destruct (Z.ltb_spec 0 (CO_fifo_getSpace c)) as [Hpos|Hpos]; cbn [andb].
    2:{ by eexists _, _, _, _, _. }
    destruct (mem_write buf 0 (take _ rest)) as [b|u] eqn:Hw.
    2:{ rewrite mem_write_ok in Hw; [done|lia|]. unfold zlen in *. rewrite length_take. lia. }
    apply mem_write_length in Hw. assert (zlen b = zlen buf) as Hbl by (unfold zlen; congruence).
    run. unfold Sdo.buf_write. rewrite mem_read_ok by lia. run.
    eexists _, _, _, _, _. split; [done|]. rewrite drop_0.
    destruct (download_buf_write c (take (Z.to_nat (Z.min size (CO_fifo_getSpace c))) b)) as (_ & Hr & Hb).
    { rewrite zlen_take; lia. }
    split_and!; [done|done|done|]. lia. }
  run. destruct (CO_SDOclientDownload c1 Sdo.time_diff_us p') as [[ret ac] c2] eqn:Hd.
  destruct (Z.ltb_spec ret 0) as [Hneg|Hret].
  { eexists _, _. split; [done|]. intros Hac. by destruct (download_aborts _ _ _ _ _ _ Hd Hneg). }
  destruct (download_progress _ _ _ _ _ _ Hd Hret) as (Hacc & Hb2 & Hro).
  destruct (Z.ltb_spec 0 ret) as [Hpos|].
  - destruct (IH c2 rest' buf' offset' p') as (ac' & c' & -> & H');
      [specialize (Hro Hpos); lia|congruence|done|].
    eexists _, _. split; [done|]. intros Hac Ho. destruct (Hkeep Ho) as [-> Hacc1].
    rewrite H' by done. congruence.
  - eexists _, _. split; [done|]. intros _ Ho. destruct (Hkeep Ho) as [_ Hacc1]. congruence.
Qed.

(** A write from a file ends within bounds, and when the file fits the queue of the client
    then on success the client took exactly its bytes. *)
Theorem sdo_write_from_file_sends c fs node_id index subindex p content :
  fs_read fs p = inr content -> content <> [] ->
  exists ac c', Sdo.sdo_write_from_file junk c fs node_id index subindex p = Ret (ac, c') /\
    forall c1, download_started c node_id index subindex (zlen content) c1 ->
      zlen content <= CO_fifo_getSpace c1 -> ac = CO_SDO_AB_NONE -> accepted c' = content.
Proof.
  intros Hread Hne. unfold Sdo.sdo_write_from_file, download_started, started.
  destruct (Sdo.setup c node_id) as [ret c0].
  destruct (Z.eqb_spec ret 0) as [->|Hr]; cbn [negb].
  2:{ eexists _, _. split; [done|]. by intros c1 (? & [= ? _] & _). }
  rewrite Hread. destruct (CO_SDOclientDownloadInitiate _ _ _ _ _ _) as [ret2 c1] eqn:Hi.
  destruct (Z.eqb_spec ret2 0) as [->|Hr2]; cbn [negb].
  2:{ eexists _, _. split; [done|]. intros c2 (c0' & [= <-] & Hi'). cbv beta in Hi'. congruence. }
  pose proof (download_initiate _ _ _ _ _ _ _ Hi) as Hacc0. pose proof (bufSize_nonneg c1) as Hbs.
  destruct (decide (zlen content <= CO_fifo_getSpace c1)) as [Hsp|Hsp].
  - cbn [Sdo.write_from_file_loop]. pose proof (zlen_pos content Hne). pose proof (space_bound c1).
    rewrite (proj2 (Z.ltb_lt 0 _)) by done. rewrite (proj2 (Z.ltb_lt 0 (CO_fifo_getSpace c1))) by lia.
    cbn [andb]. rewrite take_ge by zlia. rewrite mem_write_ok; [|lia|rewrite zlen_replicate; lia]. run.
    change (take (Z.to_nat 0) _) with (@nil byte). cbn [app]. set (fill := drop _ (replicate _ _)).
    unfold Sdo.buf_write. rewrite Z.min_l by done.
    rewrite mem_read_ok; [|lia|lia|rewrite zlen_app; pose proof (zlen_nonneg fill); lia]. run.
    rewrite drop_0. assert (take (Z.to_nat (zlen content)) (content ++ fill) = content) as ->.
    { unfold zlen. by rewrite Nat2Z.id, take_app_length. }
    destruct (download_buf_write c1 content Hsp) as (Ha & Hro1 & Hb1). rewrite Hacc0 in Ha. cbn [app] in Ha.
    set (c2 := CO_SDOclientDownloadBufWrite c1 content) in *. rewrite Z.add_0_l.
    destruct (CO_SDOclientDownload c2 Sdo.time_diff_us _) as [[ret ac] c3] eqn:Hd.
    destruct (Z.ltb_spec ret 0) as [Hneg|Hret].
    { eexists _, _. split; [done|]. intros ? _ _ Hac. by destruct (download_aborts _ _ _ _ _ _ Hd Hneg). }
    destruct (download_progress _ _ _ _ _ _ Hd Hret) as (Hacc & Hb3 & Hro).
    destruct (Z.ltb_spec 0 ret) as [Hpos|].
    + edestruct (write_from_file_loop_ends (rounds c1) c3) as (ac' & c' & -> & H').
      { specialize (Hro Hpos). lia. }
      2:{ apply zlen_nonneg. }
      2:{ eexists _, _. split; [done|]. intros ? _ _ Hac. rewrite H' by (done || lia). congruence. }
      subst fill. unfold zlen. rewrite length_app, length_drop, length_replicate.
      unfold zlen in *. lia.
    + eexists _, _. split; [done|]. intros _ _ _ _. congruence.
  - destruct (write_from_file_loop_ends (S (rounds c1)) c1 content
      (replicate (Z.to_nat (bufSize c1)) junk) (zlen content) 0 true) as (ac & c' & -> & _);
      [lia|by rewrite zlen_replicate|apply zlen_nonneg|].
    eexists _, _. split; [done|]. intros c2 (c0' & [= <-] & Hi') Hsp2. cbv beta in Hi'. rewrite Hi in Hi'. by injection Hi' as <-.
Qed.

(** A longer file is not sent as it is: the last round hands the library the whole local
    buffer, the end of the file followed by bytes sent before, so that on success the client
    took more bytes than the file has. *)
Theorem sdo_write_from_file_stale c fs node_id index subindex p content c1 ret1 ac1 c2 ac2 c3 :
  fs_read fs p = inr content ->
  download_started c node_id index subindex (zlen content) c1 ->
  let s1 := CO_fifo_getSpace c1 in
  0 < s1 < zlen content ->
  CO_SDOclientDownload (CO_SDOclientDownloadBufWrite c1 (take (Z.to_nat s1) content)) Sdo.time_diff_us true
    = (ret1, ac1, c2) -> 0 < ret1 ->
  let s2 := CO_fifo_getSpace c2 in
  zlen content - s1 < s2 ->
  let n := Z.min (zlen content) s2 in
  let last := take (Z.to_nat n) (drop (Z.to_nat s1) content
    ++ drop (Z.to_nat (zlen content - s1)) (take (Z.to_nat s1) content
         ++ replicate (Z.to_nat (bufSize c1 - s1)) junk)) in
  CO_SDOclientDownload (CO_SDOclientDownloadBufWrite c2 last) Sdo.time_diff_us false = (0, ac2, c3) ->
  Sdo.sdo_write_from_file junk c fs node_id index subindex p = Ret (CO_SDO_AB_NONE, c3) /\
  accepted c3 = take (Z.to_nat s1) content ++ last /\ zlen content < zlen (accepted c3).
Proof.
  intros Hread (c0 & Hset & Hinit) s1 Hs1 Hd1 Hret1 s2 Hs2 n last Hd2.
  unfold Sdo.sdo_write_from_file. rewrite Hset. cbn [Z.eqb negb]. rewrite Hread. cbv beta in Hinit.
  rewrite Hinit. cbn [Z.eqb negb]. pose proof (download_initiate _ _ _ _ _ _ _ Hinit) as Hacc0.
  pose proof (space_bound c1) as Hb1. fold s1 in Hb1. set (first := take (Z.to_nat s1) content) in *.
  assert (zlen first = s1) as Hf by (subst first; apply zlen_take; lia).
  set (fill := replicate (Z.to_nat (bufSize c1 - s1)) junk) in *.
  assert (zlen fill = bufSize c1 - s1) as Hfill by (apply zlen_replicate; lia).
  destruct (download_buf_write c1 first) as (Ha1 & Hr1 & Hbs1); [fold s1; lia|].
  rewrite Hacc0 in Ha1. cbn [app] in Ha1.
  destruct (download_progress _ _ _ _ _ _ Hd1) as (Ha2 & Hbs2 & Hr2); [lia|]. specialize (Hr2 Hret1).
  pose proof (space_bound c2) as Hb2. fold s2 in Hb2.
  (* the first round *)
  cbn [Sdo.write_from_file_loop]. fold s1. rewrite (proj2 (Z.ltb_lt 0 _)) by lia.
  rewrite (proj2 (Z.ltb_lt 0 s1)) by lia. cbn [andb]. fold first.
  assert (mem_write (replicate (Z.to_nat (bufSize c1)) junk) 0 first = Ret (first ++ fill)) as ->.
  { rewrite mem_write_ok; [|lia|rewrite zlen_replicate; lia]. rewrite drop_replicate.
    change (take (Z.to_nat 0) _) with (@nil byte). cbn [app]. subst fill. do 3 f_equal. zlia. }
  run. unfold Sdo.buf_write at 1. fold s1. rewrite Z.min_r by lia.
  rewrite mem_read_ok; [|lia|lia|rewrite zlen_app; lia]. run. rewrite drop_0.
  rewrite (take_app_length' first) by zlia. rewrite Z.add_0_l, (proj2 (Z.ltb_lt s1 _)) by lia.
  rewrite Hd1, (proj2 (Z.ltb_ge ret1 0)), (proj2 (Z.ltb_lt 0 ret1)) by lia.
  (* the second round *)
  destruct (rounds c1) as [|fuel]; [lia|]. cbn [Sdo.write_from_file_loop]. fold s2.
  rewrite (proj2 (Z.ltb_lt s1 _)) by lia. rewrite (proj2 (Z.ltb_lt 0 s2)) by lia. cbn [andb].
  set (tl := drop (Z.to_nat s1) content) in *.
  assert (zlen tl = zlen content - s1) as Htl by (subst tl; apply zlen_drop; lia).
  rewrite (take_ge tl) by zlia.
  assert (mem_write (first ++ fill) 0 tl
    = Ret (tl ++ drop (Z.to_nat (zlen content - s1)) (first ++ fill))) as ->.
  { rewrite mem_write_ok; [|lia|rewrite zlen_app; lia].
    change (take (Z.to_nat 0) _) with (@nil byte). cbn [app]. do 3 f_equal. zlia. }
  run. unfold Sdo.buf_write. fold s2. fold n. set (b2 := tl ++ _) in *.
  assert (zlen b2 = bufSize c1) as Hb2l.
  { subst b2. rewrite zlen_app, zlen_drop, zlen_app; [lia|rewrite zlen_app; lia]. }
  rewrite mem_read_ok; [|lia|lia|lia]. run. rewrite drop_0. fold last.
  rewrite (proj2 (Z.ltb_ge (s1 + n) _)) by lia. rewrite Hd2. cbn [Z.ltb Z.compare].
  assert (zlen last = n) as Hlast by (subst last; apply zlen_take; lia).
  destruct (download_buf_write c2 last) as (Ha3 & _); [fold s2; lia|].
  destruct (download_progress _ _ _ _ _ _ Hd2) as (Ha4 & _); [lia|].
  assert (accepted c3 = first ++ last) as Hacc by congruence.
  split; [done|]. split; [done|]. rewrite Hacc, zlen_app. lia.
Qed.

(** *** The client as the responder sees it *)

(** The client of the library, as the responder calls it. *)
Definition sdo_ops : SdoOps C F := {|
  sdo_read_dynamic := Sdo.sdo_read_dynamic junk;
  sdo_write c n i j d := Sdo.sdo_write c n i j d (zlen d);
  sdo_read_to_file := Sdo.sdo_read_to_file junk;
  sdo_write_from_file := Sdo.sdo_write_from_file junk;
|}.

Definition sdo_client_laws : SdoLaws (H := sdo_ops) C F.
Proof.
  split. intros c n i j b ac d c' H. cbn in H. pose proof (read_dynamic_outcome c n i j b) as Hr.
  rewrite H in Hr. by destruct Hr as (_ & _ & ?).
Defined.

(** A write ends, or leaves the bytes of the caller. *)
Lemma write_loop_outcome fuel c data size offset p :
  (rounds c < fuel)%nat ->
  match Sdo.write_loop fuel c data size offset p with Ret _ => True | Undef u => u = UbBounds end.
Proof.
  revert c offset p. induction fuel as [|fuel IH]; intros c offset p Hfuel; [lia|]. cbn [Sdo.write_loop].
  assert (forall c1 offset p, rounds c1 = rounds c ->
    match (let '(ret, abort_code, c) := CO_SDOclientDownload c1 Sdo.time_diff_us p in
           if ret <? 0 then mret (abort_code, c)
           else if 0 <? ret then Sdo.write_loop fuel c data size offset p else mret (CO_SDO_AB_NONE, c))
    with Ret _ => True | Undef u => u = UbBounds end) as Hnext.
  { intros c1 o p1 Hr. destruct (CO_SDOclientDownload c1 _ p1) as [[ret ac] c2] eqn:Hd.
    destruct (Z.ltb_spec ret 0) as [|Hret]; [done|]. destruct (Z.ltb_spec 0 ret) as [Hpos|]; [|done].
    destruct (download_progress _ _ _ _ _ _ Hd Hret) as (_ & _ & Hro). specialize (Hro Hpos). apply IH. lia. }
  destruct (offset <? size); [|run; by apply Hnext]. unfold Sdo.buf_write.
  unfold mem_read. case_bool_decide as Hin; [|done]. run. apply Hnext.
  apply (download_buf_write c). unfold zlen. rewrite length_take. lia.
Qed.

Lemma write_outcome c node_id index subindex d :
  match Sdo.sdo_write c node_id index subindex d (zlen d) with
  | Ret (ac, c') => forall c1, download_started c node_id index subindex (zlen d) c1 -> d <> [] ->
      zlen d <= CO_fifo_getSpace c1 -> ac = CO_SDO_AB_NONE -> accepted c' = d
  | Undef u => u = UbBounds /\
      exists c1, download_started c node_id index subindex (zlen d) c1 /\ CO_fifo_getSpace c1 < zlen d
  end.
Proof.
  destruct (Sdo.sdo_write _ _ _ _ _ _) as [[ac c']|u] eqn:Hw.
  { intros c1 Hst Hne Hsp. destruct (write_sends _ _ _ _ _ _ Hst Hne Hsp) as (ac2 & c2 & E & H).
    rewrite Hw in E. by injection E as -> ->. }
  pose proof Hw as Hu. unfold Sdo.sdo_write in Hu.
  destruct (Sdo.setup c node_id) as [ret c0] eqn:Hset.
  destruct (Z.eqb_spec ret 0) as [->|]; cbn [negb] in Hu; [|done].
  destruct (CO_SDOclientDownloadInitiate _ _ _ _ _ _) as [ret2 c1] eqn:Hi.
  destruct (Z.eqb_spec ret2 0) as [->|]; cbn [negb] in Hu; [|done].
  assert (download_started c node_id index subindex (zlen d) c1) as Hst by (by exists c0).
  pose proof (write_loop_outcome (S (rounds c1)) c1 d (zlen d) 0 true ltac:(lia)) as H. rewrite Hu in H.
  split; [done|]. exists c1. split; [done|]. apply Z.nle_gt. intros Hsp. destruct d as [|b d].
  - destruct (download_loop_ends (S (rounds c1)) c1 [] (zlen (@nil byte)) 0 true) as (? & ? & E & _);
      [lia|done|congruence].
  - destruct (write_sends _ _ _ _ _ _ Hst ltac:(done) Hsp) as (? & ? & E & _). congruence.
Qed.

Lemma write_from_file_defined c fs node_id index subindex p :
  exists ac c', Sdo.sdo_write_from_file junk c fs node_id index subindex p = Ret (ac, c').
Proof.
  unfold Sdo.sdo_write_from_file. destruct (Sdo.setup c node_id) as [ret c0].
  destruct (negb (ret =? 0)); [by eexists _, _|].
  destruct (fs_read fs p) as [e|content]; [by eexists _, _|].
  destruct (CO_SDOclientDownloadInitiate _ _ _ _ _ _) as [ret2 c1].
  destruct (negb (ret2 =? 0)); [by eexists _, _|].
  destruct (write_from_file_loop_ends (S (rounds c1)) c1 content
    (replicate (Z.to_nat (bufSize c1)) junk) (zlen content) 0 true) as (ac & c' & -> & _);
    [lia|by rewrite zlen_replicate by apply bufSize_nonneg|apply zlen_nonneg|by eexists _, _].
Qed.

(** C12: what the operations of the client end in, for the responder and the scripts: a read
    of any size returns its result, unless an allocation fails (NULL is then used); a write
    returns, unless the queue of the client has less space than the data when the transfer starts
    (the memory after the data can then be read), and what it took is the data when it fits; the
    transfers between nodes and files always return, and on success a file read is what
    was received. *)
Theorem sdo_client_outcomes c fs node_id index subindex block_transfer d p :
  match Sdo.sdo_read_dynamic junk c node_id index subindex block_transfer with
  | Ret (ac, data, c') => read_result ac data c'
  | Undef u => u = UbNull /\ exists k, malloc_ok k = false
  end /\
  match Sdo.sdo_write c node_id index subindex d (zlen d) with
  | Ret (ac, c') => forall c1, download_started c node_id index subindex (zlen d) c1 -> d <> [] ->
      zlen d <= CO_fifo_getSpace c1 -> ac = CO_SDO_AB_NONE -> accepted c' = d
  | Undef u => u = UbBounds /\
      exists c1, download_started c node_id index subindex (zlen d) c1 /\ CO_fifo_getSpace c1 < zlen d
  end /\
  (exists ac c' fs', Sdo.sdo_read_to_file junk c fs node_id index subindex p = Ret (ac, c', fs') /\
     (ac = CO_SDO_AB_NONE -> fs_read fs' p = inr (received c'))) /\
  (exists ac c', Sdo.sdo_write_from_file junk c fs node_id index subindex p = Ret (ac, c')).
Proof.
  split; [apply read_dynamic_outcome|]. split; [apply write_outcome|].
  split; [apply read_to_file_receives|apply write_from_file_defined].
Qed.
End SdoProps.

Lemma abort_string_find code codes strs r :
  NoDup codes -> length codes = length strs ->
  abort_string code codes strs r
  = match list_find (fun x => x = code) codes with Some (i, _) => strs !! i | None => r end.
Proof.
  revert strs r. induction codes as [|x codes IH]; intros [|s strs] r Hnd Hl; try done.
  apply list.NoDup_cons in Hnd as [Hx Hnd]. injection Hl as Hl. cbn [abort_string list_find].
  rewrite IH by done. destruct (decide (x = code)) as [-> |Hne].
  - rewrite Z.eqb_refl. destruct (list_find _ codes) as [[i y]|] eqn:E; [|done].
    apply list_find_Some in E as (Hi & -> & _). destruct Hx. by eapply list_elem_of_lookup_2.
  - rewrite (proj2 (Z.eqb_neq _ _)) by done. by destruct (list_find _ codes) as [[i y]|].
Qed.

(** The text of an abort code is that of its place in the table; other numbers have none. *)
Theorem get_sdo_abort_string_table code :
  get_sdo_abort_string code
  = match list_find (fun x => x = code) ABORT_CODES with
    | Some (i, _) => ABORT_CODES_STR !! i
    | None => None
    end.
Proof. apply abort_string_find; [by_decide|reflexivity]. Qed.

(** ** A client for evaluation: the segments the node sends, and a queue of [cap] bytes *)

Record sim := mkSim {
  s_in : list bytes; s_received : bytes; s_unread : bytes; s_used : nat;
  s_sent : bytes; s_ticks : nat;
}.

Section Sim.
Variable cap : nat.

Definition sim_unread (c : sim) : bytes := take cap (s_unread c).
Definition sim_incoming (c : sim) : Z := zlen (s_received c) + zlen (concat (s_in c)).

Definition sim_upload (c : sim) (t : Z) : Z * Z * Z * sim :=
  if 2 ^ 31 <=? sim_incoming c then (-1, 0x05040005, 0, c) else
  match s_in c with
  | [] => (0, 0, zlen (s_received c),
           mkSim [] (s_received c) (sim_unread c) (s_used c) (s_sent c) (s_ticks c))
  | x :: rest =>
      if Z.of_nat cap <? zlen (sim_unread c ++ x) then (-1, 0x05040005, 0, c)
      else ((match rest with [] => 0 | _ => 1 end), 0, zlen (s_received c ++ x),
            mkSim rest (s_received c ++ x) (sim_unread c ++ x) (s_used c) (s_sent c) (s_ticks c))
  end.

Definition sim_buf_read (c : sim) (n : Z) : bytes * sim :=
  (take (Z.to_nat n) (sim_unread c),
   mkSim (s_in c) (s_received c) (drop (Z.to_nat n) (sim_unread c)) (s_used c) (s_sent c) (s_ticks c)).

Definition sim_download (c : sim) (t : Z) (p : bool) : Z * Z * sim :=
  match s_ticks c with
  | O => (-1, 0x05040000, c)
  | S k => ((if p then 1 else 0), 0,
            mkSim (s_in c) (s_received c) (s_unread c) 0 (s_sent c) k)
  end.

Definition sim_lib : SdoLib sim := {|
  CO_CAN_ID_SDO_CLI := 0x600;
  CO_CAN_ID_SDO_SRV := 0x580;
  CO_SDOclient_setup c _ _ _ := (0, c);
  CO_SDOclientUploadInitiate c _ _ _ _ :=
    (0, mkSim (s_in c) [] [] (s_used c) (s_sent c) (s_ticks c));
  CO_SDOclientUpload := sim_upload;
  CO_SDOclientUploadBufRead := sim_buf_read;
  CO_SDOclientDownloadInitiate c _ _ _ _ _ :=
    (0, mkSim (s_in c) (s_received c) (s_unread c) 0 [] (s_ticks c));
  CO_SDOclientDownloadBufWrite c d :=
    mkSim (s_in c) (s_received c) (s_unread c)(s_used c + length d) (s_sent c ++ d) (s_ticks c);
  CO_SDOclientDownload := sim_download;
  bufSize c := Z.of_nat cap;
  CO_fifo_getSpace c := Z.of_nat (cap - s_used c);
  rounds c := (length (s_in c) + s_ticks c)%nat;
|}.

Lemma sim_unread_take c : take cap (sim_unread c) = sim_unread c.
Proof. unfold sim_unread. rewrite take_take. f_equal. lia. Qed.

Lemma sim_upload_spec c t ret ac n c' :
  sim_upload c t = (ret, ac, n, c') -> 0 <= ret ->
  ac = 0 /\ exists x, s_received c' = s_received c ++ x /\ sim_unread c' = sim_unread c ++ x /\
    n = zlen (s_received c') /\ sim_incoming c < 2 ^ 31 /\ n <= sim_incoming c /\
    sim_incoming c' = sim_incoming c /\
    (0 < ret -> (length (s_in c') + s_ticks c' < length (s_in c) + s_ticks c)%nat).
Proof.
  unfold sim_upload. destruct (Z.leb_spec (2 ^ 31) (sim_incoming c)) as [|Hin].
  { intros [= <- _ _ _]. lia. }
  destruct (s_in c) as [|x rest] eqn:Ein.
  - intros [= <- <- <- <-] _. split; [done|]. exists []. rewrite !app_nil_r.
    unfold sim_incoming in *. cbn [s_in s_received s_ticks]. rewrite Ein in *.
    pose proof (zlen_nonneg (concat (@nil bytes))).
    split_and!; try done; try lia. exact (sim_unread_take c).
  - destruct (Z.ltb_spec (Z.of_nat cap) (zlen (sim_unread c ++ x))) as [|Hcap].
    { intros [= <- _ _ _]. lia. }
    intros [= <- <- <- <-] _. split; [done|]. exists x. unfold sim_incoming in *. rewrite Ein in *.
    cbn [s_in s_received s_ticks concat] in *. rewrite zlen_app in *.
    pose proof (zlen_nonneg (concat rest)). rewrite zlen_app.
    split_and!; try done; try lia; [|cbn [length]; lia].
    unfold sim_unread at 1. cbn [s_unread]. rewrite take_ge; [done|].
    unfold zlen in Hcap. rewrite length_app. lia.
Qed.

Definition sim_lib_laws : SdoLibLaws (H := sim_lib) sim.
Proof.
  refine {| received := s_received; unread := sim_unread; accepted := s_sent;
            total c := Z.min (sim_incoming c) (2 ^ 31 - 1) |}.
  - intros c. lia.
  - intros c. cbn. lia.
  - intros c. cbn. unfold sim_unread, zlen. rewrite length_take. lia.
  - intros c i j t b c' [= <-]. split; [done|]. apply take_nil.
  - intros c t ret ac n c'. cbn. unfold sim_upload.
    destruct (_ <=? _); [by intros [= <- <- _ _]|]. destruct (s_in c) as [|x rest]; [intros [= <- _ _ _]; lia|].
    destruct (_ <? _); [by intros [= <- <- _ _]|]. destruct rest; intros [= <- _ _ _]; lia.
  - intros c t ret ac n c' Hu Hret.
    destruct (sim_upload_spec _ _ _ _ _ _ Hu Hret) as (-> & x & H1 & H2 & H3 & H4 & H5 & H6 & H8).
    split; [done|]. exists x. cbn. rewrite H6. split_and!; try done. lia.
  - intros c n d c' [= <- <-] Hn. cbn. split_and!; try done.
    unfold sim_unread at 1. cbn [s_unread]. apply take_ge.
    unfold sim_unread. rewrite length_drop, length_take. lia.
  - by intros c i j n t b c' [= <-].
  - intros c d Hd. cbn. split_and!; done.
  - intros c t p ret ac c'. cbn. unfold sim_download. destruct (s_ticks c); [by intros [= <- <- _]|].
    destruct p; intros [= <- _ _]; lia.
  - intros c t p ret ac c'. cbn. unfold sim_download.
    destruct (s_ticks c) as [|k]; [intros [= <- _ _]; lia|]. intros [= <- _ <-] _. cbn.
    split_and!; try done. lia.
Defined.
End Sim.

(** The queue of the examples: 8 bytes. *)
#[export] Instance sim8 : SdoLib sim := sim_lib 8.
Definition sim_laws : SdoLibLaws sim := sim_lib_laws 8.

(** ** Witnesses: the theorems at concrete inputs *)

Definition sends (l : list bytes) : sim := mkSim l [] [] 0 [] 5.

Lemma sdo_read_dynamic_receives_witness :
  Sdo.sdo_read_dynamic (HP := armhf) NUL (sends [cs "hel"; cs "lo"]) 1 0x1000 0 false
    = Ret (0, Some (cs "hello"), mkSim [] (cs "hello") [] 0 [] 5)
  /\ read_result (HLL := sim_laws) 0 (Some (cs "hello")) (mkSim [] (cs "hello") [] 0 [] 5).
Proof.
  destruct (sdo_read_dynamic_receives (HLL := sim_laws) (HP := armhf) NUL (fun _ => eq_refl)
    (sends [cs "hel"; cs "lo"]) 1 0x1000 0 false) as (ac & data & c' & H1 & H2).
  assert (Ret (ac, data, c') = Ret (0, Some (cs "hello"), mkSim [] (cs "hello") [] 0 [] 5)) as E.
  { rewrite <- H1. vm_compute. reflexivity. }
  injection E as -> -> ->. split; [exact H1|exact H2].
Defined.

Lemma sdo_write_sends_witness :
  exists ac c', Sdo.sdo_write (sends []) 1 0x4000 0 (cs "abc") 3 = Ret (ac, c')
    /\ (ac = CO_SDO_AB_NONE -> s_sent c' = cs "abc").
Proof.
  apply (sdo_write_sends (HLL := sim_laws) (sends []) 1 0x4000 0 (cs "abc") (sends [])); [|by_compute..].
  exists (sends []). split; reflexivity.
Defined.

Lemma sdo_write_overread_witness :
  Sdo.sdo_write (sends []) 1 0x4000 0 (cs "0123456789") 10 = Undef UbBounds.
Proof.
  apply (sdo_write_overread (HLL := sim_laws) (sends []) 1 0x4000 0 (cs "0123456789") (sends [])
    1 0 (mkSim [] [] [] 0 (cs "01234567") 4)); [|by_compute..].
  exists (sends []). split; reflexivity.
Defined.

Lemma sdo_write_from_file_stale_witness :
  exists c3, Sdo.sdo_write_from_file NUL (sends [])
      (<[cs "/f" := NFile (cs "0123456789")]> sample_fs) 1 0x4000 0 (cs "/f") = Ret (CO_SDO_AB_NONE, c3)
    /\ s_sent c3 = cs "0123456789234567".
Proof.
  destruct (sdo_write_from_file_stale (HLL := sim_laws) NUL (sends [])
    (<[cs "/f" := NFile (cs "0123456789")]> sample_fs) 1 0x4000 0 (cs "/f") (cs "0123456789") (sends [])
    1 0 (mkSim [] [] [] 0 (cs "01234567") 4) 0 (mkSim [] [] [] 0 (cs "0123456789234567") 3))
    as (H1 & H2 & _); [by_compute| |by_compute..|].
  - exists (sends []). split; reflexivity.
  - eexists. split; [exact H1|]. vm_compute. reflexivity.
Defined.

Lemma sdo_write_from_file_sends_witness :
  exists ac c', Sdo.sdo_write_from_file NUL (sends []) sample_fs 1 0x4000 0 (cs "/f") = Ret (ac, c')
    /\ (ac = CO_SDO_AB_NONE -> s_sent c' = cs "hello").
Proof.
  destruct (sdo_write_from_file_sends (HLL := sim_laws) NUL (sends []) sample_fs 1 0x4000 0 (cs "/f")
    (cs "hello")) as (ac & c' & H1 & H2); [by_compute|by_compute|].
  exists ac, c'. split; [exact H1|]. intros Hac. apply (H2 (sends [])); [|by_compute|exact Hac].
  exists (sends []). split; reflexivity.
Defined.

(** A queue of 8 bytes does not take 10. *)
Lemma sdo_client_outcomes_witness :
  exists c1, download_started (sends []) 1 0x4000 0 10 c1 /\ CO_fifo_getSpace c1 < 10.
Proof.
  destruct (sdo_client_outcomes (HLL := sim_laws) (HP := armhf) NUL (sends []) sample_fs 1 0x4000 0 false
    (cs "0123456789") (cs "/g")) as (_ & H & _).
  assert (Sdo.sdo_write (sends []) 1 0x4000 0 (cs "0123456789") (zlen (cs "0123456789")) = Undef UbBounds) as E
    by (vm_compute; reflexivity).
  rewrite E in H. exact (proj2 H).
Defined.
