(* ===== verification/SdoValues.v ===== *)
(** * src/canopenlinux/sdo_client.h: values of a type, read and written by SDO

    The inline functions give [sdo_read] and [sdo_write] the address of a value and its size: a
    value is a [w]-bit integer stored little-endian, a floating point number its bits, a [bool]
    its byte. *)

From Stdlib Require Import Strings.Byte.
From S2P Require Import Prelude CLib FileSys MemFS SdoClient.

Section SdoValues.
Context `{HL : SdoLib C} `{HP : Platform}.

(** The size of a [w]-bit object. *)
Definition osize (w : Z) : nat := Z.to_nat (w / 8).

(** [sdo_read(client, node_id, index, subindex, value, w / 8, NULL)] on an unsigned and on a
    signed object that holds [value]: the abort code and what it holds then. *)
Definition sdo_read_unsigned (w : Z) (c : C) (node_id index subindex value : Z) : res (Z * Z * C) :=
  '(ac, b, _, c) ← Sdo.sdo_read c node_id index subindex (le_bytes (osize w) value) (w / 8) None;
  mret (ac, le_val b, c).

Definition sdo_read_signed (w : Z) (c : C) (node_id index subindex value : Z) : res (Z * Z * C) :=
  '(ac, v, c) ← sdo_read_unsigned w c node_id index subindex value; mret (ac, swrap w v, c).

(** [sdo_write(client, node_id, index, subindex, value, w / 8)]. *)
Definition sdo_write_integer (w : Z) (c : C) (node_id index subindex value : Z) : res (Z * C) :=
  Sdo.sdo_write c node_id index subindex (le_bytes (osize w) value) (w / 8).

Definition sdo_read_bool : C -> Z -> Z -> Z -> Z -> res (Z * Z * C) := sdo_read_unsigned 8.
Definition sdo_read_uint8 : C -> Z -> Z -> Z -> Z -> res (Z * Z * C) := sdo_read_unsigned 8.
Definition sdo_read_uint16 : C -> Z -> Z -> Z -> Z -> res (Z * Z * C) := sdo_read_unsigned 16.
Definition sdo_read_uint32 : C -> Z -> Z -> Z -> Z -> res (Z * Z * C) := sdo_read_unsigned 32.
Definition sdo_read_uint64 : C -> Z -> Z -> Z -> Z -> res (Z * Z * C) := sdo_read_unsigned 64.
Definition sdo_read_int8 : C -> Z -> Z -> Z -> Z -> res (Z * Z * C) := sdo_read_signed 8.
Definition sdo_read_int16 : C -> Z -> Z -> Z -> Z -> res (Z * Z * C) := sdo_read_signed 16.
Definition sdo_read_int32 : C -> Z -> Z -> Z -> Z -> res (Z * Z * C) := sdo_read_signed 32.
Definition sdo_read_int64 : C -> Z -> Z -> Z -> Z -> res (Z * Z * C) := sdo_read_signed 64.
Definition sdo_read_float32 : C -> Z -> Z -> Z -> Z -> res (Z * Z * C) := sdo_read_unsigned 32.
Definition sdo_read_float64 : C -> Z -> Z -> Z -> Z -> res (Z * Z * C) := sdo_read_unsigned 64.

(** What [*buf] and [*buf_size] give; without a size the object of a string ends with a NUL. *)
Definition sdo_read_bytes (junk : byte) (c : C) (node_id index subindex : Z) (block_transfer : bool)
  : res (Z * option bytes * C) := Sdo.sdo_read_dynamic junk c node_id index subindex block_transfer.
Definition sdo_read_str (junk : byte) (c : C) (node_id index subindex : Z) (block_transfer : bool)
  : res (Z * option bytes * C) :=
  '(ac, data, c) ← Sdo.sdo_read_dynamic junk c node_id index subindex block_transfer;
  mret (ac, option_map with_nul data, c).

Definition sdo_write_bool : C -> Z -> Z -> Z -> Z -> res (Z * C) := sdo_write_integer 8.
Definition sdo_write_uint8 : C -> Z -> Z -> Z -> Z -> res (Z * C) := sdo_write_integer 8.
Definition sdo_write_uint16 : C -> Z -> Z -> Z -> Z -> res (Z * C) := sdo_write_integer 16.
Definition sdo_write_uint32 : C -> Z -> Z -> Z -> Z -> res (Z * C) := sdo_write_integer 32.
Definition sdo_write_uint64 : C -> Z -> Z -> Z -> Z -> res (Z * C) := sdo_write_integer 64.
Definition sdo_write_int8 : C -> Z -> Z -> Z -> Z -> res (Z * C) := sdo_write_integer 8.
Definition sdo_write_int16 : C -> Z -> Z -> Z -> Z -> res (Z * C) := sdo_write_integer 16.
Definition sdo_write_int32 : C -> Z -> Z -> Z -> Z -> res (Z * C) := sdo_write_integer 32.
Definition sdo_write_int64 : C -> Z -> Z -> Z -> Z -> res (Z * C) := sdo_write_integer 64.
Definition sdo_write_bytes (c : C) (node_id index subindex : Z) (buf : bytes) (buf_size : Z) : res (Z * C) :=
  Sdo.sdo_write c node_id index subindex buf buf_size.
Definition sdo_write_str (c : C) (node_id index subindex : Z) (buf : bytes) : res (Z * C) :=
  Sdo.sdo_write c node_id index subindex (with_nul buf) (zlen buf + 1).
End SdoValues.

(** ** Properties *)

Section ValueProps.
Context `{HL : SdoLib C} `{HLL : !SdoLibLaws C}.

(** The widths of the types. *)
Definition width (w : Z) : Prop := w = 8 \/ w = 16 \/ w = 32 \/ w = 64.

Lemma width_size w : width w -> Z.of_nat (osize w) = w / 8 /\ 256 ^ Z.of_nat (osize w) = 2 ^ w /\ 0 < w / 8.
Proof. by intros [-> | [-> | [-> | ->]]]. Qed.

Lemma zlen_le_bytes w v : width w -> zlen (le_bytes (osize w) v) = w / 8.
Proof. intros Hw. unfold zlen. rewrite length_le_bytes. by apply width_size. Qed.

(** The transfer of a read that was started. *)
Definition upload_started (c : C) (node_id index subindex : Z) (c1 : C) : Prop :=
  started c node_id (fun c => CO_SDOclientUploadInitiate c index subindex SDO_TIMEOUT_MS true) c1.

(** A read ends with an abort code, or with the bytes received over those of the old value. *)
Lemma read_unsigned_spec w c node_id index subindex v c1 :
  width w -> upload_started c node_id index subindex c1 -> total c1 <= w / 8 ->
  exists ac v' c', sdo_read_unsigned w c node_id index subindex v = Ret (ac, v', c') /\
    (ac = CO_SDO_AB_NONE -> zlen (received c') <= w / 8 /\
       v' = le_val (overlaid (received c') (le_bytes (osize w) v))).
Proof.
  intros Hw Hst Htot. unfold sdo_read_unsigned. rewrite <- (zlen_le_bytes w v Hw) in Htot |- *.
  destruct (read_fits c node_id index subindex (le_bytes (osize w) v) None c1 Hst Htot)
    as (ac & b & n & c' & -> & _ & Hac). run. eexists _, _, _. split; [done|].
  intros ->. destruct (Hac eq_refl) as (_ & ? & ->). done.
Qed.

Lemma write_integer_spec w c node_id index subindex v c1 :
  width w -> download_started c node_id index subindex (w / 8) c1 -> w / 8 <= CO_fifo_getSpace c1 ->
  exists ac c', sdo_write_integer w c node_id index subindex v = Ret (ac, c') /\
    (ac = CO_SDO_AB_NONE -> accepted c' = le_bytes (osize w) v).
Proof.
  intros Hw (c0 & Hset & Hinit) Hsp. unfold sdo_write_integer, Sdo.sdo_write. rewrite Hset, Hinit. cbn [Z.eqb negb].
  rewrite <- (zlen_le_bytes w v Hw) in Hsp |- *. apply write_once; [lia| |done|by apply download_initiate in Hinit].
  apply zlen_ne. rewrite zlen_le_bytes by done. by apply width_size.
Qed.

Lemma overlaid_whole (got buf : bytes) : length buf = length got -> overlaid got buf = got.
Proof. intros Hl. unfold overlaid. rewrite drop_ge by lia. apply app_nil_r. Qed.

(** C14: an integer of any width, signed or not, that one node was sent and another one sends is
    read as it was written. *)
Theorem sdo_integer_roundtrip w v old cw node_w index_w subindex_w cw1 cw' c node_id index subindex c1 ac x c' :
  width w -> download_started cw node_w index_w subindex_w (w / 8) cw1 -> w / 8 <= CO_fifo_getSpace cw1 ->
  sdo_write_integer w cw node_w index_w subindex_w v = Ret (CO_SDO_AB_NONE, cw') ->
  upload_started c node_id index subindex c1 -> total c1 <= w / 8 ->
  sdo_read_unsigned w c node_id index subindex old = Ret (ac, x, c') -> ac = CO_SDO_AB_NONE ->
  received c' = accepted cw' ->
  (in_u w v -> x = v) /\ (in_s w v -> sdo_read_signed w c node_id index subindex old = Ret (ac, v, c')).
Proof.
  intros Hw Hd Hsp Hwrite Hu Htot Hread -> Hrec. pose proof (width_size w Hw) as (_ & Hpow & _).
  destruct (write_integer_spec w cw node_w index_w subindex_w v cw1 Hw Hd Hsp) as (ac & cw2 & E & Hacc).
  rewrite Hwrite in E. injection E as <- <-. specialize (Hacc eq_refl).
  destruct (read_unsigned_spec w c node_id index subindex old c1 Hw Hu Htot) as (ac & x' & c2 & E & Hx).
  rewrite Hread in E. injection E as <- <- <-. destruct (Hx eq_refl) as [_ ->].
  rewrite Hrec, Hacc, overlaid_whole by (by rewrite !length_le_bytes). split.
  - intros Hv. rewrite le_val_le_bytes, Hpow. by apply Z.mod_small.
  - intros Hv. unfold sdo_read_signed. rewrite Hread. run. rewrite Hrec, Hacc.
    rewrite overlaid_whole by (by rewrite !length_le_bytes). rewrite le_val_le_bytes, Hpow. do 3 f_equal.
    unfold swrap. rewrite Zplus_mod_idemp_l. apply swrap_small; [destruct Hw as [-> | [-> | [-> | ->]]]; lia|done].
Qed.

Lemma le_val_app a b : le_val (a ++ b) = le_val a + 256 ^ zlen a * le_val b.
Proof.
  induction a as [|x a IH]; cbn [le_val app]; [unfold zlen; simpl; lia|].
  rewrite IH. unfold zlen. cbn [length]. rewrite pow256_succ. lia.
Qed.

Lemma le_val_drop k n v : (k <= n)%nat -> le_val (drop k (le_bytes n v)) = v mod 256 ^ Z.of_nat n / 256 ^ Z.of_nat k.
Proof.
  intros Hk. pose proof (le_val_app (take k (le_bytes n v)) (drop k (le_bytes n v))) as H.
  rewrite take_drop, le_val_le_bytes in H. pose proof (le_val_range (take k (le_bytes n v))) as Hr.
  assert (length (take k (le_bytes n v)) = k) as Hl by (rewrite length_take, length_le_bytes; lia).
  unfold zlen in H. rewrite Hl in H, Hr. rewrite H, Z.mul_comm, Z.div_add by lia.
  rewrite Z.div_small by done. done.
Qed.

(** The size received is not looked at: when a node sends fewer bytes than the value has, the
    read succeeds, and the upper bytes are those the variable had before. *)
Theorem sdo_read_short w old c node_id index subindex c1 ac x c' :
  width w -> upload_started c node_id index subindex c1 -> total c1 <= w / 8 -> in_u w old ->
  sdo_read_unsigned w c node_id index subindex old = Ret (ac, x, c') -> ac = CO_SDO_AB_NONE ->
  let k := zlen (received c') in
  x = le_val (received c') + 256 ^ k * (old / 256 ^ k).
Proof.
  intros Hw Hu Htot Hold Hread -> k. pose proof (width_size w Hw) as (Hsz & Hpow & _).
  destruct (read_unsigned_spec w c node_id index subindex old c1 Hw Hu Htot) as (ac & x' & c2 & E & Hx).
  rewrite Hread in E. injection E as <- <- <-. destruct (Hx eq_refl) as [Hle ->].
  unfold overlaid. rewrite le_val_app. subst k. do 2 f_equal.
  rewrite le_val_drop by (unfold zlen in *; lia). unfold zlen. rewrite Hpow, Z.mod_small by done. done.
Qed.
End ValueProps.

(** ** Witnesses: the theorems at concrete inputs *)

Lemma sdo_integer_roundtrip_witness :
  sdo_read_signed 16 (sends [[xfe; xff]]) 1 0x4000 0 7 = Ret (0, -2, mkSim [] [xfe; xff] [] 0 [] 5).
Proof.
  refine (proj2 (sdo_integer_roundtrip (HLL := sim_laws) 16 (-2) 7 (sends []) 1 0x4000 0 (sends [])
    (mkSim [] [] [] 0 [xfe; xff] 4) (sends [[xfe; xff]]) 1 0x4000 0 (sends [[xfe; xff]]) 0 0xfffe
    (mkSim [] [xfe; xff] [] 0 [] 5) _ _ _ _ _ _ _ _ _) _); try by_compute.
  - unfold width. lia.
  - exists (sends []). split; reflexivity.
  - exists (sends [[xfe; xff]]). split; reflexivity.
Defined.

Lemma sdo_read_short_witness :
  sdo_read_uint32 (sends [[x05]]) 1 0x4000 0 0x11223344 = Ret (0, 0x11223305, mkSim [] [x05] [] 0 [] 5)
  /\ 0x11223305 = le_val [x05] + 256 ^ 1 * (0x11223344 / 256 ^ 1).
Proof.
  split; [vm_compute; reflexivity|].
  refine (sdo_read_short (HLL := sim_laws) 32 0x11223344 (sends [[x05]]) 1 0x4000 0 (sends [[x05]])
    0 0x11223305 (mkSim [] [x05] [] 0 [] 5) _ _ _ _ _ _); try by_compute.
  - unfold width. lia.
  - exists (sends [[x05]]). split; reflexivity.
Defined.
