(* ===== verification/System.v ===== *)
(** * src/common/system.c: files, directories, paths, commands and time

    File operations act on a file system [F] (see FileSys); what the kernel and the shell
    decide (the output of a command, the length of a [sendfile] transfer, the clock) is an
    argument.  Failures are negative [errno] values, as in the code. *)

From Stdlib Require Import Strings.Byte.
From S2P Require Import Prelude CLib FileSys MemFS.

Definition SLASH : byte := "/"%byte.

(** ** Time *)

(** The [timespec] handed to [nanosleep]. *)
Definition sleep_ms (ms : Z) : Z * Z := (ms / 1000, (ms mod 1000) * 1000000).
Definition sleep_us (us : Z) : Z * Z := (us / 1000000, (us mod 1000000) * 1000).

(** The clock reading is [(tv_sec, tv_nsec)]. *)
Definition get_uptime_s (ts : Z * Z) : Z := wrap 32 (fst ts).
Definition get_uptime_ms (ts : Z * Z) : Z :=
  wrap 32 (wrap 64 (wrap 64 (wrap 64 (fst ts) * 1000) + wrap 64 (snd ts) / 1000000)).
Definition get_uptime_us (ts : Z * Z) : Z :=
  wrap 64 (wrap 64 (wrap 64 (fst ts) * 1000000) + wrap 64 (snd ts) / 1000).
Definition get_unix_time_s (rawtime : Z) : Z := wrap 32 rawtime.

(** ** Commands *)

(** The [fgetc] loop: the buffer and [out_len] when it ends. *)
Fixpoint run_bash_loop (output : bytes) (out : bytes) (out_len out_max_len : Z) : res (bytes * Z) :=
  match output with
  | [] => Ret (out, out_len)
  | c :: output =>
      if out_max_len - 1 <? out_len then Ret (out, out_len)
      else out ← mem_write out out_len [c]; run_bash_loop output out (out_len + 1) out_max_len
  end.

(** [pipe] is what [popen] gives: an [errno], or what the command prints. *)
Definition run_bash_command (pipe : Z + bytes) (out : bytes) (out_max_len : Z) : res (Z * bytes) :=
  match pipe with
  | inl e => Ret (- e, out)
  | inr output =>
      '(out, out_len) ← run_bash_loop output out 0 out_max_len;
      let out_len := out_len + 1 in
      out ← mem_write out (out_len - 1) [NUL];
      mret (out_len, out)
  end.

(** ** Paths *)

Definition ends_with_slash (s : bytes) : bool := bool_decide (list.last s = Some SLASH).
Definition starts_with_slash (s : bytes) : bool := bool_decide (list.head s = Some SLASH).

(** [out] is an object of [cap] bytes; the result is the return value and the string in
    [out], [None] when nothing was written.  Writing past [cap] bytes is undefined. *)
Definition path_join (hd tl : bytes) (cap out_len : Z) : res (Z * option bytes) :=
  let head_startswith_slash := starts_with_slash hd in
  let tail_startswith_slash := starts_with_slash tl in
  let head_is_root := (zlen hd =? 1) && head_startswith_slash in
  let tail_is_root := (zlen tl =? 1) && tail_startswith_slash in
  let fits (s : bytes) : res (Z * option bytes) :=
    if zlen s + 1 <=? cap then Ret (0, Some s) else Undef UbBounds in
  if tail_is_root || (head_is_root && (out_len <? 2)) then Ret (- EINVAL, None)
  else if head_is_root && tail_is_root then fits [SLASH]
  else if head_is_root then
    if tail_startswith_slash then fits tl else fits (SLASH :: tl)
  else match list.last hd with
    | None => Undef UbBounds                    (* head[head_len - 1] of an empty head *)
    | Some c =>
        let out := (if decide (c = SLASH) then hd else hd ++ [SLASH]) ++ tl in
        (* out[strlen(out)] is the terminator: the test for a trailing slash is false *)
        fits (if decide (NUL = SLASH) then removelast out else out)
    end.

(** [basename] of libgen.h.  The NUL it may write over trailing slashes of its argument is left
    out. *)
Definition strip_slashes (s : bytes) : bytes :=
  reverse ((fix go (l : bytes) := match l with
    | c :: r => if decide (c = SLASH) then go r else l | [] => [] end) (reverse s)).
Definition after_last_slash (s : bytes) : bytes :=
  reverse ((fix go (l : bytes) := match l with
    | c :: r => if decide (c = SLASH) then [] else c :: go r | [] => [] end) (reverse s)).
Definition basename (s : bytes) : bytes :=
  match s with
  | [] => cs "."
  | _ => match strip_slashes s with [] => [SLASH] | t => after_last_slash t end
  end.

(** [dirname] of libgen.h, for paths that do not begin with two slashes. *)
Definition drop_last_component (s : bytes) : bytes :=
  reverse ((fix go (l : bytes) := match l with
    | c :: r => if decide (c = SLASH) then l else go r | [] => [] end) (reverse s)).
Definition dirname (s : bytes) : bytes :=
  match strip_slashes s with
  | [] => if starts_with_slash s then [SLASH] else cs "."
  | t => match drop_last_component t with
    | [] => cs "."
    | d => match strip_slashes d with [] => [SLASH] | d => d end
    end
  end.

(** Entries the directory loops skip: [strncmp] over [strlen(d_name)] bytes against [.]
    and [..]. *)
Definition is_dot (d_name : bytes) : bool :=
  strncmp_eq d_name (cs ".") (length d_name) || strncmp_eq d_name (cs "..") (length d_name).

(** ** Files and directories *)

(** What [copy_file] meets: whether the compiler keeps the storage of the local [dest_tmp] after
    its block, how much each [sendfile] call transfers (as documented, possibly less than is
    asked for), and the size and the error the kernel has for a directory as the source. *)
Class CopyEnv := {
  keeps_block_storage : bool;
  sendfile : nat -> Z -> Z + Z;   (* call number, bytes left in the file: errno or count *)
  sendfile_pos : forall k n r, 0 < n -> sendfile k n = inr r -> 0 < r <= n;
  sendfile_errno : forall k n e, sendfile k n = inl e -> 0 < e;
  dir_size : Z;
  sendfile_dir : Z;               (* errno *)
}.

Section System.
Context `{FS : FileSystem F} `{HP : Platform} `{CE : CopyEnv}.

Definition is_file (fs : F) (p : path) : bool :=
  match fs_read fs p with inr _ => true | inl _ => false end.

Definition is_dir (fs : F) (p : path) : bool :=
  match fs_list fs p with inr _ => true | inl _ => false end.

Fixpoint is_file_in_list (names : list bytes) (file_name : bytes) : bool :=
  match names with
  | [] => false
  | d_name :: names =>
      if is_dot d_name then is_file_in_list names file_name
      else if strncmp_eq d_name file_name (length d_name) then true
      else is_file_in_list names file_name
  end.

Definition is_file_in_dir (fs : F) (dir_path file_name : path) : bool :=
  match fs_list fs dir_path with
  | inl _ => false
  | inr names => is_file_in_list names file_name
  end.

Definition files_in_dir (fs : F) (p : path) : Z :=
  match fs_list fs p with
  | inl _ => - ENOENT
  | inr names => zlen (filter (fun d_name => is_dot d_name = false) names)
  end.

(** The copy loop: the bytes written to the destination and [r].  [offset] is advanced by
    the kernel and once more by the code. *)
Fixpoint copy_loop (fuel k : nat) (content : bytes) (offset : Z) : bytes * Z :=
  match fuel with
  | O => ([], 0)
  | S fuel =>
      if offset <? zlen content then
        match sendfile k (zlen content - offset) with
        | inl e => ([], - e)
        | inr written =>
            let chunk := take (Z.to_nat written) (drop (Z.to_nat offset) content) in
            let offset := offset + written in      (* done by sendfile *)
            let offset := offset + written in
            let '(rest, r) := copy_loop fuel (S k) content offset in
            (chunk ++ rest, r)
        end
      else ([], 0)
  end.

Definition copy_file (fs : F) (src dest : path) : res (Z * F) :=
  match fs_read fs src with
  | inl e => Ret (- e, fs)
  | inr _ =>
      tmp ← (if is_dir fs dest then
               '(_, joined) ← path_join dest (basename src) PATH_MAX PATH_MAX;
               match joined with
               | None => Undef UbUninit            (* dest_tmp was not written *)
               | Some p => if keeps_block_storage then mret p else Undef UbLifetime
               end
             else mret dest);
      match fs_create fs tmp with
      | inl e => Ret (- e, fs)
      | inr fs =>
          (* fstat and sendfile see the source as it is after the destination was truncated *)
          if is_dir fs src then mret (if 0 <? dir_size then - sendfile_dir else 0, fs) else
          let content := match fs_read fs src with inr c => c | inl _ => [] end in
          let '(written, r) := copy_loop (length content) 0 content 0 in
          Ret (r, fs_append fs tmp written)
      end
  end.

Definition move_file (fs : F) (src dest : path) : res (Z * F) :=
  '(r, fs) ← copy_file fs src dest;
  if 0 <=? r then
    match fs_remove fs src with
    | inl e => mret (- e, fs)
    | inr fs => mret (0, fs)
    end
  else mret (r, fs).

(** [crc32] of zlib, and the value [errno] has when the function is called; the second
    component is what is in [*crc] afterwards. *)
Definition get_file_crc32 (crc32 : bytes -> Z) (errno : Z) (fs : F) (file_path : option path)
    (crc : option (option Z)) : Z * option (option Z) :=
  match file_path, crc with
  | Some p, Some _ =>
      match fs_read fs p with
      | inl e => (- e, crc)
      | inr data =>
          let file_size := zlen data in
          if file_size <=? 0 then (- errno, crc)
          else if malloc_ok file_size then (0, Some (Some (wrap 32 (crc32 data))))
          else (- 12, crc)   (* ENOMEM *)
      end
  | _, _ => (- EINVAL, crc)
  end.

Definition check_file_crc32_match (crc32 : bytes -> Z) (errno : Z) (fs : F)
    (file_path_1 file_path_2 : path) : res bool :=
  let '(r1, crc1) := get_file_crc32 crc32 errno fs (Some file_path_1) (Some None) in
  if negb (r1 =? 0) then Ret false else
  let '(r2, crc2) := get_file_crc32 crc32 errno fs (Some file_path_2) (Some None) in
  if negb (r2 =? 0) then Ret false else
  match crc1, crc2 with
  | Some (Some c1), Some (Some c2) => Ret (c1 =? c2)
  | _, _ => Undef UbUninit
  end.

(** The loop of [mkdir_path] at position [i], [n] positions to go. *)
Fixpoint mkdir_loop (n i : nat) (fs : F) (p : path) : Z * F :=
  match n with
  | O => (0, fs)
  | S n =>
      if (i <=? length p)%nat && (Z.of_nat i <? PATH_MAX - 1) then
        if bool_decide (p !! i = Some SLASH) || (i =? length p)%nat then
          let temp_path := take i p in
          if is_dir fs temp_path then mkdir_loop n (S i) fs p
          else match fs_mkdir fs temp_path with
            | inl _ => (-1, fs)
            | inr fs => mkdir_loop n (S i) fs p
            end
        else mkdir_loop n (S i) fs p
      else (0, fs)
  end.

Definition mkdir_path (fs : F) (p : option path) : Z * F :=
  match p with
  | None => (- EINVAL, fs)
  | Some p => mkdir_loop (length p) 1 fs p
  end.

Fixpoint clear_loop (fs : F) (p : path) (names : list bytes) : res (Z * F) :=
  match names with
  | [] => Ret (0, fs)
  | d_name :: names =>
      if is_dot d_name then clear_loop fs p names
      else match list.last p with
        | None => Undef UbBounds
        | Some c =>
            let filepath := if decide (c = SLASH) then p ++ d_name else p ++ [SLASH] ++ d_name in
            if zlen filepath + 1 <=? PATH_MAX then
              match fs_remove fs filepath with
              | inl _ => Ret (-1, fs)
              | inr fs => clear_loop fs p names
              end
            else Undef UbBounds
        end
  end.

Definition clear_dir (fs : F) (p : path) : res (Z * F) :=
  match fs_list fs p with
  | inl _ => Ret (- ENOENT, fs)
  | inr names => clear_loop fs p names
  end.

End System.

(** ** Properties of commands and paths *)

Lemma run_bash_loop_spec output out k max :
  0 <= k <= max -> zlen out = max ->
  run_bash_loop output out k max
  = Ret (let n := Z.min (zlen output) (max - k) in
         (take (Z.to_nat k) out ++ take (Z.to_nat n) output ++ drop (Z.to_nat (k + n)) out, k + n)).
Proof.
  revert out k. induction output as [|c output IH]; intros out k Hk Hout; cbn [run_bash_loop].
  - change (zlen (@nil byte)) with 0. rewrite Z.min_l by lia. cbv zeta. rewrite Z.add_0_r, take_nil. simpl.
    by rewrite take_drop.
  - destruct (Z.ltb_spec (max - 1) k).
    + assert (k = max) as -> by lia. rewrite Z.sub_diag, Z.min_r by apply zlen_nonneg.
      rewrite Z.add_0_r. simpl. by rewrite take_drop.
    + rewrite mem_write_ok by zlia. run.
      rewrite IH; [|lia|unfold zlen in *; rewrite !length_app, length_take, length_drop; simpl; lia].
      cbv zeta. assert (zlen (c :: output) = zlen output + 1) as -> by zlia.
      replace (Z.min (zlen output + 1) (max - k)) with (Z.min (zlen output) (max - (k + 1)) + 1) by lia.
      set (n := Z.min (zlen output) (max - (k + 1))). assert (0 <= n) by (subst n; pose proof (zlen_nonneg output); lia).
      f_equal. f_equal; [|lia]. simpl length.
      rewrite (app_assoc (take _ out) [c]), take_app_length'
        by (rewrite length_app, length_take; unfold zlen in *; simpl; lia).
      rewrite drop_app, length_app, length_take, drop_drop, <- !app_assoc.
      rewrite (drop_ge (take (Z.to_nat k) out ++ [c]))
        by (rewrite length_app, length_take; unfold zlen in *; simpl; lia).
      replace (Z.to_nat (n + 1)) with (S (Z.to_nat n)) by lia. simpl.
      do 4 f_equal. unfold zlen in *. lia.
Qed.

(** [run_bash_command] leaves the output and its terminator in the buffer when the
    output is shorter than the buffer, and writes one byte past the end of the buffer when
    it is not. *)
Theorem run_bash_command_bounds output out :
  out <> [] ->
  run_bash_command (inr output) out (zlen out)
  = if zlen output <? zlen out
    then Ret (zlen output + 1, output ++ NUL :: drop (length output + 1) out)
    else Undef UbBounds.
Proof.
  intros Hne. unfold run_bash_command. pose proof (zlen_pos out Hne).
  rewrite run_bash_loop_spec by (done || lia). cbv zeta. run.
  rewrite Z.sub_0_r, !Z.add_0_l. replace (Z.min (zlen output) (zlen out) + 1 - 1)
    with (Z.min (zlen output) (zlen out)) by lia. simpl.
  pose proof (zlen_nonneg output).
  destruct (Z.ltb_spec (zlen output) (zlen out)).
  - rewrite Z.min_l by lia. rewrite take_zlen. unfold zlen. rewrite Nat2Z.id.
    rewrite mem_write_ok; [|lia|].
    + cbn. rewrite Nat2Z.id, take_app_length, drop_app, drop_drop.
      rewrite (drop_ge output) by lia. simpl. do 5 f_equal. lia.
    + unfold zlen in *. rewrite length_app, length_drop. simpl. lia.
  - rewrite Z.min_r by lia. unfold mem_write. rewrite bool_decide_eq_false_2; [done|].
    rewrite zlen_app, zlen_take by lia. unfold zlen in *. rewrite length_drop. simpl. lia.
Qed.

(** The components of a path. *)
Fixpoint split_path (cur p : bytes) : list bytes :=
  match p with
  | [] => [cur]
  | c :: p => if decide (c = SLASH) then cur :: split_path [] p else split_path (cur ++ [c]) p
  end.
Definition components (p : bytes) : list bytes := filter (fun c => c <> []) (split_path [] p).

Lemma split_path_app cur p q :
  split_path cur (p ++ SLASH :: q) = split_path cur p ++ split_path [] q.
Proof.
  revert cur. induction p as [|c p IH]; intros cur; simpl; [done|].
  case_decide; simpl; by rewrite IH.
Qed.

Lemma components_app_slash p q : components (p ++ SLASH :: q) = components p ++ components q.
Proof. unfold components. by rewrite split_path_app, list.filter_app. Qed.

Lemma components_nil : components [] = [].
Proof. done. Qed.

Lemma components_slash q : components (SLASH :: q) = components q.
Proof. apply (components_app_slash [] q). Qed.

(** [path_join] names the path whose components are those of [head] followed by those of
    [tail], whatever slashes they begin or end with. *)
Theorem path_join_components hd tl cap n o :
  path_join hd tl cap n = Ret (0, Some o) -> components o = components hd ++ components tl.
Proof.
  unfold path_join. destruct (_ || _) eqn:E1; [done|]. apply orb_false_iff in E1 as [E1 _].
  rewrite E1, andb_false_r. clear E1.
  destruct ((zlen hd =? 1) && starts_with_slash hd) eqn:E2.
  - apply andb_true_iff in E2 as [E2 E3]. apply Z.eqb_eq in E2.
    unfold starts_with_slash in E3. apply bool_decide_eq_true in E3.
    destruct hd as [|c [|? hd]]; [done| |unfold zlen in E2; simpl in E2; lia].
    simpl in E3. injection E3 as ->. rewrite components_slash, components_nil. simpl.
    destruct (starts_with_slash tl); case_match; intros [= <-]; [done|by rewrite components_slash].
  - destruct (list.last hd) as [c|] eqn:Hl; [|done]. rewrite decide_False by done.
    case_match; [|done]. intros [= <-]. case_decide as Hc.
    + subst c. apply last_Some in Hl as [hd' ->].
      rewrite <- app_assoc. simpl. rewrite !components_app_slash. by rewrite components_nil, app_nil_r.
    + rewrite <- app_assoc. simpl. apply components_app_slash.
Qed.

(** ** Properties of files and directories *)

Section SystemProps.
Context `{FS : FileSystem F} `{HP : Platform} `{CE : CopyEnv}.

Lemma copy_loop_done fuel k content offset :
  zlen content <= offset -> copy_loop fuel k content offset = ([], 0).
Proof. intros. destruct fuel; simpl; [done|]. destruct (Z.ltb_spec offset (zlen content)); [lia|done]. Qed.

Lemma copy_loop_step fuel k content offset n :
  (0 < fuel)%nat -> offset < zlen content -> sendfile k (zlen content - offset) = inr n ->
  copy_loop fuel k content offset
  = (take (Z.to_nat n) (drop (Z.to_nat offset) content)
       ++ fst (copy_loop (pred fuel) (S k) content (offset + n + n)),
     snd (copy_loop (pred fuel) (S k) content (offset + n + n))).
Proof.
  intros Hf Ho Hs. destruct fuel as [|fuel]; [lia|]. simpl.
  destruct (Z.ltb_spec offset (zlen content)); [|lia]. rewrite Hs. by destruct (copy_loop _ _ _ _).
Qed.

(** The loop ends within the fuel [copy_file] gives it: more makes no difference. *)
Lemma copy_loop_fuel fuel1 fuel2 k content offset :
  0 <= offset -> zlen content - offset <= Z.of_nat fuel1 -> (fuel1 <= fuel2)%nat ->
  copy_loop fuel2 k content offset = copy_loop fuel1 k content offset.
Proof.
  revert fuel2 k offset. induction fuel1 as [|fuel1 IH]; intros fuel2 k offset Ho Hf Hle.
  { rewrite !copy_loop_done by lia. done. }
  destruct fuel2 as [|fuel2]; [lia|]. simpl.
  destruct (Z.ltb_spec offset (zlen content)); [|done].
  destruct (sendfile k (zlen content - offset)) as [e|n] eqn:Es; [done|].
  apply sendfile_pos in Es; [|lia]. by rewrite IH by lia.
Qed.

(** Where [copy_file] puts the file. *)
Definition copy_target (fs : F) (src dest : path) : path :=
  if is_dir fs dest
  then match path_join dest (basename src) PATH_MAX PATH_MAX with Ret (_, Some p) => p | _ => [] end
  else dest.

(** The destination of [copy_file] can be written, and the source, a file, is not lost by
    creating it: it is another file. *)
Definition can_copy (fs : F) (src dest : path) (c : bytes) (fs1 : F) : Prop :=
  fs_read fs src = inr c /\
  (is_dir fs dest = true -> exists p, path_join dest (basename src) PATH_MAX PATH_MAX = Ret (0, Some p)) /\
  fs_create fs (copy_target fs src dest) = inr fs1 /\ fs_read fs1 src = inr c /\ is_dir fs1 src = false.

(** What the copy of a content gets, and the result of the copy. *)
Definition copied (c : bytes) : bytes * Z := copy_loop (length c) 0 c 0.

(** The first [sendfile] transfers everything. *)
Definition at_once (c : bytes) : Prop := c = [] \/ sendfile 0 (zlen c) = inr (zlen c).

Lemma copied_nil : copied [] = ([], 0).
Proof. done. Qed.

Lemma copy_loop_le fuel k content offset :
  0 <= offset -> zlen (fst (copy_loop fuel k content offset)) <= Z.max 0 (zlen content - offset).
Proof.
  revert k offset. induction fuel as [|fuel IH]; intros k offset Ho; [change (0 <= Z.max 0 (zlen content - offset)); lia|].
  cbn [copy_loop]. destruct (Z.ltb_spec offset (zlen content)); [|change (0 <= Z.max 0 (zlen content - offset)); lia].
  destruct (sendfile k (zlen content - offset)) as [e|n] eqn:Es; [change (0 <= Z.max 0 (zlen content - offset)); lia|].
  apply sendfile_pos in Es; [|lia]. specialize (IH (S k) (offset + n + n) ltac:(lia)).
  destruct (copy_loop _ _ _ _) as [rest r]. cbn [fst] in *.
  rewrite zlen_app. assert (zlen (drop (Z.to_nat offset) content) = zlen content - offset) as Hd
    by (apply zlen_drop; lia).
  rewrite zlen_take by (rewrite Hd; lia). lia.
Qed.

(** The offset is advanced by the kernel and once more by the code: a copy is complete exactly
    when the first transfer takes the whole file, and then [copy_file] returns 0. *)
Lemma copied_complete c : (fst (copied c) = c <-> at_once c) /\ (at_once c -> copied c = (c, 0)).
Proof.
  assert (at_once c -> copied c = (c, 0)) as Hall.
  { unfold at_once, copied. intros [->|Hs]; [done|]. destruct c as [|b c]; [done|].
    set (l := b :: c) in *. pose proof (zlen_pos l ltac:(done)).
    rewrite (copy_loop_step _ _ _ _ (zlen l)); [|simpl; lia|lia|by rewrite Z.sub_0_r].
    rewrite copy_loop_done by lia. cbn [fst snd].
    by rewrite app_nil_r, (take_zlen l : take (Z.to_nat (zlen l)) (drop (Z.to_nat 0) l) = l). }
  split; [|done]. split; [|by intros ->%Hall].
  unfold at_once, copied. destruct (decide (c = [])) as [->|Hne]; [by left|right].
  pose proof (zlen_pos c Hne) as Hpos. revert H.
  destruct (length c) as [|fuel] eqn:El; [unfold zlen in Hpos; lia|]. cbn [copy_loop].
  rewrite (proj2 (Z.ltb_lt _ _)), Z.sub_0_r by done.
  destruct (sendfile 0 (zlen c)) as [e|n] eqn:Es; [by intros <-|].
  apply sendfile_pos in Es as Hn; [|done]. rewrite Z.add_0_l.
  pose proof (copy_loop_le fuel 1 c (n + n) ltac:(lia)) as Hle.
  destruct (copy_loop fuel 1 c (n + n)) as [rest r]. cbn [fst] in *. intros E.
  apply (f_equal zlen) in E. rewrite zlen_app, zlen_take in E by (change (Z.to_nat 0) with O; rewrite drop_0; lia).
  f_equal. lia.
Qed.

(** The copy is not empty unless it failed. *)
Lemma copied_result c : snd (copied c) <= 0 /\ (snd (copied c) = 0 -> c <> [] -> fst (copied c) <> []) /\
  zlen (fst (copied c)) <= zlen c.
Proof.
  assert (forall fuel k o, snd (copy_loop fuel k c o) <= 0) as Hr.
  { induction fuel as [|fuel IH]; intros k o; [change (0 <= 0); lia|]. cbn [copy_loop].
    destruct (o <? zlen c); [|change (0 <= 0); lia]. destruct (sendfile _ _) as [e|n] eqn:Es.
    - apply sendfile_errno in Es. cbn. lia.
    - specialize (IH (S k) (o + n + n)). by destruct (copy_loop _ _ _ _). }
  split; [apply Hr|]. unfold copied. split.
  - intros H0 Hne. pose proof (zlen_pos c Hne). revert H0.
    destruct (length c) as [|fuel] eqn:El; [unfold zlen in *; lia|]. cbn [copy_loop].
    rewrite (proj2 (Z.ltb_lt _ _)), Z.sub_0_r by done.
    destruct (sendfile 0 (zlen c)) as [e|n] eqn:Es; [apply sendfile_errno in Es; cbn; lia|].
    apply sendfile_pos in Es; [|done]. destruct (copy_loop _ _ _ _) as [rest r]. intros _.
    apply zlen_ne. cbn [fst]. rewrite zlen_app, zlen_take by (change (Z.to_nat 0) with O; rewrite drop_0; lia).
    pose proof (zlen_nonneg rest). lia.
  - pose proof (copy_loop_le (length c) 0 c 0 ltac:(lia)). pose proof (zlen_nonneg c). lia.
Qed.

(** Whatever the kernel transfers: the copy holds what [copied] says.  A copy into a directory
    uses the storage of [dest_tmp] after its block. *)
Lemma copy_file_result fs fs1 src dest c :
  can_copy fs src dest c fs1 ->
  exists fs2, copy_file fs src dest
    = (if is_dir fs dest && negb keeps_block_storage then Undef UbLifetime else Ret (snd (copied c), fs2)) /\
    fs_read fs2 (copy_target fs src dest) = inr (fst (copied c)).
Proof.
  intros (Hsrc & Hdir & Hcr & Hsrc1 & Hf).
  exists (fs_append fs1 (copy_target fs src dest) (fst (copied c))). split.
  - unfold copy_file, copy_target in *. rewrite Hsrc. destruct (is_dir fs dest); cbn [andb].
    + destruct Hdir as [p Hp]; [done|]. rewrite Hp in *. run. destruct keeps_block_storage; [|done].
      run. rewrite Hcr, Hf, Hsrc1. fold (copied c). by destruct (copied c).
    + run. rewrite Hcr, Hf, Hsrc1. fold (copied c). by destruct (copied c).
  - apply (fs_append_read fs1 _ []).
    + by eapply fs_create_read.
    + by eapply fs_create_file.
Qed.

(** [copy_file] makes the destination (the path given, or the file of the same base name in a
    directory) a copy of the source, complete exactly when the first transfer takes it whole:
    the result is 0 as well for a copy that lacks the rest; [move_file] then removes the
    source. *)
Theorem copy_file_copies fs fs1 src dest c :
  can_copy fs src dest c fs1 -> (is_dir fs dest = true -> keeps_block_storage = true) ->
  let '(d, r) := copied c in
  exists fs2, copy_file fs src dest = Ret (r, fs2) /\
    fs_read fs2 (copy_target fs src dest) = inr d /\ (d = c <-> at_once c) /\
    (forall fs3, 0 <= r -> fs_remove fs2 src = inr fs3 ->
       move_file fs src dest = Ret (0, fs3) /\ fs_read fs3 src = inl ENOENT).
Proof.
  intros Hcan Hk. destruct (copy_file_result fs fs1 src dest c Hcan) as (fs2 & Hc & Hr).
  pose proof (proj1 (copied_complete c)) as Hall. destruct (copied c) as [d r]. cbn [fst snd] in *.
  assert (is_dir fs dest && negb keeps_block_storage = false) as E.
  { destruct (is_dir fs dest); [|done]. by rewrite Hk. }
  rewrite E in Hc. exists fs2. split_and!; [done..|]. intros fs3 H0 Hrm. split.
  - unfold move_file. rewrite Hc. run. rewrite (proj2 (Z.leb_le _ _)) by done. by rewrite Hrm.
  - by eapply fs_remove_gone.
Qed.

(** When the first [sendfile] transfers only part of the file, at least half of it, the
    loop ends: [copy_file] returns 0, and the copy is cut short. *)
Theorem copied_truncates c n :
  sendfile 0 (zlen c) = inr n -> 0 < n < zlen c -> zlen c <= 2 * n ->
  copied c = (take (Z.to_nat n) c, 0) /\ take (Z.to_nat n) c <> c.
Proof.
  intros Hs Hn H2. assert (0 < length c)%nat by zlia. split.
  - unfold copied. rewrite (copy_loop_step _ _ _ _ n); [|done|lia|by rewrite Z.sub_0_r].
    rewrite copy_loop_done by lia. cbn [fst snd]. by rewrite app_nil_r.
  - intros E. apply (f_equal length) in E. rewrite length_take in E. unfold zlen in *. lia.
Qed.

Lemma is_dir_mkdir fs p fs' : fs_mkdir fs p = inr fs' -> is_dir fs' p = true.
Proof. intros H. unfold is_dir. by destruct (fs_mkdir_list _ _ _ H) as [l ->]. Qed.

Lemma mkdir_loop_last n i fs p fs' :
  zlen p < PATH_MAX - 1 -> (i <= length p)%nat -> (length p < i + n)%nat ->
  mkdir_loop n i fs p = (0, fs') -> is_dir fs' p = true.
Proof.
  revert i fs. induction n as [|n IH]; intros i fs Hp Hi Hn; [lia|]. simpl.
  rewrite (proj2 (Nat.leb_le _ _)) by done.
  rewrite (proj2 (Z.ltb_lt _ _)) by zlia. simpl.
  destruct (Nat.eqb_spec i (length p)) as [->|Hne].
  - rewrite orb_true_r, firstn_all.
    assert (forall fs, mkdir_loop n (S (length p)) fs p = (0, fs)) as Hend.
    { intros fs0. destruct n; [done|]. cbn [mkdir_loop]. by rewrite (proj2 (Nat.leb_gt _ _)) by lia. }
    destruct (is_dir fs p) eqn:Ed; [rewrite Hend; by intros [= <-]|].
    destruct (fs_mkdir fs p) eqn:Em; [done|]. rewrite Hend. intros [= <-].
    by eapply is_dir_mkdir.
  - intros Hr. case_match; [|eapply IH; [done| | |done]; lia].
    case_match; [eapply IH; [done| | |done]; lia|].
    case_match; [done|]. eapply IH; [done| | |done]; lia.
Qed.

(** When [mkdir_path] returns 0 for a path that fits its buffer, the path is a
    directory. *)
Theorem mkdir_path_creates fs p fs' :
  p <> [] -> zlen p < PATH_MAX - 1 -> mkdir_path fs (Some p) = (0, fs') -> is_dir fs' p = true.
Proof.
  intros Hne Hp. unfold mkdir_path. apply zlen_pos in Hne. unfold zlen in Hne.
  apply mkdir_loop_last; [done|lia|lia].
Qed.

(** [is_file_in_dir] compares only as many bytes as the entry has: it answers true as
    soon as the directory has an entry that is a prefix of the name asked for. *)
Theorem is_file_in_dir_prefix fs d name names :
  fs_list fs d = inr names ->
  is_file_in_dir fs d name = true
  <-> exists e, e ∈ names /\ is_dot e = false /\ e `prefix_of` name.
Proof.
  intros Hl. unfold is_file_in_dir. rewrite Hl. clear Hl.
  induction names as [|e names IH]; simpl.
  - split; [done|]. intros (e & He & _). by apply elem_of_nil in He.
  - destruct (is_dot e) eqn:Ed.
    + rewrite IH. split; [intros (e' & ? & ?); exists e'; set_solver|].
      intros (e' & [->|?]%elem_of_cons & ? & ?); [congruence|by exists e'].
    + destruct (strncmp_eq e name (length e)) eqn:Ec.
      * split; [intros _|done]. apply strncmp_eq_prefix in Ec. exists e. set_solver.
      * rewrite IH. split; [intros (e' & ? & ?); exists e'; set_solver|].
        intros (e' & [->|?]%elem_of_cons & ? & Hpre); [|by exists e'].
        apply strncmp_eq_prefix in Hpre. congruence.
Qed.
End SystemProps.

(** ** Witnesses: the theorems at concrete inputs *)

(** A kernel that transfers a file at once, and one that leaves a byte. *)
Definition sendfile_whole : CopyEnv.
Proof.
  refine {| keeps_block_storage := true; sendfile _ n := inr n; dir_size := 4096; sendfile_dir := EINVAL |}.
  - intros k n r Hn [= <-]. lia.
  - done.
Defined.
Definition sendfile_short : CopyEnv.
Proof.
  refine {| keeps_block_storage := true; sendfile _ n := inr (Z.max 1 (n - 1));
            dir_size := 4096; sendfile_dir := EINVAL |}.
  - intros k n r Hn [= <-]. lia.
  - done.
Defined.

Definition created_fs : memfs := <[cs "/g" := NFile []]> sample_fs.

Lemma run_bash_command_bounds_witness :
  run_bash_command (inr (cs "ok")) (replicate 4 NUL) 4 = Ret (3, cs "ok" ++ [NUL; NUL]).
Proof. exact (run_bash_command_bounds (cs "ok") (replicate 4 NUL) ltac:(done)). Defined.

Lemma path_join_components_witness :
  components (cs "/a/b/c") = components (cs "/a/b/") ++ components (cs "c").
Proof.
  exact (path_join_components (cs "/a/b/") (cs "c") 256 256 (cs "/a/b/c") ltac:(vm_compute; reflexivity)).
Defined.

(** A file of the sample copied to a path that is no directory. *)
Lemma can_copy_sample : can_copy sample_fs (cs "/f") (cs "/g") (cs "hello") created_fs.
Proof.
  split; [vm_compute; reflexivity|]. split; [intros E; vm_compute in E; discriminate E|].
  split; [|split; vm_compute; reflexivity]. apply mem_fs_create_new. vm_compute. reflexivity.
Defined.

Lemma copy_file_copies_witness :
  exists fs2, copy_file (CE := sendfile_whole) sample_fs (cs "/f") (cs "/g") = Ret (0, fs2) /\
    fs_read fs2 (copy_target sample_fs (cs "/f") (cs "/g")) = inr (cs "hello").
Proof.
  destruct (copy_file_copies (CE := sendfile_whole) sample_fs created_fs (cs "/f") (cs "/g") (cs "hello")
    can_copy_sample ltac:(done)) as (fs2 & H1 & H2 & _). by exists fs2.
Defined.

Lemma copied_truncates_witness :
  copied (CE := sendfile_short) (cs "hello") = (cs "hell", 0) /\ cs "hell" <> cs "hello".
Proof. apply (copied_truncates (CE := sendfile_short) (cs "hello") 4); by_compute. Defined.
