(* ===== verification/Logger.v ===== *)
(** * src/common/logger.c and src/canopenlinux/log_prinf.c: messages by priority

    The priorities are those of syslog.h; the level is a variable of the file, passed along.
    The text of a message is formatted by [vsnprintf]; here it is given. *)

From Stdlib Require Import Strings.Byte.
From S2P Require Import Prelude CLib FileSys System.

Definition LOG_EMERG : Z := 0.
Definition LOG_ALERT : Z := 1.
Definition LOG_CRIT : Z := 2.
Definition LOG_ERR : Z := 3.
Definition LOG_WARNING : Z := 4.
Definition LOG_NOTICE : Z := 5.
Definition LOG_INFO : Z := 6.
Definition LOG_DEBUG : Z := 7.

Definition LOG_LEVEL_STR : list bytes :=
  map cs ["DEBUG"; "INFO"; "NOTICE"; "WARNINNG"; "ERROR"; "CRITIAL"; "ALERT"; "EMERGENCY"; "UNKNOWN"]%string.

(** [log_level] when the program starts. *)
Definition log_level_init : Z := LOG_INFO.

Definition log_level_set (level : Z) (log_level : Z) : Z := level.

Definition log_level_index (level : Z) : nat :=
  if level =? LOG_DEBUG then 0 else if level =? LOG_INFO then 1 else if level =? LOG_NOTICE then 2
  else if level =? LOG_WARNING then 3 else if level =? LOG_ERR then 4 else if level =? LOG_CRIT then 5
  else if level =? LOG_ALERT then 6 else if level =? LOG_EMERG then 7 else 8.

Definition log_level_get_str (level : Z) : bytes := nth (log_level_index level) LOG_LEVEL_STR [].

(** What is written to the standard output, if anything. *)
Definition log_message (log_level level : Z) (file : path) (line : Z) (text : bytes) : option bytes :=
  if log_level <? level then None
  else Some (log_level_get_str level ++ cs ": " ++ basename file ++ cs ":" ++ print_dec line ++ cs " - " ++ text ++ cs "
").

Definition log_printf (log_level priority : Z) (text : bytes) : option bytes :=
  if log_level <? priority then None
  else Some (log_level_get_str priority ++ cs ": " ++ text ++ cs "
").

(** The output of a sequence of messages, with the changes of the level between them. *)
Inductive log_op := Log (level : Z) (file : path) (line : Z) (text : bytes) | LogPrintf (priority : Z) (text : bytes)
  | SetLevel (level : Z).

Fixpoint log_run (l : list log_op) (log_level : Z) : bytes :=
  match l with
  | [] => []
  | Log level file line text :: l => default [] (log_message log_level level file line text) ++ log_run l log_level
  | LogPrintf p text :: l => default [] (log_printf log_level p text) ++ log_run l log_level
  | SetLevel level :: l => log_run l (log_level_set level log_level)
  end.

(** ** Properties *)

(** The priority of an operation that logs. *)
Definition op_level (o : log_op) : option Z :=
  match o with Log level _ _ _ => Some level | LogPrintf p _ => Some p | SetLevel _ => None end.

(** The operations at least as urgent as the level, the changes of the level among them. *)
Fixpoint log_kept (l : list log_op) (log_level : Z) : list log_op :=
  match l with
  | [] => []
  | SetLevel level :: l => SetLevel level :: log_kept l level
  | o :: l =>
      if match op_level o with Some p => p <=? log_level | None => true end then o :: log_kept l log_level
      else log_kept l log_level
  end.

(** The output is that of the messages at least as urgent as the level at their time: the others
    leave no trace, however the level changes. *)
Theorem log_run_kept l log_level : log_run l log_level = log_run (log_kept l log_level) log_level.
Proof.
  revert log_level. induction l as [|o l IH]; intros v; [done|].
  destruct o as [level file line text|p text|level]; cbn [log_run log_kept op_level]; [| |exact (IH level)].
  all: rewrite Z.leb_antisym; unfold log_message, log_printf; destruct (v <? _) eqn:E; cbn [negb default]; [apply IH|].
  all: cbn [log_run]; unfold log_message, log_printf; rewrite E; by rewrite <- IH.
Qed.

(** The priorities of syslog have distinct names, and every other number is called unknown. *)
Theorem log_level_names a b :
  0 <= a <= 7 -> (log_level_get_str a = log_level_get_str b <-> a = b) /\
  (log_level_get_str b = cs "UNKNOWN" <-> ~ 0 <= b <= 7).
Proof.
  intros Ha.
  assert (forall z, z = 0 \/ z = 1 \/ z = 2 \/ z = 3 \/ z = 4 \/ z = 5 \/ z = 6 \/ z = 7 \/
    (~ 0 <= z <= 7 /\ log_level_get_str z = cs "UNKNOWN")) as Hcases.
  { intros z. destruct (decide (0 <= z <= 7)); [lia|]. do 8 right. split; [done|].
    unfold log_level_get_str, log_level_index, LOG_DEBUG, LOG_INFO, LOG_NOTICE, LOG_WARNING, LOG_ERR, LOG_CRIT, LOG_ALERT, LOG_EMERG.
    by rewrite !(proj2 (Z.eqb_neq z _)) by lia. }
  split.
  - split; [|by intros ->].
    destruct (Hcases a) as [-> | [-> | [-> | [-> | [-> | [-> | [-> | [-> | [? _]]]]]]]]]; [..|done];
      destruct (Hcases b) as [-> | [-> | [-> | [-> | [-> | [-> | [-> | [-> | [_ ->]]]]]]]]]; done.
  - destruct (Hcases b) as [-> | [-> | [-> | [-> | [-> | [-> | [-> | [-> | [? ->]]]]]]]]]; (split; [done|intros Hn; try done; destruct Hn; lia]).
Qed.

Lemma log_level_names_witness :
  (log_level_get_str LOG_ERR = log_level_get_str 9 <-> LOG_ERR = 9) /\
  (log_level_get_str 9 = cs "UNKNOWN" <-> ~ 0 <= 9 <= 7).
Proof. apply log_level_names. unfold LOG_ERR. lia. Defined.
