(* ===== verification/OdExt.v ===== *)
(** * src/od_extensions/od_ext.c: segmented transfers between the SDO server and the
    extensions

    The SDO server moves a value in segments: it calls the read or write function of an
    extension again and again, with a buffer of [count] bytes each time, while the answer is
    [ODR_PARTIAL].  These four functions are what every extension with a value longer than
    a buffer uses.  Pointer arguments are options ([None] for NULL); a result gives the
    return code and the final contents of everything the pointers lead to. *)

From S2P Require Import Prelude CLib ODInterface FileSys MemFS.

Record read_out := ReadOut {
  ro_code : ODR;
  ro_stream : option OD_stream;
  ro_buf : option bytes;          (* the destination buffer *)
  ro_count : option Z;            (* *countRead *)
}.

Record write_out := WriteOut {
  wo_code : ODR;
  wo_stream : option OD_stream;
  wo_count : option Z;            (* *countWritten *)
  wo_data : option bytes;         (* the destination buffer *)
  wo_written : option Z;          (* *dataWritten *)
}.

(** A [FILE] opened for reading: what it delivers and how much was read already. *)
Record rfile := RFile { rf_path : path; rf_data : bytes; rf_pos : Z }.

(** [fread(buf, n, 1, fp)]: the bytes read and the stream after it. *)
Definition fread (fp : rfile) (n : Z) : bytes * rfile :=
  let got := take (Z.to_nat n) (drop (Z.to_nat (rf_pos fp)) (rf_data fp)) in
  (got, RFile (rf_path fp) (rf_data fp) (rf_pos fp + zlen got)).

(** [fclose] of a NULL stream is undefined. *)
Definition fclose {A} (fp : option A) : res unit :=
  match fp with Some _ => Ret () | None => Undef UbNull end.

Section OdExt.
Context `{ODTypes}.

(** The part of a value of [len] bytes the current call moves: the return code, the
    stream with its new offset, the number of bytes to copy, what remained, and the
    position of the segment.  [None] is the "size error" branch. *)
Definition next_segment (st : OD_stream) (len count : Z)
  : option (ODR * OD_stream * Z * Z * Z) :=
  if (0 <? dataOffset st) || (count <? len) then
    if len <=? dataOffset st then None
    else
      let rest := len - dataOffset st in
      if count <? rest
      then Some (ODR_PARTIAL, set_dataOffset (od_size (dataOffset st + count)) st,
                 count, rest, dataOffset st)
      else Some (ODR_OK, set_dataOffset 0 st, rest, rest, dataOffset st)
  else Some (ODR_OK, st, len, len, 0).

Definition od_ext_read_data (stream : option OD_stream) (buf : option bytes) (count : Z)
    (countRead : option Z) (data : option bytes) (dataLen : Z) : res read_out :=
  match stream, buf, countRead with
  | Some st, Some b, Some _ =>
      let dataLenToCopy := od_size dataLen in
      match data with
      | None => Ret (ReadOut ODR_NO_DATA stream buf countRead)
      | Some d =>
          let st := if dataOffset st =? 0 then set_dataLength (od_size dataLen) st else st in
          match next_segment st dataLenToCopy count with
          | None => Ret (ReadOut ODR_DEV_INCOMPAT (Some st) buf countRead)
          | Some (code, st, n, _, off) =>
              src ← mem_read d off n;
              b ← mem_write b 0 src;
              mret (ReadOut code (Some st) (Some b) (Some n))
          end
      end
  | _, _, _ => Ret (ReadOut ODR_DEV_INCOMPAT stream buf countRead)
  end.

Definition od_ext_write_data (stream : option OD_stream) (buf : option bytes) (count : Z)
    (countWritten : option Z) (data : option bytes) (dataMaxLen : Z) (dataWritten : option Z)
    : res write_out :=
  match stream, buf, countWritten with
  | Some st, Some b, Some _ =>
      if dataMaxLen <? dataLength st
      then Ret (WriteOut ODR_DEV_INCOMPAT stream countWritten data dataWritten)
      else match data with
      | None => Ret (WriteOut ODR_SUB_NOT_EXIST stream countWritten data dataWritten)
      | Some d =>
          match next_segment st (dataLength st) count with
          | None => Ret (WriteOut ODR_DEV_INCOMPAT stream countWritten data dataWritten)
          | Some (code, st, n, remain, off) =>
              if n <? count
              then Ret (WriteOut ODR_DATA_LONG (Some st) countWritten data dataWritten)
              else if (n <=? remain) && (n <=? count) then
                src ← mem_read b 0 n;
                d ← mem_write d off src;
                let written := match dataWritten with
                  | Some _ => if dataOffset st =? 0 then Some (dataLength st) else dataWritten
                  | None => None end in
                mret (WriteOut code (Some st) (Some n) (Some d) written)
              else Ret (WriteOut ODR_DEV_INCOMPAT (Some st) countWritten data dataWritten)
          end
      end
  | _, _, _ => Ret (WriteOut ODR_DEV_INCOMPAT stream countWritten data dataWritten)
  end.

Context `{FS : FileSystem F}.

(** [od_ext_read_file] once the file is open (lines 153 to 189): the result, and the final
    [*fp]. *)
Definition read_file_segment (st : OD_stream) (b : bytes) (count : Z) (countRead : option Z)
    (fp : option rfile) : res (read_out * option rfile) :=
  match next_segment st (dataLength st) count with
  | None => _ ← fclose fp; mret (ReadOut ODR_DEV_INCOMPAT (Some st) (Some b) countRead, None)
  | Some (code, st, n, _, _) =>
      match fp with
      | None => Undef UbNull
      | Some f =>
          let '(got, f) := fread f n in
          b ← mem_write b 0 got;
          let fp := if decide (code = ODR_PARTIAL) then Some f else None in
          mret (ReadOut code (Some st) (Some b) (Some n), fp)
      end
  end.

Definition od_ext_read_file (fs : F) (stream : option OD_stream) (buf : option bytes) (count : Z)
    (countRead : option Z) (file_path : option path) (fp : option rfile)
    : res (read_out * option rfile) :=
  match stream, buf, countRead, file_path with
  | Some st, Some b, Some _, Some p =>
      if dataOffset st =? 0 then
        match fs_read fs p with
        | inl _ => Ret (ReadOut ODR_DEV_INCOMPAT stream buf countRead, None)
        | inr c =>
            let st := set_dataLength (od_size (zlen c)) st in
            if dataLength st =? 0
            then Ret (ReadOut ODR_NO_DATA (Some st) buf countRead, None)
            else read_file_segment st b count countRead (Some (RFile p c 0))
        end
      else read_file_segment st b count countRead fp
  | _, _, _, _ => Ret (ReadOut ODR_DEV_INCOMPAT stream buf countRead, fp)
  end.

(** The result of [od_ext_write_file]: return code, stream, [*countWritten], the final
    [*fp] (the path of the open file) and the file system. *)
Record file_out := FileOut {
  fo_code : ODR;
  fo_stream : option OD_stream;
  fo_count : option Z;
  fo_fp : option path;
  fo_fs : F;
}.

(** [od_ext_write_file] once the file is open (lines 212 to 268). *)
Definition write_file_segment (st : OD_stream) (b : bytes) (count : Z) (countWritten : option Z)
    (fp : option path) (fs : F) : res file_out :=
  match next_segment st (dataLength st) count with
  | None => _ ← fclose fp; mret (FileOut ODR_DEV_INCOMPAT (Some st) countWritten None fs)
  | Some (code, st, n, remain, _) =>
      if n <? count then
        _ ← fclose fp; mret (FileOut ODR_DATA_LONG (Some st) countWritten None fs)
      else if (n <=? remain) && (n <=? count) then
        match fp with
        | None => mret (FileOut code (Some st) (Some n) None fs)
        | Some f =>
            src ← mem_read b 0 n;
            let fp := if decide (code = ODR_PARTIAL) then Some f else None in
            mret (FileOut code (Some st) (Some n) fp (fs_append fs f src))
        end
      else _ ← fclose fp; mret (FileOut ODR_DEV_INCOMPAT (Some st) countWritten None fs)
  end.

Definition od_ext_write_file (fs : F) (stream : option OD_stream) (buf : option bytes) (count : Z)
    (countWritten : option Z) (file_path : option path) (fp : option path) : res file_out :=
  match stream, buf, countWritten, file_path with
  | Some st, Some b, Some _, Some p =>
      if dataOffset st =? 0 then
        match fs_create fs p with
        | inl _ => Ret (FileOut ODR_DEV_INCOMPAT stream countWritten None fs)
        | inr fs => write_file_segment st b count countWritten (Some p) fs
        end
      else write_file_segment st b count countWritten fp fs
  | _, _, _, _ => Ret (FileOut ODR_DEV_INCOMPAT stream countWritten fp fs)
  end.

End OdExt.
Arguments FileOut {F} _ _ _ _ _.
Arguments fo_code {F} _.
Arguments fo_stream {F} _.
Arguments fo_count {F} _.
Arguments fo_fp {F} _.
Arguments fo_fs {F} _.

(** ** Reading a value in segments *)

Section ReadSegments.
Context `{HO : ODTypes}.

(** One call of the server with a buffer of [count] bytes: the code, the stream and the
    bytes it got. *)
Definition read_call (d : bytes) (len : Z) (st : OD_stream) (count : Z)
  : res (ODR * OD_stream * bytes) :=
  r ← od_ext_read_data (Some st) (Some (replicate (Z.to_nat count) NUL)) count (Some 0) (Some d) len;
  match r with
  | ReadOut code (Some st) (Some b) (Some n) => mret (code, st, take (Z.to_nat n) b)
  | _ => Undef UbNull
  end.

(** The server's loop, with the buffer sizes it uses: it goes on after [ODR_PARTIAL]. *)
Fixpoint read_segments (d : bytes) (len : Z) (counts : list Z) (st : OD_stream)
  : res (ODR * OD_stream * bytes) :=
  match counts with
  | [] => Ret (ODR_PARTIAL, st, [])
  | count :: counts =>
      '(code, st, seg) ← read_call d len st count;
      if decide (code = ODR_PARTIAL)
      then '(code, st, rest) ← read_segments d len counts st; mret (code, st, seg ++ rest)
      else mret (code, st, seg)
  end.

Definition sum_counts (counts : list Z) : Z := foldr Z.add 0 counts.

(** The stream of a read in progress. *)
Definition reading (st : OD_stream) (len off : Z) : OD_stream :=
  mkStream len off (index st) (subIndex st).

Lemma mem_write_start (m d : bytes) :
  zlen d <= zlen m -> mem_write m 0 d = Ret (d ++ drop (length d) m).
Proof. intros. rewrite mem_write_ok by lia. done. Qed.

Lemma next_segment_read st len off count :
  is_od_size len -> 0 <= off < len -> 0 < count ->
  next_segment (reading st len off) len count
  = Some (if count <? len - off
          then (ODR_PARTIAL, reading st len (off + count), count, len - off, off)
          else (ODR_OK, reading st len 0, len - off, len - off, off)).
Proof.
  intros Hlen Hoff Hc. unfold next_segment, reading, set_dataOffset. simpl.
  destruct (Z.ltb_spec 0 off), (Z.ltb_spec count len); simpl.
  1, 2: destruct (Z.leb_spec len off); [lia|]; destruct (Z.ltb_spec count (len - off)); try done.
  1, 2: rewrite od_size_id by (apply (is_od_size_le _ len); [lia|done]); done.
  1, 2: assert (off = 0) as -> by lia; rewrite ?Z.sub_0_r.
  - destruct (Z.leb_spec len 0); [lia|]. destruct (Z.ltb_spec count len); [|lia].
    rewrite od_size_id by (apply (is_od_size_le _ len); [lia|done]). done.
  - destruct (Z.ltb_spec count len); [lia|done].
Qed.

Lemma read_call_step d len st off count l0 :
  is_od_size len -> len <= zlen d -> 0 <= off < len -> 0 < count ->
  (off = 0 \/ l0 = len) ->
  read_call d len (reading st l0 off) count
  = Ret (if count <? len - off
         then (ODR_PARTIAL, reading st len (off + count), take (Z.to_nat count) (drop (Z.to_nat off) d))
         else (ODR_OK, reading st len 0, take (Z.to_nat (len - off)) (drop (Z.to_nat off) d))).
Proof.
  intros Hlen Hd Hoff Hc Hl0. unfold read_call, od_ext_read_data.
  rewrite (od_size_id len) by done.
  assert ((if dataOffset (reading st l0 off) =? 0 then set_dataLength len (reading st l0 off)
           else reading st l0 off) = reading st len off) as ->.
  { simpl. destruct (Z.eqb_spec off 0); [done|]. destruct Hl0; [lia|by subst]. }
  rewrite next_segment_read by done.
  assert (zlen (replicate (Z.to_nat count) NUL) = count) as Hb by (apply zlen_replicate; lia).
  destruct (Z.ltb_spec count (len - off)).
  - rewrite mem_read_ok by lia. run.
    rewrite mem_write_start by (rewrite Hb, zlen_take; [lia|rewrite zlen_drop; lia]).
    cbn. f_equal. f_equal. rewrite take_app_length'; [done|].
    rewrite length_take, length_drop. unfold zlen in *. lia.
  - rewrite mem_read_ok by lia. run.
    rewrite mem_write_start by (rewrite Hb, zlen_take; [lia|rewrite zlen_drop; lia]).
    cbn. f_equal. f_equal. rewrite take_app_length'; [done|].
    rewrite length_take, length_drop. unfold zlen in *. lia.
Qed.

Lemma take_take_drop {A} (l : list A) i j :
  0 <= i -> 0 <= j -> take (Z.to_nat i) l ++ take (Z.to_nat j) (drop (Z.to_nat i) l) = take (Z.to_nat (i + j)) l.
Proof.
  intros. rewrite Z2Nat.inj_add by lia. by rewrite take_take_drop.
Qed.

Lemma sum_counts_nonneg counts : Forall (Z.lt 0) counts -> 0 <= sum_counts counts.
Proof. induction 1; simpl; lia. Qed.

Lemma read_segments_from d len counts st off l0 :
  is_od_size len -> len <= zlen d -> 0 <= off < len -> Forall (Z.lt 0) counts ->
  (off = 0 \/ l0 = len) -> counts <> [] \/ l0 = len ->
  read_segments d len counts (reading st l0 off)
  = Ret (if len - off <=? sum_counts counts
         then (ODR_OK, reading st len 0, take (Z.to_nat (len - off)) (drop (Z.to_nat off) d))
         else (ODR_PARTIAL, reading st len (off + sum_counts counts),
               take (Z.to_nat (sum_counts counts)) (drop (Z.to_nat off) d))).
Proof.
  intros Hlen Hd Hoff Hc. revert off l0 Hoff.
  induction Hc as [|c counts Hc Hcs IH]; intros off l0 Hoff Hl0 Hne; simpl.
  { destruct Hne as [|Hl]; [done|subst l0]. destruct (Z.leb_spec (len - off) 0); [lia|].
    by rewrite Z.add_0_r. }
  pose proof (sum_counts_nonneg counts Hcs).
  rewrite read_call_step by done. destruct (Z.ltb_spec c (len - off)).
  - run. rewrite decide_True by done. rewrite IH by (done || lia || auto).
    destruct (Z.leb_spec (len - (off + c)) (sum_counts counts)),
      (Z.leb_spec (len - off) (c + sum_counts counts)); try lia; cbn; f_equal; f_equal.
    + replace (Z.to_nat (off + c)) with (Z.to_nat off + Z.to_nat c)%nat by lia.
      rewrite <- drop_drop, take_take_drop by lia. do 2 f_equal. lia.
    + do 2 f_equal. lia.
    + replace (Z.to_nat (off + c)) with (Z.to_nat off + Z.to_nat c)%nat by lia.
      rewrite <- drop_drop, take_take_drop by lia. done.
  - cbn. destruct (Z.leb_spec (len - off) (c + sum_counts counts)); [done|lia].
Qed.

(** C8: whatever buffer sizes the server uses, the segments an extension returns for a value
    make up that value: the read ends with [ODR_OK] as soon as the buffers together can
    hold it, with the offset back at 0, and until then it delivers a prefix.  No byte
    outside the value or the buffers is touched. *)
Theorem od_ext_read_data_reassembles d st counts :
  d <> [] -> is_od_size (zlen d) -> dataOffset st = 0 -> counts <> [] -> Forall (Z.lt 0) counts ->
  read_segments d (zlen d) counts st
  = Ret (if zlen d <=? sum_counts counts
         then (ODR_OK, reading st (zlen d) 0, d)
         else (ODR_PARTIAL, reading st (zlen d) (sum_counts counts),
               take (Z.to_nat (sum_counts counts)) d)).
Proof.
  intros Hd Hlen Hst Hne Hc. destruct st as [l0 off i s]. simpl in Hst. subst off.
  pose proof (zlen_pos d Hd).
  pose proof (read_segments_from d (zlen d) counts (mkStream l0 0 i s) 0 l0) as E.
  unfold reading in E at 1. simpl in E. rewrite E by (done || lia || auto). rewrite Z.sub_0_r, Z.add_0_l, drop_0.
  unfold zlen at 3. rewrite Nat2Z.id, firstn_all. done.
Qed.
End ReadSegments.

(** ** Writing a value in segments *)

(** The object [m] with the bytes [x] at offset [off]. *)
Definition splice (m : bytes) (off : nat) (x : bytes) : bytes :=
  take off m ++ x ++ drop (off + length x) m.

Lemma splice_splice m off a b :
  (off + length a + length b <= length m)%nat ->
  splice (splice m off a) (off + length a) b = splice m off (a ++ b).
Proof.
  intros Hl. unfold splice. rewrite length_app.
  assert (length (take off m ++ a) = (off + length a)%nat) as Hp
    by (rewrite length_app, length_take; lia).
  rewrite (app_assoc (take off m) a). rewrite take_app_length' by done.
  rewrite drop_app, Hp, drop_drop, <- !app_assoc.
  rewrite (drop_ge (take off m ++ a)) by lia. simpl.
  replace (off + length a + (off + length a + length b - (off + length a)))%nat
    with (off + (length a + length b))%nat by lia. by rewrite <- ?app_assoc.
Qed.

Lemma mem_write_splice m off d :
  0 <= off -> off + zlen d <= zlen m -> mem_write m off d = Ret (splice m (Z.to_nat off) d).
Proof. apply mem_write_ok. Qed.

Lemma length_splice m off x : (off + length x <= length m)%nat -> length (splice m off x) = length m.
Proof. intros. unfold splice. rewrite !length_app, length_take, length_drop. lia. Qed.

Section WriteSegments.
Context `{HO : ODTypes}.

(** One call of the server with the bytes of a segment; [d] is the memory behind [data]. *)
Definition write_call (max : Z) (d : bytes) (st : OD_stream) (written : Z) (chunk : bytes)
  : res (ODR * OD_stream * bytes * Z) :=
  r ← od_ext_write_data (Some st) (Some chunk) (zlen chunk) (Some 0) (Some d) max (Some written);
  match r with
  | WriteOut code (Some st) (Some _) (Some d) (Some w) => mret (code, st, d, w)
  | _ => Undef UbNull
  end.

Fixpoint write_segments (max : Z) (d : bytes) (st : OD_stream) (written : Z) (chunks : list bytes)
  : res (ODR * OD_stream * bytes * Z) :=
  match chunks with
  | [] => Ret (ODR_PARTIAL, st, d, written)
  | chunk :: chunks =>
      '(code, st, d, written) ← write_call max d st written chunk;
      if decide (code = ODR_PARTIAL) then write_segments max d st written chunks
      else mret (code, st, d, written)
  end.

Lemma next_segment_write st len off count :
  is_od_size len -> 0 <= off < len -> 0 < count ->
  next_segment (reading st len off) len count
  = Some (if count <? len - off
          then (ODR_PARTIAL, reading st len (off + count), count, len - off, off)
          else (ODR_OK, reading st len 0, len - off, len - off, off)).
Proof. apply next_segment_read. Qed.

Lemma write_call_step max d st len off w chunk :
  is_od_size len -> len <= max -> len <= zlen d -> 0 <= off < len -> chunk <> [] ->
  write_call max d (reading st len off) w chunk
  = Ret (if zlen chunk <? len - off
         then (ODR_PARTIAL, reading st len (off + zlen chunk), splice d (Z.to_nat off) chunk, w)
         else if zlen chunk =? len - off
         then (ODR_OK, reading st len 0, splice d (Z.to_nat off) chunk, len)
         else (ODR_DATA_LONG, reading st len 0, d, w)).
Proof.
  intros Hlen Hmax Hd Hoff Hc.
  pose proof (zlen_pos chunk Hc).
  unfold write_call, od_ext_write_data. cbn [dataLength reading].
  destruct (Z.ltb_spec max len); [lia|].
  change (mkStream len off (index st) (subIndex st)) with (reading st len off).
  rewrite next_segment_read by done.
  pose proof (take_zlen chunk : take (Z.to_nat (zlen chunk)) (drop (Z.to_nat 0) chunk) = chunk) as Hc0.
  destruct (Z.ltb_spec (zlen chunk) (len - off)).
  - rewrite Z.ltb_irrefl. rewrite (proj2 (Z.leb_le _ _)) by lia. rewrite Z.leb_refl. simpl andb.
    cbv iota. rewrite mem_read_ok, Hc0 by lia. run.
    rewrite mem_write_splice by lia. run. cbn.
    destruct (Z.eqb_spec (off + zlen chunk) 0); [lia|]. done.
  - destruct (Z.eqb_spec (zlen chunk) (len - off)) as [E|E].
    + rewrite <- E, Z.ltb_irrefl, Z.leb_refl. simpl andb. cbv iota.
      rewrite mem_read_ok, Hc0 by lia. run.
      rewrite mem_write_splice by lia. done.
    + destruct (Z.ltb_spec (len - off) (zlen chunk)); [done|lia].
Qed.

Definition total (chunks : list bytes) : Z := zlen (concat chunks).

Lemma total_cons c chunks : total (c :: chunks) = zlen c + total chunks.
Proof. unfold total. simpl. apply zlen_app. Qed.

Lemma total_nonneg chunks : 0 <= total chunks.
Proof. apply zlen_nonneg. Qed.

Lemma total_0_nil chunks : Forall (fun c => c <> []) chunks -> total chunks = 0 -> chunks = [].
Proof.
  intros Hc Ht. destruct chunks as [|c chunks]; [done|]. inversion_clear Hc as [|? ? Hc' ?].
  apply zlen_pos in Hc'. rewrite total_cons in Ht. pose proof (total_nonneg chunks). lia.
Qed.

Lemma write_segments_from max d st len off w chunks :
  is_od_size len -> len <= max -> len <= zlen d -> 0 <= off < len ->
  Forall (fun c => c <> []) chunks -> off + total chunks <= len ->
  write_segments max d (reading st len off) w chunks
  = Ret (if off + total chunks =? len
         then (ODR_OK, reading st len 0, splice d (Z.to_nat off) (concat chunks), len)
         else (ODR_PARTIAL, reading st len (off + total chunks),
               splice d (Z.to_nat off) (concat chunks), w)).
Proof.
  intros Hlen Hmax Hd Hoff Hc. revert d off Hd Hoff.
  induction Hc as [|c chunks Hc Hcs IH]; intros d off Hd Hoff Htot.
  { unfold total, zlen, splice. simpl. rewrite Nat.add_0_r, Z.add_0_r, take_drop.
    destruct (Z.eqb_spec off len); [lia|done]. }
  pose proof (total_cons c chunks) as Ht.
  pose proof (total_nonneg chunks).
  assert (0 < zlen c) by by apply zlen_pos.
  cbn [write_segments]. rewrite write_call_step by done. rewrite Ht in *.
  destruct (Z.ltb_spec (zlen c) (len - off)).
  - run. rewrite decide_True by done.
    assert (zlen (splice d (Z.to_nat off) c) = zlen d) as Hs.
    { unfold zlen in *. rewrite length_splice; lia. }
    rewrite IH by lia. rewrite Z.add_assoc.
    replace (Z.to_nat (off + zlen c)) with (Z.to_nat off + length c)%nat by zlia.
    rewrite splice_splice; [done|]. unfold total, zlen in *. lia.
  - assert (total chunks = 0) as Ht0 by lia.
    assert (chunks = []) as -> by by apply total_0_nil.
    destruct (Z.eqb_spec (zlen c) (len - off)) as [E|E]; [|lia].
    rewrite Ht0. destruct (Z.eqb_spec (off + (zlen c + 0)) len); [|lia].
    cbn. by rewrite app_nil_r.
Qed.

Lemma write_segments_app max d st w chunks1 chunks2 :
  write_segments max d st w (chunks1 ++ chunks2)
  = ('(code, st, d, w) ← write_segments max d st w chunks1;
     if decide (code = ODR_PARTIAL) then write_segments max d st w chunks2
     else mret (code, st, d, w)).
Proof.
  revert d st w. induction chunks1 as [|c chunks1 IH]; intros d st w; [done|].
  simpl. destruct (write_call max d st w c) as [[[[code st'] d'] w']|u]; [|done].
  simpl. case_decide as Hcode; [apply IH|]. simpl. by rewrite decide_False.
Qed.

(** C9: a value of the length the stream announces, received in any number of non-empty
    segments, ends up at the start of the extension's buffer: [ODR_OK] and its length in
    [*dataWritten] with the last byte, [ODR_PARTIAL] before.  The rest of the buffer is
    not touched. *)
Theorem od_ext_write_data_assembles max d st w chunks :
  is_od_size (dataLength st) -> dataLength st <= max -> max <= zlen d -> dataOffset st = 0 ->
  Forall (fun c => c <> []) chunks -> chunks <> [] -> total chunks <= dataLength st ->
  write_segments max d st w chunks
  = Ret (if total chunks =? dataLength st
         then (ODR_OK, reading st (dataLength st) 0, splice d 0 (concat chunks), dataLength st)
         else (ODR_PARTIAL, reading st (dataLength st) (total chunks), splice d 0 (concat chunks), w)).
Proof.
  intros Hlen Hmax Hd Hst Hc Hne Ht. destruct st as [len off i s]. simpl in *. subst off.
  assert (0 < len).
  { pose proof (total_nonneg chunks). destruct (decide (total chunks = 0)); [|lia].
    by destruct Hne; apply total_0_nil. }
  apply (write_segments_from max d (mkStream len 0 i s) len 0 w chunks); done || lia.
Qed.

(** A segment that goes beyond the announced length is refused with [ODR_DATA_LONG], and
    none of its bytes reach the buffer. *)
Theorem od_ext_write_data_too_long max d st w chunks c :
  is_od_size (dataLength st) -> dataLength st <= max -> max <= zlen d -> dataOffset st = 0 ->
  Forall (fun c => c <> []) chunks -> total chunks < dataLength st < total chunks + zlen c ->
  write_segments max d st w (chunks ++ [c])
  = Ret (ODR_DATA_LONG, reading st (dataLength st) 0, splice d 0 (concat chunks), w).
Proof.
  intros Hlen Hmax Hd Hst Hc Ht. destruct st as [len off i s]. simpl in *. subst off.
  change (mkStream len 0 i s) with (reading (mkStream len 0 i s) len 0).
  pose proof (total_nonneg chunks).
  rewrite write_segments_app by lia.
  rewrite (write_segments_from max d _ len 0 w chunks) by (done || lia).
  destruct (Z.eqb_spec (0 + total chunks) len); [lia|]. cbn [mbind res_bind write_segments].
  rewrite decide_True by done. rewrite write_call_step; [|done|lia| |lia|].
  - destruct (Z.ltb_spec (zlen c) (len - (0 + total chunks))); [lia|].
    destruct (Z.eqb_spec (zlen c) (len - (0 + total chunks))); [lia|done].
  - unfold total, zlen in *. rewrite length_splice; lia.
  - intros ->. unfold zlen in Ht. simpl in Ht. lia.
Qed.
End WriteSegments.

(** ** What one call does to the buffer *)

Section WriteBounds.
Context `{HO : ODTypes}.

(** The segment [next_segment] chooses lies inside the value. *)
Lemma next_segment_bounds st len count c s n rm off :
  next_segment st len count = Some (c, s, n, rm, off) ->
  (0 <= dataOffset st -> 0 <= off) /\ off + n <= len /\ (0 <= count -> 0 <= len -> 0 <= n <= count).
Proof.
  unfold next_segment.
  destruct (Z.ltb_spec 0 (dataOffset st)), (Z.ltb_spec count len); simpl;
    try (destruct (Z.leb_spec len (dataOffset st)); [done|]);
    try (destruct (Z.ltb_spec count (len - dataOffset st)));
    intros [= <- <- <- <- <-]; lia.
Qed.

(** A call writes one segment below the maximum length, or nothing. *)
Lemma od_ext_write_data_write st b count k d max w out :
  0 <= max -> od_ext_write_data (Some st) (Some b) count (Some k) (Some d) max (Some w) = Ret out ->
  exists off x d', off + zlen x <= max /\ (d' = d \/ mem_write d off x = Ret d') /\ wo_data out = Some d'.
Proof.
  intros Hm. unfold od_ext_write_data.
  assert (forall d', d' = d -> exists off x d0, off + zlen x <= max /\
    (d0 = d \/ mem_write d off x = Ret d0) /\ Some d' = Some d0) as Hnone.
  { intros d' ->. exists 0, [], d. split; [by zlia|]. auto. }
  destruct (Z.ltb_spec max (dataLength st)) as [|Hmax]; [intros [= <-]; by apply Hnone|].
  destruct (next_segment st (dataLength st) count) as [[[[[c s] m] rm] off]|] eqn:Hseg;
    [|intros [= <-]; by apply Hnone].
  destruct (m <? count); [intros [= <-]; by apply Hnone|].
  destruct ((m <=? rm) && _); [|intros [= <-]; by apply Hnone].
  intros (src & Hsrc & (d1 & Hd & [= <-])%res_bind_Ret_inv)%res_bind_Ret_inv.
  exists off, src, d1. split; [|auto].
  apply next_segment_bounds in Hseg as (_ & Hb & _).
  revert Hsrc. unfold mem_read. case_bool_decide; [|done]. intros [= <-].
  unfold zlen. rewrite length_take. lia.
Qed.

Lemma od_ext_write_data_terminated st b count k d max w out n :
  0 <= max < n -> terminated d n ->
  od_ext_write_data (Some st) (Some b) count (Some k) (Some d) max (Some w) = Ret out ->
  exists d', wo_data out = Some d' /\ terminated d' n.
Proof.
  intros Hm Ht (off & x & d' & Hx & [-> | Hd] & E)%od_ext_write_data_write; [| |lia].
  - by exists d.
  - exists d'. split; [done|]. eapply terminated_mem_write; [done..|left; lia].
Qed.
End WriteBounds.

(** ** Files in segments *)

Section FileSegments.
Context `{HO : ODTypes} `{FS : FileSystem F}.

Definition read_file_call (fs : F) (p : path) (st : OD_stream) (fp : option rfile) (count : Z)
  : res (ODR * OD_stream * option rfile * bytes) :=
  '(r, fp) ← od_ext_read_file fs (Some st) (Some (replicate (Z.to_nat count) NUL)) count
               (Some 0) (Some p) fp;
  match r with
  | ReadOut code (Some st) (Some b) (Some n) => mret (code, st, fp, take (Z.to_nat n) b)
  | _ => Undef UbNull
  end.

Fixpoint read_file_segments (fs : F) (p : path) (counts : list Z) (st : OD_stream)
    (fp : option rfile) : res (ODR * OD_stream * option rfile * bytes) :=
  match counts with
  | [] => Ret (ODR_PARTIAL, st, fp, [])
  | count :: counts =>
      '(code, st, fp, seg) ← read_file_call fs p st fp count;
      if decide (code = ODR_PARTIAL)
      then '(code, st, fp, rest) ← read_file_segments fs p counts st fp;
           mret (code, st, fp, seg ++ rest)
      else mret (code, st, fp, seg)
  end.

(** The stream and the open file agree: at the start any, later at the same position. *)
Definition at_offset (p : path) (c : bytes) (off l0 : Z) (fp : option rfile) : Prop :=
  off = 0 \/ (l0 = zlen c /\ fp = Some (RFile p c off)).

Lemma od_ext_read_file_open fs p c st off l0 fp b count k :
  fs_read fs p = inr c -> is_od_size (zlen c) -> 0 <= off < zlen c -> at_offset p c off l0 fp ->
  od_ext_read_file fs (Some (reading st l0 off)) (Some b) count (Some k) (Some p) fp
  = read_file_segment (reading st (zlen c) off) b count (Some k) (Some (RFile p c off)).
Proof.
  intros Hfs Hlen Hoff Hat. unfold od_ext_read_file. simpl. rewrite Hfs.
  destruct (Z.eqb_spec off 0) as [->|Hne].
  - rewrite od_size_id by done. simpl. destruct (Z.eqb_spec (zlen c) 0); [lia|done].
  - destruct Hat as [|[-> ->]]; [lia|done].
Qed.

Lemma read_file_call_step fs p c st off l0 fp count :
  fs_read fs p = inr c -> is_od_size (zlen c) -> 0 <= off < zlen c -> 0 < count ->
  at_offset p c off l0 fp ->
  read_file_call fs p (reading st l0 off) fp count
  = Ret (if count <? zlen c - off
         then (ODR_PARTIAL, reading st (zlen c) (off + count), Some (RFile p c (off + count)),
               take (Z.to_nat count) (drop (Z.to_nat off) c))
         else (ODR_OK, reading st (zlen c) 0, None,
               take (Z.to_nat (zlen c - off)) (drop (Z.to_nat off) c))).
Proof.
  intros Hfs Hlen Hoff Hc Hat. unfold read_file_call.
  rewrite (od_ext_read_file_open fs p c) by done.
  unfold read_file_segment. cbn [dataLength reading].
  change (mkStream (zlen c) off (index st) (subIndex st)) with (reading st (zlen c) off).
  rewrite next_segment_read by done.
  assert (zlen (replicate (Z.to_nat count) NUL) = count) as Hb by (apply zlen_replicate; lia).
  assert (forall n, 0 <= n <= zlen c - off ->
    zlen (take (Z.to_nat n) (drop (Z.to_nat off) c)) = n) as Hn.
  { intros. rewrite zlen_take; [done|]. rewrite zlen_drop; lia. }
  destruct (Z.ltb_spec count (zlen c - off)); unfold fread; cbn [rf_data rf_pos rf_path];
    cbv zeta.
  - rewrite mem_write_start by (rewrite Hb, Hn; lia). rewrite Hn by lia.
    cbn -[zlen Z.to_nat]. f_equal. f_equal. rewrite take_app_length'; [done|].
    specialize (Hn count). unfold zlen in *. lia.
  - rewrite mem_write_start by (rewrite Hb, Hn; lia).
    cbn -[zlen Z.to_nat]. f_equal. f_equal. rewrite take_app_length'; [done|].
    specialize (Hn (zlen c - off)). unfold zlen in *. lia.
Qed.

Lemma read_file_segments_from fs p c counts st off l0 fp :
  fs_read fs p = inr c -> is_od_size (zlen c) -> 0 <= off < zlen c -> Forall (Z.lt 0) counts ->
  at_offset p c off l0 fp -> zlen c - off <= sum_counts counts ->
  read_file_segments fs p counts (reading st l0 off) fp
  = Ret (ODR_OK, reading st (zlen c) 0, None, drop (Z.to_nat off) c).
Proof.
  intros Hfs Hlen Hoff Hc. revert off l0 fp Hoff.
  induction Hc as [|n counts Hn Hcs IH]; intros off l0 fp Hoff Hat Hsum; simpl in *; [lia|].
  rewrite (read_file_call_step fs p c) by done. destruct (Z.ltb_spec n (zlen c - off)).
  - run. rewrite decide_True by done.
    rewrite IH by (lia || by right). cbn. do 2 f_equal.
    replace (Z.to_nat (off + n)) with (Z.to_nat off + Z.to_nat n)%nat by lia.
    rewrite <- drop_drop. apply take_drop.
  - cbn. do 2 f_equal. apply take_ge. rewrite length_drop. unfold zlen. lia.
Qed.

(** C10: reading a file that is not empty over the bus delivers exactly its bytes, in as many calls as the
    buffers need, and leaves no file open (an empty one is answered with ODR_NO_DATA). *)
Theorem od_ext_read_file_reassembles fs p c counts st fp :
  fs_read fs p = inr c -> c <> [] -> is_od_size (zlen c) -> dataOffset st = 0 ->
  Forall (Z.lt 0) counts -> zlen c <= sum_counts counts ->
  read_file_segments fs p counts st fp = Ret (ODR_OK, reading st (zlen c) 0, None, c).
Proof.
  intros Hfs Hne Hlen Hst Hc Hsum. destruct st as [l0 off i s]. simpl in Hst. subst off.
  assert (0 < zlen c) by by apply zlen_pos.
  apply (read_file_segments_from fs p c counts (mkStream l0 0 i s) 0 l0 fp); try done; [by left|lia].
Qed.

Definition write_file_call (p : path) (fs : F) (st : OD_stream) (fp : option path) (chunk : bytes)
  : res (ODR * OD_stream * option path * F) :=
  r ← od_ext_write_file fs (Some st) (Some chunk) (zlen chunk) (Some 0) (Some p) fp;
  match r with
  | FileOut code (Some st) (Some _) fp fs => mret (code, st, fp, fs)
  | _ => Undef UbNull
  end.

Fixpoint write_file_segments (p : path) (fs : F) (st : OD_stream) (fp : option path)
    (chunks : list bytes) : res (ODR * OD_stream * option path * F) :=
  match chunks with
  | [] => Ret (ODR_PARTIAL, st, fp, fs)
  | chunk :: chunks =>
      '(code, st, fp, fs) ← write_file_call p fs st fp chunk;
      if decide (code = ODR_PARTIAL) then write_file_segments p fs st fp chunks
      else mret (code, st, fp, fs)
  end.

Lemma write_file_segment_step p fs st len off chunk :
  is_od_size len -> 0 <= off < len -> chunk <> [] -> zlen chunk <= len - off ->
  write_file_segment (reading st len off) chunk (zlen chunk) (Some 0) (Some p) fs
  = Ret (if zlen chunk <? len - off
         then FileOut ODR_PARTIAL (Some (reading st len (off + zlen chunk))) (Some (zlen chunk))
                (Some p) (fs_append fs p chunk)
         else FileOut ODR_OK (Some (reading st len 0)) (Some (zlen chunk)) None
                (fs_append fs p chunk)).
Proof.
  intros Hlen Hoff Hc Hle.
  pose proof (zlen_pos chunk Hc).
  pose proof (take_zlen chunk : take (Z.to_nat (zlen chunk)) (drop (Z.to_nat 0) chunk) = chunk) as Hc0.
  unfold write_file_segment. cbn [dataLength reading].
  change (mkStream len off (index st) (subIndex st)) with (reading st len off).
  rewrite next_segment_read by done. destruct (Z.ltb_spec (zlen chunk) (len - off)).
  - rewrite Z.ltb_irrefl, (proj2 (Z.leb_le _ _)), Z.leb_refl by lia. simpl andb. cbv iota.
    by rewrite mem_read_ok, Hc0 by lia.
  - replace (len - off) with (zlen chunk) by lia. rewrite Z.ltb_irrefl, Z.leb_refl. simpl andb.
    cbv iota. by rewrite mem_read_ok, Hc0 by lia.
Qed.

(** From an open file on: the segments are appended, and the file closed with the last. *)
Lemma write_file_segments_from p fs st len off chunks :
  is_od_size len -> 0 < off < len -> Forall (fun c => c <> []) chunks -> off + total chunks = len ->
  write_file_segments p fs (reading st len off) (Some p) chunks
  = Ret (ODR_OK, reading st len 0, None, fs_append fs p (concat chunks)).
Proof.
  intros Hlen Hoff Hc. revert fs off Hoff.
  induction Hc as [|c chunks Hc Hcs IH]; intros fs off Hoff Htot.
  { unfold total, zlen in Htot. simpl in Htot. lia. }
  pose proof (total_cons c chunks) as Ht.
  pose proof (total_nonneg chunks).
  assert (0 < zlen c) by by apply zlen_pos.
  cbn [write_file_segments]. unfold write_file_call, od_ext_write_file. cbn [dataOffset reading].
  destruct (Z.eqb_spec off 0); [lia|].
  change (mkStream len off (index st) (subIndex st)) with (reading st len off).
  rewrite write_file_segment_step by (done || lia).
  destruct (Z.ltb_spec (zlen c) (len - off)).
  - run. rewrite decide_True by done.
    rewrite IH by lia. by rewrite fs_append_app.
  - assert (chunks = []) as ->.
    { destruct chunks as [|c' chunks]; [done|]. inversion_clear Hcs as [|? ? Hc' ?].
      destruct c'; [done|]. unfold total, zlen in *. simpl in *. lia. }
    cbn. by rewrite app_nil_r.
Qed.

Lemma write_file_segments_whole p fs fs0 st fp chunks :
  fs_create fs p = inr fs0 -> is_od_size (dataLength st) -> dataOffset st = 0 ->
  Forall (fun c => c <> []) chunks -> chunks <> [] -> total chunks = dataLength st ->
  write_file_segments p fs st fp chunks
  = Ret (ODR_OK, reading st (dataLength st) 0, None, fs_append fs0 p (concat chunks)).
Proof.
  intros Hcr Hlen Hst Hc Hne Ht. destruct st as [len off i s]. simpl in *. subst off.
  destruct chunks as [|c chunks]; [done|]. inversion_clear Hc as [|? ? Hc0 Hcs].
  pose proof (total_cons c chunks) as Ht'.
  pose proof (total_nonneg chunks).
  assert (0 < zlen c) by by apply zlen_pos.
  cbn [write_file_segments]. unfold write_file_call, od_ext_write_file. cbn [dataOffset].
  rewrite Z.eqb_refl, Hcr.
  change (mkStream len 0 i s) with (reading (mkStream len 0 i s) len 0).
  rewrite write_file_segment_step by (done || lia).
  destruct (Z.ltb_spec (zlen c) (len - 0)).
  - run. rewrite decide_True by done.
    rewrite write_file_segments_from by (done || lia). by rewrite fs_append_app.
  - assert (chunks = []) as ->.
    { destruct chunks as [|c' chunks]; [done|]. inversion_clear Hcs as [|? ? Hc' ?].
      destruct c'; [done|]. unfold total, zlen in *. simpl in *. lia. }
    cbn. by rewrite app_nil_r.
Qed.

Lemma created_appended fs fs0 p d : fs_create fs p = inr fs0 -> fs_read (fs_append fs0 p d) p = inr d.
Proof.
  intros Hcr. apply (fs_append_read fs0 p []).
  - by eapply fs_create_read.
  - by eapply fs_create_file.
Qed.

(** C11: a file received over the bus in any number of non-empty segments is created with
    exactly the bytes received, and closed with the last segment. *)
Theorem od_ext_write_file_assembles p fs fs0 st fp chunks :
  fs_create fs p = inr fs0 -> is_od_size (dataLength st) -> dataOffset st = 0 ->
  Forall (fun c => c <> []) chunks -> chunks <> [] -> total chunks = dataLength st ->
  exists fs', write_file_segments p fs st fp chunks = Ret (ODR_OK, reading st (dataLength st) 0, None, fs')
    /\ fs_read fs' p = inr (concat chunks).
Proof.
  intros Hcr Hlen Hst Hc Hne Ht. eexists. split.
  - by apply (write_file_segments_whole p fs fs0).
  - by eapply created_appended.
Qed.
End FileSegments.

(** ** Witnesses: the theorems at concrete inputs *)

Definition sample_stream : OD_stream := mkStream 5 0 0x3000 1.

Lemma od_ext_read_data_reassembles_witness :
  read_segments (HO := od_u32) (cs "hello") 5 [2; 2; 2] sample_stream
  = Ret (ODR_OK, reading sample_stream 5 0, cs "hello").
Proof.
  apply (od_ext_read_data_reassembles (HO := od_u32) (cs "hello") sample_stream [2; 2; 2]); by_compute.
Defined.

Lemma od_ext_write_data_assembles_witness :
  write_segments (HO := od_u32) 6 (replicate 6 NUL) sample_stream 0 [cs "he"; cs "llo"]
  = Ret (ODR_OK, reading sample_stream 5 0, cs "hello" ++ [NUL], 5).
Proof.
  apply (od_ext_write_data_assembles (HO := od_u32) 6 (replicate 6 NUL) sample_stream 0 [cs "he"; cs "llo"]);
    by_compute.
Defined.

Lemma od_ext_read_file_reassembles_witness :
  read_file_segments (HO := od_u32) sample_fs (cs "/f") [3; 3] sample_stream None
  = Ret (ODR_OK, reading sample_stream 5 0, None, cs "hello").
Proof.
  apply (od_ext_read_file_reassembles (HO := od_u32) sample_fs (cs "/f") (cs "hello") [3; 3] sample_stream None);
    by_compute.
Defined.

Lemma od_ext_write_file_assembles_witness :
  exists fs', write_file_segments (HO := od_u32) (cs "/g") sample_fs sample_stream None [cs "he"; cs "llo"]
      = Ret (ODR_OK, reading sample_stream 5 0, None, fs')
    /\ fs_read fs' (cs "/g") = inr (cs "hello").
Proof.
  apply (od_ext_write_file_assembles (HO := od_u32) (cs "/g") sample_fs
    (<[cs "/g" := NFile []]> sample_fs) sample_stream None [cs "he"; cs "llo"]);
    (apply mem_fs_create_new; by_compute) || by_compute.
Defined.
