(* ===== verification/OsCommand.v ===== *)
(** * src/od_extensions/os_command_ext.c: running a shell command written over the bus

    The extension keeps a command and a reply buffer and a status.  The SDO server writes
    the command (in segments); the thread of the extension polls the status, runs the
    command, collects its output and sets the status again; the server reads command,
    status and reply at any time.  The thread and the server interleave: the thread's work
    is a sequence of steps, one per character of output, with handler calls in between. *)

From Stdlib Require Import Strings.Byte.
From stdpp Require Import relations.
From S2P Require Import Prelude CLib ODInterface FileSys System OdExt.

Definition COMMAND_BUFFER_LEN : Z := 4096.
Definition REPLY_BUFFER_LEN : Z := 10024.

(** The status values of the generated OD.h the code uses. *)
Inductive os_status :=
| OS_COMMAND_STATUS_NO_ERROR_NO_REPLY
| OS_COMMAND_STATUS_NO_ERROR_REPLY
| OS_COMMAND_STATUS_ERROR_NO_REPLY
| OS_COMMAND_STATUS_EXECUTING.

#[export] Instance os_status_eq_dec : EqDecision os_status.
Proof. solve_decision. Defined.

(** The subindexes and status numbers of the generated OD.h, and CANopenNode's default read
    function. *)
Class OsCommandOD := {
  OD_SUBINDEX_OS_COMMAND_COMMAND : Z;
  OD_SUBINDEX_OS_COMMAND_STATUS : Z;
  OD_SUBINDEX_OS_COMMAND_REPLY : Z;
  os_subindexes_distinct :
    NoDup [0; OD_SUBINDEX_OS_COMMAND_COMMAND; OD_SUBINDEX_OS_COMMAND_STATUS;
           OD_SUBINDEX_OS_COMMAND_REPLY];
  status_byte : os_status -> byte;
  OD_readOriginal : OD_stream -> bytes -> Z -> Z -> res read_out;
}.

(** The static variables of the file. *)
Record os_state := mkOs {
  running : bool;
  status : os_status;
  command : bytes;
  reply : bytes;
}.

Definition os_init : os_state :=
  mkOs false OS_COMMAND_STATUS_ERROR_NO_REPLY
    (replicate (Z.to_nat COMMAND_BUFFER_LEN) NUL) (replicate (Z.to_nat REPLY_BUFFER_LEN) NUL).

Definition set_running b st := mkOs b (status st) (command st) (reply st).
Definition set_status x st := mkOs (running st) x (command st) (reply st).
Definition set_command c st := mkOs (running st) (status st) c (reply st).
Definition set_reply r st := mkOs (running st) (status st) (command st) r.

Section OsCommand.
Context `{HO : ODTypes} `{OD : OsCommandOD}.

Definition os_command_extension_free (st : os_state) : os_state := set_running false st.

Definition os_command_read (st : os_state) (stream : OD_stream) (buf : bytes) (count countRead : Z)
  : res read_out :=
  if subIndex stream =? 0 then OD_readOriginal stream buf count countRead
  else if subIndex stream =? OD_SUBINDEX_OS_COMMAND_COMMAND then
    s ← c_str (command st);
    od_ext_read_data (Some stream) (Some buf) count (Some countRead) (Some (command st)) (zlen s + 1)
  else if subIndex stream =? OD_SUBINDEX_OS_COMMAND_STATUS then
    buf ← mem_write buf 0 [status_byte (status st)];
    mret (ReadOut ODR_OK (Some stream) (Some buf) (Some 1))
  else if subIndex stream =? OD_SUBINDEX_OS_COMMAND_REPLY then
    match reply st with
    | [] => Undef UbBounds
    | c :: _ =>
        if decide (c = NUL) then mret (ReadOut ODR_NO_DATA (Some stream) (Some buf) (Some countRead))
        else
          s ← c_str (reply st);
          od_ext_read_data (Some stream) (Some buf) count (Some countRead) (Some (reply st)) (zlen s + 1)
    end
  else mret (ReadOut ODR_OK (Some stream) (Some buf) (Some countRead)).

(** The result: code, stream, [*countWritten] and the state of the extension. *)
Definition os_command_write (st : os_state) (stream : OD_stream) (buf : bytes) (count countWritten : Z)
  : res (ODR * OD_stream * Z * os_state) :=
  if subIndex stream =? OD_SUBINDEX_OS_COMMAND_COMMAND then
    if decide (status st = OS_COMMAND_STATUS_EXECUTING)
    then mret (ODR_DATA_LOC_CTRL, stream, countWritten, st)
    else
      r ← od_ext_write_data (Some stream) (Some buf) count (Some countWritten) (Some (command st))
            (COMMAND_BUFFER_LEN - 1) (Some 0);
      match r with
      | WriteOut code (Some stream) (Some countWritten) (Some cmd) (Some command_len) =>
          if decide (code = ODR_OK) then
            cmd ← mem_write cmd command_len [NUL];
            mret (code, stream, countWritten,
                  set_status OS_COMMAND_STATUS_EXECUTING (set_command cmd st))
          else mret (code, stream, countWritten, set_command cmd st)
      | _ => Undef UbNull
      end
  else mret (ODR_READONLY, stream, countWritten, st).

(** One iteration of the thread's loop after [sleep_ms(250)], with the outcome of
    [popen]. *)
Definition os_command_poll (pipe : Z + bytes) (st : os_state) : res os_state :=
  if decide (status st = OS_COMMAND_STATUS_EXECUTING) then
    s ← c_str (command st);
    if zlen s =? 0 then mret (set_status OS_COMMAND_STATUS_ERROR_NO_REPLY st)
    else
      let log_size := 50 in
      _ ← mem_write (replicate (Z.to_nat log_size) NUL) 0
            (take (Z.to_nat (Z.min (zlen s + 1) (log_size - 4))) (with_nul s));
      '(reply_len, rep) ← run_bash_command pipe (reply st) REPLY_BUFFER_LEN;
      if reply_len <? 0 then
        rep ← mem_write rep 0 [NUL];
        mret (set_status OS_COMMAND_STATUS_ERROR_NO_REPLY (set_reply rep st))
      else if reply_len =? 0 then
        rep ← mem_write rep 0 [NUL];
        mret (set_status OS_COMMAND_STATUS_NO_ERROR_NO_REPLY (set_reply rep st))
      else
        rep ← mem_write rep (reply_len - 1) [NUL];
        mret (set_status OS_COMMAND_STATUS_NO_ERROR_REPLY (set_reply rep st))
  else mret st.

(** ** The interleaving of the thread with the server

    Where the thread is: polling, or in the [fgetc] loop of [run_bash_command] with the
    output still to come and the number of characters stored. *)
Inductive os_pc := Polling | Collecting (cmd output : bytes) (out_len : Z).

Inductive os_step : os_state * os_pc -> os_state * os_pc -> Prop :=
| step_empty st :
    status st = OS_COMMAND_STATUS_EXECUTING -> c_str (command st) = Ret [] ->
    os_step (st, Polling) (set_status OS_COMMAND_STATUS_ERROR_NO_REPLY st, Polling)
| step_popen_fail st s e rep :
    status st = OS_COMMAND_STATUS_EXECUTING -> c_str (command st) = Ret s -> s <> [] -> 0 < e ->
    mem_write (reply st) 0 [NUL] = Ret rep ->
    os_step (st, Polling)
            (set_status OS_COMMAND_STATUS_ERROR_NO_REPLY (set_reply rep st), Polling)
| step_popen st s output :
    status st = OS_COMMAND_STATUS_EXECUTING -> c_str (command st) = Ret s -> s <> [] ->
    os_step (st, Polling) (st, Collecting s output 0)
| step_fgetc st s c output k rep :
    k <= REPLY_BUFFER_LEN - 1 -> mem_write (reply st) k [c] = Ret rep ->
    os_step (st, Collecting s (c :: output) k)
            (set_reply rep st, Collecting s output (k + 1))
| step_pclose st s output k rep :
    output = [] \/ REPLY_BUFFER_LEN - 1 < k -> mem_write (reply st) k [NUL] = Ret rep ->
    os_step (st, Collecting s output k)
            (set_status OS_COMMAND_STATUS_NO_ERROR_REPLY (set_reply rep st), Polling)
| step_write st pc stream buf count n code stream' n' st' :
    os_command_write st stream buf count n = Ret (code, stream', n', st') ->
    os_step (st, pc) (st', pc).

End OsCommand.

(** ** The states the thread and the server can reach *)

Definition os_ok (st : os_state) : Prop :=
  terminated (command st) COMMAND_BUFFER_LEN /\ terminated (reply st) REPLY_BUFFER_LEN.

(** The output still to come fits the reply buffer. *)
Definition output_fits (pc : os_pc) : Prop :=
  match pc with
  | Polling => True
  | Collecting _ output k => k + zlen output < REPLY_BUFFER_LEN
  end.

(** A step of the thread or the server, with every command's output shorter than the
    reply buffer. *)
Definition os_step_fits `{ODTypes} `{OsCommandOD} (s s' : os_state * os_pc) : Prop :=
  os_step s s' /\ output_fits (snd s').

Definition pc_ok (st : os_state) (pc : os_pc) : Prop :=
  match pc with
  | Polling => True
  | Collecting cmd _ k =>
      status st = OS_COMMAND_STATUS_EXECUTING /\ c_str (command st) = Ret cmd /\ cmd <> [] /\ 0 <= k
  end.

Definition os_inv (s : os_state * os_pc) : Prop :=
  os_ok (fst s) /\ pc_ok (fst s) (snd s) /\ output_fits (snd s)
  /\ status (fst s) <> OS_COMMAND_STATUS_NO_ERROR_NO_REPLY.

Section OsReach.
Context `{HO : ODTypes} `{OD : OsCommandOD}.

Lemma os_init_ok : os_ok os_init.
Proof. split; (split; [reflexivity|]); vm_compute; reflexivity. Qed.

(** What [os_command_write] can do to the extension's state. *)
Lemma os_command_write_cases st stream buf count n code stream' n' st' :
  os_command_write st stream buf count n = Ret (code, stream', n', st') ->
  st' = st \/
  (status st <> OS_COMMAND_STATUS_EXECUTING /\
   exists off d cmd1, off + zlen d <= COMMAND_BUFFER_LEN - 1 /\
     (cmd1 = command st \/ mem_write (command st) off d = Ret cmd1) /\
     (st' = set_command cmd1 st \/
      exists k cmd2, mem_write cmd1 k [NUL] = Ret cmd2 /\
        st' = set_status OS_COMMAND_STATUS_EXECUTING (set_command cmd2 st))).
Proof.
  unfold os_command_write. destruct (_ =? _); [|intros [= <- <- <- <-]; by left].
  case_decide as Hst; [intros [= <- <- <- <-]; by left|].
  intros (r & Hr & Hres)%res_bind_Ret_inv. right. split; [done|].
  assert (exists off d cmd1, off + zlen d <= COMMAND_BUFFER_LEN - 1 /\
     (cmd1 = command st \/ mem_write (command st) off d = Ret cmd1) /\ wo_data r = Some cmd1)
    as (off & d & cmd1 & Hlen & Hc & Hd).
  { by eapply od_ext_write_data_write; [|exact Hr]. }
  exists off, d, cmd1. split; [done|]. split; [done|].
  destruct r as [c s w dd wr]. simpl in Hd. subst dd.
  destruct s as [s|]; [|done]. destruct w as [w|]; [|done]. destruct wr as [wr|]; [|done].
  case_decide.
  - apply res_bind_Ret_inv in Hres as (cmd2 & Hcmd2 & [= <- <- <- <-]). right. eauto.
  - injection Hres as <- <- <- <-. by left.
Qed.

Lemma os_command_write_ok st stream buf count n code stream' n' st' :
  os_command_write st stream buf count n = Ret (code, stream', n', st') -> os_ok st ->
  os_ok st' /\ (status st = OS_COMMAND_STATUS_EXECUTING -> st' = st)
  /\ (st' = st \/ status st' = status st \/ status st' = OS_COMMAND_STATUS_EXECUTING).
Proof.
  intros Hw [Hc Hr]. destruct (os_command_write_cases _ _ _ _ _ _ _ _ _ Hw)
    as [->| (Hst & off & d & cmd1 & Hlen & Hcmd1 & Hst')]; [by split; [|split; [|left]]|].
  assert (terminated cmd1 COMMAND_BUFFER_LEN) as Hc1.
  { destruct Hcmd1 as [->| Hcmd1]; [done|]. eapply terminated_mem_write; [done..|]. left. lia. }
  split; [|split; [done|]].
  - destruct Hst' as [->| (k & cmd2 & Hcmd2 & ->)]; (split; [|done]); [done|].
    eapply terminated_mem_write; [done..|by right].
  - destruct Hst' as [->| (k & cmd2 & Hcmd2 & ->)]; auto.
Qed.

Lemma os_step_inv s s' : os_inv s -> os_step_fits s s' -> os_inv s'.
Proof.
  intros ([Hc Hr] & Hpc & Hfit & Hne) [Hstep Hfit'].
  destruct Hstep as [st He Hs|st s e rep He Hs Hsn Hpos Hw|st s output He Hs Hsn
    |st s c output k rep Hk Hw|st s output k rep Ho Hw|st pc stream buf count n code stream' n' st' Hw];
    cbn [fst snd] in *; unfold os_inv; cbn [fst snd].
  - done.
  - split; [|done]. split; [done|]. eapply terminated_mem_write; [done..|by right].
  - split; [done|]. split; [|done]. simpl. split_and!; [done..|lia].
  - split; [|split; [simpl in *; destruct Hpc as (? & ? & ? & ?); split_and!; [done..|lia]|done]].
    split; [done|]. eapply terminated_mem_write; [done..|].
    left. simpl in Hfit. pose proof (zlen_nonneg output). unfold zlen in *. simpl in *. lia.
  - split; [|done]. split; [done|]. eapply terminated_mem_write; [done..|by right].
  - destruct (os_command_write_ok _ _ _ _ _ _ _ _ _ Hw (conj Hc Hr)) as (Hok & Hex & Hcase).
    split; [done|]. split; [|split; [done|]].
    + destruct pc as [|cmd o k]; [done|]. pose proof Hpc as (He & ?). by rewrite (Hex He).
    + destruct Hcase as [->| [->| ->]]; done.
Qed.

Lemma os_reach_inv s : rtc os_step_fits (os_init, Polling) s -> os_inv s.
Proof.
  intros Hr. remember (os_init, Polling) as s0 eqn:E.
  assert (os_inv s0) as Hi.
  { subst. split; [apply os_init_ok|]. by repeat split. }
  clear E. induction Hr; [done|]. eauto using os_step_inv.
Qed.

(** A read of a string buffer is memory safe. *)
Lemma od_ext_read_data_defined st b count k d len :
  0 <= dataOffset st -> 0 <= count <= zlen b -> 0 <= len < 2 ^ 16 -> len <= zlen d ->
  defined (od_ext_read_data (Some st) (Some b) count (Some k) (Some d) len).
Proof.
  intros Ho Hcount Hlen Hd. unfold od_ext_read_data.
  rewrite od_size_id by auto with od. cbv zeta.
  assert (0 <= dataOffset (if dataOffset st =? 0 then set_dataLength len st else st)) as Ho'.
  { by destruct (_ =? _). }
  revert Ho'. generalize (if dataOffset st =? 0 then set_dataLength len st else st).
  intros st' Ho'.
  destruct (next_segment st' len count) as [[[[[c s] n] rm] off]|] eqn:Hseg; [|by eexists].
  apply next_segment_bounds in Hseg as (? & ? & Hn). specialize (Hn ltac:(lia) ltac:(lia)).
  rewrite mem_read_ok by lia. run.
  unfold mem_write. rewrite bool_decide_eq_true_2; [by eexists|].
  unfold zlen in *. rewrite length_take, length_drop. lia.
Qed.

(** C7: while every command's output is shorter than the reply buffer, no interleaving of the
    thread with the server makes a read of the command, the status or the reply touch
    memory outside the buffers, whatever the offset of the transfer. *)
Theorem os_command_read_safe st pc stream buf count k :
  rtc os_step_fits (os_init, Polling) (st, pc) ->
  subIndex stream <> 0 -> 0 <= dataOffset stream -> 1 <= count <= zlen buf ->
  defined (os_command_read st stream buf count k).
Proof.
  intros Hr Hsub Ho Hcount. destruct (os_reach_inv _ Hr) as ([Hc Hrep] & _). simpl in Hc, Hrep.
  unfold os_command_read. rewrite (proj2 (Z.eqb_neq _ _)) by done.
  destruct (terminated_c_str _ _ Hc) as [Hcs Hcl].
  destruct (terminated_c_str _ _ Hrep) as [Hrs Hrl].
  pose proof (zlen_nonneg (upto_nul (command st))). pose proof (zlen_nonneg (upto_nul (reply st))).
  destruct (_ =? _).
  { rewrite Hcs. run. destruct Hc as [Hcl' _].
    apply od_ext_read_data_defined; unfold COMMAND_BUFFER_LEN in *; lia. }
  destruct (_ =? _).
  { rewrite mem_write_ok by zlia. by eexists. }
  destruct (_ =? _); [|by eexists].
  destruct (reply st) as [|c r] eqn:E; [by destruct Hrep|]. rewrite <- E in *.
  case_decide; [by eexists|]. rewrite Hrs. run. destruct Hrep as [Hrl' _].
  apply od_ext_read_data_defined; unfold REPLY_BUFFER_LEN in *; lia.
Qed.

(** C29: while every command's output fits the reply buffer, the command that runs is the command in the
    buffer until it has finished: a write in the meantime is refused with ODR_DATA_LOC_CTRL and
    changes nothing, and a read of the status gives EXECUTING. *)
Theorem os_command_locked st cmd output k stream buf count n :
  rtc os_step_fits (os_init, Polling) (st, Collecting cmd output k) ->
  c_str (command st) = Ret cmd /\
  (subIndex stream = OD_SUBINDEX_OS_COMMAND_COMMAND ->
   os_command_write st stream buf count n = Ret (ODR_DATA_LOC_CTRL, stream, n, st)) /\
  (subIndex stream = OD_SUBINDEX_OS_COMMAND_STATUS -> buf <> [] ->
   os_command_read st stream buf count n
   = Ret (ReadOut ODR_OK (Some stream)
            (Some (status_byte OS_COMMAND_STATUS_EXECUTING :: drop 1 buf)) (Some 1))).
Proof.
  intros Hr. destruct (os_reach_inv _ Hr) as (_ & (He & Hc & _) & _). cbn [fst] in He, Hc.
  split; [done|]. split.
  - intros Hs. unfold os_command_write. rewrite Hs, Z.eqb_refl. by rewrite (decide_True _ _ He).
  - intros Hs Hb. unfold os_command_read. rewrite Hs.
    pose proof os_subindexes_distinct as Hd. inversion Hd as [|? ? Hd0 Hd']; subst.
    inversion Hd' as [|? ? Hd1 _]; subst.
    assert (OD_SUBINDEX_OS_COMMAND_STATUS <> 0) as H0 by (clear - Hd0 Hd1; set_solver).
    assert (OD_SUBINDEX_OS_COMMAND_STATUS <> OD_SUBINDEX_OS_COMMAND_COMMAND) as H1 by (clear - Hd0 Hd1; set_solver).
    apply Z.eqb_neq in H0 as ->. apply Z.eqb_neq in H1 as ->. rewrite Z.eqb_refl, He.
    pose proof (zlen_pos buf Hb). rewrite mem_write_ok by zlia. done.
Qed.

(** After a command that [popen] could start, the status is "no error, reply" whatever
    the command printed and however it failed, the reply is its output up to the first NUL,
    and the next write is accepted; "no error, no reply" is never reported. *)
Theorem os_command_poll_reply st s output :
  os_ok st -> status st = OS_COMMAND_STATUS_EXECUTING -> c_str (command st) = Ret s -> s <> [] ->
  zlen output < REPLY_BUFFER_LEN ->
  exists st', os_command_poll (inr output) st = Ret st' /\
    status st' = OS_COMMAND_STATUS_NO_ERROR_REPLY /\ c_str (reply st') = Ret (upto_nul output) /\
    command st' = command st /\ os_ok st'.
Proof.
  intros [Hc Hrep] He Hs Hne Hout. unfold os_command_poll. rewrite decide_True by done.
  rewrite Hs. run. pose proof (zlen_pos s Hne).
  rewrite (proj2 (Z.eqb_neq _ _)) by lia. cbv zeta. cbn [Z.sub].
  change (Z.to_nat 50) with 50%nat.
  rewrite mem_write_ok; [|lia|].
  2:{ unfold zlen in *. rewrite length_take, length_replicate. lia. }
  run. destruct Hrep as [Hrl Hrn].
  assert (reply st <> []) as Hrne by (intros E; rewrite E in Hrl; done).
  pose proof (zlen_nonneg output).
  unfold run_bash_command. rewrite <- Hrl. rewrite run_bash_loop_spec by lia.
  cbv zeta. run. rewrite Z.sub_0_r, !Z.add_0_l, Z.min_l by lia.
  replace (zlen output + 1 - 1) with (zlen output) by lia. rewrite take_zlen.
  change (Z.to_nat 0) with 0%nat. cbn [take app].
  rewrite mem_write_ok; [|lia|].
  2:{ unfold zlen in *. simpl. rewrite length_app, length_drop. lia. }
  run.
  rewrite (proj2 (Z.ltb_ge _ _)) by lia. rewrite (proj2 (Z.eqb_neq _ _)) by lia.
  replace (zlen output + 1 - 1) with (zlen output) by lia.
  set (rep := take _ _ ++ _).
  assert (rep = output ++ NUL :: drop (S (length output)) (reply st)) as Hrep'.
  { subst rep. unfold zlen; simpl. rewrite Nat2Z.id. simpl. rewrite take_app_length. simpl length.
    rewrite drop_app, drop_drop, drop_ge by lia. simpl. do 3 f_equal. lia. }
  assert (length rep = length (reply st)) as Hlrep.
  { rewrite Hrep', length_app. simpl. rewrite length_drop. unfold zlen in *. lia. }
  assert (mem_write rep (zlen output) [NUL] = Ret rep) as Hw.
  { rewrite mem_write_ok; [|lia|unfold zlen in *; simpl; lia].
    rewrite Hrep'. unfold zlen. rewrite Nat2Z.id, take_app_length. simpl length.
    rewrite drop_app, drop_ge by lia. simpl. do 3 f_equal.
    replace (length output + 1 - length output)%nat with 1%nat by lia. done. }
  rewrite Hw. run. eexists. split; [done|]. split; [done|].
  cbn [reply set_status set_reply command]. split; [|split; [done|]].
  - unfold c_str. rewrite decide_True by (rewrite Hrep'; set_solver). f_equal.
    by rewrite Hrep', upto_nul_app_nul.
  - split; [done|]. cbn [reply set_status set_reply]. split; [unfold zlen in *; lia|].
    rewrite Hrep'. destruct (decide (zlen output = REPLY_BUFFER_LEN - 1)) as [E|E].
    + rewrite <- E. unfold zlen. rewrite Nat2Z.id, lookup_app_r, Nat.sub_diag by done. done.
    + rewrite lookup_app_r by zlia.
      rewrite lookup_cons_ne_0 by zlia. rewrite lookup_drop, <- Hrn.
      f_equal. unfold zlen in *. lia.
Qed.

(** The [fgetc] loop of [run_bash_command] is a sequence of steps of the thread. *)
Lemma run_bash_loop_steps cmd output st k rep k' :
  run_bash_loop output (reply st) k REPLY_BUFFER_LEN = Ret (rep, k') ->
  exists output', (output' = [] \/ REPLY_BUFFER_LEN - 1 < k') /\
    rtc os_step (st, Collecting cmd output k) (set_reply rep st, Collecting cmd output' k').
Proof.
  revert st k. induction output as [|c output IH]; intros st k; simpl.
  - intros [= <- <-]. exists []. split; [by left|]. by destruct st.
  - destruct (Z.ltb_spec (REPLY_BUFFER_LEN - 1) k) as [Hk|Hk].
    + intros [= <- <-]. exists (c :: output). split; [by right|]. by destruct st.
    + intros (rep1 & Hw & Hloop)%res_bind_Ret_inv.
      destruct (IH (set_reply rep1 st) (k + 1) Hloop) as (o & Ho & Hsteps).
      exists o. split; [done|]. eapply rtc_l; [|exact Hsteps]. by apply step_fgetc.
Qed.

(** C28: one iteration of the thread is a run of the step relation: popen, one step per
    character, pclose; the interleaving theorems therefore speak about the code's loop. *)
Theorem os_command_poll_refines pipe st st' :
  (forall e, pipe = inl e -> 0 < e) -> os_command_poll pipe st = Ret st' ->
  rtc os_step (st, Polling) (st', Polling).
Proof.
  intros Hpos. unfold os_command_poll. case_decide as He; [|intros [= ->]; constructor].
  intros (s & Hs & Hrest)%res_bind_Ret_inv. revert Hrest.
  destruct (Z.eqb_spec (zlen s) 0) as [Hz|Hz].
  { intros [= <-]. apply rtc_once, step_empty; [done|]. by destruct s. }
  assert (s <> []) as Hne by (by intros ->). cbv zeta.
  intros (u & _ & ([n rep1] & Hrun & Hrest)%res_bind_Ret_inv)%res_bind_Ret_inv.
  destruct pipe as [e|output]; simpl in Hrun.
  - injection Hrun as <- <-. specialize (Hpos e eq_refl).
    rewrite (proj2 (Z.ltb_lt _ _)) in Hrest by lia.
    apply res_bind_Ret_inv in Hrest as (rep & Hw & [= <-]).
    apply rtc_once. by eapply step_popen_fail.
  - apply res_bind_Ret_inv in Hrun as ([rep0 k] & Hloop & Hrun).
    apply res_bind_Ret_inv in Hrun as (rep2 & Hw & [= <- <-]).
    replace (k + 1 - 1) with k in * by lia.
    destruct (run_bash_loop_steps s _ _ _ _ _ Hloop) as (o & Ho & Hsteps).
    assert (0 <= k) as Hk by (revert Hw; unfold mem_write; case_bool_decide; [lia|done]).
    rewrite (proj2 (Z.ltb_ge _ _)) in Hrest by lia.
    rewrite (proj2 (Z.eqb_neq _ _)) in Hrest by lia.
    rewrite (mem_write_idem _ _ _ _ Hw) in Hrest. injection Hrest as <-.
    eapply rtc_l; [by apply (step_popen _ s output)|]. eapply rtc_r; [exact Hsteps|].
    by apply (step_pclose (set_reply rep0 st)).
Qed.
End OsReach.

(** ** Witnesses: the theorems at concrete inputs *)

Definition sample_os_od : OsCommandOD.
Proof.
  refine {| OD_SUBINDEX_OS_COMMAND_COMMAND := 1; OD_SUBINDEX_OS_COMMAND_STATUS := 2;
            OD_SUBINDEX_OS_COMMAND_REPLY := 3; os_subindexes_distinct := _;
            status_byte s := match s with
              | OS_COMMAND_STATUS_NO_ERROR_NO_REPLY => x00
              | OS_COMMAND_STATUS_NO_ERROR_REPLY => x01
              | OS_COMMAND_STATUS_ERROR_NO_REPLY => x02
              | OS_COMMAND_STATUS_EXECUTING => xff end;
            OD_readOriginal st buf count n := Ret (ReadOut ODR_OK (Some st) (Some buf) (Some n)) |}.
  by_decide.
Defined.

Definition ls_stream : OD_stream := mkStream 2 0 0x1023 1.

(** The state after the command "ls" was written. *)
Definition wrote_ls : os_state :=
  match os_command_write (HO := od_u32) (OD := sample_os_od) os_init ls_stream (cs "ls") 2 0 with
  | Ret (_, _, _, st) => st | Undef _ => os_init end.

Lemma os_command_read_safe_witness :
  defined (os_command_read (HO := od_u32) (OD := sample_os_od) wrote_ls ls_stream (replicate 7 NUL) 7 0).
Proof.
  apply (os_command_read_safe (HO := od_u32) (OD := sample_os_od) wrote_ls Polling); try by_compute.
  apply rtc_once. split; [|done].
  apply (step_write (HO := od_u32) (OD := sample_os_od) os_init Polling ls_stream (cs "ls") 2 0
           ODR_OK ls_stream 2).
  vm_compute. reflexivity.
Defined.

Lemma os_command_locked_witness :
  os_command_write (HO := od_u32) (OD := sample_os_od) wrote_ls ls_stream (cs "rm") 2 0
  = Ret (ODR_DATA_LOC_CTRL, ls_stream, 0, wrote_ls).
Proof.
  destruct (os_command_locked (HO := od_u32) (OD := sample_os_od) wrote_ls (cs "ls") (cs "x") 0
    ls_stream (cs "rm") 2 0) as (_ & H & _).
  - apply (rtc_l _ _ (wrote_ls, Polling)).
    + split; [|done].
      apply (step_write (HO := od_u32) (OD := sample_os_od) os_init Polling ls_stream (cs "ls") 2 0
               ODR_OK ls_stream 2).
      vm_compute. reflexivity.
    + apply rtc_once. split; [|by_compute].
      apply step_popen; [vm_compute; reflexivity|vm_compute; reflexivity|done].
  - apply H. reflexivity.
Defined.

Lemma os_command_poll_reply_witness :
  exists st', os_command_poll (inr (cs "file")) wrote_ls = Ret st' /\
    status st' = OS_COMMAND_STATUS_NO_ERROR_REPLY /\ c_str (reply st') = Ret (cs "file").
Proof.
  destruct (os_command_poll_reply wrote_ls (cs "ls") (cs "file")) as (st' & H1 & H2 & H3 & _).
  - split; (split; vm_compute; reflexivity).
  - vm_compute. reflexivity.
  - vm_compute. reflexivity.
  - done.
  - by_compute.
  - exact (ex_intro _ st' (conj H1 (conj H2 H3))).
Defined.

Lemma os_command_poll_refines_witness :
  exists st', rtc (os_step (HO := od_u32) (OD := sample_os_od)) (wrote_ls, Polling) (st', Polling)
    /\ status st' = OS_COMMAND_STATUS_NO_ERROR_REPLY.
Proof.
  destruct (os_command_poll (inr (cs "file")) wrote_ls) as [st'|u] eqn:E; [|vm_compute in E; discriminate E].
  exists st'. split.
  - exact (os_command_poll_refines (HO := od_u32) (OD := sample_os_od) (inr (cs "file")) wrote_ls st'
      ltac:(done) E).
  - vm_compute in E. injection E as <-. reflexivity.
Defined.
