(* ===== verification/Fcache.v ===== *)
(** * src/common/fcache.c: a directory used as a cache of files

    The cache is a directory path and a mutex.  Its operations act on the file system; NULL
    arguments are [None].  Taking the mutex again after an operation left it locked never
    returns ([UbDeadlock]). *)

From Stdlib Require Import Strings.Byte.
From S2P Require Import Prelude CLib FileSys MemFS System.

Record fcache_t := mkCache { dir_path : path; mutex_locked : bool }.

Definition DQUOTE : byte := x22.
Definition quoted (s : bytes) : bytes := DQUOTE :: s ++ [DQUOTE].

Section Fcache.
Context `{FS : FileSystem F} `{HP : Platform} `{CE : CopyEnv}.

(** [sizeof(pthread_mutex_t)] is the C library's. *)
Definition fcache_init (mutex_size : Z) (fs : F) (dir : path) : res (option fcache_t * F) :=
  let '(r, fs) := mkdir_path fs (Some dir) in
  if r <? 0 then Ret (None, fs)
  else if malloc_ok (PATH_MAX + mutex_size) then
    if zlen dir + 1 <=? PATH_MAX then Ret (Some (mkCache dir false), fs) else Undef UbBounds
  else Ret (None, fs).

(** The part of an operation between lock and unlock. *)
Definition with_lock {A} (cache : fcache_t) (body : res A) : res A :=
  if mutex_locked cache then Undef UbDeadlock else body.

Definition fcache_add (cache : option fcache_t) (fs : F) (file_path : path) (consume : bool)
  : res (Z * F) :=
  match cache with
  | None => Ret (- EINVAL, fs)
  | Some cache =>
      if negb (is_file fs file_path) then Ret (- EINVAL, fs)
      else with_lock cache
        (if consume then move_file fs file_path (dir_path cache)
         else copy_file fs file_path (dir_path cache))
  end.

(** The path of a file of the cache, or the error of [path_join]. *)
Definition cache_path (cache : fcache_t) (file_name : path) : res (Z * path) :=
  '(r, buffer) ← path_join (dir_path cache) file_name PATH_MAX PATH_MAX;
  mret (r, match buffer with Some p => p | None => [] end).

Definition fcache_add_new (cache : option fcache_t) (fs : F) (file_name file_data : option bytes)
    (file_data_len : Z) : res (Z * F) :=
  match cache, file_name, file_data with
  | Some cache, Some file_name, Some file_data =>
      if file_data_len =? 0 then Ret (- EINVAL, fs) else
      '(r, buffer) ← cache_path cache file_name;
      if r <? 0 then mret (r, fs)
      else with_lock cache
        (match fs_create fs buffer with
         | inl _ => mret (r, fs)
         | inr fs => d ← mem_read file_data 0 file_data_len; mret (r, fs_append fs buffer d)
         end)
  | _, _, _ => Ret (- EINVAL, fs)
  end.

Definition fcache_delete (cache : option fcache_t) (fs : F) (file_name : option path)
  : res (Z * F) :=
  match cache, file_name with
  | Some cache, Some file_name =>
      '(r, buffer) ← cache_path cache file_name;
      if r <? 0 then mret (r, fs)
      else with_lock cache
        (match fs_remove fs buffer with
         | inl e => mret (- e, fs)
         | inr fs => mret (0, fs)
         end)
  | _, _ => Ret (- EINVAL, fs)
  end.

Definition fcache_copy (cache : option fcache_t) (fs : F) (file_name : option path) (dest_dir : path)
  : res (Z * F) :=
  match cache, file_name with
  | Some cache, Some file_name =>
      if negb (is_dir fs dest_dir) then Ret (- EINVAL, fs) else
      '(r, buffer) ← cache_path cache file_name;
      if r <? 0 then mret (r, fs) else with_lock cache (copy_file fs buffer dest_dir)
  | _, _ => Ret (- EINVAL, fs)
  end.

Definition fcache_move (cache : option fcache_t) (fs : F) (file_name : option path) (dest_dir : path)
  : res (Z * F) :=
  match cache, file_name with
  | Some cache, Some file_name =>
      if negb (is_dir fs dest_dir) then Ret (- EINVAL, fs) else
      '(r, buffer) ← cache_path cache file_name;
      if r <? 0 then mret (r, fs) else with_lock cache (move_file fs buffer dest_dir)
  | _, _ => Ret (- EINVAL, fs)
  end.

Definition fcache_size (cache : option fcache_t) (fs : F) : res Z :=
  match cache with
  | None => Ret 0
  | Some cache => with_lock cache (Ret (wrap 32 (files_in_dir fs (dir_path cache))))
  end.

(** A [bool]: the [-EINVAL] of a NULL argument is converted to true. *)
Definition fcache_file_exist (cache : option fcache_t) (fs : F) (file_name : option path) : res bool :=
  match cache, file_name with
  | Some cache, Some file_name => with_lock cache (Ret (is_file_in_dir fs (dir_path cache) file_name))
  | _, _ => Ret (negb (- EINVAL =? 0))
  end.

(** The [realloc] loop: it leaves with a buffer large enough, or with NULL after a failed
    allocation or at the hard limit.  The size at least doubles, so 8 rounds reach it. *)
Fixpoint json_grow (fuel : nat) (need size : Z) : option Z :=
  match fuel with
  | O => None
  | S fuel =>
      if size <? need then
        if malloc_ok (size * 2) then
          if 10024 <? size * 2 then None else json_grow fuel need (size * 2)
        else None
      else Some size
  end.

(** The [readdir] loop: [s] is the text in the buffer of [size] bytes, [offset] its length.
    A NULL buffer is written through. *)
Fixpoint json_loop (names : list bytes) (size : Z) (s : bytes) : res (Z * bytes) :=
  match names with
  | [] => Ret (size, s)
  | d_name :: names =>
      if is_dot d_name then json_loop names size s
      else match json_grow 8 (zlen s + zlen d_name + 5) size with
        | None => Undef UbNull
        | Some size =>
            let s := s ++ (if zlen s =? 1 then [DQUOTE] else cs ", " ++ [DQUOTE]) in
            let s := s ++ d_name ++ [DQUOTE] in
            if zlen s + 1 <=? size then json_loop names size s else Undef UbBounds
        end
  end.

(** The result and the cache, whose mutex stays locked when the directory cannot be
    opened. *)
Definition fcache_list_files_as_json (cache : option fcache_t) (fs : F)
  : res (option bytes * option fcache_t) :=
  match cache with
  | None => Ret (None, None)
  | Some cache =>
      if negb (malloc_ok 256) then Ret (None, Some cache) else
      with_lock cache
        (match fs_list fs (dir_path cache) with
         | inl _ => Ret (None, Some (mkCache (dir_path cache) true))
         | inr names =>
             '(size, s) ← json_loop names 256 (cs "[");
             let s := s ++ cs "]" in
             if zlen s + 1 <=? size then mret (Some s, Some cache) else Undef UbBounds
         end)
  end.
End Fcache.

(** ** Properties *)

Section FcacheProps.
Context `{FS : FileSystem F} `{HP : Platform} `{CE : CopyEnv}.

(** Which part of [fcache_add] fails to be defined, and when: the mutex is held by an operation
    that left it locked; the file is copied through [dest_tmp] after its block; or there is no
    base name to join ([basename] gives [/]), so that [dest_tmp] was never written, or no room
    for it. *)
Definition add_undefined (cache : fcache_t) (fs : F) (p : path) (u : ub) : Prop :=
  is_file fs p = true /\
  if mutex_locked cache then u = UbDeadlock
  else is_dir fs (dir_path cache) = true /\
    match path_join (dir_path cache) (basename p) PATH_MAX PATH_MAX with
    | Undef u' => u = u'
    | Ret (_, None) => u = UbUninit
    | Ret (_, Some _) => keeps_block_storage = false /\ u = UbLifetime
    end.

Lemma copy_file_undefined fs src dest u :
  copy_file fs src dest = Undef u <->
  is_file fs src = true /\ is_dir fs dest = true /\
  match path_join dest (basename src) PATH_MAX PATH_MAX with
  | Undef u' => u = u'
  | Ret (_, None) => u = UbUninit
  | Ret (_, Some _) => keeps_block_storage = false /\ u = UbLifetime
  end.
Proof.
  unfold copy_file, is_file. destruct (fs_read fs src); [by split; [|intros [? _]]|].
  destruct (is_dir fs dest).
  - destruct (path_join _ _ _ _) as [[n [q|]]|u']; run; [|naive_solver..].
    destruct keeps_block_storage; run; [|naive_solver].
    destruct (fs_create fs q) as [|fs1]; [naive_solver|]. destruct (is_dir fs1 src); [naive_solver|].
    destruct (copy_loop _ _ _ _). naive_solver.
  - run. destruct (fs_create fs dest) as [|fs1]; [naive_solver|]. destruct (is_dir fs1 src); [naive_solver|].
    destruct (copy_loop _ _ _ _). naive_solver.
Qed.

Lemma add_undefined_iff cache fs p consume u :
  fcache_add (Some cache) fs p consume = Undef u <-> add_undefined cache fs p u.
Proof.
  unfold fcache_add, add_undefined, with_lock. destruct (is_file fs p) eqn:Hf; cbn [negb]; [|by split; [|intros [? _]]].
  destruct (mutex_locked cache); [naive_solver|].
  assert (copy_file fs p (dir_path cache) = Undef u <->
    is_dir fs (dir_path cache) = true /\ match path_join (dir_path cache) (basename p) PATH_MAX PATH_MAX with
    | Undef u' => u = u' | Ret (_, None) => u = UbUninit
    | Ret (_, Some _) => keeps_block_storage = false /\ u = UbLifetime end) as Hc
    by (rewrite copy_file_undefined; tauto).
  destruct consume; [|tauto]. unfold move_file.
  destruct (copy_file fs p (dir_path cache)) as [[r fs2]|u'] eqn:E; run; [|split; [intros H; split; [done|]; by apply Hc|tauto]].
  split; [|intros [_ H]; by apply Hc in H]. destruct (0 <=? r); [destruct (fs_remove fs2 p)|]; intros H; discriminate H.
Qed.

(** C17: adding a file has no defined result in exactly these cases: an earlier operation left the
    mutex locked, the storage of [dest_tmp] is not kept after its block, or the file has no base
    name that can be joined to the path of the cache (it is the root directory, which opens as a
    file does, or the whole is too long). *)
Theorem fcache_add_undefined cache fs p consume u :
  fcache_add (Some cache) fs p consume = Undef u <-> add_undefined cache fs p u.
Proof. apply add_undefined_iff. Qed.

Lemma add_stores cache fs fs1 p c :
  mutex_locked cache = false -> is_dir fs (dir_path cache) = true -> can_copy fs p (dir_path cache) c fs1 ->
  exists fs2 q, fcache_add (Some cache) fs p false
    = (if keeps_block_storage then Ret (snd (copied c), fs2) else Undef UbLifetime) /\
    cache_path cache (basename p) = Ret (0, q) /\ fs_read fs2 q = inr (fst (copied c)) /\
    (fst (copied c) = c <-> at_once c) /\ (at_once c -> snd (copied c) = 0).
Proof.
  intros Hlock Hdir Hcan. destruct (copy_file_result fs fs1 p _ c Hcan) as (fs2 & Hc & Hr).
  destruct Hcan as (Hp & Hjoin & _). destruct (Hjoin Hdir) as (q & Hq). rewrite Hdir in Hc.
  exists fs2, q. destruct (copied_complete c) as [Hall H0]. split_and!.
  - unfold fcache_add, is_file. rewrite Hp. cbn [negb]. unfold with_lock. rewrite Hlock, Hc. by destruct keeps_block_storage.
  - unfold cache_path. by rewrite Hq.
  - unfold copy_target in Hr. by rewrite Hdir, Hq in Hr.
  - exact Hall.
  - intros H. by rewrite (H0 H).
Qed.

(** C30: with the mutex free, a file added to the cache's directory is found in it under its base name,
    with what the kernel's transfers give of its content: all of it exactly when the first takes the
    whole file. It uses the storage of [dest_tmp] after its block: the call is undefined when that
    is not kept. *)
Theorem fcache_add_stores cache fs fs1 p c :
  mutex_locked cache = false -> is_dir fs (dir_path cache) = true -> can_copy fs p (dir_path cache) c fs1 ->
  exists fs2 q, fcache_add (Some cache) fs p false
    = (if keeps_block_storage then Ret (snd (copied c), fs2) else Undef UbLifetime) /\
    cache_path cache (basename p) = Ret (0, q) /\ fs_read fs2 q = inr (fst (copied c)) /\
    (fst (copied c) = c <-> at_once c) /\ (at_once c -> snd (copied c) = 0).
Proof. apply add_stores. Qed.

(** [fcache_add_new] reports success for a file it could not create: the result is 0 and
    the file system is unchanged. *)
Theorem fcache_add_new_unchecked cache fs name data q e :
  mutex_locked cache = false -> data <> [] -> cache_path cache name = Ret (0, q) ->
  fs_create fs q = inl e ->
  fcache_add_new (Some cache) fs (Some name) (Some data) (zlen data) = Ret (0, fs).
Proof.
  intros Hlock Hd Hq Hc. unfold fcache_add_new. pose proof (zlen_pos data Hd).
  rewrite (proj2 (Z.eqb_neq _ _)) by lia. rewrite Hq. run.
  unfold with_lock. rewrite Hlock. cbn. by rewrite Hc.
Qed.

(** Listing a cache whose directory cannot be opened returns NULL with the mutex held:
    every later operation that gets to the mutex never returns. *)
Theorem fcache_list_deadlock cache fs fs' e p consume c :
  malloc_ok 256 = true -> mutex_locked cache = false -> fs_list fs (dir_path cache) = inl e ->
  fs_read fs' p = inr c ->
  exists cache', fcache_list_files_as_json (Some cache) fs = Ret (None, Some cache') /\
    fcache_add (Some cache') fs' p consume = Undef UbDeadlock /\
    fcache_size (Some cache') fs' = Undef UbDeadlock /\
    fcache_list_files_as_json (Some cache') fs' = Undef UbDeadlock.
Proof.
  intros Hm Hlock Hl Hp. exists (mkCache (dir_path cache) true).
  unfold fcache_list_files_as_json, fcache_add, fcache_size, is_file, with_lock.
  rewrite Hm, Hlock, Hl, Hp. by destruct consume.
Qed.

(** *** The listing *)

Definition quoted_list (names : list bytes) : bytes :=
  match names with
  | [] => []
  | n :: names => quoted n ++ (names ≫= fun n => cs ", " ++ quoted n)
  end.

(** The JSON array of the names. *)
Definition json_of (names : list bytes) : bytes := cs "[" ++ quoted_list names ++ cs "]".

Definition cap (n : Z) : Z :=
  if n <=? 256 then 256 else if n <=? 512 then 512 else if n <=? 1024 then 1024
  else if n <=? 2048 then 2048 else if n <=? 4096 then 4096 else 8192.

Lemma cap_cases n : cap n ∈ [256; 512; 1024; 2048; 4096; 8192].
Proof. unfold cap. repeat case_match; set_solver. Qed.

Lemma json_loop_filter names size s :
  json_loop names size s = json_loop (filter (fun n => is_dot n = false) names) size s.
Proof.
  revert size s. induction names as [|n names IH]; intros size s; [done|]. cbn [json_loop].
  destruct (is_dot n) eqn:E.
  - rewrite filter_cons_False by congruence. apply IH.
  - rewrite filter_cons_True by done. cbn [json_loop]. rewrite E.
    destruct (json_grow _ _ _); [|done]. case_match; [apply IH|done].
Qed.

Hypothesis Hmalloc : forall n, malloc_ok n = true.

(** The buffer grows to the first power of two that is large enough. *)
Lemma json_grow_cap m need : need <= 8192 -> json_grow 8 need (cap m) = Some (cap (Z.max m need)).
Proof.
  intros Hn. unfold cap.
  repeat match goal with |- context [?a <=? ?b] => destruct (Z.leb_spec a b) end; try lia;
    cbn [json_grow]; rewrite ?Hmalloc;
    repeat (match goal with |- context [?a <? need] => destruct (Z.ltb_spec a need) end;
            cbn; rewrite ?Hmalloc); lia || done.
Qed.

Lemma json_loop_rest names s m :
  Forall (fun n => is_dot n = false) names -> 2 <= zlen s -> m <= zlen s + 3 ->
  zlen (s ++ (names ≫= fun n => cs ", " ++ quoted n)) <= 8000 ->
  json_loop names (cap m) s
  = let s' := s ++ (names ≫= fun n => cs ", " ++ quoted n) in
    Ret (cap (match names with [] => m | _ => zlen s' + 1 end), s').
Proof.
  revert s m. induction names as [|n names IH]; intros s m Hd Hs Hm Hlen; cbn [json_loop].
  { cbv zeta. simpl. by rewrite app_nil_r. }
  apply list.Forall_cons in Hd as [Hn Hd]. rewrite Hn.
  assert (zlen (quoted n) = zlen n + 2) as Hq.
  { unfold quoted, zlen. simpl. rewrite length_app. simpl. lia. }
  cbn [mbind list_bind] in Hlen |- *. rewrite (app_assoc s (cs ", " ++ quoted n)) in Hlen |- *.
  set (s1 := s ++ cs ", " ++ quoted n) in *.
  assert (zlen s1 = zlen s + zlen n + 4) as Hs1.
  { subst s1. rewrite !zlen_app, Hq. change (zlen (cs ", ")) with 2. lia. }
  pose proof (zlen_nonneg n). pose proof (zlen_nonneg (names ≫= (fun n => cs ", " ++ quoted n))).
  rewrite zlen_app in Hlen.
  rewrite json_grow_cap by lia. cbv zeta.
  rewrite (proj2 (Z.eqb_neq (zlen s) 1)) by lia. cbv iota.
 assert ((s ++ cs ", " ++ [DQUOTE]) ++ n ++ [DQUOTE] = s1) as ->.
  { subst s1. unfold quoted. rewrite <- !app_assoc. done. }
  replace (Z.max m (zlen s + zlen n + 5)) with (zlen s1 + 1) by lia.
  rewrite (proj2 (Z.leb_le _ _)).
  2:{ unfold cap. repeat match goal with |- context [?a <=? ?b] => destruct (Z.leb_spec a b) end; lia. }
  rewrite IH; [|done|lia|lia|by rewrite zlen_app]. cbv zeta.
  destruct names; [|done]. simpl. by rewrite app_nil_r.
Qed.

(** C31: with the mutex free and memory to allocate, the list of the cache's files, up to a text
    of 8000 bytes, is the JSON array of their names, the dot entries left out, unless there are
    at least two files and the text is exactly as long as one of the buffer's sizes: then the
    terminating NUL is written past the end of the buffer. *)
Theorem fcache_list_json cache fs names :
  mutex_locked cache = false -> fs_list fs (dir_path cache) = inr names ->
  let files := filter (fun n => is_dot n = false) names in
  zlen (json_of files) <= 8000 ->
  fcache_list_files_as_json (Some cache) fs
  = if bool_decide ((2 <= length files)%nat /\ zlen (json_of files) ∈ [256; 512; 1024; 2048; 4096])
    then Undef UbBounds
    else Ret (Some (json_of files), Some cache).
Proof.
  intros Hlock Hl files Hlen. unfold fcache_list_files_as_json.
  rewrite Hmalloc. cbn [negb]. unfold with_lock. rewrite Hlock, Hl, json_loop_filter.
  assert (Forall (fun n => is_dot n = false) files) as Hd by (apply list.Forall_forall; intros n Hin; apply list_elem_of_filter in Hin; tauto).
  fold files. clearbody files.
  change 256 with (cap 1) at 1. destruct files as [|n files].
  { rewrite bool_decide_eq_false_2 by (simpl; lia). done. }
  apply list.Forall_cons in Hd as [Hn Hd]. cbn [json_loop]. rewrite Hn.
  pose proof (zlen_nonneg n). set (rest := files ≫= fun n => cs ", " ++ quoted n).
  assert (json_of (n :: files) = (cs "[" ++ quoted n ++ rest) ++ cs "]") as Hj.
  { unfold json_of. cbn [quoted_list]. fold rest. by rewrite <- !app_assoc. }
  assert (zlen (quoted n) = zlen n + 2) as Hq.
  { unfold quoted, zlen. simpl. rewrite length_app. simpl. lia. }
  pose proof (zlen_nonneg rest) as Hrest. rewrite Hj in *.
  assert (zlen ((cs "[" ++ quoted n ++ rest) ++ cs "]") = zlen n + zlen rest + 4) as Hjl.
  { rewrite !zlen_app, Hq. change (zlen (cs "[")) with 1. change (zlen (cs "]")) with 1. lia. }
  change (zlen (cs "[")) with 1. rewrite json_grow_cap by lia. cbv zeta. cbn [Z.eqb Pos.eqb].
  set (s1 := (cs "[" ++ [DQUOTE]) ++ n ++ [DQUOTE]).
  assert (s1 = cs "[" ++ quoted n) as Hs1' by done.
  assert (zlen s1 = zlen n + 3) as Hs1.
  { rewrite Hs1', zlen_app, Hq. change (zlen (cs "[")) with 1. lia. }
  rewrite (proj2 (Z.leb_le _ _)).
  2:{ unfold cap. repeat match goal with |- context [?a <=? ?b] => destruct (Z.leb_spec a b) end; lia. }
  rewrite json_loop_rest; [|done|lia|lia|fold rest; rewrite zlen_app; lia].
  cbv zeta. fold rest. run.
  assert (s1 ++ rest = cs "[" ++ quoted n ++ rest) as -> by (by rewrite Hs1', <- app_assoc).
  rewrite Hjl.
  assert (zlen (cs "[" ++ quoted n ++ rest) = zlen n + zlen rest + 3) as ->.
  { rewrite !zlen_app, Hq. change (zlen (cs "[")) with 1. lia. }
  destruct files as [|n2 files].
  - assert (rest = []) as -> by done. change (zlen []) with 0 in *.
    rewrite bool_decide_eq_false_2 by (simpl; lia). rewrite (proj2 (Z.leb_le _ _)); [done|].
    unfold cap. repeat match goal with |- context [?a <=? ?b] => destruct (Z.leb_spec a b) end; lia.
  - set (j := zlen n + zlen rest) in *.
    destruct (decide (j + 4 ∈ [256; 512; 1024; 2048; 4096])) as [Hin|Hout].
    + rewrite bool_decide_eq_true_2 by (split; [simpl; lia|done]).
      rewrite (proj2 (Z.leb_gt _ _)); [done|]. unfold cap.
      rewrite !elem_of_cons, elem_of_nil in Hin.
      repeat match goal with |- context [?a <=? ?b] => destruct (Z.leb_spec a b) end; lia.
    + rewrite bool_decide_eq_false_2 by tauto. rewrite (proj2 (Z.leb_le _ _)); [done|]. unfold cap.
      rewrite !elem_of_cons, elem_of_nil in Hout.
      repeat match goal with |- context [?a <=? ?b] => destruct (Z.leb_spec a b) end; lia.
Qed.
End FcacheProps.

(** ** Witnesses: the theorems at concrete inputs *)

Definition sample_cache : fcache_t := mkCache (cs "/d") false.
Definition stored_fs : memfs := <[cs "/d/f" := NFile []]> sample_fs.

Lemma can_add_sample : can_copy sample_fs (cs "/f") (dir_path sample_cache) (cs "hello") stored_fs.
Proof.
  split; [vm_compute; reflexivity|]. split; [intros _; exists (cs "/d/f"); vm_compute; reflexivity|].
  split; [|split; vm_compute; reflexivity]. apply mem_fs_create_new. vm_compute. reflexivity.
Defined.

Lemma fcache_add_stores_witness :
  exists fs2 q, fcache_add (CE := sendfile_short) (Some sample_cache) sample_fs (cs "/f") false = Ret (0, fs2)
    /\ cache_path sample_cache (basename (cs "/f")) = Ret (0, q) /\ fs_read fs2 q = inr (cs "hell").
Proof.
  destruct (fcache_add_stores (CE := sendfile_short) sample_cache sample_fs stored_fs (cs "/f") (cs "hello")
    ltac:(reflexivity) ltac:(vm_compute; reflexivity) can_add_sample) as (fs2 & q & H1 & H2 & H3 & _).
  by exists fs2, q.
Defined.

(** The root directory, which opens as a file does, has no base name. *)
Example add_root : fcache_add (CE := sendfile_whole) (Some sample_cache) (<[cs "/" := NDir]> sample_fs) (cs "/") false
  = Undef UbUninit.
Proof. vm_compute. reflexivity. Qed.

Lemma fcache_list_json_witness :
  fcache_list_files_as_json (HP := armhf) (Some sample_cache) stored_fs
  = Ret (Some (json_of [cs "f"]), Some sample_cache).
Proof.
  apply (fcache_list_json (HP := armhf) (fun _ => eq_refl) sample_cache stored_fs [cs "."; cs ".."; cs "f"]);
    by_compute.
Defined.
