(* ===== verification/FileTransfer.v ===== *)
(** * src/od_extensions/file_transfer_ext.c: files to and from the caches over the bus

    Two dictionary entries, one per cache, share two handlers.  The server writes a file name
    to a subindex, then reads or writes the file's data in segments at another; the data goes
    through a file of the same base name in /tmp.  Each entry's object holds the state between
    the calls.  The buffer [raw] is modelled byte by byte, as the server writes it without a
    terminator; the other buffers always hold whole strings. *)

From Stdlib Require Import Strings.Byte.
From stdpp Require Import gmap.
From S2P Require Import Prelude CLib ODInterface FileSys MemFS System OdExt Fcache.

#[local] Open Scope Z_scope.

Definition PATH_LEN : Z := 256.

(** The subindexes of the generated OD.h; the labels of a [switch] are distinct. *)
Class FileTransferOD := {
  OD_SUBINDEX_FREAD_CACHE_LENGTH : Z;
  OD_SUBINDEX_FREAD_CACHE_FILES_JSON : Z;
  OD_SUBINDEX_FREAD_CACHE_FILE_NAME : Z;
  OD_SUBINDEX_FREAD_CACHE_FILE_DATA : Z;
  OD_SUBINDEX_FREAD_CACHE_REMOVE : Z;
  read_labels_distinct :
    NoDup [0; OD_SUBINDEX_FREAD_CACHE_LENGTH; OD_SUBINDEX_FREAD_CACHE_FILES_JSON;
           OD_SUBINDEX_FREAD_CACHE_FILE_NAME; OD_SUBINDEX_FREAD_CACHE_FILE_DATA];
  write_labels_distinct :
    NoDup [OD_SUBINDEX_FREAD_CACHE_FILE_NAME; OD_SUBINDEX_FREAD_CACHE_FILE_DATA;
           OD_SUBINDEX_FREAD_CACHE_REMOVE];
}.

(** The file [fp] is open for: both handlers share the member. *)
Inductive handle := Reading (f : rfile) | Writing (p : path).

(** The object of an extension, without the name that is only logged. *)
Record file_transfer_data_t := mkFt {
  raw : bytes;                  (* the name as written over the bus, [PATH_LEN] bytes *)
  file_name : bytes;
  file_path : path;
  tmp_file_path : path;
  fp : option handle;
  cache : option fcache_t;
  file_cached : bool;
  files : option bytes;
}.

Definition set_raw r d := mkFt r (file_name d) (file_path d) (tmp_file_path d) (fp d) (cache d)
  (file_cached d) (files d).
Definition set_names r n p c d := mkFt r n p (tmp_file_path d) (fp d) (cache d) c (files d).
Definition set_tmp t d := mkFt (raw d) (file_name d) (file_path d) t (fp d) (cache d)
  (file_cached d) (files d).
Definition set_fp h d := mkFt (raw d) (file_name d) (file_path d) (tmp_file_path d) h (cache d)
  (file_cached d) (files d).
Definition set_list c l d := mkFt (raw d) (file_name d) (file_path d) (tmp_file_path d) (fp d) c
  (file_cached d) l.

(** A string in a buffer after a call that writes it or leaves it alone. *)
Definition written (old : path) (new : option bytes) : path :=
  match new with Some s => s | None => old end.

(** A stream opened for writing delivers nothing. *)
Definition as_reader (h : option handle) : option rfile :=
  match h with
  | Some (Reading f) => Some f
  | Some (Writing p) => Some (RFile p [] 0)
  | None => None
  end.

Definition as_writer (h : option handle) : option path :=
  match h with
  | Some (Writing p) => Some p
  | Some (Reading f) => Some (rf_path f)
  | None => None
  end.

(** The member after a call that left a stream open: a call at offset 0 opened it. *)
Definition reader_after (first : bool) (h : option handle) (f : option rfile) : option handle :=
  match f, h with
  | None, _ => None
  | Some f, Some (Writing p) => if first then Some (Reading f) else Some (Writing p)
  | Some f, _ => Some (Reading f)
  end.

Definition writer_after (first : bool) (h : option handle) (p : option path) : option handle :=
  match p, h with
  | None, _ => None
  | Some p, Some (Reading f) => if first then Some (Writing p) else Some (Reading f)
  | Some p, _ => Some (Writing p)
  end.

(** [basename] of libgen.h works in its argument: it cuts slashes at the end. *)
Definition basename_in (m : bytes) : res (bytes * bytes) :=
  s ← c_str m;
  let t := strip_slashes s in
  m ← (if ends_with_slash s && negb (zlen t =? 0) then mem_write m (zlen t) [NUL] else Ret m);
  mret (m, basename s).

Section FileTransfer.
Context `{HO : ODTypes} `{FT : FileTransferOD} `{FS : FileSystem F} `{HP : Platform} `{CE : CopyEnv}.

(** CANopenNode's default read function. *)
Variable OD_readOriginal : OD_stream -> bytes -> Z -> Z -> res read_out.

(** [strcpy] of the name aside, what an initialisation puts into an allocated object; [junk]
    is what the memory held. *)
Definition init_data (junk : bytes) (c : option fcache_t) : res file_transfer_data_t :=
  raw ← mem_write junk 0 [NUL];
  mret (mkFt raw [] [] [] None c false None).

(** [fread_ext.object] and [fwrite_ext.object]. *)
Record ext_objects := mkObjects {
  fread_object : option file_transfer_data_t;
  fwrite_object : option file_transfer_data_t;
}.

(** One entry: [found] is the answer of [OD_find], [block] that of [malloc]. *)
Definition init_entry (found : bool) (block : option bytes) (c : option fcache_t)
    (old : option file_transfer_data_t) : res (option file_transfer_data_t) :=
  if found then
    match block with
    | Some junk => d ← init_data junk c; mret (Some d)
    | None => mret None
    end
  else mret old.

Definition file_transfer_extension_init (fread_found fwrite_found : bool)
    (fread_block fwrite_block : option bytes) (fread_cache fwrite_cache : option fcache_t)
    (o : ext_objects) : res ext_objects :=
  fread ← init_entry fread_found fread_block fread_cache (fread_object o);
  fwrite ← init_entry fwrite_found fwrite_block fwrite_cache (fwrite_object o);
  mret (mkObjects fread fwrite).

(** What the release of an object does, in order. *)
Inductive release := CloseFile (h : handle) | FreeFiles (s : bytes) | FreeObject.

Definition free_object (object : option file_transfer_data_t) : list release :=
  match object with
  | None => []
  | Some d =>
      match fp d with Some h => [CloseFile h] | None => [] end ++
      match files d with Some s => [FreeFiles s] | None => [] end ++ [FreeObject]
  end.

Definition file_transfer_extension_free (o : ext_objects) : ext_objects * list release :=
  (mkObjects None None, free_object (fread_object o) ++ free_object (fwrite_object o)).

(** Subindex FILE_DATA of [file_transfer_read]. *)
Definition read_file_data (fs : F) (fdata : file_transfer_data_t) (stream : OD_stream) (buf : bytes)
    (count countRead : Z) : res (read_out * file_transfer_data_t * F) :=
  if decide (file_name fdata = [])
  then mret (ReadOut ODR_NO_DATA (Some stream) (Some buf) (Some countRead), fdata, fs)
  else
    let first := dataOffset stream =? 0 in
    '(r, fdata, fs) ←
      (if first then
         if negb (is_file fs (file_path fdata)) then Ret (ODR_NO_DATA, fdata, fs)
         else
           '(_, out) ← path_join (cs "/tmp") (file_name fdata) PATH_LEN PATH_LEN;
           let fdata := set_tmp (written (tmp_file_path fdata) out) fdata in
           '(e, fs) ← copy_file fs (file_path fdata) (tmp_file_path fdata);
           mret (if e <? 0 then ODR_DATA_LOC_CTRL else ODR_OK, fdata, fs)
       else Ret (ODR_OK, fdata, fs));
    if decide (r = ODR_OK) then
      '(out, f) ← od_ext_read_file fs (Some stream) (Some buf) count (Some countRead)
                    (Some (tmp_file_path fdata)) (as_reader (fp fdata));
      mret (out, set_fp (reader_after first (fp fdata) f) fdata, fs)
    else mret (ReadOut r (Some stream) (Some buf) (Some countRead), fdata, fs).

Definition file_transfer_read (fs : F) (object : option file_transfer_data_t) (stream : OD_stream)
    (buf : bytes) (count countRead : Z) : res (read_out * option file_transfer_data_t * F) :=
  match object with
  | None => Ret (ReadOut ODR_DEV_INCOMPAT (Some stream) (Some buf) (Some countRead), None, fs)
  | Some fdata =>
      let sub := subIndex stream in
      if sub =? 0 then
        out ← OD_readOriginal stream buf count countRead; mret (out, object, fs)
      else if sub =? OD_SUBINDEX_FREAD_CACHE_LENGTH then
        n ← fcache_size (cache fdata) fs;
        let size := wrap 8 (if n <? 0xFF then n else 0xFF) in
        buf ← mem_write buf 0 [z2b size];
        mret (ReadOut ODR_OK (Some stream) (Some buf) (Some 1), object, fs)
      else if sub =? OD_SUBINDEX_FREAD_CACHE_FILES_JSON then
        '(l, c) ← fcache_list_files_as_json (cache fdata) fs;
        let fdata := set_list c l fdata in
        match l with
        | Some s =>
            out ← od_ext_read_data (Some stream) (Some buf) count (Some countRead)
                    (Some (with_nul s)) (zlen s + 1);
            mret (out, Some fdata, fs)
        | None => mret (ReadOut ODR_OK (Some stream) (Some buf) (Some countRead), Some fdata, fs)
        end
      else if sub =? OD_SUBINDEX_FREAD_CACHE_FILE_NAME then
        s ← c_str (raw fdata);
        out ← od_ext_read_data (Some stream) (Some buf) count (Some countRead)
                (Some (raw fdata)) (zlen s + 1);
        mret (out, object, fs)
      else if sub =? OD_SUBINDEX_FREAD_CACHE_FILE_DATA then
        '(out, fdata, fs) ← read_file_data fs fdata stream buf count countRead;
        mret (out, Some fdata, fs)
      else mret (ReadOut ODR_WRITEONLY (Some stream) (Some buf) (Some countRead), object, fs)
  end.

(** The names after the last segment of a name. *)
Definition take_name (fdata : file_transfer_data_t) : res file_transfer_data_t :=
  '(r, name) ← basename_in (raw fdata);
  s ← c_str r;
  let cached := strncmp_eq s name (length s) in
  p ← (if cached then
         match cache fdata with
         | None => Undef UbNull
         | Some c =>
             '(_, out) ← path_join (dir_path c) name PATH_LEN PATH_LEN;
             mret (written (file_path fdata) out)
         end
       else mret s);
  mret (set_names r name p cached fdata).

(** Where the file goes after the last segment: to the cache, whose errors are only logged,
    unless the name is absolute; an absolute name has to equal the temporary path. *)
Definition store_file (fs : F) (fdata : file_transfer_data_t) : res F :=
  if starts_with_slash (raw fdata) then
    s ← c_str (raw fdata);
    if strncmp_eq s (tmp_file_path fdata) (S (length s)) then
      '(_, fs) ← move_file fs (tmp_file_path fdata) s; mret fs
    else mret fs
  else '(_, fs) ← fcache_add (cache fdata) fs (tmp_file_path fdata) true; mret fs.

(** Subindex FILE_DATA of [file_transfer_write] once a name is set: code, stream, count. *)
Definition write_file_data (fs : F) (fdata : file_transfer_data_t) (stream : OD_stream) (buf : bytes)
    (count countWritten : Z) : res (ODR * OD_stream * Z * file_transfer_data_t * F) :=
  let first := dataOffset stream =? 0 in
  fdata ← (if first then
             '(_, out) ← path_join (cs "/tmp") (file_name fdata) PATH_LEN PATH_LEN;
             mret (set_tmp (written (tmp_file_path fdata) out) fdata)
           else mret fdata);
  o ← od_ext_write_file fs (Some stream) (Some buf) count (Some countWritten)
        (Some (tmp_file_path fdata)) (as_writer (fp fdata));
  (* nothing is written to a stream opened for reading *)
  let fs := match fp fdata with
    | Some (Reading _) => if first then fo_fs o else fs
    | _ => fo_fs o end in
  let fdata := set_fp (writer_after first (fp fdata) (fo_fp o)) fdata in
  match o with
  | FileOut code (Some stream) (Some countWritten) _ _ =>
      fs ← (if decide (code = ODR_OK) then store_file fs fdata else Ret fs);
      mret (code, stream, countWritten, fdata, fs)
  | _ => Undef UbNull
  end.

(** Subindex REMOVE with a file name set; the pointer [buf] is tested, not the value. *)
Definition remove_file (fs : F) (fdata : file_transfer_data_t) : res (file_transfer_data_t * F) :=
  '(_, fs) ← fcache_delete (cache fdata) fs (Some (file_name fdata));
  let fs := match fs_remove fs (tmp_file_path fdata) with inr fs => fs | inl _ => fs end in
  r ← mem_write (raw fdata) 0 [NUL];
  mret (set_tmp [] (set_names r [] [] (file_cached fdata) fdata), fs).

Definition file_transfer_write (fs : F) (object : option file_transfer_data_t) (stream : OD_stream)
    (buf : bytes) (count countWritten : Z)
    : res (ODR * OD_stream * Z * option file_transfer_data_t * F) :=
  match object with
  | None => Ret (ODR_DEV_INCOMPAT, stream, countWritten, None, fs)
  | Some fdata =>
      let sub := subIndex stream in
      if sub =? OD_SUBINDEX_FREAD_CACHE_FILE_NAME then
        out ← od_ext_write_data (Some stream) (Some buf) count (Some countWritten)
                (Some (raw fdata)) (PATH_LEN - 1) (Some 0);
        match out with
        | WriteOut code (Some stream) (Some countWritten) (Some r) _ =>
            let fdata := set_raw r fdata in
            fdata ← (if decide (code = ODR_OK) then take_name fdata else Ret fdata);
            mret (code, stream, countWritten, Some fdata, fs)
        | _ => Undef UbNull
        end
      else if sub =? OD_SUBINDEX_FREAD_CACHE_FILE_DATA then
        if decide (file_name fdata = []) then mret (ODR_NO_DATA, stream, countWritten, object, fs)
        else
          '(code, stream, countWritten, fdata, fs) ← write_file_data fs fdata stream buf count countWritten;
          mret (code, stream, countWritten, Some fdata, fs)
      else if sub =? OD_SUBINDEX_FREAD_CACHE_REMOVE then
        '(fdata, fs) ← (if decide (file_name fdata = []) then Ret (fdata, fs) else remove_file fs fdata);
        mret (ODR_OK, stream, 1, Some fdata, fs)
      else mret (ODR_READONLY, stream, countWritten, object, fs)
  end.
End FileTransfer.

(** ** Properties: names *)

Lemma path_join_plain hd n cap o :
  SLASH ∉ n -> list.last hd <> None -> zlen hd <> 1 \/ starts_with_slash hd = false ->
  list.last hd <> Some SLASH ->
  path_join hd n cap o
  = if zlen hd + 1 + zlen n + 1 <=? cap then Ret (0, Some (hd ++ SLASH :: n)) else Undef UbBounds.
Proof.
  intros Hn Hl Hr Hs. unfold path_join.
  assert (starts_with_slash n = false) as Hn0.
  { apply bool_decide_eq_false. destruct n; [done|]. apply not_elem_of_cons in Hn as [Hn _]. cbn. congruence. }
  assert ((zlen hd =? 1) && starts_with_slash hd = false) as ->.
  { destruct Hr as [Hr| ->]; [by rewrite (proj2 (Z.eqb_neq _ _))|by rewrite andb_false_r]. }
  rewrite Hn0, andb_false_r. cbn [orb andb].
  destruct (list.last hd) as [x|]; [|done]. rewrite decide_False by done.
  rewrite decide_False by congruence. rewrite <- app_assoc. cbn [app].
  replace (zlen (hd ++ SLASH :: n) + 1) with (zlen hd + 1 + zlen n + 1) by zlia. done.
Qed.

Lemma strip_slashes_id s : list.last s <> Some SLASH -> strip_slashes s = s.
Proof.
  intros Hl. unfold strip_slashes. destruct s as [|x s] using rev_ind; [done|].
  rewrite last_snoc in Hl. rewrite reverse_snoc. case_decide; [congruence|].
  by rewrite reverse_cons, reverse_involutive.
Qed.

Lemma after_last_slash_app q b :
  SLASH ∉ b -> after_last_slash (q ++ SLASH :: b) = b /\ after_last_slash b = b.
Proof.
  intros Hb. unfold after_last_slash. set (go := fix go (l : bytes) := match l with
    | [] => [] | c :: r => if decide (c = SLASH) then [] else c :: go r end).
  assert (forall l r, SLASH ∉ l -> go (l ++ SLASH :: r) = l /\ go l = l) as Hgo.
  { clear. induction l as [|x l IH]; intros r Hl; cbn.
    - by rewrite decide_True.
    - apply not_elem_of_cons in Hl as [Hx Hl]. destruct (IH r Hl) as [E1 E2].
      case_decide; [congruence|]. split; f_equal; [exact E1|exact E2]. }
  destruct (Hgo (reverse b) (reverse q)) as [E1 E2]; [by rewrite elem_of_reverse|].
  rewrite reverse_app, reverse_cons, <- app_assoc. cbn [app]. rewrite E1, E2.
  by rewrite reverse_involutive.
Qed.

(** A name without a slash, the base name of itself. *)
Definition plain (n : bytes) : Prop := n <> [] /\ SLASH ∉ n.

Lemma plain_last n : plain n -> list.last n <> Some SLASH.
Proof. intros [_ Hs] (q & ->)%last_Some. set_solver. Qed.

Lemma basename_last q b : plain b -> basename (q ++ SLASH :: b) = b /\ basename b = b.
Proof.
  intros Hb. pose proof (plain_last b Hb) as Hl. destruct Hb as [Hne Hs].
  destruct (after_last_slash_app q b Hs) as [E1 E2]. unfold basename. split.
  - assert (strip_slashes (q ++ SLASH :: b) = q ++ SLASH :: b) as ->.
    { apply strip_slashes_id. destruct b as [|x b _] using rev_ind; [done|].
      rewrite last_snoc in Hl. change (q ++ SLASH :: b ++ [x]) with (q ++ (SLASH :: b) ++ [x]).
      by rewrite app_assoc, last_snoc. }
    by destruct q; cbn in *.
  - rewrite strip_slashes_id by done. by destruct b.
Qed.

Lemma basename_in_plain m s : c_str m = Ret s -> list.last s <> Some SLASH -> basename_in m = Ret (m, basename s).
Proof.
  intros Hm Hs. unfold basename_in. rewrite Hm. run. unfold ends_with_slash.
  by rewrite bool_decide_eq_false_2.
Qed.

Section FileTransferProps.
Context `{HO : ODTypes} `{FT : FileTransferOD} `{FS : FileSystem F} `{HP : Platform} `{CE : CopyEnv}.
Variable OD_readOriginal : OD_stream -> bytes -> Z -> Z -> res read_out.

Lemma take_name_plain d n c e p :
  c_str (raw d) = Ret n -> plain n -> cache d = Some c ->
  path_join (dir_path c) n PATH_LEN PATH_LEN = Ret (e, Some p) ->
  take_name d = Ret (set_names (raw d) n p true d).
Proof.
  intros Hr Hn Hc Hp. unfold take_name. rewrite (basename_in_plain _ n) by (done || by apply plain_last).
  run. rewrite Hr. run. rewrite (proj2 (basename_last [] n Hn)), strncmp_eq_refl, Hc, Hp. done.
Qed.

Lemma take_name_absolute d q b :
  c_str (raw d) = Ret (q ++ SLASH :: b) -> plain b ->
  take_name d = Ret (set_names (raw d) b (q ++ SLASH :: b) false d).
Proof.
  intros Hr Hb. unfold take_name. rewrite (basename_in_plain _ (q ++ SLASH :: b)).
  - run. rewrite Hr. run. rewrite (proj1 (basename_last q b Hb)).
    destruct (strncmp_eq _ b _) eqn:E; [|done].
    apply strncmp_eq_prefix, prefix_length in E. rewrite length_app in E. cbn in E. lia.
  - done.
  - destruct b as [|x b _] using rev_ind; [by destruct Hb|]. pose proof (plain_last _ Hb) as Hl.
    change (q ++ SLASH :: b ++ [x]) with (q ++ (SLASH :: b) ++ [x]). rewrite app_assoc.
    by rewrite last_snoc in *.
Qed.

(** The server's calls for a transfer to an entry, until one does not return [ODR_PARTIAL]. *)
Fixpoint ft_write_segments (fs : F) (object : option file_transfer_data_t) (st : OD_stream)
    (chunks : list bytes) : res (ODR * OD_stream * option file_transfer_data_t * F) :=
  match chunks with
  | [] => Ret (ODR_PARTIAL, st, object, fs)
  | chunk :: chunks =>
      '(code, st, _, object, fs) ← file_transfer_write fs object st chunk (zlen chunk) 0;
      if decide (code = ODR_PARTIAL) then ft_write_segments fs object st chunks
      else mret (code, st, object, fs)
  end.

Lemma write_call_inv max m st w chunk code st' m' w' :
  write_call max m st w chunk = Ret (code, st', m', w') ->
  exists n, od_ext_write_data (Some st) (Some chunk) (zlen chunk) (Some 0) (Some m) max (Some w)
    = Ret (WriteOut code (Some st') (Some n) (Some m') (Some w')).
Proof.
  unfold write_call. intros (o & Ho & H)%res_bind_Ret_inv. rewrite Ho.
  destruct o as [? [?|] [?|] [?|] [?|]]; try done. injection H as -> -> -> ->. by eexists.
Qed.

Lemma ft_write_name fs d st chunk code st' m w :
  subIndex st = OD_SUBINDEX_FREAD_CACHE_FILE_NAME ->
  write_call (PATH_LEN - 1) (raw d) st 0 chunk = Ret (code, st', m, w) ->
  exists n, file_transfer_write fs (Some d) st chunk (zlen chunk) 0
  = (d ← (if decide (code = ODR_OK) then take_name (set_raw m d) else Ret (set_raw m d));
     mret (code, st', n, Some d, fs)).
Proof.
  intros Hs (n & Hn)%write_call_inv. exists n. unfold file_transfer_write.
  rewrite Hs, Z.eqb_refl, Hn. done.
Qed.

(** The segments of a name fill [raw] from its start; the last makes the names of it. *)
Lemma ft_name_segments fs d st len off chunks :
  subIndex st = OD_SUBINDEX_FREAD_CACHE_FILE_NAME -> zlen (raw d) = PATH_LEN ->
  0 <= off < len -> len < PATH_LEN -> Forall (fun c => c <> []) chunks -> off + total chunks = len ->
  ft_write_segments fs (Some d) (reading st len off) chunks
  = (d ← take_name (set_raw (splice (raw d) (Z.to_nat off) (concat chunks)) d);
     mret (ODR_OK, reading st len 0, Some d, fs)).
Proof.
  intros Hs Hraw Hoff Hlen Hc. revert d off Hraw Hoff.
  induction Hc as [|c chunks Hc Hcs IH]; intros d off Hraw Hoff Htot.
  { unfold total, zlen in Htot. cbn in Htot. lia. }
  pose proof (total_cons c chunks). pose proof (total_nonneg chunks). pose proof (zlen_pos c Hc).
  cbn [ft_write_segments].
  assert (is_od_size len) by (apply is_od_size_16; unfold PATH_LEN in *; lia).
  pose proof (write_call_step (PATH_LEN - 1) (raw d) st len off 0 c) as Hw.
  do 5 (specialize (Hw ltac:(done || lia))).
  destruct (Z.ltb_spec (zlen c) (len - off)).
  - apply (ft_write_name fs) in Hw as [n ->]; [|done]. rewrite decide_False by done. run.
    rewrite decide_True by done.
    assert (Z.to_nat (off + zlen c) = Z.to_nat off + length c)%nat as E by zlia.
    rewrite IH by (cbn [set_raw raw]; unfold PATH_LEN, zlen in *; rewrite ?length_splice; lia).
    cbn [set_raw raw concat]. rewrite E, splice_splice; [done|].
    unfold total, PATH_LEN, zlen in *. lia.
  - assert (chunks = []) as -> by (apply total_0_nil; [done|lia]).
    rewrite (proj2 (Z.eqb_eq _ _)) in Hw by (unfold total, zlen in *; cbn in *; lia).
    apply (ft_write_name fs) in Hw as [n ->]; [|done]. rewrite decide_True by done.
    cbn [concat]. rewrite app_nil_r. by destruct (take_name _).
Qed.

(** The string in [raw] after a complete name [x] was written over it. *)
Lemma ft_set_name fs d st x chunks n c e p :
  subIndex st = OD_SUBINDEX_FREAD_CACHE_FILE_NAME -> zlen (raw d) = PATH_LEN ->
  dataOffset st = 0 -> dataLength st = zlen x -> 0 < zlen x < PATH_LEN ->
  Forall (fun c => c <> []) chunks -> concat chunks = x ->
  c_str (splice (raw d) 0 x) = Ret n -> plain n -> cache d = Some c ->
  path_join (dir_path c) n PATH_LEN PATH_LEN = Ret (e, Some p) ->
  ft_write_segments fs (Some d) st chunks
  = Ret (ODR_OK, reading st (zlen x) 0, Some (set_names (splice (raw d) 0 x) n p true d), fs).
Proof.
  intros Hs Hraw Ho Hl Hx Hc Hcat Hn Hp Hcache Hj. destruct st as [len off i s]. cbn in *. subst off len.
  change (mkStream (zlen x) 0 i s) with (reading (mkStream (zlen x) 0 i s) (zlen x) 0).
  rewrite ft_name_segments by (done || lia || (unfold total; rewrite Hcat; lia)).
  rewrite Hcat. change (Z.to_nat 0) with 0%nat. rewrite (take_name_plain (set_raw (splice (raw d) 0 x) d) n c e p) by done. done.
Qed.

(** A file name sent with its terminator, in segments of any size, is the name of a
    file in the cache, and reading the name subindex gives the same string: whatever names
    were written before. *)
Theorem file_transfer_name fs d st n chunks c e p :
  subIndex st = OD_SUBINDEX_FREAD_CACHE_FILE_NAME -> zlen (raw d) = PATH_LEN ->
  dataOffset st = 0 -> dataLength st = zlen n + 1 -> zlen n + 1 < PATH_LEN ->
  Forall (fun c => c <> []) chunks -> concat chunks = with_nul n ->
  wf_cstr n -> plain n -> cache d = Some c ->
  path_join (dir_path c) n PATH_LEN PATH_LEN = Ret (e, Some p) ->
  exists r, ft_write_segments fs (Some d) st chunks
    = Ret (ODR_OK, reading st (zlen n + 1) 0, Some (set_names r n p true d), fs) /\
    zlen r = PATH_LEN /\ c_str r = Ret n.
Proof.
  intros Hs Hraw Ho Hl Hn Hc Hcat Hwf Hp Hcache Hj. pose proof (zlen_nonneg n).
  assert (zlen (with_nul n) = zlen n + 1) as E by (unfold with_nul; zlia).
  assert (c_str (splice (raw d) 0 (with_nul n)) = Ret n) as Hr.
  { unfold splice, with_nul. cbn [firstn app]. rewrite <- app_assoc. by apply c_str_with_nul. }
  eexists. split; [|split; [|exact Hr]].
  - rewrite <- E. by eapply ft_set_name; try done; rewrite ?E; lia.
  - unfold zlen in *. rewrite length_splice; lia.
Qed.

(** A name sent without its terminator, shorter than the one before, keeps the end of the
    old name. *)
Theorem file_transfer_name_stale fs d st n old rest chunks c e p :
  subIndex st = OD_SUBINDEX_FREAD_CACHE_FILE_NAME -> zlen (raw d) = PATH_LEN ->
  dataOffset st = 0 -> dataLength st = zlen n -> n <> [] ->
  Forall (fun c => c <> []) chunks -> concat chunks = n ->
  raw d = old ++ NUL :: rest -> zlen n < zlen old -> wf_cstr n -> wf_cstr old -> 
  plain (n ++ drop (length n) old) -> cache d = Some c ->
  path_join (dir_path c) (n ++ drop (length n) old) PATH_LEN PATH_LEN = Ret (e, Some p) ->
  exists r, ft_write_segments fs (Some d) st chunks
    = Ret (ODR_OK, reading st (zlen n) 0, Some (set_names r (n ++ drop (length n) old) p true d), fs) /\
    c_str r = Ret (n ++ drop (length n) old) /\ n ++ drop (length n) old <> n.
Proof.
  intros Hs Hraw Ho Hl Hne Hc Hcat Hold Hlt Hwf Hwfo Hp Hcache Hj. pose proof (zlen_pos n Hne).
  assert (c_str (splice (raw d) 0 n) = Ret (n ++ drop (length n) old)) as Hr.
  { unfold splice. cbn [firstn app Nat.add]. rewrite Hold, drop_app_le by (unfold zlen in *; lia).
    rewrite (app_assoc n). apply c_str_with_nul. unfold wf_cstr in *. rewrite elem_of_app. intros [?|Hin]; [done|].
    apply Hwfo. by eapply subseteq_drop. }
  eexists. split; [|split; [exact Hr|]].
  - eapply ft_set_name; try done. split; [lia|]. rewrite <- Hraw, Hold. zlia.
  - intros E. apply (f_equal length) in E. rewrite length_app, length_drop in E. unfold zlen in *. lia.
Qed.

(** ** Properties: data written *)

Lemma data_is_not_name : OD_SUBINDEX_FREAD_CACHE_FILE_DATA <> OD_SUBINDEX_FREAD_CACHE_FILE_NAME.
Proof. pose proof write_labels_distinct as [H _]%list.NoDup_cons. set_solver. Qed.

(** The temporary file of a name. *)
Definition tmp_of (n : bytes) : path := cs "/tmp/" ++ n.

Lemma path_join_tmp n :
  plain n -> path_join (cs "/tmp") n PATH_LEN PATH_LEN
  = if zlen n <=? 250 then Ret (0, Some (tmp_of n)) else Undef UbBounds.
Proof.
  intros [_ Hn]. rewrite path_join_plain by (done || by left).
  change (zlen (cs "/tmp")) with 4. unfold PATH_LEN.
  destruct (Z.leb_spec (4 + 1 + zlen n + 1) 256), (Z.leb_spec (zlen n) 250); done || lia.
Qed.

(** A call for a segment of the data, the file being created by it or open. *)
Definition data_ready (fs fs0 : F) (d : file_transfer_data_t) (t : path) (off : Z) : Prop :=
  if off =? 0
  then path_join (cs "/tmp") (file_name d) PATH_LEN PATH_LEN = Ret (0, Some t) /\ fs_create fs t = inr fs0
  else tmp_file_path d = t /\ fp d = Some (Writing t) /\ fs = fs0.

Lemma ft_data_step fs fs0 d t st len off chunk :
  subIndex st = OD_SUBINDEX_FREAD_CACHE_FILE_DATA -> file_name d <> [] ->
  is_od_size len -> 0 <= off < len -> chunk <> [] -> zlen chunk <= len - off ->
  data_ready fs fs0 d t off ->
  file_transfer_write fs (Some d) (reading st len off) chunk (zlen chunk) 0
  = if zlen chunk <? len - off
    then Ret (ODR_PARTIAL, reading st len (off + zlen chunk), zlen chunk,
              Some (set_fp (Some (Writing t)) (set_tmp t d)), fs_append fs0 t chunk)
    else (fs ← store_file (fs_append fs0 t chunk) (set_fp None (set_tmp t d));
          mret (ODR_OK, reading st len 0, zlen chunk, Some (set_fp None (set_tmp t d)), fs)).
Proof.
  intros Hs Hn Hlen Hoff Hc Hle Hd. unfold file_transfer_write. cbn [subIndex reading].
  rewrite Hs, (proj2 (Z.eqb_neq _ _) data_is_not_name), Z.eqb_refl, decide_False by done.
  pose proof (write_file_segment_step t fs0 st len off chunk Hlen Hoff Hc Hle) as Hstep.
  unfold write_file_data, od_ext_write_file, data_ready in *. cbn [dataOffset reading] in *.
  destruct (off =? 0) eqn:E; [destruct Hd as [Hj Hcr]|destruct Hd as (Ht & Hf & ->)].
  - rewrite Hj. run. cbn [written set_tmp tmp_file_path fp]. rewrite Hcr.
    unfold reading in *. rewrite Hstep. destruct (zlen chunk <? len - off); cbn [fo_fs fo_fp].
    + run. rewrite decide_False by done. cbn. by destruct (fp d) as [[]|].
    + run. rewrite decide_True by done. cbn [writer_after]. by destruct (fp d) as [[]|], (store_file _ _).
  - run. rewrite Hf. cbn [as_writer]. unfold reading in *. rewrite Hstep.
    assert (set_tmp t d = d) as -> by (destruct d; cbn in *; by subst).
    destruct (zlen chunk <? len - off); cbn [fo_fs fo_fp].
    + run. by rewrite decide_False.
    + run. rewrite decide_True by done. cbn [writer_after]. by destruct (store_file _ _).
Qed.

Lemma ft_data_from fs fs0 d t st len off chunks :
  subIndex st = OD_SUBINDEX_FREAD_CACHE_FILE_DATA -> file_name d <> [] ->
  is_od_size len -> 0 <= off < len -> Forall (fun c => c <> []) chunks -> off + total chunks = len ->
  data_ready fs fs0 d t off ->
  ft_write_segments fs (Some d) (reading st len off) chunks
  = (fs ← store_file (fs_append fs0 t (concat chunks)) (set_fp None (set_tmp t d));
     mret (ODR_OK, reading st len 0, Some (set_fp None (set_tmp t d)), fs)).
Proof.
  intros Hs Hn Hlen Hoff Hc. revert fs fs0 d off Hn Hoff.
  induction Hc as [|c chunks Hc Hcs IH]; intros fs fs0 d off Hn Hoff Htot Hd.
  { unfold total, zlen in Htot. cbn in Htot. lia. }
  pose proof (total_cons c chunks). pose proof (total_nonneg chunks). pose proof (zlen_pos c Hc).
  cbn [ft_write_segments]. rewrite (ft_data_step fs fs0 d t) by (done || lia).
  destruct (Z.ltb_spec (zlen c) (len - off)).
  - run. rewrite decide_True by done.
    rewrite (IH _ (fs_append fs0 t c)); [by rewrite fs_append_app|done|lia|lia|].
    unfold data_ready. by rewrite (proj2 (Z.eqb_neq _ _)) by lia.
  - assert (chunks = []) as -> by (apply total_0_nil; [done|lia]).
    cbn [concat]. rewrite app_nil_r. destruct (store_file _ _); [|done]. run. by rewrite decide_False.
Qed.

Lemma ft_write_data fs fs0 d st n chunks :
  subIndex st = OD_SUBINDEX_FREAD_CACHE_FILE_DATA -> dataOffset st = 0 ->
  file_name d = n -> plain n -> zlen n <= 250 -> is_od_size (dataLength st) ->
  Forall (fun c => c <> []) chunks -> chunks <> [] -> total chunks = dataLength st ->
  fs_create fs (tmp_of n) = inr fs0 ->
  ft_write_segments fs (Some d) st chunks
  = (fs ← store_file (fs_append fs0 (tmp_of n) (concat chunks)) (set_fp None (set_tmp (tmp_of n) d));
     mret (ODR_OK, reading st (dataLength st) 0, Some (set_fp None (set_tmp (tmp_of n) d)), fs)).
Proof.
  intros Hs Ho Hn Hp Hl Hlen Hc Hne Htot Hcr. destruct st as [len off i s]. cbn in *. subst off n.
  assert (0 < len).
  { pose proof (total_nonneg chunks). destruct (decide (total chunks = 0)); [|lia].
    by destruct Hne; apply total_0_nil. }
  apply (ft_data_from fs fs0 d (tmp_of (file_name d)) (mkStream len 0 i s) len 0 chunks);
    [done|by destruct Hp|done|lia|done|lia|].
  split; [|done]. rewrite path_join_tmp by done. by rewrite (proj2 (Z.leb_le _ _)) by lia.
Qed.

(** The file system after a [remove] whose answer is not looked at. *)
Definition removed (fs : F) (p : path) : F :=
  match fs_remove fs p with inr fs => fs | inl _ => fs end.

Lemma c_str_head m s x : c_str m = Ret (x :: s) -> list.head m = Some x.
Proof.
  unfold c_str. case_decide; [|done]. destruct m as [|y m]; cbn; [done|]. case_decide; [done|].
  by intros [= -> _].
Qed.



Lemma copy_onto_itself fs fs' t c :
  fs_read fs t = inr c -> is_dir fs t = false -> fs_create fs t = inr fs' -> copy_file fs t t = Ret (0, fs').
Proof.
  intros Hr Hd Hcr. unfold copy_file. rewrite Hr, Hd. run. rewrite Hcr. unfold is_dir.
  rewrite (fs_create_file _ _ _ Hcr), (fs_create_read fs t fs' Hcr). cbn. by rewrite fs_append_nil.
Qed.

(** A file written under an absolute name is never stored there.  Unless the name is that of
    the temporary file itself, the data stays in the temporary file and nothing else
    changes; when it is, the file is moved onto itself, which destroys it.  The answer is
    [ODR_OK] in both cases. *)
Theorem file_transfer_absolute_lost fs fs0 d st q n chunks :
  subIndex st = OD_SUBINDEX_FREAD_CACHE_FILE_DATA -> dataOffset st = 0 ->
  let name := SLASH :: q ++ SLASH :: n in
  file_name d = n -> c_str (raw d) = Ret name -> plain n -> zlen n <= 250 ->
  is_od_size (dataLength st) -> Forall (fun c => c <> []) chunks -> chunks <> [] ->
  total chunks = dataLength st -> fs_create fs (tmp_of n) = inr fs0 ->
  let fs1 := fs_append fs0 (tmp_of n) (concat chunks) in
  let result fs := Ret (ODR_OK, reading st (dataLength st) 0,
                        Some (set_fp None (set_tmp (tmp_of n) d)), fs) in
  (name <> tmp_of n -> ft_write_segments fs (Some d) st chunks = result fs1) /\
  (name = tmp_of n -> forall fs2 fs3, fs_create fs1 (tmp_of n) = inr fs2 ->
     fs_remove fs2 (tmp_of n) = inr fs3 ->
     ft_write_segments fs (Some d) st chunks = result fs3 /\ fs_read fs3 (tmp_of n) = inl ENOENT).
Proof.
  intros Hs Ho name Hn Hraw Hp Hl Hlen Hc Hne Htot Hcr fs1 result.
  assert (starts_with_slash (raw d) = true) as Hsl.
  { apply bool_decide_eq_true. by eapply c_str_head. }
  assert (forall fs', store_file fs1 (set_fp None (set_tmp (tmp_of n) d)) = Ret fs' ->
    ft_write_segments fs (Some d) st chunks = result fs') as Hrun.
  { intros fs' E. rewrite (ft_write_data fs fs0 d st n) by done. fold fs1. by rewrite E. }
  split.
  - intros Hd. apply Hrun. unfold store_file. cbn [set_fp set_tmp raw tmp_file_path].
    rewrite Hsl, Hraw. run. destruct (strncmp_eq name _ _) eqn:E; [|done].
    by apply strncmp_eq_succ in E.
  - intros He fs2 fs3 Hcr2 Hrm. split; [|by eapply fs_remove_gone]. apply Hrun.
    unfold store_file. cbn [set_fp set_tmp raw tmp_file_path].
    rewrite Hsl, Hraw. run. rewrite (proj2 (strncmp_eq_succ name _) He), He. unfold move_file.
    rewrite (copy_onto_itself fs1 fs2 _ (concat chunks)).
    + run. cbn [Z.leb]. by rewrite Hrm.
    + by apply (created_appended fs fs0).
    + unfold is_dir, fs1. rewrite fs_append_file; [done|by eapply fs_create_file].
    + done.
Qed.

(** ** Properties: data read *)



Lemma data_read_labels :
  OD_SUBINDEX_FREAD_CACHE_FILE_DATA <> 0 /\
  OD_SUBINDEX_FREAD_CACHE_FILE_DATA <> OD_SUBINDEX_FREAD_CACHE_LENGTH /\
  OD_SUBINDEX_FREAD_CACHE_FILE_DATA <> OD_SUBINDEX_FREAD_CACHE_FILES_JSON /\
  OD_SUBINDEX_FREAD_CACHE_FILE_DATA <> OD_SUBINDEX_FREAD_CACHE_FILE_NAME.
Proof.
  pose proof read_labels_distinct as Hd. rewrite !list.NoDup_cons, !not_elem_of_cons in Hd.
  repeat split; intros E; destruct Hd as (H0 & H1 & H2 & H3 & _); intuition congruence.
Qed.

(** Reading the data subindex is reading the temporary file: at offset 0 once it is copied. *)
Lemma ft_read_data_dispatch fs d st buf count k :
  subIndex st = OD_SUBINDEX_FREAD_CACHE_FILE_DATA ->
  file_transfer_read OD_readOriginal fs (Some d) st buf count k
  = '(out, d, fs) ← read_file_data fs d st buf count k; mret (out, Some d, fs).
Proof.
  intros Hs. destruct data_read_labels as (H0 & H1 & H2 & H3).
  unfold file_transfer_read. rewrite Hs.
  apply Z.eqb_neq in H0 as ->, H1 as ->, H2 as ->, H3 as ->. by rewrite Z.eqb_refl.
Qed.






(** ** Properties: removal, long names, and the invariant of the objects *)

Lemma remove_label :
  OD_SUBINDEX_FREAD_CACHE_REMOVE <> OD_SUBINDEX_FREAD_CACHE_FILE_NAME /\
  OD_SUBINDEX_FREAD_CACHE_REMOVE <> OD_SUBINDEX_FREAD_CACHE_FILE_DATA.
Proof.
  pose proof write_labels_distinct as Hd. rewrite !list.NoDup_cons, !not_elem_of_cons in Hd.
  split; intros E; destruct Hd as (H0 & H1 & _); intuition congruence.
Qed.

(** Any write to the remove subindex, whatever the value, false included, deletes the
    named file from the cache and forgets the name: reading the data then answers
    [ODR_NO_DATA]. *)
Theorem file_transfer_remove fs fs1 d st buf count k c q :
  subIndex st = OD_SUBINDEX_FREAD_CACHE_REMOVE -> file_name d <> [] -> raw d <> [] ->
  cache d = Some c -> mutex_locked c = false -> cache_path c (file_name d) = Ret (0, q) ->
  fs_remove fs q = inr fs1 ->
  exists d', file_transfer_write fs (Some d) st buf count k
    = Ret (ODR_OK, st, 1, Some d', removed fs1 (tmp_file_path d)) /\
    fs_read fs1 q = inl ENOENT /\ c_str (raw d') = Ret [] /\
    (forall fs' st' b n m, subIndex st' = OD_SUBINDEX_FREAD_CACHE_FILE_DATA ->
       file_transfer_read OD_readOriginal fs' (Some d') st' b n m
       = Ret (ReadOut ODR_NO_DATA (Some st') (Some b) (Some m), Some d', fs')).
Proof.
  intros Hs Hn Hraw Hc Hlock Hq Hrm. destruct remove_label as [H1 H2].
  destruct d as [r nm fp0 t h ca cd fl]. cbn in Hn, Hraw, Hc, Hq. subst ca. destruct r as [|x r]; [done|].
  exists (mkFt (NUL :: r) [] [] [] h (Some c) cd fl).
  split; [|split; [|split]].
  - unfold file_transfer_write. rewrite Hs. apply Z.eqb_neq in H1 as ->, H2 as ->. rewrite Z.eqb_refl.
    cbn [file_name]. rewrite decide_False by done. unfold remove_file, fcache_delete. cbn [cache file_name].
    rewrite Hq. run. cbn [Z.ltb]. unfold with_lock. rewrite Hlock, Hrm. run. cbn [raw].
    rewrite mem_write_ok by (unfold zlen; cbn [length]; lia). run.
    unfold removed. cbn. by destruct (fs_remove fs1 t).
  - by eapply fs_remove_gone.
  - apply (c_str_with_nul []). apply not_elem_of_nil.
  - intros fs' st' b n m Hd. by rewrite ft_read_data_dispatch.
Qed.

(** Exactly the names longer than 250 bytes make the first segment of the data run past the
    buffer of the temporary path; a name of up to 254 bytes can be written. *)
Theorem file_transfer_long_name fs d st buf count k :
  subIndex st = OD_SUBINDEX_FREAD_CACHE_FILE_DATA -> dataOffset st = 0 -> plain (file_name d) ->
  250 < zlen (file_name d) ->
  file_transfer_write fs (Some d) st buf count k = Undef UbBounds /\
  (is_file fs (file_path d) = true ->
   file_transfer_read OD_readOriginal fs (Some d) st buf count k = Undef UbBounds).
Proof.
  intros Hs Ho Hp Hl. pose proof (path_join_tmp _ Hp) as Hj.
  rewrite (proj2 (Z.leb_gt _ _)) in Hj by lia. destruct Hp as [Hne _]. split.
  - unfold file_transfer_write. rewrite Hs, (proj2 (Z.eqb_neq _ _) data_is_not_name), Z.eqb_refl.
    rewrite decide_False by done. unfold write_file_data. rewrite Ho. cbn [Z.eqb]. by rewrite Hj.
  - intros Hf. rewrite ft_read_data_dispatch by done. unfold read_file_data.
    rewrite decide_False by done. rewrite Ho. cbn [Z.eqb]. rewrite Hf. cbn [negb]. by rewrite Hj.
Qed.

(** Every buffer of an object holds a string. *)
Record ft_ok (d : file_transfer_data_t) : Prop := {
  ok_raw : terminated (raw d) PATH_LEN;
  ok_name : zlen (file_name d) < PATH_LEN;
  ok_path : zlen (file_path d) < PATH_LEN;
  ok_tmp : zlen (tmp_file_path d) < PATH_LEN;
}.

Lemma init_data_ok junk c d :
  terminated junk PATH_LEN -> init_data junk c = Ret d -> ft_ok d /\ file_name d = [].
Proof.
  intros Hj (r & Hr & [= <-])%res_bind_Ret_inv. split; [|done].
  split; [|done..]. eapply terminated_mem_write; [done..|by right].
Qed.

Lemma path_join_fits hd tl cap o e s : path_join hd tl cap o = Ret (e, Some s) -> zlen s < cap.
Proof.
  unfold path_join. intros H. repeat (case_match; try done);
    repeat match goal with H : (_ <=? _) = true |- _ => apply Z.leb_le in H end; simplify_eq; lia.
Qed.

Lemma written_fits hd tl old e out n :
  path_join hd tl PATH_LEN n = Ret (e, out) -> zlen old < PATH_LEN -> zlen (written old out) < PATH_LEN.
Proof. intros H Ho. destruct out; [|done]. by eapply path_join_fits. Qed.

Lemma length_basename s : (length (basename s) <= Nat.max 1 (length s))%nat.
Proof.
  assert (forall t, (length (strip_slashes t) <= length t)%nat) as H1.
  { intros t. unfold strip_slashes. rewrite length_reverse, <- (length_reverse t).
    induction (reverse t) as [|x l IH]; cbn; [done|]. case_decide; cbn; lia. }
  assert (forall t, (length (after_last_slash t) <= length t)%nat) as H2.
  { intros t. unfold after_last_slash. rewrite length_reverse, <- (length_reverse t).
    induction (reverse t) as [|x l IH]; cbn; [done|]. case_decide; cbn; lia. }
  unfold basename. destruct s as [|x s]; [done|]. specialize (H1 (x :: s)).
  destruct (strip_slashes (x :: s)) as [|y t]; [cbn; lia|]. specialize (H2 (y :: t)). lia.
Qed.

Lemma take_name_ok d d' : ft_ok d -> take_name d = Ret d' -> ft_ok d'.
Proof.
  intros [Hr Hn Hp Ht]. unfold take_name.
  intros ([r nm] & Hb & H)%res_bind_Ret_inv.
  assert (terminated r PATH_LEN /\ zlen nm < PATH_LEN) as [Hr' Hnm].
  { unfold basename_in in Hb. destruct (terminated_c_str _ _ Hr) as [E Hl]. rewrite E in Hb.
    apply res_bind_Ret_inv in Hb as (s & [= <-] & (m & Hm & [= <- <-])%res_bind_Ret_inv).
    pose proof (length_basename (upto_nul (raw d))). unfold PATH_LEN, zlen in *. split; [|lia].
    destruct (_ && _); [|by ret_eq]. eapply terminated_mem_write; [done..|by right]. }
  destruct (terminated_c_str _ _ Hr') as [E Hl]. rewrite E in H.
  apply res_bind_Ret_inv in H as (s & [= <-] & (p & Hpath & [= <-])%res_bind_Ret_inv).
  split; [done..| |done]. cbn [set_names file_path]. destruct (strncmp_eq _ _ _); [|by injection Hpath as <-].
  destruct (cache d) as [c|]; [|done].
  apply res_bind_Ret_inv in Hpath as ([e out] & Hj & [= <-]). by eapply written_fits.
Qed.

Lemma tmp_ok d e out :
  ft_ok d -> path_join (cs "/tmp") (file_name d) PATH_LEN PATH_LEN = Ret (e, out) ->
  ft_ok (set_tmp (written (tmp_file_path d) out) d).
Proof. intros [Hr Hn Hp Ht] Hj. split; [done..|]. by eapply written_fits. Qed.

Lemma set_fp_ok h d : ft_ok d -> ft_ok (set_fp h d).
Proof. by intros []. Qed.

Lemma read_file_data_ok fs d st buf count k out d' fs' :
  ft_ok d -> read_file_data fs d st buf count k = Ret (out, d', fs') -> ft_ok d'.
Proof.
  intros Hok. unfold read_file_data. case_decide; [by intros [= <- <- <-]|].
  intros ([[r d1] fs1] & H1 & H2)%res_bind_Ret_inv.
  assert (ft_ok d1) as Hd1.
  { destruct (dataOffset st =? 0); [|by ret_eq]. destruct (negb _); [by ret_eq|].
    apply res_bind_Ret_inv in H1 as ([e p] & Hj & ([e' fs2] & _ & [= <- <- <-])%res_bind_Ret_inv).
    by eapply tmp_ok. }
  case_decide; [|by ret_eq].
  apply res_bind_Ret_inv in H2 as ([o f] & _ & [= <- <- <-]). by apply set_fp_ok.
Qed.

Lemma write_file_data_ok fs d st buf count k code st' n d' fs' :
  ft_ok d -> write_file_data fs d st buf count k = Ret (code, st', n, d', fs') -> ft_ok d'.
Proof.
  intros Hok. unfold write_file_data. intros (d1 & H1 & (o & _ & H2)%res_bind_Ret_inv)%res_bind_Ret_inv.
  assert (ft_ok d1) as Hd1.
  { destruct (dataOffset st =? 0); [|by ret_eq].
    apply res_bind_Ret_inv in H1 as ([e p] & Hj & [= <-]). by eapply tmp_ok. }
  destruct o as [c [s|] [m|] h g]; try done.
  apply res_bind_Ret_inv in H2 as (fs2 & _ & [= <- <- <- <- <-]). by apply set_fp_ok.
Qed.

(** After a call of the server that has a result, the buffers of an object still hold
    strings: the name's buffer keeps its last byte, and each other string fits its
    buffer.  ([file_transfer_long_name] says when a call has none.) *)
Theorem file_transfer_buffers fs d st buf count k :
  ft_ok d ->
  (forall out o fs', file_transfer_read OD_readOriginal fs (Some d) st buf count k = Ret (out, o, fs') ->
     exists d', o = Some d' /\ ft_ok d') /\
  (forall code st' n o fs', file_transfer_write fs (Some d) st buf count k = Ret (code, st', n, o, fs') ->
     exists d', o = Some d' /\ ft_ok d').
Proof.
  intros Hok. split.
  - intros out o fs'. unfold file_transfer_read.
    destruct (_ =? _); [intros (x & _ & [= <- <- <-])%res_bind_Ret_inv; eauto|].
    destruct (_ =? _).
    { intros (x & _ & (y & _ & [= <- <- <-])%res_bind_Ret_inv)%res_bind_Ret_inv. eauto. }
    destruct (_ =? _).
    { intros ([l c] & _ & H)%res_bind_Ret_inv. exists (set_list c l d). split; [|by destruct Hok].
      destruct l; [apply res_bind_Ret_inv in H as (x & _ & [= <- <- <-])|injection H as <- <- <-]; done. }
    destruct (_ =? _).
    { intros (x & _ & (y & _ & [= <- <- <-])%res_bind_Ret_inv)%res_bind_Ret_inv. eauto. }
    destruct (_ =? _); [|intros [= <- <- <-]; eauto].
    intros ([[x d'] f] & Hr & [= <- <- <-])%res_bind_Ret_inv. exists d'. split; [done|].
    by eapply read_file_data_ok.
  - intros code st' n o fs'. unfold file_transfer_write.
    destruct (_ =? _); [|destruct (_ =? _); [|destruct (_ =? _)]].
    + intros (out & Hout & H)%res_bind_Ret_inv.
      destruct (od_ext_write_data_terminated st buf count k (raw d) (PATH_LEN - 1) 0 out PATH_LEN)
        as (r & Er & Hr); [done|by destruct Hok|done|].
      destruct out as [c [s|] [m|] [r'|] w]; cbn in Er; simplify_eq; try done.
      assert (ft_ok (set_raw r d)) as Hd1 by (by destruct Hok).
      apply res_bind_Ret_inv in H as (d' & Hd' & [= <- <- <- <- <-]). exists d'. split; [done|].
      case_decide; [by eapply take_name_ok|by ret_eq].
    + case_decide; [by intros [= <- <- <- <- <-]; eauto|].
      intros ([[[[? ?] ?] d'] ?] & Hw & [= <- <- <- <- <-])%res_bind_Ret_inv. exists d'. split; [done|].
      by eapply write_file_data_ok.
    + intros ([d' fs2] & Hw & [= <- <- <- <- <-])%res_bind_Ret_inv. exists d'. split; [done|].
      case_decide; [by ret_eq|]. unfold remove_file in Hw.
      apply res_bind_Ret_inv in Hw as ([e fs3] & _ & (r & Hr & [= <- <-])%res_bind_Ret_inv).
      destruct Hok. split; [|done..]. eapply terminated_mem_write; [done..|by right].
    + intros [= <- <- <- <- <-]. eauto.
Qed.
End FileTransferProps.

(** ** Witnesses: the theorems at concrete inputs *)

Definition sample_ft_od : FileTransferOD.
Proof.
  refine {| OD_SUBINDEX_FREAD_CACHE_LENGTH := 1; OD_SUBINDEX_FREAD_CACHE_FILES_JSON := 2;
            OD_SUBINDEX_FREAD_CACHE_FILE_NAME := 3; OD_SUBINDEX_FREAD_CACHE_FILE_DATA := 4;
            OD_SUBINDEX_FREAD_CACHE_REMOVE := 5 |}; by_decide.
Defined.

(** An object with a name, its file in the cache [/d]. *)
Definition sample_name (n : string) : bytes := cs n ++ replicate (256 - length (cs n)) NUL.
Definition sample_ft (n : string) : file_transfer_data_t :=
  mkFt (sample_name n) (basename (cs n)) (cs "/f") (cs "/tmp/g") None (Some (mkCache (cs "/d") false)) true None.

#[local] Existing Instances od_u32 sample_ft_od armhf sendfile_whole.

Definition name_stream (n : Z) : OD_stream := mkStream n 0 0x3003 3.
Definition data_stream (n : Z) : OD_stream := mkStream n 0 0x3003 4.

Lemma file_transfer_name_witness :
  exists r, ft_write_segments sample_fs (Some (sample_ft "old_name")) (name_stream 4) [cs "a."; cs "b" ++ [NUL]]
    = Ret (ODR_OK, reading (name_stream 4) 4 0,
           Some (set_names r (cs "a.b") (cs "/d/a.b") true (sample_ft "old_name")), sample_fs) /\
    zlen r = PATH_LEN /\ c_str r = Ret (cs "a.b").
Proof.
  apply (file_transfer_name sample_fs (sample_ft "old_name") (name_stream 4) (cs "a.b")
    [cs "a."; cs "b" ++ [NUL]] (mkCache (cs "/d") false) 0 (cs "/d/a.b"));
    try by_compute; by_decide.
Defined.

Lemma file_transfer_name_stale_witness :
  exists r, ft_write_segments sample_fs (Some (sample_ft "old_name")) (name_stream 3) [cs "a.b"]
    = Ret (ODR_OK, reading (name_stream 3) 3 0,
           Some (set_names r (cs "a.b_name") (cs "/d/a.b_name") true (sample_ft "old_name")), sample_fs) /\
    c_str r = Ret (cs "a.b_name") /\ cs "a.b_name" <> cs "a.b".
Proof.
  apply (file_transfer_name_stale sample_fs (sample_ft "old_name") (name_stream 3) (cs "a.b") (cs "old_name")
    (replicate 247 NUL) [cs "a.b"] (mkCache (cs "/d") false) 0 (cs "/d/a.b_name"));
    try by_compute; by_decide.
Defined.

Definition sent_fs : memfs := <[tmp_of (cs "g") := NFile []]> sample_fs.


Lemma file_transfer_absolute_lost_witness :
  ft_write_segments sample_fs (Some (set_raw (sample_name "/h/g") (sample_ft "g"))) (data_stream 4) [cs "data"]
  = Ret (ODR_OK, reading (data_stream 4) 4 0,
         Some (set_fp None (set_tmp (tmp_of (cs "g")) (set_raw (sample_name "/h/g") (sample_ft "g")))),
         fs_append sent_fs (tmp_of (cs "g")) (cs "data")).
Proof.
  assert (fs_create sample_fs (tmp_of (cs "g")) = inr sent_fs) as Hcr by by apply mem_fs_create_new.
  apply (file_transfer_absolute_lost sample_fs sent_fs (set_raw (sample_name "/h/g") (sample_ft "g"))
    (data_stream 4) (cs "h") (cs "g") [cs "data"]);
    try exact Hcr; try by_compute; by_decide.
Defined.


Definition cached_fs : memfs := <[cs "/d/g" := NFile (cs "x")]> sample_fs.

Lemma file_transfer_remove_witness :
  exists d', file_transfer_write cached_fs (Some (sample_ft "g")) (mkStream 1 0 0x3003 5) [NUL] 1 0
    = Ret (ODR_OK, mkStream 1 0 0x3003 5, 1, Some d',
           removed (delete (cs "/d/g") cached_fs) (cs "/tmp/g")) /\
    fs_read (delete (cs "/d/g") cached_fs) (cs "/d/g") = inl ENOENT /\ c_str (raw d') = Ret [].
Proof.
  assert (fs_remove cached_fs (cs "/d/g") = inr (delete (cs "/d/g") cached_fs)) as Hrm.
  { cbn. unfold mem_fs_remove, cached_fs. by rewrite lookup_insert_eq. }
  destruct (file_transfer_remove (fun st b _ n => Ret (ReadOut ODR_OK (Some st) (Some b) (Some n)))
    cached_fs (delete (cs "/d/g") cached_fs) (sample_ft "g") (mkStream 1 0 0x3003 5) [NUL] 1 0
    (mkCache (cs "/d") false) (cs "/d/g")) as (d' & H1 & H2 & H3 & _);
    try exact Hrm; try by_compute.
  by exists d'.
Defined.

Lemma file_transfer_long_name_witness :
  file_transfer_write sample_fs (Some (set_names (replicate 256 NUL) (replicate 251 "a"%byte) [] true (sample_ft "g")))
    (data_stream 4) (cs "data") 4 0 = Undef UbBounds.
Proof.
  apply (file_transfer_long_name (fun st b _ n => Ret (ReadOut ODR_OK (Some st) (Some b) (Some n)))); by_compute || by_decide.
Defined.

Lemma file_transfer_buffers_witness :
  ft_ok (sample_ft "g") /\
  forall code st' n o fs',
    file_transfer_write sample_fs (Some (sample_ft "g")) (name_stream 2) (cs "ab") 2 0 = Ret (code, st', n, o, fs') ->
    exists d', o = Some d' /\ ft_ok d'.
Proof.
  assert (ft_ok (sample_ft "g")) as Hok by (split; [split|..]; by_compute).
  split; [done|].
  apply (file_transfer_buffers (fun st b _ n => Ret (ReadOut ODR_OK (Some st) (Some b) (Some n)))
    sample_fs (sample_ft "g") (name_stream 2) (cs "ab") 2 0 Hok).
Defined.
