(* ===== verification/EcssTime.v ===== *)
(** * src/common/ecss_time.c and src/od_extensions/ecss_time_ext.c: the clock in ECSS formats

    The two formats are unions of a 64-bit integer with bit-fields, filled from and read into
    the clock.  The model lays the bit-fields out as the ABIs of the daemon's targets do, and
    works on the bytes of the caller's buffer; the clock is a pair of seconds and
    microseconds, and [settimeofday] an argument: an [errno], or the clock afterwards. *)

From S2P Require Import Prelude CLib ODInterface FileSys OdExt.

Definition SECS_IN_DAY : Z := 24 * 60 * 60.

(** ** Layout

    The bit positions of consecutive bit-fields, given with the width of their type: one
    that would cross a boundary of its type begins at that boundary. *)
Fixpoint bitfields (pos : Z) (l : list (Z * Z)) : list Z :=
  match l with
  | [] => []
  | (unit, width) :: l =>
      let pos := if pos mod unit + width <=? unit then pos else (pos / unit + 1) * unit in
      pos :: bitfields (pos + width) l
  end.

Definition ecss_scet_t : list (Z * Z) := [(32, 32); (32, 24)].          (* coarse, fine *)
Definition ecss_utc_t : list (Z * Z) := [(16, 16); (32, 32); (16, 16)]. (* day, ms, us *)

Definition field (t : list (Z * Z)) (i : nat) : Z * Z :=
  (nth i (bitfields 0 t) 0, snd (nth i t (8, 0))).

(** The fields fill whole bytes. *)
Definition get_field (t : list (Z * Z)) (i : nat) (m : bytes) : res Z :=
  d ← mem_read m (fst (field t i) / 8) (snd (field t i) / 8); mret (le_val d).
Definition set_field (t : list (Z * Z)) (i : nat) (v : Z) (m : bytes) : res bytes :=
  mem_write m (fst (field t i) / 8) (le_bytes (Z.to_nat (snd (field t i) / 8)) (wrap (snd (field t i)) v)).

(** Arithmetic of type [int]. *)
Definition int_result (z : Z) : res Z :=
  if bool_decide (in_s 32 z) then Ret z else Undef UbOverflow.

Section EcssTime.
Context `{HO : ODTypes} `{HP : Platform}.

(** The kernel. *)
Variable settimeofday : Z * Z -> Z + (Z * Z).

Definition set_clock (tv clock : Z * Z) : Z * (Z * Z) :=
  match settimeofday tv with inl errno => (- errno, clock) | inr clock => (0, clock) end.

Definition get_ecss_scet (time : Z * Z) (scet : option bytes) : res (option bytes) :=
  match scet with
  | None => Ret None
  | Some m =>
      m ← set_field ecss_scet_t 0 (fst time) m;
      m ← set_field ecss_scet_t 1 (snd time) m;
      mret (Some m)
  end.

Definition set_ecss_scet (scet : option bytes) (clock : Z * Z) : res (Z * (Z * Z)) :=
  match scet with
  | None => Ret (- EINVAL, clock)
  | Some m =>
      coarse ← get_field ecss_scet_t 0 m;
      fine ← get_field ecss_scet_t 1 m;
      mret (set_clock (swrap LONG_BITS coarse, swrap LONG_BITS fine) clock)
  end.

Definition get_ecss_utc (time : Z * Z) (utc : option bytes) : res (option bytes) :=
  match utc with
  | None => Ret None
  | Some m =>
      m ← set_field ecss_utc_t 0 (Z.quot (fst time) SECS_IN_DAY) m;
      m ← set_field ecss_utc_t 1 (Z.quot (snd time) 1000) m;
      m ← set_field ecss_utc_t 2 (Z.rem (snd time) 1000) m;
      mret (Some m)
  end.

Definition set_ecss_utc (utc : option bytes) (clock : Z * Z) : res (Z * (Z * Z)) :=
  match utc with
  | None => Ret (- EINVAL, clock)
  | Some m =>
      day ← get_field ecss_utc_t 0 m;
      tv_sec ← int_result (day * SECS_IN_DAY);      (* the field is promoted to int *)
      ms ← get_field ecss_utc_t 1 m;
      us ← get_field ecss_utc_t 2 m;
      mret (set_clock (tv_sec, swrap LONG_BITS (wrap 32 (wrap 32 (ms * 1000) + us))) clock)
  end.

(** ** The extension *)

Definition ecss_scet_read (time : Z * Z) (stream : OD_stream) (buf : bytes) (count countRead : Z)
  : res read_out :=
  let stream := set_dataLength 8 stream in
  buf ← get_ecss_scet time (Some buf);
  mret (ReadOut ODR_OK (Some stream) buf (Some (dataLength stream))).

(** Code, stream, [*countWritten] and the clock: an error is only logged. *)
Definition ecss_scet_write (clock : Z * Z) (stream : OD_stream) (buf : bytes) (count countWritten : Z)
  : res (ODR * OD_stream * Z * (Z * Z)) :=
  '(_, clock) ← set_ecss_scet (Some buf) clock;
  mret (ODR_OK, stream, dataLength stream, clock).

Definition ecss_utc_read (time : Z * Z) (stream : OD_stream) (buf : bytes) (count countRead : Z)
  : res read_out :=
  let stream := set_dataLength 8 stream in
  buf ← get_ecss_utc time (Some buf);
  mret (ReadOut ODR_OK (Some stream) buf (Some (dataLength stream))).

Definition ecss_utc_write (clock : Z * Z) (stream : OD_stream) (buf : bytes) (count countWritten : Z)
  : res (ODR * OD_stream * Z * (Z * Z)) :=
  '(_, clock) ← set_ecss_utc (Some buf) clock;
  mret (ODR_OK, stream, dataLength stream, clock).

(** The entries the two extensions are installed on, as [OD_find] answers. *)
Definition ecss_time_extension_init (OD_find : Z -> option nat) (OD_INDEX_SCET OD_INDEX_UTC : Z)
  : list (option nat) :=
  [OD_find OD_INDEX_SCET; OD_find OD_INDEX_UTC].

(** ** Properties *)

(** A field of [n] bytes at offset [off]. *)
Definition field_bytes (t : list (Z * Z)) (i : nat) (off n : nat) : Prop :=
  field t i = (8 * Z.of_nat off, 8 * Z.of_nat n).

Lemma get_field_app t i pre x post :
  field_bytes t i (length pre) (length x) -> get_field t i (pre ++ x ++ post) = Ret (le_val x).
Proof.
  unfold field_bytes, get_field. intros ->. cbn [fst snd].
  rewrite !(Z.mul_comm 8), !Z.div_mul by lia. rewrite mem_read_ok; [|lia..|unfold zlen; rewrite !length_app; lia].
  run. rewrite !Nat2Z.id. by rewrite drop_app_length, take_app_length.
Qed.

Lemma get_field_start t i x post :
  field_bytes t i 0 (length x) -> get_field t i (x ++ post) = Ret (le_val x).
Proof. apply (get_field_app t i []). Qed.

Lemma get_field_in t i m off n :
  field_bytes t i off n -> Z.of_nat (off + n) <= zlen m -> defined (get_field t i m).
Proof.
  unfold field_bytes, get_field. intros -> Hb. cbn [fst snd].
  rewrite !(Z.mul_comm 8), !Z.div_mul by lia. rewrite mem_read_ok by lia. by eexists.
Qed.

Lemma set_field_splice t i v m off n :
  field_bytes t i off n -> Z.of_nat (off + n) <= zlen m ->
  set_field t i v m = Ret (splice m off (le_bytes n v)).
Proof.
  unfold field_bytes, set_field, wrap. intros -> Hb. cbn [fst snd].
  rewrite !(Z.mul_comm 8), !Z.div_mul by lia. rewrite Nat2Z.id.
  assert (2 ^ (Z.of_nat n * 8) = 256 ^ Z.of_nat n) as ->.
  { rewrite Z.mul_comm, Z.pow_mul_r by lia. done. }
  rewrite le_bytes_mod, mem_write_splice; [by rewrite Nat2Z.id|lia|].
  unfold zlen in *. rewrite length_le_bytes. lia.
Qed.

Lemma set_field_oob t i v m off n :
  field_bytes t i off n -> zlen m < Z.of_nat (off + n) -> set_field t i v m = Undef UbBounds.
Proof.
  unfold field_bytes, set_field. intros -> Hb. cbn [fst snd].
  rewrite !(Z.mul_comm 8), !Z.div_mul by lia. apply mem_write_oob.
  unfold zlen in *. rewrite length_le_bytes. lia.
Qed.

(** A time both formats can hold. *)
Definition time_ok (t : Z * Z) : Prop := 0 <= fst t < 2 ^ 31 /\ 0 <= snd t < 1000000.

Lemma get_ecss_scet_bytes time m :
  8 <= zlen m -> get_ecss_scet time (Some m)
  = Ret (Some (le_bytes 4 (fst time) ++ le_bytes 3 (snd time) ++ drop 7 m)).
Proof.
  intros Hm. unfold get_ecss_scet. rewrite (set_field_splice _ _ _ _ 0 4) by (done || lia). run.
  rewrite (set_field_splice _ _ _ _ 4 3); [|done|].
  - run. pose proof (splice_splice m 0 (le_bytes 4 (fst time)) (le_bytes 3 (snd time))) as E.
    rewrite !length_le_bytes in E. cbn [Nat.add] in E. rewrite E by (unfold zlen in *; lia).
    unfold splice. rewrite length_app, !length_le_bytes. by rewrite <- app_assoc.
  - unfold zlen in *. rewrite length_splice; [lia|]. rewrite length_le_bytes. lia.
Qed.

Lemma swrap_long z : 0 <= z < 2 ^ 31 -> swrap LONG_BITS z = z.
Proof.
  intros. destruct LONG_BITS_ok as [-> | ->]; apply swrap_small; unfold in_s; cbn; lia.
Qed.

(** C37: the elapsed time read from the bus before the year 2038, written back, sets the clock to the time
    that was read, when the system lets it be set. *)
Theorem ecss_scet_roundtrip time stream buf count k :
  time_ok time -> settimeofday time = inr time -> 8 <= zlen buf ->
  exists b, ecss_scet_read time stream buf count k
    = Ret (ReadOut ODR_OK (Some (set_dataLength 8 stream)) (Some b) (Some 8)) /\
  forall clock stream' count' k',
    ecss_scet_write clock stream' (take 8 b) count' k' = Ret (ODR_OK, stream', dataLength stream', time).
Proof.
  intros [Hs Hu] Hset Hb. eexists. unfold ecss_scet_read. rewrite get_ecss_scet_bytes by done.
  split; [done|]. intros. unfold ecss_scet_write, set_ecss_scet.
  rewrite take_app_ge, take_app_ge by (rewrite !length_le_bytes; lia). rewrite !length_le_bytes.
  rewrite (get_field_start _ 0) by done. run.
  rewrite (get_field_app _ _ (le_bytes 4 (fst time)) (le_bytes 3 (snd time))) by done. run.
  rewrite !le_val_le_bytes_small by (cbn; lia). rewrite !swrap_long by lia.
  unfold set_clock. rewrite <- surjective_pairing, Hset. done.
Qed.

Definition utc_bytes (time : Z * Z) (buf : bytes) : bytes :=
  le_bytes 2 (Z.quot (fst time) SECS_IN_DAY) ++ take 2 (drop 2 buf) ++ le_bytes 4 (Z.quot (snd time) 1000)
    ++ le_bytes 2 (Z.rem (snd time) 1000) ++ drop 10 buf.

Lemma get_ecss_utc_bytes time buf :
  get_ecss_utc time (Some buf) = if zlen buf <? 10 then Undef UbBounds else Ret (Some (utc_bytes time buf)).
Proof.
  unfold get_ecss_utc. destruct (Z.ltb_spec (zlen buf) 10) as [Hb|Hb].
  - destruct (decide (zlen buf < 2)).
    { by rewrite (set_field_oob _ _ _ _ 0 2). }
    rewrite (set_field_splice _ _ _ _ 0 2) by (done || lia). run.
    assert (zlen (splice buf 0 (le_bytes 2 (Z.quot (fst time) SECS_IN_DAY))) = zlen buf) as El.
    { unfold zlen in *. by rewrite length_splice by (rewrite length_le_bytes; lia). }
    destruct (decide (zlen buf < 8)).
    { by rewrite (set_field_oob _ _ _ _ 4 4) by (done || (rewrite El; done)). }
    rewrite (set_field_splice _ _ _ _ 4 4) by (done || (rewrite El; lia)). run.
    rewrite (set_field_oob _ _ _ _ 8 2); [done..|].
    unfold zlen in *. rewrite length_splice by (rewrite length_le_bytes; lia). lia.
  - do 10 (destruct buf as [|? buf]; [by vm_compute in Hb|]).
    assert (forall l : bytes, 0 <= zlen l) as Hz by (intros; apply zlen_nonneg). specialize (Hz buf).
    rewrite (set_field_splice _ _ _ _ 0 2) by (done || (unfold zlen in *; cbn [length]; lia)). run.
    rewrite (set_field_splice _ _ _ _ 4 4) by (done || (unfold zlen in *; cbn [length le_bytes splice]; cbn; lia)). run.
    rewrite (set_field_splice _ _ _ _ 8 2) by (done || (unfold zlen in *; cbn; lia)). run. done.
Qed.

(** What the universal time gives the bus.  The member [ms] does not follow [day], but begins
    at byte 4, and [us] lies at byte 8, behind the 8 bytes the answer announces: these are the day,
    two bytes the buffer held before, and the milliseconds of the current second.  A buffer shorter
    than 10 bytes is overrun. *)
Theorem ecss_utc_read_layout time stream buf count k :
  ecss_utc_read time stream buf count k
  = if zlen buf <? 10 then Undef UbBounds
    else Ret (ReadOut ODR_OK (Some (set_dataLength 8 stream))
           (Some (le_bytes 2 (Z.quot (fst time) SECS_IN_DAY) ++ take 2 (drop 2 buf)
                    ++ le_bytes 4 (Z.quot (snd time) 1000)
                    ++ le_bytes 2 (Z.rem (snd time) 1000) ++ drop 10 buf)) (Some 8)).
Proof. unfold ecss_utc_read. rewrite get_ecss_utc_bytes. by destruct (_ <? _). Qed.

(** The clock as universal time, written back to the clock, loses the time of the day: the clock is
    set to the beginning of its day. *)
Theorem ecss_utc_loses_time_of_day time m :
  time_ok time -> 10 <= zlen m ->
  exists b, get_ecss_utc time (Some m) = Ret (Some b) /\
    forall clock, settimeofday (fst time / SECS_IN_DAY * SECS_IN_DAY, snd time)
        = inr (fst time / SECS_IN_DAY * SECS_IN_DAY, snd time) ->
      set_ecss_utc (Some b) clock = Ret (0, (fst time / SECS_IN_DAY * SECS_IN_DAY, snd time)).
Proof.
  intros [Hs Hu] Hm.
  rewrite get_ecss_utc_bytes, (proj2 (Z.ltb_ge _ _)) by done.
  eexists. split; [done|]. intros clock Hset. unfold set_ecss_utc, utc_bytes.
  destruct m as [|m0 [|m1 [|m2 [|m3 m]]]]; try by vm_compute in Hm.
  assert (0 <= fst time / SECS_IN_DAY < 2 ^ 15) as Hd.
  { unfold SECS_IN_DAY. split; [apply Z.div_pos; lia|apply Z.div_lt_upper_bound; lia]. }
  assert (0 <= snd time / 1000 < 1000) as Hq.
  { split; [apply Z.div_pos; lia|apply Z.div_lt_upper_bound; lia]. }
  pose proof (Z.mod_pos_bound (snd time) 1000 ltac:(lia)) as Hr.
  pose proof (Z.div_mod (snd time) 1000 ltac:(lia)) as Hdm.
  rewrite Z.quot_div_nonneg, Z.quot_div_nonneg, Z.rem_mod_nonneg by (unfold SECS_IN_DAY; lia).
  rewrite (get_field_start _ 0) by done. run. rewrite le_val_le_bytes_small by (cbn; lia).
  assert (fst time / SECS_IN_DAY * SECS_IN_DAY <= fst time) by (rewrite Z.mul_comm; apply Z.mul_div_le; done).
  unfold int_result. rewrite bool_decide_eq_true_2 by (unfold in_s, SECS_IN_DAY in *; cbn; lia). run.
  cbn [drop firstn].
  rewrite app_assoc, (get_field_app _ 1) by done. run. rewrite <- app_assoc, (app_assoc (le_bytes 2 _)).
  rewrite (app_assoc _ (le_bytes 4 _)), (get_field_app _ 2) by done. run.
  rewrite !le_val_le_bytes_small by (cbn; lia).
  rewrite (wrap_small 32 (snd time / 1000 * 1000)), wrap_small by (unfold in_u; cbn [Z.pow Z.pow_pos]; lia).
  rewrite swrap_long by lia.
  replace (snd time / 1000 * 1000 + snd time mod 1000) with (snd time) by lia.
  unfold set_clock. by rewrite Hset.
Qed.

(** Setting the clock from universal time multiplies the day in [int]: it is defined for exactly
    the days before 24856, that is until January 2038. *)
Theorem ecss_utc_day_overflow m clock day :
  10 <= zlen m -> get_field ecss_utc_t 0 m = Ret day ->
  (defined (set_ecss_utc (Some m) clock) <-> day <= 24855).
Proof.
  intros Hm Hd. unfold set_ecss_utc. rewrite Hd. run. unfold int_result, in_s, SECS_IN_DAY.
  assert (0 <= day) as Hpos.
  { unfold get_field in Hd. apply res_bind_Ret_inv in Hd as (x & _ & [= <-]). apply le_val_range. }
  case_bool_decide as Hb; cbn in Hb; run.
  - destruct (get_field_in ecss_utc_t 1 m 4 4) as [ms ->]; [done|lia|].
    destruct (get_field_in ecss_utc_t 2 m 8 2) as [us ->]; [done|lia|]. run.
    unfold defined. split; [lia|by eexists].
  - unfold defined. split; [by intros [? ?]|lia].
Qed.
End EcssTime.

(** ** Witnesses: the theorems at concrete inputs *)

(** A kernel that sets the clock to what it is given. *)
Definition set_any (tv : Z * Z) : Z + (Z * Z) := inr tv.
Definition sample_time : Z * Z := (1700000000, 123456).

Lemma ecss_scet_roundtrip_witness :
  exists b, ecss_scet_read sample_time (mkStream 8 0 0x2010 0) (replicate 8 NUL) 8 0
    = Ret (ReadOut ODR_OK (Some (mkStream 8 0 0x2010 0)) (Some b) (Some 8)) /\
  ecss_scet_write (HP := armhf) set_any (0, 0) (mkStream 8 0 0x2010 0) (take 8 b) 8 0
  = Ret (ODR_OK, mkStream 8 0 0x2010 0, 8, sample_time).
Proof.
  destruct (ecss_scet_roundtrip (HP := armhf) set_any sample_time (mkStream 8 0 0x2010 0) (replicate 8 NUL) 8 0)
    as (b & Hb & Hw); [split; by_compute|by_compute..|].
  exists b. split; [exact Hb|exact (Hw (0, 0) (mkStream 8 0 0x2010 0) 8 0)].
Defined.

Lemma ecss_utc_loses_time_of_day_witness :
  exists b, get_ecss_utc sample_time (Some (replicate 16 NUL)) = Ret (Some b) /\
    set_ecss_utc (HP := armhf) set_any (Some b) sample_time = Ret (0, (1699920000, 123456)).
Proof.
  destruct (ecss_utc_loses_time_of_day (HP := armhf) set_any sample_time (replicate 16 NUL)) as (b & Hb & Hw);
    [split; by_compute|by_compute|].
  exists b. split; [exact Hb|exact (Hw sample_time eq_refl)].
Defined.

Lemma ecss_utc_day_overflow_witness :
  get_field ecss_utc_t 0 (le_bytes 2 24856 ++ replicate 8 NUL) = Ret 24856 /\
  (defined (set_ecss_utc (HP := armhf) set_any (Some (le_bytes 2 24856 ++ replicate 8 NUL)) (0, 0))
    <-> 24856 <= 24855).
Proof.
  split; [vm_compute; reflexivity|].
  apply (ecss_utc_day_overflow (HP := armhf) set_any (le_bytes 2 24856 ++ replicate 8 NUL) (0, 0) 24856); by_compute.
Defined.
