(* ===== verification/SystemExt.v ===== *)
(** * src/od_extensions/system_ext.c: the state of the system over the bus

    A dictionary entry whose members are computed when they are read: usage of storage and
    memory, clock, uptime.  What the kernel reports is an argument. *)

From S2P Require Import Prelude CLib ODInterface System OdExt.

(** The subindexes of the generated OD.h. *)
Class SystemOD := {
  OD_SUBINDEX_SYSTEM_RESET : Z;
  OD_SUBINDEX_SYSTEM_STORAGE_PERCENT : Z;
  OD_SUBINDEX_SYSTEM_RAM_PERCENT : Z;
  OD_SUBINDEX_SYSTEM_UNIX_TIME : Z;
  OD_SUBINDEX_SYSTEM_UPTIME : Z;
  OD_SUBINDEX_SYSTEM_POWER_CYCLES : Z;
  OD_SUBINDEX_SYSTEM_BOOT_SELECT : Z;
  system_labels_distinct :
    NoDup [0; OD_SUBINDEX_SYSTEM_RESET; OD_SUBINDEX_SYSTEM_STORAGE_PERCENT; OD_SUBINDEX_SYSTEM_RAM_PERCENT;
           OD_SUBINDEX_SYSTEM_UNIX_TIME; OD_SUBINDEX_SYSTEM_UPTIME; OD_SUBINDEX_SYSTEM_POWER_CYCLES;
           OD_SUBINDEX_SYSTEM_BOOT_SELECT];
}.

(** What [statvfs("/")], [sysinfo], [clock_gettime] and [time] report; [None] for a failure. *)
Record kernel_info := mkInfo {
  statvfs : option (Z * Z);       (* f_blocks, f_bavail *)
  sysinfo : option (Z * Z);       (* totalram, freeram *)
  k_uptime : Z * Z;
  k_time : Z;
}.

Section SystemExt.
Context `{HO : ODTypes} `{HP : Platform} `{HS : SystemOD}.

(** CANopenNode's default access functions. *)
Variable OD_readOriginal : OD_stream -> bytes -> Z -> Z -> res read_out.
Variable OD_writeOriginal : OD_stream -> bytes -> Z -> Z -> ODR * OD_stream * Z.

(** Whether the entry exists: the extension is installed on it. *)
Definition system_extension_init (OD_find : Z -> option nat) (OD_INDEX_SYSTEM : Z) : list nat :=
  match OD_find OD_INDEX_SYSTEM with Some entry => [entry] | None => [] end.

(** [(uint8_t)(((total - avail) * 100) / total)] in [unsigned long]. *)
Definition usage (info : option (Z * Z)) : res Z :=
  match info with
  | None => Ret 0
  | Some (total, avail) =>
      if total =? 0 then Undef UbDivZero
      else Ret (wrap 8 (wrap LONG_BITS (wrap LONG_BITS (total - avail) * 100) / total))
  end.

(** [memcpy(buf, &v, 1); *countRead = size]: the first byte of the variable in memory. *)
Definition copy_one (v size : Z) (stream : OD_stream) (buf : bytes) : res read_out :=
  buf ← mem_write buf 0 (le_bytes 1 v);
  mret (ReadOut ODR_OK (Some stream) (Some buf) (Some size)).

Definition system_read (info : kernel_info) (stream : OD_stream) (buf : bytes) (count countRead : Z)
  : res read_out :=
  let sub := subIndex stream in
  let other r := mret (ReadOut r (Some stream) (Some buf) (Some countRead)) in
  if sub =? 0 then OD_readOriginal stream buf count countRead
  else if sub =? OD_SUBINDEX_SYSTEM_RESET then other ODR_WRITEONLY
  else if sub =? OD_SUBINDEX_SYSTEM_STORAGE_PERCENT then u ← usage (statvfs info); copy_one u 1 stream buf
  else if sub =? OD_SUBINDEX_SYSTEM_RAM_PERCENT then u ← usage (sysinfo info); copy_one u 1 stream buf
  else if sub =? OD_SUBINDEX_SYSTEM_UNIX_TIME then copy_one (get_unix_time_s (k_time info)) 4 stream buf
  else if sub =? OD_SUBINDEX_SYSTEM_UPTIME then copy_one (get_uptime_s (k_uptime info)) 4 stream buf
  else if sub =? OD_SUBINDEX_SYSTEM_POWER_CYCLES then copy_one 0 2 stream buf
  else if sub =? OD_SUBINDEX_SYSTEM_BOOT_SELECT then copy_one 0 1 stream buf
  else other ODR_SUB_NOT_EXIST.

Definition system_write (stream : OD_stream) (buf : bytes) (count countWritten : Z) : ODR * OD_stream * Z :=
  let sub := subIndex stream in
  if (sub =? 0) || (sub =? OD_SUBINDEX_SYSTEM_STORAGE_PERCENT) || (sub =? OD_SUBINDEX_SYSTEM_RAM_PERCENT)
     || (sub =? OD_SUBINDEX_SYSTEM_UNIX_TIME) || (sub =? OD_SUBINDEX_SYSTEM_UPTIME)
     || (sub =? OD_SUBINDEX_SYSTEM_POWER_CYCLES) || (sub =? OD_SUBINDEX_SYSTEM_BOOT_SELECT)
  then (ODR_READONLY, stream, countWritten)
  else if sub =? OD_SUBINDEX_SYSTEM_RESET then OD_writeOriginal stream buf count countWritten
  else (ODR_SUB_NOT_EXIST, stream, countWritten).

(** ** Properties *)

(** The members the entry has. *)
Definition readable : list Z :=
  [OD_SUBINDEX_SYSTEM_STORAGE_PERCENT; OD_SUBINDEX_SYSTEM_RAM_PERCENT; OD_SUBINDEX_SYSTEM_UNIX_TIME;
   OD_SUBINDEX_SYSTEM_UPTIME; OD_SUBINDEX_SYSTEM_POWER_CYCLES; OD_SUBINDEX_SYSTEM_BOOT_SELECT].

Lemma system_labels :
  0 <> OD_SUBINDEX_SYSTEM_RESET /\
  Forall (fun x => x <> 0 /\ x <> OD_SUBINDEX_SYSTEM_RESET) readable /\ NoDup readable.
Proof.
  pose proof system_labels_distinct as H. unfold readable.
  rewrite list.NoDup_cons in H. destruct H as [H0 H]. rewrite list.NoDup_cons in H. destruct H as [H1 H].
  split; [intros E; apply H0; rewrite E; left|]. split; [|done].
  apply list.Forall_forall. intros x Hx. split; intros ->; [apply H0; by right|done].
Qed.

Lemma copy_one_spec v size stream buf :
  buf <> [] -> copy_one v size stream buf
  = Ret (ReadOut ODR_OK (Some stream) (Some (z2b v :: drop 1 buf)) (Some size)).
Proof.
  intros Hb. unfold copy_one. rewrite mem_write_start; [done|]. pose proof (zlen_pos buf Hb). zlia.
Qed.

(** Percentages.  On a target whose [long] can hold a hundred times the amount in use, the
    member is the percentage in use rounded down. *)
Theorem usage_percent total avail :
  0 <= avail <= total -> 0 < total -> 100 * (total - avail) < 2 ^ LONG_BITS -> total < 2 ^ LONG_BITS ->
  exists u, usage (Some (total, avail)) = Ret u /\ 0 <= u <= 100 /\
    u * total <= 100 * (total - avail) < (u + 1) * total.
Proof.
  intros Ha Ht Hfit Htl. unfold usage. rewrite (proj2 (Z.eqb_neq _ _)) by lia.
  rewrite (wrap_small LONG_BITS (total - avail)) by (unfold in_u; lia).
  rewrite (wrap_small LONG_BITS (_ * 100)) by (unfold in_u; lia).
  set (q := (total - avail) * 100 / total).
  assert (0 <= q <= 100).
  { subst q. split; [apply Z.div_pos; lia|]. apply Z.lt_succ_r, Z.div_lt_upper_bound; lia. }
  rewrite wrap_small by (unfold in_u; lia). exists q. split; [done|]. split; [done|].
  pose proof (Z.mul_div_le ((total - avail) * 100) total). pose proof (Z.mul_succ_div_gt ((total - avail) * 100) total).
  subst q. lia.
Qed.

Ltac label_eqb :=
  repeat match goal with
  | |- context [?a =? ?b] =>
      first [rewrite (proj2 (Z.eqb_neq a b)) by (assumption || congruence)
            |rewrite (proj2 (Z.eqb_eq a b)) by (assumption || congruence)]
  end.

(** The clock and the uptime are announced as 4 bytes, of which only the lowest is copied: the
    number that arrives is the time modulo 256 plus what the three bytes of the buffer held. *)
Theorem system_read_low_byte info stream buf count k t :
  4 <= zlen buf ->
  subIndex stream = OD_SUBINDEX_SYSTEM_UNIX_TIME /\ t = get_unix_time_s (k_time info) \/
  subIndex stream = OD_SUBINDEX_SYSTEM_UPTIME /\ t = get_uptime_s (k_uptime info) ->
  exists b, system_read info stream buf count k = Ret (ReadOut ODR_OK (Some stream) (Some b) (Some 4)) /\
    le_val (take 4 b) = t mod 256 + 256 * le_val (take 3 (drop 1 buf)).
Proof.
  intros Hb Hs. pose proof system_labels_distinct as Hd.
  rewrite !list.NoDup_cons, !not_elem_of_cons in Hd.
  destruct Hd as (H0 & H1 & H2 & H3 & H4 & H5 & H6 & _).
  exists (z2b t :: drop 1 buf). split.
  - unfold system_read. destruct Hs as [[-> ->]|[-> ->]].
    + rewrite <- (copy_one_spec _ 4 stream buf) by (apply zlen_ne; lia).
      destruct H0 as (_ & _ & _ & H0 & _), H1 as (_ & _ & H1 & _), H2 as (_ & H2 & _), H3 as (H3 & _).
      label_eqb. done.
    + rewrite <- (copy_one_spec _ 4 stream buf) by (apply zlen_ne; lia).
      destruct H0 as (_ & _ & _ & _ & H0 & _), H1 as (_ & _ & _ & H1 & _), H2 as (_ & _ & H2 & _),
        H3 as (_ & H3 & _), H4 as (H4 & _).
      label_eqb. done.
  - change (take 4 (z2b t :: drop 1 buf)) with (z2b t :: take 3 (drop 1 buf)). cbn [le_val]. by rewrite b2z_z2b.
Qed.

(** The reset member can only be written, the others only read, and no other subindex
    exists. *)
Theorem system_write_access stream buf count k :
  system_write stream buf count k
  = if decide (subIndex stream = 0 \/ subIndex stream ∈ readable) then (ODR_READONLY, stream, k)
    else if decide (subIndex stream = OD_SUBINDEX_SYSTEM_RESET) then OD_writeOriginal stream buf count k
    else (ODR_SUB_NOT_EXIST, stream, k).
Proof.
  unfold system_write, readable. set (b := _ || _).
  assert (b = true <-> subIndex stream = 0 \/ subIndex stream ∈ readable) as Hb.
  { subst b. unfold readable. rewrite !orb_true_iff, !Z.eqb_eq, !elem_of_cons, elem_of_nil. tauto. }
  unfold readable in Hb. destruct b; [by rewrite decide_True by by apply Hb|].
  rewrite decide_False by (intros H; by apply Hb in H).
  by destruct (Z.eqb_spec (subIndex stream) OD_SUBINDEX_SYSTEM_RESET); case_decide.
Qed.
End SystemExt.

(** On the 32-bit target the product is reduced modulo 2^32, so that with 43 MB of
    memory in use or more the member is not the percentage: a machine with 512 MiB of which
    half is in use reports 2 percent. *)
Theorem usage_wraps :
  usage (HP := armhf) (Some (2 ^ 29, 2 ^ 28)) = Ret 2 /\ usage (HP := lp64) (Some (2 ^ 29, 2 ^ 28)) = Ret 50 /\
  (forall total avail, 0 <= avail <= total -> 0 < total < 2 ^ 32 -> 42949673 <= total - avail ->
     exists u, usage (HP := armhf) (Some (total, avail)) = Ret u /\ u * total <= 100 * (total - avail) - 2 ^ 32).
Proof.
  split; [vm_compute; reflexivity|]. split; [vm_compute; reflexivity|].
  intros total avail Ha Ht Hu. unfold usage. rewrite (proj2 (Z.eqb_neq _ _)) by lia.
  cbn [LONG_BITS armhf]. rewrite (wrap_small 32 (total - avail)) by (unfold in_u; lia).
  eexists. split; [done|]. set (x := (total - avail) * 100).
  assert (wrap 32 x <= x - 2 ^ 32) as Hw.
  { unfold wrap. rewrite Z.mod_eq by lia. assert (1 <= x / 2 ^ 32) by (apply Z.div_le_lower_bound; lia). lia. }
  pose proof (wrap_range 32 x ltac:(lia)) as [H0 _].
  pose proof (Z.mul_div_le (wrap 32 x) total ltac:(lia)).
  assert (wrap 8 (wrap 32 x / total) <= wrap 32 x / total) by (apply Z.mod_le; [apply Z.div_pos; lia|lia]).
  subst x. nia.
Qed.

(** ** Witnesses: the theorems at concrete inputs *)

Definition sample_system_od : SystemOD.
Proof.
  refine {| OD_SUBINDEX_SYSTEM_RESET := 1; OD_SUBINDEX_SYSTEM_STORAGE_PERCENT := 2;
            OD_SUBINDEX_SYSTEM_RAM_PERCENT := 3; OD_SUBINDEX_SYSTEM_UNIX_TIME := 4;
            OD_SUBINDEX_SYSTEM_UPTIME := 5; OD_SUBINDEX_SYSTEM_POWER_CYCLES := 6;
            OD_SUBINDEX_SYSTEM_BOOT_SELECT := 7 |}; by_decide.
Defined.

Lemma usage_percent_witness :
  exists u, usage (HP := armhf) (Some (1000, 251)) = Ret u /\ 0 <= u <= 100 /\
    u * 1000 <= 100 * (1000 - 251) < (u + 1) * 1000.
Proof. apply (usage_percent (HP := armhf) 1000 251); by_compute. Defined.

Lemma system_read_low_byte_witness :
  exists b, system_read (HP := armhf) (HS := sample_system_od)
      (fun st b _ n => Ret (ReadOut ODR_OK (Some st) (Some b) (Some n)))
      (mkInfo None None (0, 0) 1700000000) (mkStream 4 0 0x3003 4) (replicate 8 NUL) 8 0
    = Ret (ReadOut ODR_OK (Some (mkStream 4 0 0x3003 4)) (Some b) (Some 4)) /\
    le_val (take 4 b) = 1700000000 mod 256 + 256 * 0.
Proof.
  apply (system_read_low_byte (HP := armhf) (HS := sample_system_od)
    (fun st b _ n => Ret (ReadOut ODR_OK (Some st) (Some b) (Some n)))
    (mkInfo None None (0, 0) 1700000000) (mkStream 4 0 0x3003 4) (replicate 8 NUL) 8 0 1700000000).
  - by_compute.
  - left. split; by_compute.
Defined.
