(* ===== verification/IpcMsg.v ===== *)
(** * src/ipc/ipc_msg.h: the messages between the daemon and its clients

    The daemon's messages are packed structs laid over byte buffers; the Python client
    library (libs/python/oresat_cand/message.py) builds and parses the same messages from
    format strings.  Both sides are modelled, so that their agreement is a theorem: a
    layout lists the fields of a struct, [get] and [put] access a field of a buffer, [pack]
    and [unpack] are the methods of the Python class [Message]. *)

From Stdlib Require Import Strings.Byte.
From S2P Require Import Prelude.

(** ** Structs *)

(** [Dyn] is a length byte and data: [ipc_bytes_t], or with [text] [ipc_str_t]; the items [y]
    and [w] of the Python formats. *)
Inductive ctype := U8 | U16 | U32 | I32 | Dyn (text : bool).
Abbreviation Bytes := (Dyn false).
Abbreviation Str := (Dyn true).

#[export] Instance ctype_eq_dec : EqDecision ctype.
Proof. solve_decision. Defined.

Definition IPC_STR_MAX_LEN : Z := Z.shiftl 1 (1 * 8) - 1.

Definition is_dyn (t : ctype) : bool := match t with Dyn _ => true | _ => false end.

(** The number of bytes of a scalar, or of the length byte and 255 bytes of data. *)
Definition csize (t : ctype) : Z :=
  match t with U8 => 1 | U16 => 2 | U32 => 4 | I32 => 4 | Dyn _ => 1 + IPC_STR_MAX_LEN end.

Definition layout : Type := list (string * ctype).

Definition sizeof (l : layout) : Z := foldr (fun f n => csize (snd f) + n) 0 l.

(** The offset and type of a field. *)
Fixpoint field (l : layout) (f : string) : option (Z * ctype) :=
  match l with
  | [] => None
  | (g, t) :: l =>
      if decide (f = g) then Some (0, t)
      else '(off, u) ← field l f; Some (csize t + off, u)
  end.

Definition offsetof (l : layout) (f : string) : Z :=
  match field l f with Some (off, _) => off | None => 0 end.

Definition IPC_MSG_VERSION : Z := 0.
Definition IPC_MSG_MAX_LEN : Z := 1000.

Definition ipc_header_t : layout := [("version", U8); ("id", U8)].
Definition ipc_msg_emcy_send_t : layout := ipc_header_t ++ [("code", U16); ("info", U32)].
Definition ipc_msg_tpdo_send_t : layout := ipc_header_t ++ [("number", U8)].
Definition ipc_msg_od_t : layout :=
  ipc_header_t ++ [("index", U16); ("subindex", U8); ("buffer", Bytes)].
Definition ipc_msg_sdo_t : layout :=
  ipc_header_t ++ [("node_id", U8); ("index", U16); ("subindex", U8); ("buffer", Bytes)].
Definition ipc_msg_file_t : layout := ipc_header_t ++ [("path", Str)].
Definition ipc_msg_bus_status_t : layout := ipc_header_t ++ [("state", U8)].
Definition ipc_msg_sdo_file_t : layout :=
  ipc_header_t ++ [("node_id", U8); ("index", U16); ("subindex", U8); ("path", Str)].
Definition ipc_msg_emcy_recv_t : layout :=
  ipc_header_t ++ [("node_id", U8); ("code", U16); ("info", U32)].
Definition ipc_msg_hb_recv_t : layout := ipc_header_t ++ [("node_id", U8); ("state", U8)].
Definition ipc_msg_error_t : layout := ipc_header_t ++ [("error", I32)].
Definition ipc_msg_error_id_t : layout := ipc_header_t ++ [("id_", U8)].
Definition ipc_msg_error_abort_t : layout := ipc_header_t ++ [("code", U32)].

Definition IPC_MSG_OD_MIN_LEN : Z := offsetof ipc_msg_od_t "buffer" + 1.
Definition IPC_MSG_SDO_MIN_LEN : Z := offsetof ipc_msg_sdo_t "buffer" + 1.
Definition IPC_MSG_FILE_MIN_LEN : Z := offsetof ipc_msg_file_t "path" + 1.
Definition IPC_MSG_SDO_FILE_MIN_LEN : Z := offsetof ipc_msg_sdo_file_t "path" + 1.

(** The message ids of [ipc_msg_id_t] and [ipc_msg_id_error_t]. *)
Inductive ipc_msg_id_t :=
| IPC_MSG_ID_EMCY_SEND | IPC_MSG_ID_TPDO_SEND | IPC_MSG_ID_OD_WRITE | IPC_MSG_ID_SDO_READ
| IPC_MSG_ID_SDO_WRITE | IPC_MSG_ID_ADD_FILE | IPC_MSG_ID_HB_RECV | IPC_MSG_ID_EMCY_RECV
| IPC_MSG_ID_SYNC_SEND | IPC_MSG_ID_BUS_STATUS | IPC_MSG_ID_SDO_READ_TO_FILE
| IPC_MSG_ID_SDO_WRITE_FROM_FILE | IPC_MSG_ID_CONFIG
| IPC_MSG_ID_ERROR | IPC_MSG_ID_ERROR_UNKNOWN_ID | IPC_MSG_ID_ERROR_ABORT.

#[export] Instance ipc_msg_id_eq_dec : EqDecision ipc_msg_id_t.
Proof. solve_decision. Defined.

Definition id_val (i : ipc_msg_id_t) : Z :=
  match i with
  | IPC_MSG_ID_EMCY_SEND => 0x0 | IPC_MSG_ID_TPDO_SEND => 0x1 | IPC_MSG_ID_OD_WRITE => 0x2
  | IPC_MSG_ID_SDO_READ => 0x3 | IPC_MSG_ID_SDO_WRITE => 0x4 | IPC_MSG_ID_ADD_FILE => 0x5
  | IPC_MSG_ID_HB_RECV => 0x6 | IPC_MSG_ID_EMCY_RECV => 0x7 | IPC_MSG_ID_SYNC_SEND => 0x8
  | IPC_MSG_ID_BUS_STATUS => 0x9 | IPC_MSG_ID_SDO_READ_TO_FILE => 0xA
  | IPC_MSG_ID_SDO_WRITE_FROM_FILE => 0xB | IPC_MSG_ID_CONFIG => 0xC
  | IPC_MSG_ID_ERROR => 0x80 | IPC_MSG_ID_ERROR_UNKNOWN_ID => 0x81
  | IPC_MSG_ID_ERROR_ABORT => 0x82
  end.

(** The struct the daemon uses for each id ([ADD_FILE] requests have the layout the file
    declares for them, whatever the handler does). *)
Definition c_struct (i : ipc_msg_id_t) : layout :=
  match i with
  | IPC_MSG_ID_EMCY_SEND => ipc_msg_emcy_send_t
  | IPC_MSG_ID_TPDO_SEND => ipc_msg_tpdo_send_t
  | IPC_MSG_ID_OD_WRITE => ipc_msg_od_t
  | IPC_MSG_ID_SDO_READ | IPC_MSG_ID_SDO_WRITE => ipc_msg_sdo_t
  | IPC_MSG_ID_ADD_FILE | IPC_MSG_ID_CONFIG => ipc_msg_file_t
  | IPC_MSG_ID_HB_RECV => ipc_msg_hb_recv_t
  | IPC_MSG_ID_EMCY_RECV => ipc_msg_emcy_recv_t
  | IPC_MSG_ID_SYNC_SEND => ipc_header_t
  | IPC_MSG_ID_BUS_STATUS => ipc_msg_bus_status_t
  | IPC_MSG_ID_SDO_READ_TO_FILE | IPC_MSG_ID_SDO_WRITE_FROM_FILE => ipc_msg_sdo_file_t
  | IPC_MSG_ID_ERROR => ipc_msg_error_t
  | IPC_MSG_ID_ERROR_UNKNOWN_ID => ipc_msg_error_id_t
  | IPC_MSG_ID_ERROR_ABORT => ipc_msg_error_abort_t
  end.

(** ** Access to a struct laid over a buffer *)

(** [((T * )m)->f] of a scalar field. *)
Definition get (l : layout) (f : string) (m : bytes) : res Z :=
  match field l f with
  | Some (off, t) =>
      b ← mem_read m off (csize t);
      mret (match t with I32 => swrap 32 (le_val b) | _ => le_val b end)
  | None => Undef UbBounds
  end.

(** [((T * )m)->f = v]; of a string field, its length byte. *)
Definition put (l : layout) (f : string) (v : Z) (m : bytes) : res bytes :=
  match field l f with
  | Some (off, t) =>
      mem_write m off (le_bytes (Z.to_nat (match t with Dyn _ => 1 | _ => csize t end)) v)
  | None => Undef UbBounds
  end.

(** The length byte of a string field, and the first [n] bytes of its data.  The buffers
    are larger than the structs: an access past the struct is bounded by the buffer. *)
Definition get_len (l : layout) (f : string) (m : bytes) : res Z :=
  b ← mem_read m (offsetof l f) 1; mret (le_val b).
Definition data_offset (l : layout) (f : string) : Z := offsetof l f + 1.
Definition get_data (l : layout) (f : string) (n : Z) (m : bytes) : res bytes :=
  mem_read m (data_offset l f) n.

(** ** message.py *)

(** A value of a message: an [int], [bytes], or a [str] by its UTF-8 encoding. *)
Inductive pval := VInt (z : Z) | VDyn (text : bool) (b : bytes).
Abbreviation VBytes := (VDyn false).
Abbreviation VStr := (VDyn true).

#[export] Instance pval_eq_dec : EqDecision pval.
Proof. solve_decision. Defined.

(** Whether [decode("utf-8")] succeeds: [k] continuation bytes are expected, the next between
    [lo] and [hi]. *)
Fixpoint utf8_from (lo hi : Z) (k : nat) (s : bytes) : bool :=
  match s with
  | [] => (k =? 0)%nat
  | c :: s =>
      let b := b2z c in
      match k with
      | S k => (lo <=? b) && (b <=? hi) && utf8_from 0x80 0xBF k s
      | O =>
          if b <? 0x80 then utf8_from 0x80 0xBF 0 s
          else if b <? 0xC2 then false
          else if b <? 0xE0 then utf8_from 0x80 0xBF 1 s
          else if b =? 0xE0 then utf8_from 0xA0 0xBF 2 s
          else if b =? 0xED then utf8_from 0x80 0x9F 2 s
          else if b <? 0xF0 then utf8_from 0x80 0xBF 2 s
          else if b =? 0xF0 then utf8_from 0x90 0xBF 3 s
          else if b <? 0xF4 then utf8_from 0x80 0xBF 3 s
          else if b =? 0xF4 then utf8_from 0x80 0x8F 3 s
          else false
      end
  end.
Definition utf8 : bytes -> bool := utf8_from 0x80 0xBF 0.

(** The characters [str.strip] removes, encoded: U+9 to U+D, U+1C to U+20, U+85, U+A0, U+1680,
    U+2000 to U+200A, U+2028, U+2029, U+202F, U+205F and U+3000. *)
Definition spaces : list bytes :=
  map (fun z => [z2b z]) (seqZ 9 5 ++ seqZ 0x1C 5) ++ map (map z2b)
    ([[0xC2; 0x85]; [0xC2; 0xA0]; [0xE1; 0x9A; 0x80]]
     ++ map (fun z => [0xE2; 0x80; z]) (seqZ 0x80 11 ++ [0xA8; 0xA9; 0xAF])
     ++ [[0xE2; 0x81; 0x9F]; [0xE3; 0x80; 0x80]]).

Definition has_prefix (s w : bytes) : bool := bool_decide (take (length w) s = w).

(** Each round removes a character, so the length of the text is enough fuel. *)
Fixpoint strip_front (fuel : nat) (chars : list bytes) (s : bytes) : bytes :=
  match fuel, List.find (has_prefix s) chars with
  | S fuel, Some w => strip_front fuel chars (drop (length w) s)
  | _, _ => s
  end.

(** [s.strip()]. *)
Definition strip (s : bytes) : bytes :=
  let s := strip_front (length s) spaces s in
  reverse (strip_front (length s) (map reverse spaces) (reverse s)).

(** [struct.pack] raises outside the range of the format character. *)
Definition in_ctype (t : ctype) (z : Z) : bool :=
  match t with
  | U8 => (0 <=? z) && (z <? 2 ^ 8)
  | U16 => (0 <=? z) && (z <? 2 ^ 16)
  | U32 => (0 <=? z) && (z <? 2 ^ 32)
  | I32 => (- 2 ^ 31 <=? z) && (z <? 2 ^ 31)
  | Dyn _ => false
  end.

(** The loop of [pack] over the format, whose characters [B], [H], [I], [i] are [U8], [U16],
    [U32], [I32]; [None] is [MessagePackCandError].  A [bytes] value has no [encode], and a
    [str] cannot be added to [bytes]. *)
Fixpoint pack_fields (fmt : list ctype) (values : list pval) : option bytes :=
  match fmt, values with
  | [], _ => Some []
  | Dyn k :: fmt, VDyn k' b :: values =>
      if Bool.eqb k k' && (negb k || utf8 b) && (zlen b <? 256) then
        r ← pack_fields fmt values; Some ((z2b (zlen b) :: b) ++ r)
      else None
  | t :: fmt, VInt z :: values =>
      if in_ctype t z then
        r ← pack_fields fmt values; Some (le_bytes (Z.to_nat (csize t)) z ++ r)
      else None
  | _, _ => None
  end.

Definition pack (i : ipc_msg_id_t) (fmt : list ctype) (values : list pval) : option bytes :=
  r ← pack_fields fmt values; Some (z2b IPC_MSG_VERSION :: z2b (id_val i) :: r).

Fixpoint unpack_fields (fmt : list ctype) (raw : bytes) : option (list pval) :=
  match fmt with
  | [] => Some []
  | Dyn k :: fmt =>
      let size := match raw with [] => 0 | b :: _ => b2z b end in
      let raw := drop 1 raw in
      let d := take (Z.to_nat size) raw in
      if negb k || utf8 d then
        r ← unpack_fields fmt (drop (Z.to_nat size) raw);
        Some (VDyn k (if k then strip d else d) :: r)
      else None
  | t :: fmt =>
      let size := csize t in
      if size <=? zlen raw then
        let v := le_val (take (Z.to_nat size) raw) in
        r ← unpack_fields fmt (drop (Z.to_nat size) raw);
        Some (VInt (match t with I32 => swrap 32 v | _ => v end) :: r)
      else None
  end.

(** [None] is any of the exceptions. *)
Definition unpack (i : ipc_msg_id_t) (fmt : list ctype) (raw : bytes) : option (list pval) :=
  match raw with
  | v :: x :: raw =>
      if (b2z v =? IPC_MSG_VERSION) && (b2z x =? id_val i) then unpack_fields fmt raw else None
  | _ => None
  end.

(** The formats of the Python classes. *)
Definition py_fmt (i : ipc_msg_id_t) : list ctype :=
  match i with
  | IPC_MSG_ID_EMCY_SEND => [U32; U32]
  | IPC_MSG_ID_TPDO_SEND => [U8]
  | IPC_MSG_ID_OD_WRITE => [U16; U8; Bytes]
  | IPC_MSG_ID_SDO_READ | IPC_MSG_ID_SDO_WRITE => [U8; U16; U8; Bytes]
  | IPC_MSG_ID_ADD_FILE | IPC_MSG_ID_CONFIG => [Str]
  | IPC_MSG_ID_HB_RECV => [U8; U8]
  | IPC_MSG_ID_EMCY_RECV => [U8; U16; U32]
  | IPC_MSG_ID_SYNC_SEND => []
  | IPC_MSG_ID_BUS_STATUS => [U8]
  | IPC_MSG_ID_SDO_READ_TO_FILE | IPC_MSG_ID_SDO_WRITE_FROM_FILE => [U8; Str]
  | IPC_MSG_ID_ERROR => [I32]
  | IPC_MSG_ID_ERROR_UNKNOWN_ID => [U8]
  | IPC_MSG_ID_ERROR_ABORT => [U32]
  end.

Example ipc_sizes :
  map sizeof [ipc_msg_emcy_send_t; ipc_msg_od_t; ipc_msg_sdo_t; ipc_msg_file_t; ipc_msg_error_t]
  = [8; 261; 262; 258; 6].
Proof. reflexivity. Qed.
Example ipc_min_lens :
  [IPC_MSG_OD_MIN_LEN; IPC_MSG_SDO_MIN_LEN; IPC_MSG_FILE_MIN_LEN; IPC_MSG_SDO_FILE_MIN_LEN]
  = [6; 7; 3; 7].
Proof. reflexivity. Qed.

(** ** Properties *)

Lemma csize_pos t : 0 < csize t.
Proof. destruct t; reflexivity. Qed.

Lemma in_ctype_le_val t z :
  in_ctype t z = true ->
  (match t with I32 => swrap 32 (le_val (le_bytes (Z.to_nat (csize t)) z))
   | _ => le_val (le_bytes (Z.to_nat (csize t)) z) end) = z.
Proof.
  intros H. destruct t; cbn [in_ctype csize] in *; try done;
    apply andb_true_iff in H as [H1%Z.leb_le H2%Z.ltb_lt]; rewrite le_val_le_bytes.
  - apply Z.mod_small. change (256 ^ Z.of_nat (Z.to_nat 1)) with (2 ^ 8). lia.
  - apply Z.mod_small. change (256 ^ Z.of_nat (Z.to_nat 2)) with (2 ^ 16). lia.
  - apply Z.mod_small. change (256 ^ Z.of_nat (Z.to_nat 4)) with (2 ^ 32). lia.
  - change (256 ^ Z.of_nat (Z.to_nat 4)) with (2 ^ 32). unfold swrap.
    change (32 - 1) with 31 in *. rewrite Zplus_mod_idemp_l, Z.mod_small by lia. lia.
Qed.

(** One field of a packed message: its bytes and what [unpack] makes of them. *)
Lemma pack_fields_cons t fmt vs m :
  pack_fields (t :: fmt) vs = Some m ->
  exists v vs' b r, vs = v :: vs' /\ m = b ++ r /\ pack_fields fmt vs' = Some r /\
    match v with
    | VInt z => is_dyn t = false /\ in_ctype t z = true /\ b = le_bytes (Z.to_nat (csize t)) z
    | VDyn k d => t = Dyn k /\ negb k || utf8 d = true /\ zlen d < 256 /\ b = z2b (zlen d) :: d
    end.
Proof.
  intros H. destruct vs as [|[z|k d] vs]; [by destruct t|..].
  - assert (is_dyn t = false) as Ht by (by destruct t).
    assert ((if in_ctype t z
             then r ← pack_fields fmt vs; Some (le_bytes (Z.to_nat (csize t)) z ++ r)
             else None) = Some m) as H' by (by destruct t).
    destruct (in_ctype t z) eqn:E; [|done]. apply bind_Some in H' as (r & Hr & [= <-]).
    by eexists (VInt z), vs, _, r.
  - destruct t as [| | | |k']; try done. cbn [pack_fields] in H.
    destruct (Bool.eqb_spec k' k) as [->|]; [|done]. destruct (negb k || utf8 d) eqn:Hu; [|done].
    destruct (Z.ltb_spec (zlen d) 256); [|done].
    apply bind_Some in H as (r & Hr & [= <-]). by exists (VDyn k d), vs, (z2b (zlen d) :: d), r.
Qed.

(** What [unpack] makes of a packed value: a string loses the white space around it. *)
Definition stripped (v : pval) : pval :=
  match v with VDyn true d => VDyn true (strip d) | _ => v end.

(** Bytes after the message are ignored. *)
Lemma unpack_pack_fields fmt vs m rest :
  length vs = length fmt -> pack_fields fmt vs = Some m -> unpack_fields fmt (m ++ rest) = Some (map stripped vs).
Proof.
  revert vs m. induction fmt as [|t fmt IH]; intros vs m Hl Hp.
  { destruct vs; [|done]. by injection Hp as <-. }

  apply pack_fields_cons in Hp as (v & vs' & b & r & -> & -> & Hr & Hv).
  injection Hl as Hl. rewrite <- app_assoc. specialize (IH vs' r Hl Hr).
  set (r' := r ++ rest) in *. clearbody r'. destruct v as [z|k d].
  - destruct Hv as (Ht & Hz & ->).
    pose proof (csize_pos t). set (n := csize t) in *.
    assert (length (le_bytes (Z.to_nat n) z) = Z.to_nat n) as Hn by apply length_le_bytes.
    assert (unpack_fields (t :: fmt) (le_bytes (Z.to_nat n) z ++ r')
      = if csize t <=? zlen (le_bytes (Z.to_nat n) z ++ r') then
          q ← unpack_fields fmt (drop (Z.to_nat n) (le_bytes (Z.to_nat n) z ++ r'));
          Some (VInt (match t with
            | I32 => swrap 32 (le_val (take (Z.to_nat n) (le_bytes (Z.to_nat n) z ++ r')))
            | _ => le_val (take (Z.to_nat n) (le_bytes (Z.to_nat n) z ++ r')) end) :: q)
        else None) as -> by (by destruct t).
    rewrite (proj2 (Z.leb_le _ _)) by (rewrite zlen_app; unfold zlen; lia).
    rewrite drop_app_length', take_app_length' by done. rewrite IH.
    cbn [mbind option_bind]. subst n. by rewrite in_ctype_le_val.
  - destruct Hv as (-> & Hu & Hd & ->). cbn [unpack_fields app]. rewrite b2z_z2b.
    pose proof (zlen_nonneg d). rewrite Z.mod_small by lia. cbn [drop]. unfold zlen.
    rewrite Nat2Z.id. rewrite !drop_0, drop_app_length, take_app_length, Hu, IH. by destruct k.
Qed.

Lemma unpack_of_pack_fields i fmt vs r :
  length vs = length fmt -> pack_fields fmt vs = Some r ->
  unpack i fmt (z2b IPC_MSG_VERSION :: z2b (id_val i) :: r) = Some (map stripped vs).
Proof.
  intros Hl Hr. unfold unpack. rewrite !b2z_z2b.
  rewrite !Z.mod_small by (destruct i; done). rewrite !Z.eqb_refl. simpl.
  rewrite <- (app_nil_r r). by apply unpack_pack_fields.
Qed.

(** Values without text come back as they are. *)
Lemma unpack_of_pack_plain i fmt vs r :
  length vs = length fmt -> map stripped vs = vs -> pack_fields fmt vs = Some r ->
  unpack i fmt (z2b IPC_MSG_VERSION :: z2b (id_val i) :: r) = Some vs.
Proof. intros Hl Hs Hr. rewrite (unpack_of_pack_fields i fmt vs r) by done. by rewrite Hs. Qed.

Lemma unpack_of_pack_rest i fmt vs m rest :
  length vs = length fmt -> pack i fmt vs = Some m -> unpack i fmt (m ++ rest) = Some (map stripped vs).
Proof.
  intros Hl (r & Hr & [= <-])%bind_Some. cbn [app]. unfold unpack. rewrite !b2z_z2b.
  rewrite !Z.mod_small by (destruct i; done). rewrite !Z.eqb_refl. simpl.
  by apply unpack_pack_fields.
Qed.

(** A value that a field of the format can carry. *)
Definition fits (t : ctype) (v : pval) : Prop :=
  match v with
  | VInt z => is_dyn t = false /\ in_ctype t z = true
  | VDyn k d => t = Dyn k /\ negb k || utf8 d = true /\ zlen d < 256
  end.

Lemma pack_fields_fits fmt vs :
  length vs = length fmt -> is_Some (pack_fields fmt vs) <-> Forall2 fits fmt vs.
Proof.
  revert vs. induction fmt as [|t fmt IH]; intros vs Hl.
  { destruct vs; [|done]. split; [by constructor|by eexists]. }
  destruct vs as [|v vs]; [done|]. injection Hl as Hl. split.
  - intros [m (v' & vs' & b & r & [= -> ->] & _ & Hr & Hv)%pack_fields_cons].
    constructor; [|apply IH; [done|by eexists]]. destruct v' as [z|k d]; cbn; tauto.
  - intros Hf. apply list.Forall2_cons in Hf as [Hv Hf]. apply IH in Hf as [r Hr]; [|done].
    destruct v as [z|k d].
    + destruct Hv as [Ht Hz]. destruct t; try done; cbn [pack_fields]; rewrite Hz, Hr; by eexists.
    + destruct Hv as (-> & Hu & Hd). cbn [pack_fields]. rewrite Bool.eqb_reflx, Hu.
      rewrite (proj2 (Z.ltb_lt _ _)) by done. rewrite Hr. by eexists.
Qed.

Lemma id_val_inj i j : id_val i = id_val j -> i = j.
Proof. by destruct i, j. Qed.

(** C32: the Python library packs exactly the values that fit their fields: integers of the
    field's width, strings of at most 255 bytes, text in UTF-8.  What it packs it unpacks, as a message
    of the same id, to the same values, but for the white space around text; as a message of any
    other id, or with another version, it is rejected. *)
Theorem py_unpack_pack i fmt vs :
  length vs = length fmt ->
  match pack i fmt vs with
  | None => ~ Forall2 fits fmt vs
  | Some m => Forall2 fits fmt vs /\
      (forall j, unpack j fmt m = if decide (j = i) then Some (map stripped vs) else None) /\
      (forall j v, b2z v <> IPC_MSG_VERSION -> unpack j fmt (v :: drop 1 m) = None)
  end.
Proof.
  intros Hl. unfold pack. destruct (pack_fields fmt vs) as [r|] eqn:Hr.
  2:{ cbn. intros Hf. apply (pack_fields_fits fmt vs Hl) in Hf as [r E]. congruence. }
  cbn [mbind option_bind]. split; [apply (pack_fields_fits fmt vs Hl); by eexists|]. split.
  - intros j. case_decide as Hj; [subst j; by apply unpack_of_pack_fields|].
    unfold unpack. rewrite !b2z_z2b, !Z.mod_small by (destruct i; done).
    rewrite (proj2 (Z.eqb_neq (id_val i) _)); [by rewrite andb_false_r|].
    intros E. by apply id_val_inj in E.
  - intros j v Hv. cbn [drop unpack]. by rewrite (proj2 (Z.eqb_neq _ _)).
Qed.

(** The daemon's struct and the Python format of a message agree field by field for every
    message except the emergency to send, whose code Python packs in four bytes, and the two
    SDO file messages, whose index and subindex Python leaves out. *)
Theorem py_fmt_matches i :
  map snd (c_struct i) = map snd ipc_header_t ++ py_fmt i
  <-> i ∉ [IPC_MSG_ID_EMCY_SEND; IPC_MSG_ID_SDO_READ_TO_FILE; IPC_MSG_ID_SDO_WRITE_FROM_FILE].
Proof.
  split.
  - intros H Hin. rewrite !elem_of_cons, elem_of_nil in Hin.
    destruct Hin as [-> | [-> | [-> | []]]]; discriminate H.
  - intros Hin. rewrite !elem_of_cons, elem_of_nil in Hin. destruct i; tauto.
Qed.

(** The value a message gives to a field. *)
Fixpoint value_of (l : layout) (vs : list pval) (f : string) : option pval :=
  match l, vs with
  | (g, _) :: l, v :: vs => if decide (f = g) then Some v else value_of l vs f
  | _, _ => None
  end.

(** Only the last field is a string: the offsets of the others are constants. *)
Fixpoint str_last (l : layout) : bool :=
  match l with
  | [] | [_] => true
  | (_, t) :: l => negb (is_dyn t) && str_last l
  end.

Lemma mem_read_app_r (b r : bytes) off n :
  0 <= off -> mem_read (b ++ r) (zlen b + off) n = mem_read r off n.
Proof.
  intros. unfold mem_read. rewrite zlen_app. pose proof (zlen_nonneg b).
  destruct (decide (0 <= n /\ off + n <= zlen r)).
  - rewrite !bool_decide_eq_true_2 by lia. do 2 f_equal.
    rewrite drop_app, drop_ge by zlia. simpl. f_equal. unfold zlen. lia.
  - rewrite !bool_decide_eq_false_2 by lia. done.
Qed.

Lemma mem_read_app_l (b r : bytes) off n x :
  mem_read b off n = Ret x -> mem_read (b ++ r) off n = Ret x.
Proof.
  unfold mem_read. case_bool_decide as H; [|done]. intros [= <-].
  rewrite zlen_app. pose proof (zlen_nonneg r). rewrite bool_decide_eq_true_2 by lia.
  f_equal. unfold zlen in *. rewrite drop_app_le, take_app_le; [done|..]; [|lia].
  rewrite length_drop. lia.
Qed.

Lemma mem_read_all (b r : bytes) n : n = zlen b -> mem_read (b ++ r) 0 n = Ret b.
Proof.
  intros ->. apply mem_read_app_l. pose proof (zlen_nonneg b).
  rewrite mem_read_ok by lia. simpl. by rewrite take_zlen.
Qed.

Lemma pack_fields_read l vs m f off t v :
  str_last l = true -> pack_fields (map snd l) vs = Some m ->
  field l f = Some (off, t) -> value_of l vs f = Some v ->
  0 <= off /\
  match v with
  | VInt z => in_ctype t z = true /\ mem_read m off (csize t) = Ret (le_bytes (Z.to_nat (csize t)) z)
  | VDyn k d => t = Dyn k /\ zlen d < 256 /\ mem_read m off 1 = Ret [z2b (zlen d)]
                /\ mem_read m (off + 1) (zlen d) = Ret d
  end.
Proof.
  revert vs m off. induction l as [|[g u] l IH]; intros vs m off Hlast Hp Hf Hv; [done|].
  cbn [map snd] in Hp. apply pack_fields_cons in Hp as (w & vs' & b & r & -> & -> & Hr & Hw).
  cbn [field value_of] in Hf, Hv. case_decide as Hfg.
  - injection Hf as <- <-. injection Hv as ->. split; [done|]. destruct v as [z|k d].
    + destruct Hw as (Ht & Hz & ->). split; [done|]. pose proof (csize_pos u).
      apply mem_read_all. unfold zlen. rewrite length_le_bytes. lia.
    + destruct Hw as (-> & _ & Hd & ->). split; [done|]. split; [done|]. split.
      * apply (mem_read_all [z2b (zlen d)]). done.
      * cbn [app]. rewrite (mem_read_app_r [z2b (zlen d)] (d ++ r) 0) by done. by apply mem_read_all.
  - apply bind_Some in Hf as ([off' t'] & Hf & [= <- <-]).
    assert (is_dyn u = false /\ str_last l = true) as [Hu Hlast'].
    { cbn [str_last] in Hlast. destruct l; [done|].
      apply andb_true_iff in Hlast as [Hu%negb_true_iff ?]. done. }
    destruct (IH vs' r off' Hlast' Hr Hf Hv) as [Hoff Hread].
    pose proof (csize_pos u). split; [lia|].
    assert (zlen b = csize u) as Hb.
    { destruct w as [z|k d]; [|destruct Hw as [-> _]; discriminate Hu]. destruct Hw as (_ & _ & ->).
      unfold zlen. rewrite length_le_bytes. lia. }
    destruct v as [z|k d].
    + rewrite <- Hb, mem_read_app_r by done. done.
    + destruct Hread as (? & ? & Hr1 & Hr2). split; [done|]. split; [done|].
      rewrite <- Hb, mem_read_app_r by done. split; [done|].
      rewrite <- Z.add_assoc, mem_read_app_r by lia. done.
Qed.

Lemma c_struct_str_last i : str_last (c_struct i) = true.
Proof. by destruct i. Qed.

Lemma pack_header i fmt vs m :
  pack i fmt vs = Some m ->
  pack_fields (map snd ipc_header_t ++ fmt) (VInt IPC_MSG_VERSION :: VInt (id_val i) :: vs) = Some m.
Proof.
  intros (r & Hr & [= <-])%bind_Some. by destruct i; simpl; rewrite Hr.
Qed.

Lemma field_value_of l vs f v : value_of l vs f = Some v -> is_Some (field l f).
Proof.
  revert vs. induction l as [|[g t] l IH]; intros [|w vs]; simpl; try done.
  case_decide; [by eexists|]. intros Hv. destruct (IH vs Hv) as [[off u] ->]. by eexists.
Qed.

(** The daemon reads from the struct laid over its receive buffer exactly the values the
    client packed, for every message whose format matches its struct, whatever bytes follow
    the message in the buffer. *)
Lemma pack_get i vs m rest f v :
  map snd (c_struct i) = map snd ipc_header_t ++ py_fmt i ->
  pack i (py_fmt i) vs = Some m ->
  value_of (c_struct i) (VInt IPC_MSG_VERSION :: VInt (id_val i) :: vs) f = Some v ->
  match v with
  | VInt z => get (c_struct i) f (m ++ rest) = Ret z
  | VDyn _ d => get_len (c_struct i) f (m ++ rest) = Ret (zlen d)
                /\ get_data (c_struct i) f (zlen d) (m ++ rest) = Ret d
  end.
Proof.
  intros Hfmt Hp%pack_header Hv. rewrite <- Hfmt in Hp.
  destruct (field_value_of _ _ _ _ Hv) as [[off t] Hf].
  destruct (pack_fields_read _ _ _ _ _ _ _ (c_struct_str_last i) Hp Hf Hv) as [Hoff Hread].
  destruct v as [z|k d].
  - destruct Hread as [Hz Hread]. unfold get. rewrite Hf.
    rewrite (mem_read_app_l _ _ _ _ _ Hread). run.
    f_equal. by apply in_ctype_le_val.
  - destruct Hread as (-> & Hd & H1 & H2). unfold get_len, get_data, data_offset, offsetof.
    rewrite Hf. rewrite (mem_read_app_l _ _ _ _ _ H1), (mem_read_app_l _ _ _ _ _ H2).
    split; [|done]. cbn [mbind res_bind mret res_ret le_val]. rewrite b2z_z2b.
    pose proof (zlen_nonneg d). rewrite Z.mod_small by lia. do 2 f_equal. lia.
Qed.

(** Scalar fields and string fields inside the buffer can be read. *)
Lemma get_ok l f off t m :
  field l f = Some (off, t) -> 0 <= off -> off + csize t <= zlen m -> defined (get l f m).
Proof.
  intros Hf Ho Hl. unfold get. rewrite Hf. pose proof (csize_pos t).
  rewrite mem_read_ok by lia. by eexists.
Qed.

Lemma get_len_ok l f m :
  0 <= offsetof l f < zlen m -> exists n, get_len l f m = Ret n /\ 0 <= n < 256.
Proof.
  intros Ho. unfold get_len. rewrite mem_read_ok by lia. run.
  eexists. split; [done|]. match goal with |- context [le_val ?l] => pose proof (le_val_range l) as H end.
  rewrite length_take, length_drop in H. unfold zlen in Ho.
  replace (Z.to_nat 1 `min` (length m - Z.to_nat (offsetof l f)))%nat with 1%nat in H by lia.
  change (256 ^ Z.of_nat 1) with 256 in H. lia.
Qed.

Lemma get_data_ok l f n m :
  0 <= offsetof l f -> 0 <= n -> offsetof l f + 1 + n <= zlen m -> defined (get_data l f n m).
Proof.
  intros. unfold get_data, data_offset. rewrite mem_read_ok by lia. by eexists.
Qed.

Lemma get_data_len l f n m d : get_data l f n m = Ret d -> zlen d = n.
Proof.
  unfold get_data, mem_read. case_bool_decide as H; [|done]. intros [= <-].
  unfold zlen in *. rewrite length_take, length_drop. lia.
Qed.

(** A packed message is a header and the packed fields. *)
Lemma pack_inv i fmt vs m :
  pack i fmt vs = Some m ->
  exists r, pack_fields fmt vs = Some r /\ m = z2b IPC_MSG_VERSION :: z2b (id_val i) :: r.
Proof. intros (r & Hr & H)%bind_Some. exists r. split; [done|congruence]. Qed.

Lemma mem_read_1 m k b : 0 <= k -> m !! Z.to_nat k = Some b -> mem_read m k 1 = Ret [b].
Proof.
  intros Hk Hb. pose proof (lookup_lt_Some _ _ _ Hb). rewrite mem_read_ok by zlia.
  by rewrite (drop_S _ _ _ Hb).
Qed.

Lemma get_u8 l f k m rest b :
  field l f = Some (k, U8) -> 0 <= k -> m !! Z.to_nat k = Some b -> get l f (m ++ rest) = Ret (b2z b).
Proof.
  intros Hf Hk Hb. unfold get. rewrite Hf. cbn [csize].
  rewrite (mem_read_1 _ _ b) by (done || by rewrite (lookup_app_l_Some _ _ _ _ Hb)).
  cbn [mbind res_bind mret res_ret le_val]. f_equal. lia.
Qed.

(** ** Witnesses: the theorems at concrete inputs *)

Lemma py_unpack_pack_witness :
  unpack IPC_MSG_ID_SDO_READ_TO_FILE [U8; Str] [x00; x0a; x7c; x03; x20; x2f; x66]
    = Some [VInt 0x7C; VStr (cs "/f")] /\
  unpack IPC_MSG_ID_SDO_READ [U8; Str] [x00; x0a; x7c; x03; x20; x2f; x66] = None.
Proof.
  pose proof (py_unpack_pack IPC_MSG_ID_SDO_READ_TO_FILE [U8; Str] [VInt 0x7C; VStr (cs " /f")] eq_refl) as H.
  replace (pack _ _ _) with (Some [x00; x0a; x7c; x03; x20; x2f; x66]) in H by (vm_compute; reflexivity).
  destruct H as (_ & H & _). split; [exact (H IPC_MSG_ID_SDO_READ_TO_FILE)|exact (H IPC_MSG_ID_SDO_READ)].
Defined.
