(* ===== verification/IpcBroadcast.v ===== *)
(** * src/ipc/ipc_broadcast.c: what the daemon publishes to its clients

    Sending a message is an effect: an operation returns the messages it sends, in order.
    Receiving from the monitor socket is an argument ([None] when [zmq_msg_recv] fails). *)

From Stdlib Require Import Strings.Byte.
From S2P Require Import Prelude CLib ODInterface FileSys MemFS IpcMsg.

Definition CAN_BUS_NOT_FOUND : Z := 0.
Definition CAN_BUS_DOWN : Z := 1.
Definition CAN_BUS_UP : Z := 2.

(** The event bits of zmq.h: distinct, in 16 bits. *)
Class ZmqEvents := {
  ZMQ_EVENT_ACCEPTED : Z;
  ZMQ_EVENT_DISCONNECTED : Z;
  zmq_events_bits :
    Z.land ZMQ_EVENT_ACCEPTED ZMQ_EVENT_ACCEPTED <> 0 /\
    Z.land ZMQ_EVENT_DISCONNECTED ZMQ_EVENT_DISCONNECTED <> 0 /\
    Z.land ZMQ_EVENT_DISCONNECTED ZMQ_EVENT_ACCEPTED = 0;
  zmq_events_u16 : in_u 16 ZMQ_EVENT_ACCEPTED /\ in_u 16 ZMQ_EVENT_DISCONNECTED;
}.

(** The static variables: whether the two sockets are open, and the client count. *)
Record bc_state := mkBc { broadcaster : bool; monitor : bool; clients : Z }.

Definition bc_init : bc_state := mkBc false false 0.

(** A struct initialised field by field; what is not named is zero. *)
Fixpoint c_init (l : layout) (fields : list (string * Z)) : res bytes :=
  match fields with
  | [] => Ret (replicate (Z.to_nat (sizeof l)) NUL)
  | (f, v) :: fields => m ← c_init l fields; put l f v m
  end.

Definition header_of (i : ipc_msg_id_t) : list (string * Z) :=
  [("version", IPC_MSG_VERSION); ("id", id_val i)].

Section IpcBroadcast.
Context `{HO : ODTypes} `{HZ : ZmqEvents} `{FS : FileSystem F}.

(** [od] is the list of indexes of the object dictionary; the result: the return value, the
    state, and the indexes that get the extension. *)
Definition ipc_broadcast_init (context : bool) (od : option (list Z)) (st : bc_state)
  : Z * bc_state * list Z :=
  match context, od with
  | true, Some od => (0, mkBc true true (clients st), filter (fun i => 0x4000 <= i) od)
  | _, _ => (- EINVAL, st, [])
  end.

Definition ipc_broadcast_free (st : bc_state) : bc_state := mkBc false false (clients st).

Definition ipc_clients_count (st : bc_state) : Z := clients st.

(** [msg] is the event frame; the address frame that follows is dropped. *)
Definition ipc_broadcast_process (msg : option bytes) (st : bc_state) : res bc_state :=
  match msg with
  | None => mret st
  | Some data =>
      b ← mem_read data 0 2;
      let event := le_val b in
      if negb (Z.land event ZMQ_EVENT_ACCEPTED =? 0)
      then mret (mkBc (broadcaster st) (monitor st) (wrap 8 (clients st + 1)))
      else if negb (Z.land event ZMQ_EVENT_DISCONNECTED =? 0)
      then mret (mkBc (broadcaster st) (monitor st) (wrap 8 (clients st - 1)))
      else mret st
  end.

(** The write function of the extension.  [OD_writeOriginal] is CANopenNode's. *)
Definition ipc_broadcast_data
    (OD_writeOriginal : OD_stream -> bytes -> Z -> Z -> ODR * OD_stream * Z)
    (stream : OD_stream) (buf : bytes) (count countWritten : Z)
  : res (ODR * OD_stream * Z * list bytes) :=
  let '(ac, stream, countWritten) := OD_writeOriginal stream buf count countWritten in
  if bool_decide (ac = ODR_OK) && (0 <? dataLength stream) && (dataLength stream <=? IPC_STR_MAX_LEN)
  then
    msg_od ← c_init ipc_msg_od_t
      (header_of IPC_MSG_ID_OD_WRITE
       ++ [("index", index stream); ("subindex", subIndex stream); ("buffer", dataLength stream)]);
    data ← mem_read buf 0 (dataLength stream);
    msg_od ← mem_write msg_od (data_offset ipc_msg_od_t "buffer") data;
    sent ← mem_read msg_od 0 (IPC_MSG_OD_MIN_LEN + dataLength stream);
    mret (ac, stream, countWritten, [sent])
  else mret (ac, stream, countWritten, []).

Definition ipc_broadcast_hb (node_id state : Z) (st : bc_state) : res (list bytes) :=
  if (clients st =? 0) || negb (broadcaster st) then mret []
  else
    msg_hb_recv ← c_init ipc_msg_hb_recv_t
      (header_of IPC_MSG_ID_HB_RECV ++ [("node_id", node_id); ("state", state)]);
    mret [msg_hb_recv].

Definition ipc_broadcast_emcy (node_id code info : Z) (st : bc_state) : res (list bytes) :=
  if (clients st =? 0) || negb (broadcaster st) then mret []
  else
    msg_emcy_recv ← c_init ipc_msg_emcy_recv_t
      (header_of IPC_MSG_ID_EMCY_RECV ++ [("node_id", node_id); ("code", code); ("info", info)]);
    mret [msg_emcy_recv].

Definition ipc_broadcast_status (state : Z) : res (list bytes) :=
  msg_bus_status ← c_init ipc_msg_bus_status_t
    (header_of IPC_MSG_ID_BUS_STATUS ++ [("state", state)]);
  mret [msg_bus_status].

(** [if_name] is the name of the first CAN interface, when there is one. *)
Definition carrier_path (if_name : bytes) : bytes :=
  cs "/sys/class/net/" ++ if_name ++ cs "/carrier".

Definition ipc_broadcast_bus_status (fs : F) (if_name : option bytes) (st : bc_state)
  : res (list bytes) :=
  if (clients st =? 0) || negb (broadcaster st) then mret []
  else match if_name with
  | None => ipc_broadcast_status CAN_BUS_NOT_FOUND
  | Some if_name =>
      _ ← mem_write (replicate 64 NUL) 0 (with_nul (carrier_path if_name));
      match fs_read fs (carrier_path if_name) with
      | inl _ => ipc_broadcast_status CAN_BUS_NOT_FOUND
      | inr [] => Undef UbUninit                 (* fread leaves [up] as it was *)
      | inr (up :: _) =>
          if decide (up = "1"%byte) then ipc_broadcast_status CAN_BUS_UP
          else ipc_broadcast_status CAN_BUS_DOWN
      end
  end.

(** ** Properties *)

Lemma put_scalars_hb node_id state :
  c_init ipc_msg_hb_recv_t
    (header_of IPC_MSG_ID_HB_RECV ++ [("node_id", node_id); ("state", state)])
  = Ret [z2b 0; z2b 6; z2b node_id; z2b state].
Proof. reflexivity. Qed.

Lemma put_scalars_emcy node_id code info :
  c_init ipc_msg_emcy_recv_t
    (header_of IPC_MSG_ID_EMCY_RECV ++ [("node_id", node_id); ("code", code); ("info", info)])
  = Ret ([z2b 0; z2b 7; z2b node_id] ++ le_bytes 2 code ++ le_bytes 4 info).
Proof. reflexivity. Qed.

Lemma put_scalars_status state :
  c_init ipc_msg_bus_status_t (header_of IPC_MSG_ID_BUS_STATUS ++ [("state", state)])
  = Ret [z2b 0; z2b 9; z2b state].
Proof. reflexivity. Qed.

Lemma in_ctype_u w t z :
  (t, w) ∈ [(U8, 8); (U16, 16); (U32, 32)] -> in_u w z -> in_ctype t z = true.
Proof.
  rewrite !elem_of_cons, elem_of_nil. intros Ht [Hl Hu].
  destruct Ht as [[= -> ->] | [[= -> ->] | [[= -> ->] | []]]];
    apply andb_true_iff; (split; [by apply Z.leb_le|by apply Z.ltb_lt]).
Qed.

Lemma pack_scalar t w z fmt vs r :
  (t, w) ∈ [(U8, 8); (U16, 16); (U32, 32)] -> in_u w z -> pack_fields fmt vs = Some r ->
  pack_fields (t :: fmt) (VInt z :: vs) = Some (le_bytes (Z.to_nat (csize t)) z ++ r).
Proof.
  intros Ht Hz Hr. pose proof (in_ctype_u _ _ _ Ht Hz) as Hin.
  rewrite !elem_of_cons, elem_of_nil in Ht.
  destruct Ht as [[= -> ->] | [[= -> ->] | [[= -> ->] | []]]]; cbn [pack_fields];
    rewrite Hin, Hr; done.
Qed.

Lemma unpack_status v :
  in_u 8 v -> exists m, ipc_broadcast_status v = Ret [m] /\
    unpack IPC_MSG_ID_BUS_STATUS (py_fmt IPC_MSG_ID_BUS_STATUS) m = Some [VInt v].
Proof.
  intros Hs. unfold ipc_broadcast_status. rewrite put_scalars_status. eexists. split; [done|].
  apply (unpack_of_pack_plain IPC_MSG_ID_BUS_STATUS); [done|done|]. cbn [py_fmt].
  by rewrite (pack_scalar U8 8 v [] [] []) by (done || set_solver).
Qed.

(** The state of the bus as the kernel reports it in the carrier file of the interface: nothing
    is said when the file opens but cannot be read. *)
Definition bus_state (fs : F) (if_name : option bytes) : option Z :=
  match if_name with
  | None => Some CAN_BUS_NOT_FOUND
  | Some n => match fs_read fs (carrier_path n) with
    | inl _ => Some CAN_BUS_NOT_FOUND
    | inr [] => None
    | inr (up :: _) => Some (if decide (up = "1"%byte) then CAN_BUS_UP else CAN_BUS_DOWN)
    end
  end.

Lemma bus_status_sent fs if_name st :
  clients st <> 0 -> broadcaster st = true -> (forall n, if_name = Some n -> zlen n <= 40) ->
  ipc_broadcast_bus_status fs if_name st
  = match bus_state fs if_name with Some v => ipc_broadcast_status v | None => Undef UbUninit end.
Proof.
  intros Hc Hb Hn. unfold ipc_broadcast_bus_status, bus_state. rewrite Hb. apply Z.eqb_neq in Hc as ->. cbn [negb orb].
  destruct if_name as [n|]; [|done]. specialize (Hn n eq_refl). rewrite mem_write_ok; [|lia|].
  - run. destruct (fs_read _ _) as [|[|up r]]; [done..|]. by case_decide.
  - unfold with_nul, carrier_path. rewrite !zlen_app. unfold zlen in *. simpl in *. lia.
Qed.

(** C26: with a client connected, a heartbeat, an emergency and the bus status (whether the
    interface has a carrier, has none or is not found) are published as one message each, which
    the client library unpacks to the values reported; without a client, or before the socket is
    open, nothing is sent.  The status is undefined when the carrier file opens but cannot be
    read. *)
Theorem ipc_broadcast_unpack st node_id state code info fs if_name :
  in_u 8 node_id -> in_u 8 state -> in_u 16 code -> in_u 32 info ->
  (forall n, if_name = Some n -> zlen n <= 40) ->
  if decide (clients st = 0 \/ broadcaster st = false) then
    ipc_broadcast_hb node_id state st = Ret [] /\ ipc_broadcast_emcy node_id code info st = Ret [] /\
    ipc_broadcast_bus_status fs if_name st = Ret []
  else
    (exists m, ipc_broadcast_hb node_id state st = Ret [m] /\
       unpack IPC_MSG_ID_HB_RECV (py_fmt IPC_MSG_ID_HB_RECV) m = Some [VInt node_id; VInt state]) /\
    (exists m, ipc_broadcast_emcy node_id code info st = Ret [m] /\
       unpack IPC_MSG_ID_EMCY_RECV (py_fmt IPC_MSG_ID_EMCY_RECV) m
       = Some [VInt node_id; VInt code; VInt info]) /\
    match bus_state fs if_name with
    | Some v => exists m, ipc_broadcast_bus_status fs if_name st = Ret [m] /\
        unpack IPC_MSG_ID_BUS_STATUS (py_fmt IPC_MSG_ID_BUS_STATUS) m = Some [VInt v]
    | None => ipc_broadcast_bus_status fs if_name st = Undef UbUninit
    end.
Proof.
  intros Hn Hs Hc Hi Hname. case_decide as Hoff.
  { unfold ipc_broadcast_hb, ipc_broadcast_emcy, ipc_broadcast_bus_status.
    assert ((clients st =? 0) || negb (broadcaster st) = true) as ->; [|done].
    apply orb_true_iff. rewrite Z.eqb_eq, negb_true_iff. done. }
  assert (clients st <> 0 /\ broadcaster st = true) as [Hcl Hb] by (destruct (broadcaster st); tauto).
  rewrite (bus_status_sent fs if_name st Hcl Hb Hname).
  unfold ipc_broadcast_hb, ipc_broadcast_emcy. rewrite Hb. apply Z.eqb_neq in Hcl as ->. cbn [negb orb].
  rewrite put_scalars_hb, put_scalars_emcy. split_and!.
  - eexists. split; [done|]. apply (unpack_of_pack_plain IPC_MSG_ID_HB_RECV); [done|done|]. cbn [py_fmt].
    rewrite (pack_scalar U8 8 node_id [U8] [VInt state] (le_bytes 1 state)); [done|set_solver|done|].
    by rewrite (pack_scalar U8 8 state [] [] []) by (done || set_solver).
  - eexists. split; [done|]. apply (unpack_of_pack_plain IPC_MSG_ID_EMCY_RECV); [done|done|]. cbn [py_fmt].
    rewrite (pack_scalar U8 8 node_id [U16; U32] [VInt code; VInt info]
      (le_bytes 2 code ++ le_bytes 4 info)); [done|set_solver|done|].
    rewrite (pack_scalar U16 16 code [U32] [VInt info] (le_bytes 4 info)); [done|set_solver|done|].
    by rewrite (pack_scalar U32 32 info [] [] []) by (done || set_solver).
  - destruct (bus_state fs if_name) as [v|] eqn:Hv; [|done]. apply unpack_status.
    unfold bus_state in Hv. repeat case_match; simplify_eq; done.
Qed.

(** The struct of a write before its data is copied in. *)
Lemma put_scalars_od i sub n :
  exists pad, length pad = 255%nat /\
  c_init ipc_msg_od_t
    (header_of IPC_MSG_ID_OD_WRITE ++ [("index", i); ("subindex", sub); ("buffer", n)])
  = Ret ((z2b 0 :: z2b 2 :: le_bytes 2 i ++ [z2b sub; z2b n]) ++ pad).
Proof. exists (replicate 255 NUL). split; reflexivity. Qed.

(** A completed write of at most 255 bytes to an entry of the application's part of the
    object dictionary is published as one message, which the client library unpacks to the
    index, the subindex and the value, when the buffer holds the whole value. *)
Theorem ipc_broadcast_data_unpack OD_writeOriginal stream buf count n stream' n' :
  OD_writeOriginal stream buf count n = (ODR_OK, stream', n') ->
  0 < dataLength stream' <= 255 -> dataLength stream' <= zlen buf ->
  in_u 16 (index stream') -> in_u 8 (subIndex stream') ->
  exists m, ipc_broadcast_data OD_writeOriginal stream buf count n = Ret (ODR_OK, stream', n', [m]) /\
    unpack IPC_MSG_ID_OD_WRITE (py_fmt IPC_MSG_ID_OD_WRITE) m
    = Some [VInt (index stream'); VInt (subIndex stream');
            VBytes (take (Z.to_nat (dataLength stream')) buf)].
Proof.
  intros Hw Hlen Hbuf Hi Hsub. unfold ipc_broadcast_data. rewrite Hw.
  rewrite bool_decide_eq_true_2 by done.
  rewrite (proj2 (Z.ltb_lt _ _)) by lia. rewrite (proj2 (Z.leb_le _ IPC_STR_MAX_LEN)) by (change IPC_STR_MAX_LEN with 255; lia).
  cbn [andb]. destruct (put_scalars_od (index stream') (subIndex stream') (dataLength stream'))
    as (pad & Hpad & ->). run.
  rewrite (mem_read_ok buf) by lia. rewrite drop_0. run.
  set (h := z2b 0 :: _). set (d := take _ buf).
  assert (zlen d = dataLength stream') as Hd by (subst d; apply zlen_take; lia).
  assert (zlen h = 6) as Hh by done.
  change (data_offset ipc_msg_od_t "buffer") with 6. change IPC_MSG_OD_MIN_LEN with 6.
  rewrite mem_write_ok; [|lia|rewrite zlen_app; unfold zlen in *; lia].
  run. rewrite take_app_length' by zlia.
  rewrite app_assoc, mem_read_all by (rewrite zlen_app; lia). run.
  eexists. split; [done|]. subst h.
  apply (unpack_of_pack_plain IPC_MSG_ID_OD_WRITE); [done|done|]. cbn [py_fmt].
  rewrite (pack_scalar U16 16 _ [U8; Bytes] _
    (le_bytes 1 (subIndex stream') ++ z2b (zlen d) :: d)); [by rewrite Hd|set_solver|done|].
  rewrite (pack_scalar U8 8 _ [Bytes] _ (z2b (zlen d) :: d)); [done|set_solver|done|].
  cbn [pack_fields]. rewrite (proj2 (Z.ltb_lt _ _)) by lia.
  cbn [mbind option_bind]. by rewrite app_nil_r.
Qed.

(** A write that the SDO server completes in several segments is published by reading
    past the end of the server's last segment: the length copied is that of the value, not
    of the buffer. *)
Theorem ipc_broadcast_data_overread OD_writeOriginal stream buf n stream' n' :
  OD_writeOriginal stream buf (zlen buf) n = (ODR_OK, stream', n') ->
  zlen buf < dataLength stream' <= 255 ->
  ipc_broadcast_data OD_writeOriginal stream buf (zlen buf) n = Undef UbBounds.
Proof.
  intros Hw Hlen. unfold ipc_broadcast_data. rewrite Hw. pose proof (zlen_nonneg buf).
  rewrite bool_decide_eq_true_2 by done.
  rewrite (proj2 (Z.ltb_lt _ _)) by lia. rewrite (proj2 (Z.leb_le _ IPC_STR_MAX_LEN)) by (change IPC_STR_MAX_LEN with 255; lia).
  cbn [andb]. destruct (put_scalars_od (index stream') (subIndex stream') (dataLength stream'))
    as (pad & _ & ->). run.
  by rewrite mem_read_oob by lia.
Qed.

(** A client connects or disconnects. *)
Definition event_frame (connected : bool) : bytes :=
  le_bytes 2 (if connected then ZMQ_EVENT_ACCEPTED else ZMQ_EVENT_DISCONNECTED).

Fixpoint monitor_run (events : list bool) (st : bc_state) : res bc_state :=
  match events with
  | [] => Ret st
  | e :: events => st ← ipc_broadcast_process (Some (event_frame e)) st; monitor_run events st
  end.

Fixpoint connected (events : list bool) : Z :=
  match events with [] => 0 | e :: events => (if e then 1 else -1) + connected events end.

Lemma event_value (e : bool) :
  le_val (event_frame e) = if e then ZMQ_EVENT_ACCEPTED else ZMQ_EVENT_DISCONNECTED.
Proof.
  destruct zmq_events_u16 as [Ha Hd]. unfold event_frame. rewrite le_val_le_bytes.
  change (256 ^ Z.of_nat 2) with (2 ^ 16). apply Z.mod_small. by destruct e.
Qed.

(** The client count is the number of connected clients modulo 256: with 256 clients
    heartbeats and emergencies are sent to nobody. *)
Theorem ipc_clients_count_mod events st :
  in_u 8 (clients st) ->
  exists st', monitor_run events st = Ret st' /\
    ipc_clients_count st' = (ipc_clients_count st + connected events) mod 256 /\
    broadcaster st' = broadcaster st.
Proof.
  unfold ipc_clients_count. revert st. induction events as [|e events IH]; intros st Hst;
    cbn [monitor_run connected].
  - exists st. split_and!; [done| |done]. rewrite Z.add_0_r. symmetry. by apply Z.mod_small.
  - destruct zmq_events_bits as (Ha & Hd & Hda). pose proof (event_value e) as Hv.
    unfold ipc_broadcast_process. set (f := event_frame e) in *. assert (length f = 2%nat) as Hf by apply length_le_bytes.
    rewrite (mem_read_ok f) by zlia. rewrite drop_0, (firstn_all2 f) by (by rewrite Hf).
    run. rewrite Hv. destruct e.
    + apply Z.eqb_neq in Ha as ->. cbn [negb mbind res_bind mret res_ret].
      destruct (IH (mkBc (broadcaster st) (monitor st) (wrap 8 (clients st + 1)))) as (st' & -> & Hc & Hb);
        [by apply wrap_range|]. exists st'. split_and!; [done| |done]. rewrite Hc. cbn [clients].
      unfold wrap. change (2 ^ 8) with 256. rewrite Zplus_mod_idemp_l. f_equal. lia.
    + apply Z.eqb_eq in Hda as ->. apply Z.eqb_neq in Hd as ->. cbn [negb mbind res_bind mret res_ret].
      destruct (IH (mkBc (broadcaster st) (monitor st) (wrap 8 (clients st - 1)))) as (st' & -> & Hc & Hb);
        [by apply wrap_range|]. exists st'. split_and!; [done| |done]. rewrite Hc. cbn [clients].
      unfold wrap. change (2 ^ 8) with 256. rewrite Zplus_mod_idemp_l. f_equal. lia.
Qed.

(** When the carrier file of the interface cannot be read, as the kernel has it for an
    interface that is down, the status sent depends on an uninitialised variable. *)
Theorem ipc_broadcast_bus_status_uninit fs if_name st :
  clients st <> 0 -> broadcaster st = true -> zlen if_name <= 40 ->
  fs_read fs (carrier_path if_name) = inr [] ->
  ipc_broadcast_bus_status fs (Some if_name) st = Undef UbUninit.
Proof.
  intros Hc Hb Hl Hf. unfold ipc_broadcast_bus_status. rewrite Hb.
  apply Z.eqb_neq in Hc as ->. cbn [negb orb].
  rewrite mem_write_ok; [|lia|].
  - run. by rewrite Hf.
  - unfold with_nul, carrier_path. rewrite !zlen_app. unfold zlen in *. simpl in *. lia.
Qed.
End IpcBroadcast.

(** ** Witnesses: the theorems at concrete inputs *)

Definition zmq_events : ZmqEvents.
Proof.
  refine {| ZMQ_EVENT_ACCEPTED := 0x20; ZMQ_EVENT_DISCONNECTED := 0x200 |}; by_compute.
Defined.

(** A system whose interface [can0] has a carrier. *)
Definition can_fs : memfs := <[carrier_path (cs "can0") := NFile (cs "1")]> sample_fs.

Lemma ipc_broadcast_unpack_witness :
  exists m, ipc_broadcast_bus_status can_fs (Some (cs "can0")) (mkBc true true 1) = Ret [m] /\
    unpack IPC_MSG_ID_BUS_STATUS (py_fmt IPC_MSG_ID_BUS_STATUS) m = Some [VInt CAN_BUS_UP].
Proof.
  destruct (ipc_broadcast_unpack (mkBc true true 1) 0x10 5 0x8110 7 can_fs (Some (cs "can0"))) as (_ & _ & H);
    [by_compute..|intros n [= <-]; by_compute|].
  replace (bus_state can_fs (Some (cs "can0"))) with (Some CAN_BUS_UP) in H by (vm_compute; reflexivity).
  exact H.
Defined.

Lemma ipc_broadcast_data_unpack_witness :
  exists m, ipc_broadcast_data (fun st _ count _ => (ODR_OK, st, count)) (mkStream 2 0 0x4001 3) [x01; x02] 2 0
    = Ret (ODR_OK, mkStream 2 0 0x4001 3, 2, [m]) /\
    unpack IPC_MSG_ID_OD_WRITE (py_fmt IPC_MSG_ID_OD_WRITE) m
    = Some [VInt 0x4001; VInt 3; VBytes [x01; x02]].
Proof.
  apply (ipc_broadcast_data_unpack (fun st _ count _ => (ODR_OK, st, count))
    (mkStream 2 0 0x4001 3) [x01; x02] 2 0 (mkStream 2 0 0x4001 3) 2); by_compute.
Defined.

Lemma ipc_clients_count_mod_witness :
  exists st', monitor_run (HZ := zmq_events) (replicate 256 true) bc_init = Ret st' /\
    ipc_clients_count st' = 0.
Proof.
  destruct (ipc_clients_count_mod (HZ := zmq_events) (replicate 256 true) bc_init) as (st' & H1 & H2 & _);
    [by_compute|]. exists st'. split; [exact H1|]. rewrite H2. vm_compute. reflexivity.
Defined.
