(* ===== verification/Ipc.v ===== *)
(** * src/ipc/ipc.c: the sockets of the interface

    [ipc_init] opens the context and the sockets of the three modules, [ipc_free] closes them.
    The calls to ZeroMQ are events. *)

From Stdlib Require Import Strings.Byte.
From S2P Require Import Prelude CLib ODInterface FileSys System IpcBroadcast.

Inductive socket := ZMQ_PUB | ZMQ_PAIR | ZMQ_SUB | ZMQ_ROUTER.

#[export] Instance socket_eq_dec : EqDecision socket.
Proof. solve_decision. Defined.

Inductive zmq_event := ZOpen (s : socket) | ZBind (s : socket) (address : string) | ZMonitor
  | ZSubscribe | ZConnect (s : socket) (address : string) | ZClose (s : socket) | ZTerm.

(** [context], the state of the broadcaster, and [consumer] and [responder]. *)
Record ipc_state := mkIpc { ipc_context : bool; ipc_bc : bc_state; ipc_consumer : bool; ipc_responder : bool }.

Definition ipc_start : ipc_state := mkIpc false bc_init false false.

Definition ipc_consume_init (context : bool) (st : ipc_state) : Z * ipc_state * list zmq_event :=
  if negb context then (- EINVAL, st, [])
  else (0, mkIpc (ipc_context st) (ipc_bc st) true (ipc_responder st),
        [ZOpen ZMQ_SUB; ZSubscribe; ZBind ZMQ_SUB "tcp://*:6002"]).

Definition ipc_consume_free (st : ipc_state) : ipc_state * list zmq_event :=
  if ipc_consumer st then (mkIpc (ipc_context st) (ipc_bc st) false (ipc_responder st), [ZClose ZMQ_SUB]) else (st, []).

Definition ipc_respond_init (context : bool) (st : ipc_state) : Z * ipc_state * list zmq_event :=
  if negb context then (- EINVAL, st, [])
  else (0, mkIpc (ipc_context st) (ipc_bc st) (ipc_consumer st) true, [ZOpen ZMQ_ROUTER; ZBind ZMQ_ROUTER "tcp://*:6000"]).

Definition ipc_respond_free (st : ipc_state) : ipc_state * list zmq_event :=
  if ipc_responder st then (mkIpc (ipc_context st) (ipc_bc st) (ipc_consumer st) false, [ZClose ZMQ_ROUTER]) else (st, []).

(** The sockets [ipc_broadcast_init] opens and [ipc_broadcast_free] closes. *)
Definition broadcast_opens (r : Z) : list zmq_event :=
  if r =? 0 then [ZOpen ZMQ_PUB; ZBind ZMQ_PUB "tcp://*:6001"; ZMonitor; ZOpen ZMQ_PAIR; ZConnect ZMQ_PAIR "inproc://monitor"]
  else [].
Definition broadcast_closes (st : bc_state) : list zmq_event :=
  (if broadcaster st then [ZClose ZMQ_PUB] else []) ++ (if monitor st then [ZClose ZMQ_PAIR] else []).

(** [ctx] says whether [zmq_ctx_new] gave a context; the results of the initialisations are
    dropped.  The last component are the indexes with the extension. *)
Definition ipc_init (ctx : bool) (od : option (list Z)) (st : ipc_state) : ipc_state * list zmq_event * list Z :=
  let st := mkIpc ctx (ipc_bc st) (ipc_consumer st) (ipc_responder st) in
  if ctx then
    let '(r, bc, ext) := ipc_broadcast_init ctx od (ipc_bc st) in
    let st := mkIpc ctx bc (ipc_consumer st) (ipc_responder st) in
    let '(_, st, ev1) := ipc_consume_init ctx st in
    let '(_, st, ev2) := ipc_respond_init ctx st in
    (st, broadcast_opens r ++ ev1 ++ ev2, ext)
  else (st, [], []).

Definition ipc_free (st : ipc_state) : ipc_state * list zmq_event :=
  if ipc_context st then
    let ev0 := broadcast_closes (ipc_bc st) in
    let st := mkIpc (ipc_context st) (ipc_broadcast_free (ipc_bc st)) (ipc_consumer st) (ipc_responder st) in
    let '(st, ev1) := ipc_consume_free st in
    let '(st, ev2) := ipc_respond_free st in
    (st, ev0 ++ ev1 ++ ev2 ++ [ZTerm])
  else (st, []).

(** ** Properties *)

Definition opened (l : list zmq_event) : list socket := omap (fun e => match e with ZOpen s => Some s | _ => None end) l.
Definition closed (l : list zmq_event) : list socket := omap (fun e => match e with ZClose s => Some s | _ => None end) l.

(** No module has a socket. *)
Definition no_sockets (st : ipc_state) : Prop :=
  broadcaster (ipc_bc st) = false /\ monitor (ipc_bc st) = false /\ ipc_consumer st = false /\ ipc_responder st = false.

(** The sockets opened at the start, with or without a dictionary, are exactly those closed at
    the end, each once and before the context is terminated; no module keeps one, and the
    entries from 0x4000 on are watched. *)
Theorem ipc_init_free ctx od :
  let '(st, ev, ext) := ipc_init ctx od ipc_start in
  let '(st', ev') := ipc_free st in
  closed ev' = opened ev /\ NoDup (opened ev) /\ no_sockets st' /\
  (ctx = true -> exists pre, ev' = pre ++ [ZTerm] /\ ZTerm ∉ pre) /\
  ext = (if ctx then filter (fun i => 0x4000 <= i) (default [] od) else []).
Proof.
  destruct ctx, od as [od|]; cbn; (split_and!; [done| by_decide |by unfold no_sockets| |done]);
    try done; intros _.
  - exists [ZClose ZMQ_PUB; ZClose ZMQ_PAIR; ZClose ZMQ_SUB; ZClose ZMQ_ROUTER]. split; [done|].
    rewrite !not_elem_of_cons. split_and!; try done. apply not_elem_of_nil.
  - exists [ZClose ZMQ_SUB; ZClose ZMQ_ROUTER]. split; [done|].
    rewrite !not_elem_of_cons. split_and!; try done. apply not_elem_of_nil.
Qed.
