(* ===== verification/IpcConsume.v ===== *)
(** * src/ipc/ipc_consume.c: commands the daemon takes from its clients

    The receive buffer is static: a short message leaves the bytes of the previous one
    behind it, and the handlers read the struct laid over the whole buffer.  Calls into the
    CANopen stack are events of the result. *)

From Stdlib Require Import Strings.Byte.
From S2P Require Import Prelude CLib ODInterface FileSys MemFS System IpcMsg IpcBroadcast.

(** The fields of [CO_config_t] the daemon reads, and the calls it makes. *)
Record CO_config := mkConfig { CNT_TPDO : Z; CNT_SYNC : Z }.

Inductive co_event :=
| CO_errorReport (code info : Z)
| CO_SYNCsend
| OD_set_value (index subindex : Z) (val : bytes) (odOrig : bool).

#[export] Instance co_event_eq_dec : EqDecision co_event.
Proof. solve_decision. Defined.

(** The static buffer, [sendRequest] of every element of [co->TPDO], the file system and
    [*reset]. *)
Record consumer (F : Type) := mkConsumer {
  c_buffer_in : bytes;
  c_sendRequest : list bool;
  c_fs : F;
  c_reset : bool;
}.
Arguments mkConsumer {F}. Arguments c_buffer_in {F}. Arguments c_sendRequest {F}.
Arguments c_fs {F}. Arguments c_reset {F}.

Section IpcConsume.
Context `{FS : FileSystem F} `{HP : Platform} `{CE : CopyEnv}.

Definition set_buffer_in (b : bytes) (st : consumer F) : consumer F :=
  mkConsumer b (c_sendRequest st) (c_fs st) (c_reset st).
Definition set_sendRequest (l : list bool) (st : consumer F) : consumer F :=
  mkConsumer (c_buffer_in st) l (c_fs st) (c_reset st).
Definition set_fs (fs : F) (st : consumer F) : consumer F :=
  mkConsumer (c_buffer_in st) (c_sendRequest st) fs (c_reset st).
Definition set_reset (b : bool) (st : consumer F) : consumer F :=
  mkConsumer (c_buffer_in st) (c_sendRequest st) (c_fs st) b.

Definition handler_result : Type := res (consumer F * list co_event).

Definition ipc_consume_emcy_send (buffer_in_recv : Z) (st : consumer F) : handler_result :=
  if negb (buffer_in_recv =? sizeof ipc_msg_emcy_send_t) then mret (st, [])
  else
    code ← get ipc_msg_emcy_send_t "code" (c_buffer_in st);
    info ← get ipc_msg_emcy_send_t "info" (c_buffer_in st);
    mret (st, [CO_errorReport code info]).

Definition ipc_consume_tpdo_send (buffer_in_recv : Z) (base_config config : CO_config)
    (st : consumer F) : handler_result :=
  if negb (buffer_in_recv =? sizeof ipc_msg_tpdo_send_t) then mret (st, [])
  else
    number ← get ipc_msg_tpdo_send_t "number" (c_buffer_in st);
    if number <? CNT_TPDO config then
      let tpdos_offset :=
        if negb (CNT_TPDO base_config =? CNT_TPDO config) then wrap 8 (CNT_TPDO base_config) else 0 in
      let n := number + tpdos_offset in
      if n <? zlen (c_sendRequest st)
      then mret (set_sendRequest (<[Z.to_nat n := true]> (c_sendRequest st)) st, [])
      else Undef UbBounds
    else mret (st, []).

(** [clients] is the broadcaster's client count. *)
Definition ipc_consume_od_write (buffer_in_recv clients : Z) (st : consumer F) : handler_result :=
  if (buffer_in_recv <? IPC_MSG_OD_MIN_LEN) || (sizeof ipc_msg_od_t <? buffer_in_recv)
  then mret (st, [])
  else
    index ← get ipc_msg_od_t "index" (c_buffer_in st);
    subindex ← get ipc_msg_od_t "subindex" (c_buffer_in st);
    len ← get_len ipc_msg_od_t "buffer" (c_buffer_in st);
    data ← get_data ipc_msg_od_t "buffer" len (c_buffer_in st);
    mret (st, [OD_set_value index subindex data (clients <=? 1)]).

Definition ipc_consume_sync_send (config : CO_config) (st : consumer F) : handler_result :=
  if negb (CNT_SYNC config =? 0) then mret (st, [CO_SYNCsend]) else mret (st, []).

(** The path of a [Str] field made a C string in the buffer: the terminator is written at
    the length the message gives. *)
Definition terminate_path (l : layout) (f : string) (buffer : bytes) : res (bytes * path) :=
  len ← get_len l f buffer;
  buffer ← mem_write buffer (data_offset l f + len) [NUL];
  p ← c_str (drop (Z.to_nat (data_offset l f)) buffer);
  mret (buffer, p).

(** [crc32] is zlib's, [errno] what the thread's errno holds before the files are read. *)
Definition ipc_consume_config (crc32 : bytes -> Z) (errno buffer_in_recv : Z) (od_config_path : path)
    (st : consumer F) : handler_result :=
  if (buffer_in_recv <? IPC_MSG_FILE_MIN_LEN) || (sizeof ipc_msg_file_t <? buffer_in_recv)
  then mret (st, [])
  else
    '(buffer, p) ← terminate_path ipc_msg_file_t "path" (c_buffer_in st);
    let st := set_buffer_in buffer st in
    if is_file (c_fs st) p then
      same ← check_file_crc32_match crc32 errno (c_fs st) od_config_path p;
      if same : bool then mret (st, [])
      else
        let '(_, fs) := mkdir_path (c_fs st) (Some (dirname od_config_path)) in
        '(r, fs) ← copy_file fs p od_config_path;
        if r <? 0 then mret (set_fs fs st, [])
        else mret (set_reset true (set_fs fs st), [])
    else mret (st, []).

(** [non_null] says that no pointer argument is NULL; [msg] is what [zmq_recv] delivers,
    cut to the buffer's size; its return value is the length of the whole message. *)
Definition ipc_consume_process (non_null : bool) (msg : option bytes) (clients : Z)
    (base_config config : CO_config) (crc32 : bytes -> Z) (errno : Z) (od_config_path : path)
    (st : consumer F) : handler_result :=
  if negb non_null then mret (st, []) else
  match msg with
  | None => mret (st, [])
  | Some m =>
      buffer ← mem_write (c_buffer_in st) 0 (take (Z.to_nat IPC_MSG_MAX_LEN) m);
      let st := set_buffer_in buffer st in
      let nbytes := zlen m in
      if nbytes <=? sizeof ipc_header_t then mret (st, []) else
      version ← get ipc_header_t "version" buffer;
      if negb (version =? IPC_MSG_VERSION) then mret (st, []) else
      id ← get ipc_header_t "id" buffer;
      if id =? id_val IPC_MSG_ID_EMCY_SEND then ipc_consume_emcy_send nbytes st
      else if id =? id_val IPC_MSG_ID_TPDO_SEND
      then ipc_consume_tpdo_send nbytes base_config config st
      else if id =? id_val IPC_MSG_ID_OD_WRITE then ipc_consume_od_write nbytes clients st
      else if id =? id_val IPC_MSG_ID_SYNC_SEND then ipc_consume_sync_send config st
      else if id =? id_val IPC_MSG_ID_CONFIG
      then ipc_consume_config crc32 errno nbytes od_config_path st
      else mret (st, [])
  end.
End IpcConsume.

(** ** Properties *)

Section ConsumeProps.
Context `{FS : FileSystem F} `{HP : Platform} `{CE : CopyEnv}.

Lemma mem_write_front (m buf : bytes) :
  zlen m <= zlen buf -> mem_write buf 0 m = Ret (m ++ drop (length m) buf).
Proof. intros. by rewrite mem_write_ok by lia. Qed.

Lemma zlen_overlay (m buf : bytes) : zlen m <= zlen buf -> zlen (m ++ drop (length m) buf) = zlen buf.
Proof. intros. unfold zlen in *. rewrite length_app, length_drop. lia. Qed.

(** A message with a header is dispatched on its id. *)
Lemma consume_dispatch i r clients base config crc32 errno od st :
  zlen (c_buffer_in st) = IPC_MSG_MAX_LEN -> r <> [] -> zlen r <= 998 ->
  let m := z2b IPC_MSG_VERSION :: z2b (id_val i) :: r in
  let st' := set_buffer_in (m ++ drop (length m) (c_buffer_in st)) st in
  ipc_consume_process true (Some m) clients base config crc32 errno od st
  = match i with
    | IPC_MSG_ID_EMCY_SEND => ipc_consume_emcy_send (zlen m) st'
    | IPC_MSG_ID_TPDO_SEND => ipc_consume_tpdo_send (zlen m) base config st'
    | IPC_MSG_ID_OD_WRITE => ipc_consume_od_write (zlen m) clients st'
    | IPC_MSG_ID_SYNC_SEND => ipc_consume_sync_send config st'
    | IPC_MSG_ID_CONFIG => ipc_consume_config crc32 errno (zlen m) od st'
    | _ => Ret (st', [])
    end.
Proof.
  intros Hbuf Hr Hlen m st'. unfold ipc_consume_process. cbn [negb].
  assert (zlen m = 2 + zlen r) as Hm by (subst m; unfold zlen; simpl; lia).
  pose proof (zlen_pos r Hr).
  assert (take (Z.to_nat IPC_MSG_MAX_LEN) m = m) as ->.
  { apply firstn_all2. unfold IPC_MSG_MAX_LEN, zlen in *. lia. }
  unfold IPC_MSG_MAX_LEN in *. rewrite mem_write_front by lia. run.
  change (sizeof ipc_header_t) with 2. rewrite (proj2 (Z.leb_gt _ _)) by lia.
  assert (get ipc_header_t "version" (m ++ drop (length m) (c_buffer_in st)) = Ret 0) as ->.
  { exact (get_u8 ipc_header_t "version" 0 m _ (z2b 0) eq_refl ltac:(lia) eq_refl). }
  run. change (negb (0 =? IPC_MSG_VERSION)) with false. cbv iota.
  assert (get ipc_header_t "id" (m ++ drop (length m) (c_buffer_in st)) = Ret (id_val i)) as ->.
  { rewrite (get_u8 ipc_header_t "id" 1 m _ (z2b (id_val i)) eq_refl ltac:(lia) eq_refl).
    rewrite b2z_z2b. by destruct i. }
  run. by destruct i.
Qed.

(** C24: an object dictionary write that the client library packs becomes one call of
    [OD_set_value] with the index, the subindex and the value it was given; nothing else
    happens but that the receive buffer changes. *)
Theorem ipc_consume_od_write_packed idx sub d m clients base config crc32 errno od st :
  zlen (c_buffer_in st) = IPC_MSG_MAX_LEN ->
  pack IPC_MSG_ID_OD_WRITE (py_fmt IPC_MSG_ID_OD_WRITE) [VInt idx; VInt sub; VBytes d] = Some m ->
  ipc_consume_process true (Some m) clients base config crc32 errno od st
  = Ret (set_buffer_in (m ++ drop (length m) (c_buffer_in st)) st,
         [OD_set_value idx sub d (clients <=? 1)]).
Proof.
  intros Hbuf Hp. pose proof (pack_inv _ _ _ _ Hp) as (r & Hr & Hm).
  assert (4 <= zlen r <= 259) as Hlen.
  { apply pack_fields_cons in Hr as (? & ? & b1 & r1 & [= <- <-] & -> & Hr & _ & _ & ->).
    apply pack_fields_cons in Hr as (? & ? & b2 & r2 & [= <- <-] & -> & Hr & _ & _ & ->).
    apply pack_fields_cons in Hr as (? & ? & b3 & r3 & [= <- <-] & -> & [= <-] & _ & _ & Hd & ->).
    pose proof (zlen_nonneg d). rewrite !zlen_app. unfold zlen in *. rewrite !length_le_bytes. simpl. lia. }
  rewrite Hm at 1. rewrite consume_dispatch by (done || lia || (apply zlen_ne; lia)). rewrite <- Hm.
  assert (zlen m = 2 + zlen r) as Hml by (rewrite Hm; unfold zlen; simpl; lia).
  unfold ipc_consume_od_write. change (sizeof ipc_msg_od_t) with 261. change IPC_MSG_OD_MIN_LEN with 6.
  rewrite (proj2 (Z.ltb_ge _ _)) by lia. rewrite (proj2 (Z.ltb_ge _ _)) by lia. cbn [orb c_buffer_in set_buffer_in].
  set (rest := drop _ _).
  pose proof (pack_get IPC_MSG_ID_OD_WRITE _ m rest "index" (VInt idx) eq_refl Hp eq_refl) as Hget1.
  pose proof (pack_get IPC_MSG_ID_OD_WRITE _ m rest "subindex" (VInt sub) eq_refl Hp eq_refl) as Hget2.
  destruct (pack_get IPC_MSG_ID_OD_WRITE _ m rest "buffer" (VBytes d) eq_refl Hp eq_refl) as [Hget3 Hget4].
  cbn [c_struct] in Hget1, Hget2, Hget3, Hget4.
  rewrite Hget1. run. rewrite Hget2. run.
  rewrite Hget3. run. by rewrite Hget4.
Qed.

(** The length byte of a write is not compared with the bytes received: a write that
    announces [n] bytes and carries fewer sets the value to the bytes received followed by
    what earlier messages left in the static buffer. *)
Theorem ipc_consume_od_write_stale idx sub n d clients base config crc32 errno od st :
  zlen (c_buffer_in st) = IPC_MSG_MAX_LEN ->
  in_u 16 idx -> in_u 8 sub -> zlen d <= n <= 255 ->
  let m := [z2b 0; z2b 2] ++ le_bytes 2 idx ++ [z2b sub; z2b n] ++ d in
  exists st', ipc_consume_process true (Some m) clients base config crc32 errno od st
    = Ret (st', [OD_set_value idx sub
                   (d ++ take (Z.to_nat n - length d) (drop (length m) (c_buffer_in st)))
                   (clients <=? 1)]).
Proof.
  intros Hbuf Hi Hs Hn m. pose proof (zlen_nonneg d).
  set (r := le_bytes 2 idx ++ [z2b sub; z2b n] ++ d).
  assert (zlen r = 4 + zlen d) as Hr by zlia.
  assert (zlen m = 6 + zlen d) as Hm by zlia.
  change m with (z2b IPC_MSG_VERSION :: z2b (id_val IPC_MSG_ID_OD_WRITE) :: r).
  rewrite consume_dispatch by (done || lia).
  change (z2b IPC_MSG_VERSION :: z2b (id_val IPC_MSG_ID_OD_WRITE) :: r) with m.
  unfold ipc_consume_od_write. change (sizeof ipc_msg_od_t) with 261. change IPC_MSG_OD_MIN_LEN with 6.
  rewrite (proj2 (Z.ltb_ge _ _)) by lia. rewrite (proj2 (Z.ltb_ge _ _)) by lia. cbn [orb c_buffer_in set_buffer_in].
  set (rest := drop (length m) (c_buffer_in st)).
  assert (zlen rest = 994 - zlen d) as Hrest.
  { unfold rest, IPC_MSG_MAX_LEN, zlen in *. rewrite length_drop. lia. }
  assert (get ipc_msg_od_t "index" (m ++ rest) = Ret idx) as ->.
  { unfold get. change (field ipc_msg_od_t "index") with (Some (2, U16)). cbn [csize].
    rewrite mem_read_ok by (rewrite ?zlen_app; lia). run.
    change (take _ _) with (le_bytes 2 idx). f_equal. by apply le_val_le_bytes_small. }
  run.
  assert (get ipc_msg_od_t "subindex" (m ++ rest) = Ret sub) as ->.
  { unfold get. change (field ipc_msg_od_t "subindex") with (Some (4, U8)). cbn [csize].
    rewrite mem_read_ok by (rewrite ?zlen_app; lia). run.
    change (take _ _) with (le_bytes 1 sub). f_equal. by apply le_val_le_bytes_small. }
  run.
  assert (get_len ipc_msg_od_t "buffer" (m ++ rest) = Ret n) as ->.
  { unfold get_len. change (offsetof ipc_msg_od_t "buffer") with 5.
    rewrite mem_read_ok by (rewrite ?zlen_app; lia). run.
    change (take _ _) with (le_bytes 1 n). f_equal. apply le_val_le_bytes_small.
    change (256 ^ Z.of_nat 1) with 256. lia. }
  run.
  assert (get_data ipc_msg_od_t "buffer" n (m ++ rest)
          = Ret (d ++ take (Z.to_nat n - length d) rest)) as ->.
  { unfold get_data. change (data_offset ipc_msg_od_t "buffer") with 6.
    rewrite mem_read_ok by (rewrite ?zlen_app; lia). f_equal.
    change (drop (Z.to_nat 6) (m ++ rest)) with (d ++ rest).
    rewrite take_app, (firstn_all2 d) by zlia. done. }
  run. eexists. reflexivity.
Qed.

(** The sync and emergency messages the client library packs have no effect: the first has
    only a header, which is taken for too short, and the second is two bytes longer than the
    struct. *)
Theorem ipc_consume_sync_emcy_dropped code info m1 m2 clients base config crc32 errno od st :
  zlen (c_buffer_in st) = IPC_MSG_MAX_LEN ->
  pack IPC_MSG_ID_SYNC_SEND (py_fmt IPC_MSG_ID_SYNC_SEND) [] = Some m1 ->
  pack IPC_MSG_ID_EMCY_SEND (py_fmt IPC_MSG_ID_EMCY_SEND) [VInt code; VInt info] = Some m2 ->
  (exists st1, ipc_consume_process true (Some m1) clients base config crc32 errno od st = Ret (st1, [])) /\
  (exists st2, ipc_consume_process true (Some m2) clients base config crc32 errno od st = Ret (st2, [])).
Proof.
  intros Hbuf (r0 & [= <-] & ->)%pack_inv (r & Hr & ->)%pack_inv. split.
  - unfold ipc_consume_process. cbn [negb]. rewrite mem_write_front by (rewrite Hbuf; done).
    run. by eexists.
  - apply pack_fields_cons in Hr as (? & ? & b1 & r1 & [= <- <-] & -> & Hr & _ & _ & ->).
    apply pack_fields_cons in Hr as (? & ? & b2 & r2 & [= <- <-] & -> & [= <-] & _ & _ & ->).
    rewrite consume_dispatch by done. by eexists.
Qed.

(** A TPDO request is checked against the number of TPDOs of the loaded configuration
    before the offset of the application's TPDOs is added: with an extended dictionary the
    last [CNT_TPDO base_config] numbers that pass the check index past the end of
    [co->TPDO]. *)
Theorem ipc_consume_tpdo_send_packed n m clients base config crc32 errno od st :
  zlen (c_buffer_in st) = IPC_MSG_MAX_LEN -> zlen (c_sendRequest st) = CNT_TPDO config ->
  in_u 8 (CNT_TPDO base) ->
  pack IPC_MSG_ID_TPDO_SEND (py_fmt IPC_MSG_ID_TPDO_SEND) [VInt n] = Some m ->
  let st1 := set_buffer_in (m ++ drop (length m) (c_buffer_in st)) st in
  let k := if CNT_TPDO base =? CNT_TPDO config then n else n + CNT_TPDO base in
  ipc_consume_process true (Some m) clients base config crc32 errno od st
  = if CNT_TPDO config <=? n then Ret (st1, [])
    else if k <? CNT_TPDO config
    then Ret (set_sendRequest (<[Z.to_nat k := true]> (c_sendRequest st)) st1, [])
    else Undef UbBounds.
Proof.
  intros Hbuf Htp Hb (r & Hr & ->)%pack_inv st1 k.
  apply pack_fields_cons in Hr as (? & ? & b1 & r1 & [= <- <-] & -> & [= <-] & _ & Hn & ->).
  rewrite consume_dispatch by done. fold st1. unfold ipc_consume_tpdo_send.
  destruct (negb (zlen _ =? sizeof _)) eqn:E; [discriminate E|]. clear E.
  assert (get ipc_msg_tpdo_send_t "number" (c_buffer_in st1) = Ret n) as ->.
  { subst st1. cbn [c_buffer_in set_buffer_in].
    rewrite (get_u8 _ _ 2 _ _ (z2b n)) by done. rewrite b2z_z2b.
    cbn in Hn. apply andb_true_iff in Hn as [?%Z.leb_le ?%Z.ltb_lt]. by rewrite Z.mod_small by lia. }
  run. rewrite Z.ltb_antisym. destruct (Z.leb_spec (CNT_TPDO config) n); [done|].
  cbn [negb]. change (c_sendRequest st1) with (c_sendRequest st). rewrite Htp.
  rewrite (wrap_small 8) by done.
  assert (n + (if negb (CNT_TPDO base =? CNT_TPDO config) then CNT_TPDO base else 0) = k) as ->; [|done].
  subst k. destruct (_ =? _); cbn [negb]; lia.
Qed.

(** A handler's result is defined, the buffers keep their sizes and the files are left. *)
Definition handled (st : consumer F) (r : handler_result) : Prop :=
  exists st' ev, r = Ret (st', ev) /\
    zlen (c_buffer_in st') = IPC_MSG_MAX_LEN /\ zlen (c_sendRequest st') = zlen (c_sendRequest st) /\
    c_fs st' = c_fs st /\ c_reset st' = c_reset st.

Lemma handled_same st ev : zlen (c_buffer_in st) = IPC_MSG_MAX_LEN -> handled st (Ret (st, ev)).
Proof. intros. by exists st, ev. Qed.

Lemma get_buffer l f off t m :
  field l f = Some (off, t) -> 0 <= off -> off + csize t <= IPC_MSG_MAX_LEN ->
  zlen m = IPC_MSG_MAX_LEN -> exists z, get l f m = Ret z.
Proof. intros Hf Ho Hs Hm. apply (get_ok _ _ off t); [done..|lia]. Qed.

Lemma emcy_send_handled n st :
  zlen (c_buffer_in st) = IPC_MSG_MAX_LEN -> handled st (ipc_consume_emcy_send n st).
Proof.
  intros Hb. unfold ipc_consume_emcy_send. case_match; [by apply handled_same|].
  destruct (get_buffer ipc_msg_emcy_send_t "code" 2 U16 _ eq_refl ltac:(lia) ltac:(done) Hb) as [z1 ->].
  destruct (get_buffer ipc_msg_emcy_send_t "info" 4 U32 _ eq_refl ltac:(lia) ltac:(done) Hb) as [z2 ->].
  by apply handled_same.
Qed.

Lemma tpdo_send_handled n base config st :
  zlen (c_buffer_in st) = IPC_MSG_MAX_LEN -> zlen (c_sendRequest st) = CNT_TPDO config ->
  CNT_TPDO base = CNT_TPDO config -> handled st (ipc_consume_tpdo_send n base config st).
Proof.
  intros Hb Hl Heq. unfold ipc_consume_tpdo_send. case_match; [by apply handled_same|].
  destruct (get_buffer ipc_msg_tpdo_send_t "number" 2 U8 _ eq_refl ltac:(lia) ltac:(done) Hb) as [z1 ->].
  run. destruct (Z.ltb_spec z1 (CNT_TPDO config)); [|by apply handled_same].
  rewrite Heq, Z.eqb_refl. cbn [negb]. rewrite (proj2 (Z.ltb_lt _ _)) by lia.
  eexists _, _. split; [done|]. split_and!; [done| |done|done].
  unfold zlen. cbn. by rewrite length_insert.
Qed.

Lemma od_write_handled n clients st :
  zlen (c_buffer_in st) = IPC_MSG_MAX_LEN -> handled st (ipc_consume_od_write n clients st).
Proof.
  intros Hb. unfold ipc_consume_od_write. case_match; [by apply handled_same|].
  destruct (get_buffer ipc_msg_od_t "index" 2 U16 _ eq_refl ltac:(lia) ltac:(done) Hb) as [z1 ->].
  destruct (get_buffer ipc_msg_od_t "subindex" 4 U8 _ eq_refl ltac:(lia) ltac:(done) Hb) as [z2 ->].
  run. unfold IPC_MSG_MAX_LEN in Hb.
  destruct (get_len_ok ipc_msg_od_t "buffer" (c_buffer_in st)) as (len & -> & Hlen).
  { change (offsetof ipc_msg_od_t "buffer") with 5. lia. }
  run.
  destruct (get_data_ok ipc_msg_od_t "buffer" len (c_buffer_in st)) as [d ->].
  1-3: change (offsetof ipc_msg_od_t "buffer") with 5; lia.
  by apply handled_same.
Qed.

Lemma sync_send_handled config st :
  zlen (c_buffer_in st) = IPC_MSG_MAX_LEN -> handled st (ipc_consume_sync_send config st).
Proof. intros. unfold ipc_consume_sync_send. case_match; by apply handled_same. Qed.

Lemma process_handled msg clients base config crc32 errno od st :
  zlen (c_buffer_in st) = IPC_MSG_MAX_LEN -> zlen (c_sendRequest st) = CNT_TPDO config ->
  CNT_TPDO base = CNT_TPDO config ->
  (forall m, msg = Some m -> m !! 1%nat <> Some (z2b (id_val IPC_MSG_ID_CONFIG))) ->
  handled st (ipc_consume_process true msg clients base config crc32 errno od st).
Proof.
  intros Hbuf Htp Heq Hid. unfold ipc_consume_process. cbn [negb].
  destruct msg as [m|]; [|by apply handled_same]. specialize (Hid m eq_refl).
  set (m0 := take (Z.to_nat IPC_MSG_MAX_LEN) m).
  assert (zlen m0 <= zlen (c_buffer_in st)) as Hm0.
  { rewrite Hbuf. unfold m0, IPC_MSG_MAX_LEN, zlen. rewrite length_take. lia. }
  rewrite mem_write_front by done. run.
  pose proof (zlen_overlay m0 (c_buffer_in st) Hm0) as Hl. rewrite Hbuf in Hl.
  set (rest := drop _ _) in *. set (st1 := set_buffer_in (m0 ++ rest) st).
  change (handled st) with (handled st1). destruct (Z.leb_spec (zlen m) (sizeof ipc_header_t)) as [|Hlen].
  { by apply handled_same. }
  destruct (get_buffer ipc_header_t "version" 0 U8 (m0 ++ rest) eq_refl ltac:(lia) ltac:(done) Hl) as [v ->].
  run. case_match; [by apply handled_same|].
  change (sizeof ipc_header_t) with 2 in Hlen.
  destruct (lookup_lt_is_Some_2 m 1) as [b Hb]; [unfold zlen in *; lia|].
  assert (m0 !! 1%nat = Some b) as Hb0 by (unfold m0; rewrite lookup_take_lt by (vm_compute; lia); done).
  rewrite (get_u8 ipc_header_t "id" 1 m0 rest b eq_refl ltac:(lia) Hb0). run.
  case_match; [by apply emcy_send_handled|]. case_match; [by apply tpdo_send_handled|].
  case_match; [by apply od_write_handled|]. case_match; [by apply sync_send_handled|].
  destruct (Z.eqb_spec (b2z b) (id_val IPC_MSG_ID_CONFIG)) as [E|]; [|by apply handled_same].
  destruct Hid. rewrite Hb. f_equal. apply b2z_inj. by rewrite E, b2z_z2b.
Qed.

(** C2: no message of any content or length makes the consumer touch memory outside its
    buffer, when the TPDO counts of the two configurations agree; configuration updates are
    the file operations of another component and excepted.  The buffers keep their sizes,
    and the files and the reset flag are left alone. *)
Theorem ipc_consume_process_safe msg clients base config crc32 errno od st :
  zlen (c_buffer_in st) = IPC_MSG_MAX_LEN -> zlen (c_sendRequest st) = CNT_TPDO config ->
  CNT_TPDO base = CNT_TPDO config ->
  (forall m, msg = Some m -> m !! 1%nat <> Some (z2b (id_val IPC_MSG_ID_CONFIG))) ->
  handled st (ipc_consume_process true msg clients base config crc32 errno od st).
Proof. apply process_handled. Qed.

(** Writing the terminator and reading the path stay inside the buffer. *)
Lemma terminate_path_ok l f buffer :
  0 <= offsetof l f -> offsetof l f + 257 <= zlen buffer ->
  exists b p, terminate_path l f buffer = Ret (b, p) /\ zlen b = zlen buffer.
Proof.
  intros Ho Hl. unfold terminate_path.
  destruct (get_len_ok l f buffer) as (n & -> & Hn); [lia|]. run.
  unfold data_offset. set (off := offsetof l f + 1).
  destruct (mem_write buffer (off + n) [NUL]) as [b|u] eqn:Hw.
  2:{ rewrite mem_write_ok in Hw; [done|lia|]. change (zlen [NUL]) with 1. lia. }
  pose proof (mem_write_length _ _ _ _ Hw) as Hbl. run.
  assert (drop (Z.to_nat off) b !! Z.to_nat n = Some NUL) as Hnul.
  { rewrite mem_write_ok in Hw; [|lia|change (zlen [NUL]) with 1; lia]. injection Hw as <-.
    rewrite lookup_drop, lookup_app_r by (rewrite length_take; unfold zlen in *; lia).
    rewrite length_take. replace (_ - _)%nat with 0%nat by zlia. done. }
  unfold c_str. rewrite decide_True by (by eapply list_elem_of_lookup_2).
  run. eexists _, _. split; [done|]. unfold zlen. by rewrite Hbl.
Qed.

(** The path of a message the client library packed. *)
Lemma terminate_path_packed i f vs p m rest :
  map snd (c_struct i) = map snd ipc_header_t ++ py_fmt i ->
  pack i (py_fmt i) vs = Some m -> wf_cstr p ->
  value_of (c_struct i) (VInt IPC_MSG_VERSION :: VInt (id_val i) :: vs) f = Some (VStr p) ->
  0 <= offsetof (c_struct i) f -> offsetof (c_struct i) f + 1 + zlen p < zlen (m ++ rest) ->
  exists buffer, terminate_path (c_struct i) f (m ++ rest) = Ret (buffer, p) /\
    zlen buffer = zlen (m ++ rest).
Proof.
  intros Hfmt Hp Hwf Hv Ho Hlen. pose proof (pack_get i vs m rest f (VStr p) Hfmt Hp Hv) as [Hn Hd].
  unfold terminate_path. rewrite Hn. run.
  unfold get_data, data_offset in *. set (off := offsetof (c_struct i) f + 1) in *.
  pose proof (zlen_nonneg p). set (buf := m ++ rest) in *.
  rewrite mem_write_ok by zlia. run.
  set (buf' := take _ buf ++ _).
  assert (drop (Z.to_nat off) buf' = p ++ NUL :: drop (Z.to_nat (off + zlen p) + 1) buf) as ->.
  { rewrite mem_read_ok in Hd by lia. injection Hd as Hd. subst buf'. cbn [app length].
    rewrite drop_app_le by (rewrite length_take; unfold zlen in *; lia).
    f_equal. rewrite take_drop_commute in Hd. rewrite <- Hd at 2. do 2 f_equal. lia. }
  rewrite c_str_with_nul by done. run. eexists. split; [done|].
  subst buf'. unfold zlen in *. rewrite length_app, length_take. simpl. rewrite length_drop. lia.
Qed.

Lemma consume_config_spec p m same clients base config crc32 errno od st :
  zlen (c_buffer_in st) = IPC_MSG_MAX_LEN -> wf_cstr p ->
  pack IPC_MSG_ID_CONFIG (py_fmt IPC_MSG_ID_CONFIG) [VStr p] = Some m ->
  is_file (c_fs st) p = true ->
  check_file_crc32_match crc32 errno (c_fs st) od p = Ret same ->
  let fs1 := snd (mkdir_path (c_fs st) (Some (dirname od))) in
  let r := ipc_consume_process true (Some m) clients base config crc32 errno od st in
  if same then exists st', r = Ret (st', []) /\ c_fs st' = c_fs st /\ c_reset st' = c_reset st
  else forall c fs2, is_dir fs1 od = false -> can_copy fs1 p od c fs2 ->
    exists st', r = Ret (st', []) /\ fs_read (c_fs st') od = inr (fst (copied c)) /\
      c_reset st' = (if snd (copied c) <? 0 then c_reset st else true) /\
      zlen (c_buffer_in st') = IPC_MSG_MAX_LEN /\ c_sendRequest st' = c_sendRequest st.
Proof.
  intros Hbuf Hwf Hp Hfile Hcrc fs1 res. subst res.
  pose proof (pack_inv _ _ _ _ Hp) as (r & Hr & Hm).
  apply pack_fields_cons in Hr as (? & ? & b & r1 & [= <- <-] & -> & [= <-] & _ & _ & Hlp & ->).
  rewrite app_nil_r in Hm. pose proof (zlen_nonneg p).
  assert (zlen m = 3 + zlen p) as Hml by (rewrite Hm; unfold zlen; simpl; lia).
  assert (ipc_consume_process true (Some m) clients base config crc32 errno od st
    = ipc_consume_config crc32 errno (zlen m) od
        (set_buffer_in (m ++ drop (length m) (c_buffer_in st)) st)) as ->.
  { rewrite Hm at 1. rewrite consume_dispatch; [|done|done|unfold zlen in *; simpl; lia].
    by rewrite <- Hm. }
  unfold ipc_consume_config. change (sizeof ipc_msg_file_t) with 258. change IPC_MSG_FILE_MIN_LEN with 3.
  rewrite (proj2 (Z.ltb_ge _ _)) by lia. rewrite (proj2 (Z.ltb_ge _ _)) by lia.
  cbn [orb c_buffer_in set_buffer_in]. set (rest := drop _ _).
  assert (zlen (m ++ rest) = 1000) as Hl.
  { unfold rest. rewrite zlen_overlay; [done|]. unfold IPC_MSG_MAX_LEN in *. lia. }
  destruct (terminate_path_packed IPC_MSG_ID_CONFIG "path" _ p m rest eq_refl Hp Hwf eq_refl)
    as (buffer & Ht & Hbl).
  { done. }
  { change (offsetof _ _) with 2. lia. }
  cbn [c_struct] in Ht. rewrite Ht. run.
  change (c_fs (set_buffer_in _ (set_buffer_in _ _))) with (c_fs st).
  rewrite Hfile, Hcrc. run. destruct same; [by eexists|].
  intros c fs2 Hdir Hcan. fold fs1 in Hdir, Hcan |- *.
  destruct (mkdir_path (c_fs st) (Some (dirname od))) as [r0 fs0].
  change fs1 with fs0 in *. destruct (copy_file_result fs0 fs2 p od c Hcan) as (fs3 & Hc & Hread).
  unfold copy_target in Hread. rewrite Hdir in Hc, Hread. cbn [andb] in Hc. rewrite Hc. run.
  destruct (snd (copied c) <? 0); run; eexists; (split; [done|]); (split; [exact Hread|]); (split; [done|]);
    (split; [|done]); cbn; by rewrite Hbl, Hl.
Qed.

(** When the client library announces a configuration file whose CRC differs from the
    stored one, the file is copied over the stored configuration, as far as the kernel's
    transfers go, and a reset is requested unless one of them failed; when the CRCs agree, files
    and reset flag stay as they are. *)
Theorem ipc_consume_config_updates p m same clients base config crc32 errno od st :
  zlen (c_buffer_in st) = IPC_MSG_MAX_LEN -> wf_cstr p ->
  pack IPC_MSG_ID_CONFIG (py_fmt IPC_MSG_ID_CONFIG) [VStr p] = Some m ->
  is_file (c_fs st) p = true ->
  check_file_crc32_match crc32 errno (c_fs st) od p = Ret same ->
  let fs1 := snd (mkdir_path (c_fs st) (Some (dirname od))) in
  let r := ipc_consume_process true (Some m) clients base config crc32 errno od st in
  if same then exists st', r = Ret (st', []) /\ c_fs st' = c_fs st /\ c_reset st' = c_reset st
  else forall c fs2, is_dir fs1 od = false -> can_copy fs1 p od c fs2 ->
    exists st', r = Ret (st', []) /\ fs_read (c_fs st') od = inr (fst (copied c)) /\
      c_reset st' = (if snd (copied c) <? 0 then c_reset st else true) /\
      zlen (c_buffer_in st') = IPC_MSG_MAX_LEN /\ c_sendRequest st' = c_sendRequest st.
Proof. apply consume_config_spec. Qed.
End ConsumeProps.

(** ** Witnesses: the theorems at concrete inputs *)

Definition sample_consumer : consumer memfs :=
  mkConsumer (replicate 1000 NUL) [false; false; false] sample_fs false.
Definition config3 : CO_config := mkConfig 3 1.
Definition base1 : CO_config := mkConfig 1 1.

(** A checksum for evaluation: the length. *)
Definition len_crc (b : bytes) : Z := zlen b.

Definition consume (base : CO_config) (m : bytes) : handler_result (F := memfs) :=
  ipc_consume_process (HP := armhf) (CE := sendfile_whole) true (Some m) 1 base config3 len_crc 0
    (cs "/d/od.csv") sample_consumer.

Lemma ipc_consume_process_safe_witness :
  handled sample_consumer (consume config3 [x00; x02; xff]).
Proof.
  apply (ipc_consume_process_safe (HP := armhf) (CE := sendfile_whole)); try by_compute.
  intros m [= <-]. vm_compute. congruence.
Defined.

Lemma ipc_consume_od_write_packed_witness :
  exists st', consume config3 [x00; x02; x01; x40; x03; x02; x61; x62]
    = Ret (st', [OD_set_value 0x4001 3 (cs "ab") true]).
Proof.
  eexists. apply (ipc_consume_od_write_packed (HP := armhf) (CE := sendfile_whole)); by_compute.
Defined.

Lemma ipc_consume_sync_emcy_dropped_witness :
  exists st', consume config3 [x00; x08] = Ret (st', []).
Proof.
  exact (proj1 (ipc_consume_sync_emcy_dropped (HP := armhf) (CE := sendfile_whole) 0x8110 7
    [x00; x08] [x00; x00; x10; x81; x00; x00; x07; x00; x00; x00] 1 config3 config3 len_crc 0
    (cs "/d/od.csv") sample_consumer eq_refl ltac:(vm_compute; reflexivity) ltac:(vm_compute; reflexivity))).
Defined.

Lemma ipc_consume_tpdo_send_packed_witness : consume base1 [x00; x01; x02] = Undef UbBounds.
Proof.
  exact (ipc_consume_tpdo_send_packed (HP := armhf) (CE := sendfile_whole) 2 [x00; x01; x02] 1 base1 config3
    len_crc 0 (cs "/d/od.csv") sample_consumer eq_refl eq_refl ltac:(by_compute) ltac:(vm_compute; reflexivity)).
Defined.

(** The file system with the directory of the configuration and its new, empty copy. *)
Definition config_dir_fs : memfs := snd (mkdir_path sample_fs (Some (dirname (cs "/d/od.csv")))).
Definition config_new_fs : memfs :=
  <[copy_target config_dir_fs (cs "/f") (cs "/d/od.csv") := NFile []]> config_dir_fs.

Definition config_message : bytes := [x00; x0c; x02] ++ cs "/f".

Lemma config_can_copy : can_copy config_dir_fs (cs "/f") (cs "/d/od.csv") (cs "hello") config_new_fs.
Proof.
  split; [vm_compute; reflexivity|]. split; [intros E; vm_compute in E; discriminate E|].
  split; [|split; vm_compute; reflexivity]. apply mem_fs_create_new. vm_compute. reflexivity.
Defined.

Lemma ipc_consume_config_updates_witness :
  exists st', consume config3 config_message = Ret (st', []) /\ c_reset st' = true
    /\ fs_read (c_fs st') (cs "/d/od.csv") = inr (cs "hello").
Proof.
  destruct (ipc_consume_config_updates (HP := armhf) (CE := sendfile_whole) (cs "/f") config_message false 1
    config3 config3 len_crc 0 (cs "/d/od.csv") sample_consumer
    ltac:(by_compute) ltac:(by_decide) ltac:(by_compute) ltac:(by_compute) ltac:(by_compute)
    (cs "hello") config_new_fs ltac:(by_compute) config_can_copy) as (st' & H1 & H2 & H3 & _).
  by exists st'.
Defined.
