(* ===== verification/IpcRespond.v ===== *)
(** * src/ipc/ipc_respond.c: requests of the clients and their replies

    A request is three frames (the client's identity, an empty one and the message); the
    reply repeats the first two.  The receive and send buffers are static.  The SDO client is
    used through the interface [SdoOps]; the file cache is that of [Fcache], and both work on
    the same file system. *)

From Stdlib Require Import Strings.Byte.
From S2P Require Import Prelude CLib ODInterface FileSys MemFS System Fcache IpcMsg IpcBroadcast IpcConsume SdoClient.

Definition ZMQ_HEADER_LEN : Z := 5.

(** The static buffers, the SDO client (when the node has one), the cache and the file system. *)
Record responder (D F : Type) := mkResponder {
  r_buffer_in : bytes;
  r_buffer_out : bytes;
  r_sdo : option D;
  r_cache : option fcache_t;
  r_fs : F;
}.
Arguments mkResponder {D F}. Arguments r_buffer_in {D F}. Arguments r_buffer_out {D F}.
Arguments r_sdo {D F}. Arguments r_cache {D F}. Arguments r_fs {D F}.

Section IpcRespond.
Context `{FS : FileSystem F} `{HS : SdoOps D F} `{HP : Platform} `{CE : CopyEnv}.

Definition set_in (b : bytes) (st : responder D F) : responder D F :=
  mkResponder b (r_buffer_out st) (r_sdo st) (r_cache st) (r_fs st).
Definition set_out (b : bytes) (st : responder D F) : responder D F :=
  mkResponder (r_buffer_in st) b (r_sdo st) (r_cache st) (r_fs st).
Definition set_sdo (s : D) (st : responder D F) : responder D F :=
  mkResponder (r_buffer_in st) (r_buffer_out st) (Some s) (r_cache st) (r_fs st).
Definition set_fs (fs : F) (st : responder D F) : responder D F :=
  mkResponder (r_buffer_in st) (r_buffer_out st) (r_sdo st) (r_cache st) fs.

(** A handler gives the length of the reply in [buffer_out], 0 for none. *)
Definition reply_result : Type := res (Z * responder D F).

Definition make_sdo_abort_msg (abort_code : Z) (st : responder D F) : reply_result :=
  b ← put ipc_msg_error_abort_t "version" IPC_MSG_VERSION (r_buffer_out st);
  b ← put ipc_msg_error_abort_t "id" (id_val IPC_MSG_ID_ERROR_ABORT) b;
  b ← put ipc_msg_error_abort_t "code" abort_code b;
  Ret (sizeof ipc_msg_error_abort_t, set_out b st).

(** [memcpy(buffer_out, buffer_in, buffer_in_recv)]. *)
Definition echo (buffer_in_recv : Z) (st : responder D F) : reply_result :=
  d ← mem_read (r_buffer_in st) 0 buffer_in_recv;
  b ← mem_write (r_buffer_out st) 0 d;
  mret (buffer_in_recv, set_out b st).

Definition ipc_respond_sdo_read (buffer_in_recv : Z) (st : responder D F) : reply_result :=
  match r_sdo st with
  | None => mret (0, st)
  | Some client =>
      if (buffer_in_recv <? IPC_MSG_SDO_MIN_LEN) || (sizeof ipc_msg_sdo_t <? buffer_in_recv)
      then mret (0, st)
      else
        node_id ← get ipc_msg_sdo_t "node_id" (r_buffer_in st);
        index ← get ipc_msg_sdo_t "index" (r_buffer_in st);
        subindex ← get ipc_msg_sdo_t "subindex" (r_buffer_in st);
        '(ac, data, client) ← sdo_read_dynamic client node_id index subindex false;
        let st := set_sdo client st in
        if ac =? CO_SDO_AB_NONE then
          match data with
          | None => echo buffer_in_recv st
          | Some data =>
              if IPC_MSG_MAX_LEN <? wrap LONG_BITS (buffer_in_recv + zlen data)
              then make_sdo_abort_msg CO_SDO_AB_DATA_LONG st
              else
                '(_, st) ← echo buffer_in_recv st;
                b ← mem_write (r_buffer_out st) buffer_in_recv data;
                mret (buffer_in_recv + zlen data, set_out b st)
          end
        else make_sdo_abort_msg ac st
  end.

Definition ipc_respond_sdo_write (buffer_in_recv : Z) (st : responder D F) : reply_result :=
  match r_sdo st with
  | None => mret (0, st)
  | Some client =>
      if (buffer_in_recv <? IPC_MSG_SDO_MIN_LEN) || (sizeof ipc_msg_sdo_t <? buffer_in_recv)
      then mret (0, st)
      else
        node_id ← get ipc_msg_sdo_t "node_id" (r_buffer_in st);
        index ← get ipc_msg_sdo_t "index" (r_buffer_in st);
        subindex ← get ipc_msg_sdo_t "subindex" (r_buffer_in st);
        len ← get_len ipc_msg_sdo_t "buffer" (r_buffer_in st);
        data ← get_data ipc_msg_sdo_t "buffer" len (r_buffer_in st);
        '(ac, client) ← sdo_write client node_id index subindex data;
        let st := set_sdo client st in
        if ac =? CO_SDO_AB_NONE then echo buffer_in_recv st else make_sdo_abort_msg ac st
  end.

(** The length is checked against one struct and the path is read with another. *)
Definition ipc_respond_add_file (buffer_in_recv : Z) (st : responder D F) : reply_result :=
  match r_cache st with
  | None => mret (0, st)
  | Some fread_cache =>
      if (buffer_in_recv <? IPC_MSG_FILE_MIN_LEN) || (sizeof ipc_msg_file_t <? buffer_in_recv)
      then mret (0, st)
      else
        '(b, p) ← terminate_path ipc_msg_sdo_file_t "path" (r_buffer_in st);
        let st := set_in b st in
        '(error, fs) ← fcache_add (Some fread_cache) (r_fs st) p false;
        let st := set_fs fs st in
        if negb (error =? 0) then echo buffer_in_recv st
        else
          b ← mem_write (r_buffer_out st) 0 [z2b (id_val IPC_MSG_ID_ERROR_ABORT); z2b error];
          mret (2, set_out b st)
  end.

(** The two file transfers differ in the SDO operation only. *)
Definition respond_sdo_file (op : D -> F -> Z -> Z -> Z -> path -> res (Z * D * F))
    (buffer_in_recv : Z) (st : responder D F) : reply_result :=
  match r_sdo st with
  | None => mret (0, st)
  | Some client =>
      if (buffer_in_recv <? IPC_MSG_SDO_FILE_MIN_LEN) || (sizeof ipc_msg_sdo_file_t <? buffer_in_recv)
      then mret (0, st)
      else
        '(b, p) ← terminate_path ipc_msg_sdo_file_t "path" (r_buffer_in st);
        let st := set_in b st in
        node_id ← get ipc_msg_sdo_file_t "node_id" b;
        index ← get ipc_msg_sdo_file_t "index" b;
        subindex ← get ipc_msg_sdo_file_t "subindex" b;
        '(ac, client, fs) ← op client (r_fs st) node_id index subindex p;
        let st := set_fs fs (set_sdo client st) in
        if ac =? CO_SDO_AB_NONE then echo buffer_in_recv st else make_sdo_abort_msg ac st
  end.

Definition ipc_respond_sdo_read_to_file : Z -> responder D F -> reply_result :=
  respond_sdo_file sdo_read_to_file.
Definition ipc_respond_sdo_write_from_file : Z -> responder D F -> reply_result :=
  respond_sdo_file (fun client fs node_id index subindex p =>
    '(ac, client) ← sdo_write_from_file client fs node_id index subindex p; mret (ac, client, fs)).

(** The reply to an unknown id: the struct has 3 bytes, the length sent is that of another
    struct. *)
Definition unknown_id (id : Z) (st : responder D F) : reply_result :=
  b ← put ipc_msg_error_id_t "version" IPC_MSG_VERSION (r_buffer_out st);
  b ← put ipc_msg_error_id_t "id" (id_val IPC_MSG_ID_ERROR_UNKNOWN_ID) b;
  b ← put ipc_msg_error_id_t "id_" id b;
  Ret (sizeof ipc_msg_error_t, set_out b st).

Definition dispatch (id buffer_in_recv : Z) (st : responder D F) : reply_result :=
  if id =? id_val IPC_MSG_ID_SDO_READ then ipc_respond_sdo_read buffer_in_recv st
  else if id =? id_val IPC_MSG_ID_SDO_WRITE then ipc_respond_sdo_write buffer_in_recv st
  else if id =? id_val IPC_MSG_ID_ADD_FILE then ipc_respond_add_file buffer_in_recv st
  else if id =? id_val IPC_MSG_ID_SDO_READ_TO_FILE
  then ipc_respond_sdo_read_to_file buffer_in_recv st
  else if id =? id_val IPC_MSG_ID_SDO_WRITE_FROM_FILE
  then ipc_respond_sdo_write_from_file buffer_in_recv st
  else unknown_id id st.

(** The error message sent when the handler gave none. *)
Definition error_reply (st : responder D F) : reply_result :=
  b ← put ipc_msg_error_t "version" IPC_MSG_VERSION (r_buffer_out st);
  b ← put ipc_msg_error_t "id" (id_val IPC_MSG_ID_ERROR) b;
  b ← put ipc_msg_error_t "error" EINVAL b;
  Ret (sizeof ipc_msg_error_t, set_out b st).

(** The end of [ipc_respond_process]: a response is always sent. *)
Definition send_reply (header : bytes) (buffer_out_send : Z) (st : responder D F)
  : res (list bytes * responder D F) :=
  '(buffer_out_send, st) ←
    (if buffer_out_send =? 0 then error_reply st else mret (buffer_out_send, st));
  sent ← mem_read (r_buffer_out st) 0 buffer_out_send;
  mret ([header; []; sent], st).

(** The frames are what the three [zmq_msg_recv] calls deliver, [None] for a failure; the
    result is the frames sent and the state. *)
Definition ipc_respond_process (non_null init_ok : bool) (frame1 frame2 frame3 : option bytes)
    (st : responder D F) : res (list bytes * responder D F) :=
  if negb non_null || negb init_ok then mret ([], st) else
  match frame1, frame2, frame3 with
  | Some header, Some empty, Some m =>
      if negb (zlen header =? ZMQ_HEADER_LEN) then mret ([], st)
      else if negb (zlen empty =? 0) then mret ([], st)
      else if zlen m <=? 2 then mret ([], st)
      else
        b ← mem_write (r_buffer_in st) 0 m;
        let st := set_in b st in
        version ← get ipc_header_t "version" b;
        if negb (version =? IPC_MSG_VERSION) then mret ([], st) else
        id ← get ipc_header_t "id" b;
        '(buffer_out_send, st) ← dispatch id (zlen m) st;
        send_reply header buffer_out_send st
  | _, _, _ => mret ([], st)
  end.
End IpcRespond.

(** ** Properties *)

Section RespondProps.
Context `{FS : FileSystem F} `{HS : SdoOps D F} `{HP : Platform} `{CE : CopyEnv}.

Definition buffers_ok (st : responder D F) : Prop :=
  zlen (r_buffer_in st) = IPC_MSG_MAX_LEN /\ zlen (r_buffer_out st) = IPC_MSG_MAX_LEN.

Lemma put_at l f t v pre rest :
  field l f = Some (zlen pre, t) -> is_dyn t = false -> csize t <= zlen rest ->
  put l f v (pre ++ rest)
  = Ret ((pre ++ le_bytes (Z.to_nat (csize t)) v) ++ drop (Z.to_nat (csize t)) rest).
Proof.
  intros Hf Ht Hl. unfold put. rewrite Hf. pose proof (csize_pos t).
  assert ((match t with Dyn _ => 1 | _ => csize t end) = csize t) as -> by (by destruct t).
  rewrite mem_write_at; [by rewrite length_le_bytes|].
  unfold zlen in *. rewrite length_le_bytes. lia.
Qed.

Lemma put_header_at l id rest n :
  take 2 l = ipc_header_t -> 2 + n <= zlen rest -> 0 <= n ->
  (b ← put l "version" IPC_MSG_VERSION rest; put l "id" id b)
  = Ret ([z2b IPC_MSG_VERSION; z2b id] ++ drop 2 rest) .
Proof.
  intros Hl Hn H0. destruct l as [|f1 [|f2 l]]; [done..|]. injection Hl as -> ->.
  pose proof (put_at (("version", U8) :: ("id", U8) :: l) "version" U8 IPC_MSG_VERSION [] rest) as H1.
  cbn [app] in H1. rewrite H1; [|done|done|cbn; lia]. clear H1. cbn [mbind res_bind app].
  pose proof (put_at (("version", U8) :: ("id", U8) :: l) "id" U8 id [z2b IPC_MSG_VERSION] (drop 1 rest)) as H2.
  change (le_bytes (Z.to_nat (csize U8)) IPC_MSG_VERSION) with [z2b IPC_MSG_VERSION].
  change (drop (Z.to_nat (csize U8)) rest) with (drop 1 rest).
  rewrite H2; [|done|done|unfold zlen in *; cbn; rewrite length_drop; lia].
  cbn. by rewrite drop_drop.
Qed.

(** A message of a header and one scalar, written at the start of the send buffer. *)
Lemma put_message l i f t v (n : Z) (st : responder D F) :
  l = ipc_header_t ++ [(f, t)] -> field l f = Some (2, t) -> is_dyn t = false -> buffers_ok st ->
  (b ← put l "version" IPC_MSG_VERSION (r_buffer_out st);
   b ← put l "id" (id_val i) b; b ← put l f v b;
   Ret (n, set_out b st))
  = Ret (n, set_out (([z2b IPC_MSG_VERSION; z2b (id_val i)] ++ le_bytes (Z.to_nat (csize t)) v)
                            ++ drop (2 + Z.to_nat (csize t)) (r_buffer_out st)) st).
Proof.
  intros Hl Hf Ht [_ Hout]. pose proof (csize_pos t). unfold IPC_MSG_MAX_LEN in Hout.
  assert (csize t <= 256) as Hc by (by destruct t).
  pose proof (put_header_at l (id_val i) (r_buffer_out st) (csize t)) as Hh.
  destruct (put l "version" IPC_MSG_VERSION (r_buffer_out st)) as [b|u]; cbn [mbind res_bind] in *.
  2:{ discriminate Hh; [by rewrite Hl|lia|lia]. }
  rewrite Hh; [|by rewrite Hl|lia|lia]. run.
  rewrite (put_at l f t v [z2b IPC_MSG_VERSION; z2b (id_val i)]); [|done|done|].
  - run. rewrite drop_drop. done.
  - unfold zlen in *. rewrite length_drop. lia.
Qed.

Lemma make_sdo_abort_msg_spec ac st :
  buffers_ok st ->
  make_sdo_abort_msg ac st
  = Ret (6, set_out (([z2b 0; z2b 0x82] ++ le_bytes 4 ac) ++ drop 6 (r_buffer_out st)) st).
Proof.
  intros Hb. unfold make_sdo_abort_msg.
  by rewrite (put_message _ IPC_MSG_ID_ERROR_ABORT "code" U32) by done.
Qed.

Lemma echo_spec n st :
  buffers_ok st -> 0 <= n <= IPC_MSG_MAX_LEN ->
  echo n st = Ret (n, set_out (take (Z.to_nat n) (r_buffer_in st) ++ drop (Z.to_nat n) (r_buffer_out st)) st).
Proof.
  intros [Hin Hout] Hn. unfold echo. rewrite mem_read_ok by lia. rewrite drop_0. run.
  assert (zlen (take (Z.to_nat n) (r_buffer_in st)) = n) as Hl by (apply zlen_take; lia).
  rewrite (mem_write_at [] (r_buffer_out st)) by lia. cbn [mbind res_bind mret res_ret app].
  do 4 f_equal. f_equal. unfold zlen in Hl. lia.
Qed.

(** *** Every request is answered, unless an operation it asks for has no result *)

Section Replies.
Context `{HL : !SdoLaws D F}.

(** The operation that a request with this id asks for, of the SDO client or the cache, is itself
    undefined on the arguments in the buffer. *)
Inductive call_undefined (st : responder D F) : ipc_msg_id_t -> ub -> Prop :=
| read_undefined s n i j u :
    r_sdo st = Some s ->
    get ipc_msg_sdo_t "node_id" (r_buffer_in st) = Ret n -> get ipc_msg_sdo_t "index" (r_buffer_in st) = Ret i ->
    get ipc_msg_sdo_t "subindex" (r_buffer_in st) = Ret j ->
    sdo_read_dynamic s n i j false = Undef u -> call_undefined st IPC_MSG_ID_SDO_READ u
| write_undefined s n i j d u :
    r_sdo st = Some s ->
    get ipc_msg_sdo_t "node_id" (r_buffer_in st) = Ret n -> get ipc_msg_sdo_t "index" (r_buffer_in st) = Ret i ->
    get ipc_msg_sdo_t "subindex" (r_buffer_in st) = Ret j ->
    get_data ipc_msg_sdo_t "buffer" (zlen d) (r_buffer_in st) = Ret d -> zlen d <= 255 ->
    sdo_write s n i j d = Undef u -> call_undefined st IPC_MSG_ID_SDO_WRITE u
| add_file_undefined c b p u :
    r_cache st = Some c -> terminate_path ipc_msg_sdo_file_t "path" (r_buffer_in st) = Ret (b, p) ->
    add_undefined c (r_fs st) p u -> call_undefined st IPC_MSG_ID_ADD_FILE u
| read_to_file_undefined s b p n i j u :
    r_sdo st = Some s -> terminate_path ipc_msg_sdo_file_t "path" (r_buffer_in st) = Ret (b, p) ->
    sdo_read_to_file s (r_fs st) n i j p = Undef u -> call_undefined st IPC_MSG_ID_SDO_READ_TO_FILE u
| write_from_file_undefined s b p n i j u :
    r_sdo st = Some s -> terminate_path ipc_msg_sdo_file_t "path" (r_buffer_in st) = Ret (b, p) ->
    sdo_write_from_file s (r_fs st) n i j p = Undef u -> call_undefined st IPC_MSG_ID_SDO_WRITE_FROM_FILE u.

(** A handler replies with a message that fits the buffer, or with none. *)
Definition replied (undefined : ub -> Prop) (r : reply_result) (c : option fcache_t) : Prop :=
  match r with
  | Ret (n, st') => (n = 0 \/ 2 <= n <= IPC_MSG_MAX_LEN) /\ buffers_ok st' /\ r_cache st' = c
  | Undef u => undefined u
  end.

Lemma set_out_ok b st : buffers_ok st -> zlen b = IPC_MSG_MAX_LEN -> buffers_ok (set_out b st).
Proof. by intros [H1 H2] H. Qed.

Lemma abort_replied U ac st : buffers_ok st -> replied U (make_sdo_abort_msg ac st) (r_cache st).
Proof.
  intros Hb. rewrite make_sdo_abort_msg_spec by done.
  split; [right; unfold IPC_MSG_MAX_LEN; lia|]. split; [|done]. apply set_out_ok; [done|]. destruct Hb as [_ Hb].
  unfold IPC_MSG_MAX_LEN, zlen in *. rewrite length_app, length_drop. simpl. lia.
Qed.

Lemma zlen_overlay_out n (a b : bytes) :
  0 <= n -> n <= zlen a -> zlen a = zlen b -> zlen (take (Z.to_nat n) a ++ drop (Z.to_nat n) b) = zlen b.
Proof. unfold zlen. intros. rewrite length_app, length_take, length_drop. lia. Qed.

Lemma echo_replied U n st : buffers_ok st -> 2 <= n <= IPC_MSG_MAX_LEN -> replied U (echo n st) (r_cache st).
Proof.
  intros Hb Hn. rewrite echo_spec by (done || lia).
  split; [by right|]. split; [|done]. apply set_out_ok; [done|]. destruct Hb as [Hi Ho]. rewrite zlen_overlay_out; lia.
Qed.

Lemma none_replied U st : buffers_ok st -> replied U (mret (0, st)) (r_cache st).
Proof. intros. split; [by left|done]. Qed.

(** An abort code, or the request sent back. *)
Lemma code_replied U ac n st :
  buffers_ok st -> 2 <= n <= IPC_MSG_MAX_LEN ->
  replied U (if ac =? CO_SDO_AB_NONE then echo n st else make_sdo_abort_msg ac st) (r_cache st).
Proof. intros Hb Hn. destruct (ac =? _); [by apply echo_replied|by apply abort_replied]. Qed.

Lemma get_in l f off t st :
  field l f = Some (off, t) -> 0 <= off -> off + csize t <= IPC_MSG_MAX_LEN -> buffers_ok st ->
  exists z, get l f (r_buffer_in st) = Ret z.
Proof. intros Hf Ho Hs [H _]. exact (get_buffer l f off t _ Hf Ho Hs H). Qed.

Lemma wrap_size n d : 0 <= n <= 262 -> 0 <= d < 2 ^ 31 -> wrap LONG_BITS (n + d) = n + d.
Proof.
  intros. apply wrap_small. pose proof LONG_BITS_range.
  assert (2 ^ 32 <= 2 ^ LONG_BITS) by (apply Z.pow_le_mono_r; lia). split; lia.
Qed.

Lemma sdo_read_replied n st :
  buffers_ok st -> n <= IPC_MSG_MAX_LEN ->
  replied (call_undefined st IPC_MSG_ID_SDO_READ) (ipc_respond_sdo_read n st) (r_cache st).
Proof.
  intros Hb Hn. unfold ipc_respond_sdo_read. destruct (r_sdo st) as [s|] eqn:Hs; [|by apply none_replied].
  change IPC_MSG_SDO_MIN_LEN with 7. change (sizeof ipc_msg_sdo_t) with 262.
  destruct (Z.ltb_spec n 7), (Z.ltb_spec 262 n); cbn [orb]; try (by apply none_replied).
  destruct (get_in ipc_msg_sdo_t "node_id" 2 U8 st eq_refl ltac:(lia) ltac:(done) Hb) as [z1 H1].
  destruct (get_in ipc_msg_sdo_t "index" 3 U16 st eq_refl ltac:(lia) ltac:(done) Hb) as [z2 H2].
  destruct (get_in ipc_msg_sdo_t "subindex" 5 U8 st eq_refl ltac:(lia) ltac:(done) Hb) as [z3 H3].
  rewrite H1. run. rewrite H2. run. rewrite H3. run.
  destruct (sdo_read_dynamic s z1 z2 z3 false) as [[[ac data] s']|u] eqn:Hop; run; [|by eapply read_undefined].
  assert (buffers_ok (set_sdo s' st)) as Hb' by done. change (r_cache st) with (r_cache (set_sdo s' st)).
  destruct (ac =? CO_SDO_AB_NONE); [|by apply abort_replied].
  destruct data as [data|]; [|apply echo_replied; [done|lia]].
  apply sdo_read_size in Hop as Hd. pose proof (zlen_nonneg data). rewrite wrap_size by lia.
  destruct (Z.ltb_spec IPC_MSG_MAX_LEN (n + zlen data)); [by apply abort_replied|].
  rewrite echo_spec by (done || lia). run. destruct Hb as [Hi Ho].
  set (b := take (Z.to_nat n) _ ++ _).
  assert (zlen b = IPC_MSG_MAX_LEN) as Hbl.
  { subst b. rewrite zlen_overlay_out; [done|lia|cbn [r_buffer_in set_sdo]; lia|].
    cbn [r_buffer_in r_buffer_out set_sdo]. lia. }
  change (r_buffer_out (set_out b (set_sdo s' st))) with b.
  destruct (mem_write b n data) as [b'|u] eqn:Hw.
  2:{ rewrite mem_write_ok in Hw; [done|lia|lia]. }
  run. split; [right; lia|]. split; [|done].
  split; [done|]. cbn [r_buffer_out set_out]. unfold zlen. rewrite (mem_write_length _ _ _ _ Hw). done.
Qed.

Lemma sdo_write_replied n st :
  buffers_ok st -> n <= IPC_MSG_MAX_LEN ->
  replied (call_undefined st IPC_MSG_ID_SDO_WRITE) (ipc_respond_sdo_write n st) (r_cache st).
Proof.
  intros Hb Hn. unfold ipc_respond_sdo_write. destruct (r_sdo st) as [s|] eqn:Hs; [|by apply none_replied].
  change IPC_MSG_SDO_MIN_LEN with 7. change (sizeof ipc_msg_sdo_t) with 262.
  destruct (Z.ltb_spec n 7), (Z.ltb_spec 262 n); cbn [orb]; try (by apply none_replied).
  destruct (get_in ipc_msg_sdo_t "node_id" 2 U8 st eq_refl ltac:(lia) ltac:(done) Hb) as [z1 H1].
  destruct (get_in ipc_msg_sdo_t "index" 3 U16 st eq_refl ltac:(lia) ltac:(done) Hb) as [z2 H2].
  destruct (get_in ipc_msg_sdo_t "subindex" 5 U8 st eq_refl ltac:(lia) ltac:(done) Hb) as [z3 H3].
  rewrite H1. run. rewrite H2. run. rewrite H3. run. pose proof Hb as [Hin _]. unfold IPC_MSG_MAX_LEN in Hin.
  destruct (get_len_ok ipc_msg_sdo_t "buffer" (r_buffer_in st)) as (len & -> & Hlen).
  { change (offsetof ipc_msg_sdo_t "buffer") with 6. lia. }
  run.
  destruct (get_data_ok ipc_msg_sdo_t "buffer" len (r_buffer_in st)) as [d Hd].
  1-3: change (offsetof ipc_msg_sdo_t "buffer") with 6; lia.
  rewrite Hd. apply get_data_len in Hd as Hdl. run.
  destruct (sdo_write s z1 z2 z3 d) as [[ac s']|u] eqn:Hop; run.
  2:{ apply (write_undefined st s z1 z2 z3 d u); [done..| |lia|done]. by rewrite Hdl. }
  apply (code_replied _ ac n (set_sdo s' st)); [done|lia].
Qed.

Lemma terminate_in st :
  buffers_ok st -> exists b p, terminate_path ipc_msg_sdo_file_t "path" (r_buffer_in st) = Ret (b, p) /\
    buffers_ok (set_in b st).
Proof.
  intros [Hin Hout]. unfold IPC_MSG_MAX_LEN in Hin, Hout.
  destruct (terminate_path_ok ipc_msg_sdo_file_t "path" (r_buffer_in st)) as (b & p & -> & Hbl).
  1-2: change (offsetof ipc_msg_sdo_file_t "path") with 6; lia.
  exists b, p. split; [done|]. split; [cbn; by rewrite Hbl|done].
Qed.

Lemma add_file_replied n st :
  buffers_ok st -> n <= IPC_MSG_MAX_LEN ->
  replied (call_undefined st IPC_MSG_ID_ADD_FILE) (ipc_respond_add_file n st) (r_cache st).
Proof.
  intros Hb Hn. unfold ipc_respond_add_file. destruct (r_cache st) as [c|] eqn:Hc; [|rewrite <- Hc; by apply none_replied].
  change IPC_MSG_FILE_MIN_LEN with 3. change (sizeof ipc_msg_file_t) with 258.
  destruct (Z.ltb_spec n 3), (Z.ltb_spec 258 n); cbn [orb]; try (rewrite <- Hc; by apply none_replied).
  destruct (terminate_in st Hb) as (b & p & Hp & Hb1). rewrite Hp. run. cbn [r_fs set_in].
  destruct (fcache_add (Some c) (r_fs st) p false) as [[e fs]|u] eqn:Hop; run.
  2:{ eapply add_file_undefined; [done..|]. by apply add_undefined_iff in Hop. }
  assert (buffers_ok (set_fs fs (set_in b st))) as Hb' by done.
  rewrite <- Hc. change (r_cache st) with (r_cache (set_fs fs (set_in b st))).
  destruct (negb _); [apply echo_replied; [done|lia]|]. destruct Hb as [Hin Hout]. unfold IPC_MSG_MAX_LEN in Hin, Hout.
  rewrite (mem_write_at [] (r_buffer_out st)) by (change (zlen [_; _]) with 2; lia).
  run. split; [right; unfold IPC_MSG_MAX_LEN; lia|]. split; [|done]. apply set_out_ok; [done|].
  unfold IPC_MSG_MAX_LEN, zlen in *. rewrite !length_app, length_drop. simpl. lia.
Qed.

Lemma sdo_file_replied (U : ub -> Prop) op n st :
  (forall s b p i j k u, r_sdo st = Some s -> terminate_path ipc_msg_sdo_file_t "path" (r_buffer_in st) = Ret (b, p) ->
     op s (r_fs st) i j k p = Undef u -> U u) ->
  buffers_ok st -> n <= IPC_MSG_MAX_LEN -> replied U (respond_sdo_file op n st) (r_cache st).
Proof.
  intros Hop Hb Hn. unfold respond_sdo_file. destruct (r_sdo st) as [s|] eqn:Hs; [|by apply none_replied].
  change IPC_MSG_SDO_FILE_MIN_LEN with 7. change (sizeof ipc_msg_sdo_file_t) with 262.
  destruct (Z.ltb_spec n 7), (Z.ltb_spec 262 n); cbn [orb]; try (by apply none_replied).
  destruct (terminate_in st Hb) as (b & p & Hp & Hb'). rewrite Hp. run.
  destruct (get_in ipc_msg_sdo_file_t "node_id" 2 U8 _ eq_refl ltac:(lia) ltac:(done) Hb') as [z1 H1].
  destruct (get_in ipc_msg_sdo_file_t "index" 3 U16 _ eq_refl ltac:(lia) ltac:(done) Hb') as [z2 H2].
  destruct (get_in ipc_msg_sdo_file_t "subindex" 5 U8 _ eq_refl ltac:(lia) ltac:(done) Hb') as [z3 H3].
  cbn [r_buffer_in set_in] in H1, H2, H3. rewrite H1. run. rewrite H2. run.
  rewrite H3. run. cbn [r_fs set_in].
  destruct (op s (r_fs st) z1 z2 z3 p) as [[[ac s'] fs]|u] eqn:Ho; run; [|by eapply Hop].
  apply (code_replied _ ac n (set_fs fs (set_sdo s' (set_in b st)))); [done|lia].
Qed.

Lemma put_replied l i f t v (n : Z) (st : responder D F) :
  l = ipc_header_t ++ [(f, t)] -> field l f = Some (2, t) -> is_dyn t = false -> buffers_ok st ->
  2 <= n <= IPC_MSG_MAX_LEN ->
  exists b, zlen b = IPC_MSG_MAX_LEN /\
    (b ← put l "version" IPC_MSG_VERSION (r_buffer_out st);
     b ← put l "id" (id_val i) b; b ← put l f v b; Ret (n, set_out b st))
    = Ret (n, set_out b st).
Proof.
  intros Hl Hf Ht Hb Hn. rewrite (put_message l i f t v n st Hl Hf Ht Hb). eexists. split; [|done].
  destruct Hb as [_ Hb]. unfold IPC_MSG_MAX_LEN, zlen in *.
  rewrite !length_app, length_le_bytes, length_drop. destruct t; done || (simpl; lia).
Qed.

(** The operation the request asks for, named by its id byte. *)
Definition dispatch_undefined (st : responder D F) (id : Z) (u : ub) : Prop :=
  exists i, id = id_val i /\ call_undefined st i u.

Lemma replied_id st i r c : replied (call_undefined st i) r c -> replied (dispatch_undefined st (id_val i)) r c.
Proof. destruct r as [[n st']|u]; [done|]. cbn. intros H. by exists i. Qed.

Lemma dispatch_replied id n st :
  buffers_ok st -> n <= IPC_MSG_MAX_LEN -> replied (dispatch_undefined st id) (dispatch id n st) (r_cache st).
Proof.
  intros Hb Hn. unfold dispatch.
  destruct (Z.eqb_spec id (id_val IPC_MSG_ID_SDO_READ)) as [->|]; [by apply replied_id, sdo_read_replied|].
  destruct (Z.eqb_spec id (id_val IPC_MSG_ID_SDO_WRITE)) as [->|]; [by apply replied_id, sdo_write_replied|].
  destruct (Z.eqb_spec id (id_val IPC_MSG_ID_ADD_FILE)) as [->|]; [by apply replied_id, add_file_replied|].
  destruct (Z.eqb_spec id (id_val IPC_MSG_ID_SDO_READ_TO_FILE)) as [->|].
  { apply replied_id, sdo_file_replied; [|done..]. intros. by eapply read_to_file_undefined. }
  destruct (Z.eqb_spec id (id_val IPC_MSG_ID_SDO_WRITE_FROM_FILE)) as [->|].
  { apply replied_id, sdo_file_replied; [|done..]. intros s b p i j k u Hs Hp Hop.
    destruct (sdo_write_from_file s (r_fs st) i j k p) as [[ac s']|u'] eqn:Hw; [done|].
    injection Hop as <-. by eapply write_from_file_undefined. }
  unfold unknown_id.
  destruct (put_replied ipc_msg_error_id_t IPC_MSG_ID_ERROR_UNKNOWN_ID "id_" U8 id
    (sizeof ipc_msg_error_t) st) as (b & Hbl & ->); [done..|].
  split; [by right|]. split; [|done]. by apply set_out_ok.
Qed.

(** A request is dispatched on its id. *)
Lemma respond_dispatch header m id r st :
  buffers_ok st -> zlen header = ZMQ_HEADER_LEN -> in_u 8 id ->
  m = z2b IPC_MSG_VERSION :: z2b id :: r -> r <> [] -> zlen m <= IPC_MSG_MAX_LEN ->
  ipc_respond_process true true (Some header) (Some []) (Some m) st
  = ('(n, st) ← dispatch id (zlen m) (set_in (m ++ drop (length m) (r_buffer_in st)) st);
     send_reply header n st).
Proof.
  intros [Hin Hout] Hh Hid Hm Hr Hl. unfold ipc_respond_process. cbn [negb orb].
  rewrite Hh, Z.eqb_refl. cbn [negb]. change (zlen [] =? 0) with true. cbn [negb].
  assert (zlen m = 2 + zlen r) as Hml by (rewrite Hm; unfold zlen; simpl; lia).
  pose proof (zlen_pos r Hr). rewrite (proj2 (Z.leb_gt _ _)) by lia.
  rewrite mem_write_front by lia. run.
  rewrite (get_u8 ipc_header_t "version" 0 m _ (z2b IPC_MSG_VERSION) eq_refl ltac:(lia)) by (by rewrite Hm).
  run. change (negb (b2z (z2b IPC_MSG_VERSION) =? IPC_MSG_VERSION)) with false. cbv iota.
  rewrite (get_u8 ipc_header_t "id" 1 m _ (z2b id) eq_refl ltac:(lia)) by (by rewrite Hm).
  run. rewrite b2z_z2b, Z.mod_small by (unfold in_u in Hid; lia). done.
Qed.

Lemma send_reply_ok header n st :
  buffers_ok st -> 2 <= n <= IPC_MSG_MAX_LEN ->
  send_reply header n st = Ret ([header; []; take (Z.to_nat n) (r_buffer_out st)], st).
Proof.
  intros [Hin Hout] Hn. unfold send_reply. rewrite (proj2 (Z.eqb_neq _ _)) by lia.
  run. rewrite mem_read_ok by lia. by rewrite drop_0.
Qed.

(** The state with a message in the receive buffer. *)
Definition received_in (m : bytes) (st : responder D F) : responder D F :=
  set_in (m ++ drop (length m) (r_buffer_in st)) st.

Lemma received_in_ok m st : buffers_ok st -> zlen m <= IPC_MSG_MAX_LEN -> buffers_ok (received_in m st).
Proof. intros [Hin Hout] Hl. split; [|done]. cbn [r_buffer_in set_in received_in]. rewrite zlen_overlay; [done|lia]. Qed.

(** One reply of three frames, or the operation asked for is undefined. *)
Definition outcome (header m : bytes) (st : responder D F) (r : res (list bytes * responder D F)) : Prop :=
  match r with
  | Ret (sent, st') => exists reply, sent = [header; []; reply] /\ 2 <= zlen reply <= IPC_MSG_MAX_LEN /\
      buffers_ok st' /\ r_cache st' = r_cache st
  | Undef u => exists id, m !! 1%nat = Some id /\ dispatch_undefined (received_in m st) (b2z id) u
  end.

Lemma send_reply_replied header U c r :
  replied U r c ->
  match '(n, st) ← r; send_reply header n st with
  | Ret (sent, st') => exists reply, sent = [header; []; reply] /\ 2 <= zlen reply <= IPC_MSG_MAX_LEN /\
      buffers_ok st' /\ r_cache st' = c
  | Undef u => U u
  end.
Proof.
  destruct r as [[n st2]|u]; [|done]. intros (Hn & Hb2 & Hc). run. destruct (decide (n = 0)) as [-> |Hn0].
  - unfold send_reply. rewrite Z.eqb_refl. unfold error_reply.
    destruct (put_replied ipc_msg_error_t IPC_MSG_ID_ERROR "error" I32 EINVAL
      (sizeof ipc_msg_error_t) st2) as (b & Hbl & ->); [done..|].
    run. change (sizeof ipc_msg_error_t) with 6.
    cbn [r_buffer_out set_out]. unfold IPC_MSG_MAX_LEN in *. rewrite mem_read_ok by lia.
    run. eexists. split; [done|]. rewrite drop_0, zlen_take by lia.
    split; [lia|]. split; [by apply set_out_ok|done].
  - rewrite send_reply_ok by (done || lia). eexists. split; [done|]. pose proof Hb2 as [_ ?].
    rewrite zlen_take by lia. split; [lia|done].
Qed.

(** A request goes to [dispatch], whose result is sent. *)
Lemma respond_outcome header m st :
  buffers_ok st -> zlen header = ZMQ_HEADER_LEN -> 2 < zlen m <= IPC_MSG_MAX_LEN ->
  m !! 0%nat = Some (z2b IPC_MSG_VERSION) ->
  outcome header m st (ipc_respond_process true true (Some header) (Some []) (Some m) st).
Proof.
  intros Hb Hh Hl Hv. destruct m as [|v [|x r]]; [done|unfold zlen in Hl; simpl in Hl; lia|]. injection Hv as ->.
  rewrite (respond_dispatch header _ (b2z x) r st Hb Hh (b2z_range x)); [|by rewrite z2b_b2z| |lia].
  2:{ apply zlen_ne. unfold zlen in *. simpl in Hl. lia. }
  set (m := _ :: _ :: r) in *. fold (received_in m st).
  pose proof (received_in_ok m st Hb ltac:(lia)) as Hb1.
  pose proof (send_reply_replied header _ _ _ (dispatch_replied (b2z x) (zlen m) _ Hb1 ltac:(lia))) as H.
  unfold outcome. destruct (mbind _ _) as [[sent st']|u]; [done|]. by exists x.
Qed.

(** C1: a request of version 0, of 3 bytes and more that fit the buffer, whatever its id and
    content, is answered by exactly one reply of three frames that carries the client's
    identity and at least a message header, and no memory outside the buffers is touched,
    unless the operation it asks for is itself undefined on the arguments in the buffer: that of the
    SDO client or that of the cache. *)
Theorem ipc_respond_always_replies header m st :
  buffers_ok st -> zlen header = ZMQ_HEADER_LEN -> 2 < zlen m <= IPC_MSG_MAX_LEN ->
  m !! 0%nat = Some (z2b IPC_MSG_VERSION) ->
  match ipc_respond_process true true (Some header) (Some []) (Some m) st with
  | Ret (sent, st') => exists reply, sent = [header; []; reply] /\ 2 <= zlen reply <= IPC_MSG_MAX_LEN /\
      buffers_ok st' /\ r_cache st' = r_cache st
  | Undef u => exists id, m !! 1%nat = Some id /\ dispatch_undefined (received_in m st) (b2z id) u
  end.
Proof. intros Hb Hh Hl Hv. exact (respond_outcome header m st Hb Hh Hl Hv). Qed.

End Replies.

(** The length of a request is not compared with the size of the receive buffer: a longer
    message is copied past its end. *)
Theorem ipc_respond_overflow header m st :
  buffers_ok st -> zlen header = ZMQ_HEADER_LEN -> IPC_MSG_MAX_LEN < zlen m ->
  ipc_respond_process true true (Some header) (Some []) (Some m) st = Undef UbBounds.
Proof.
  intros [Hin _] Hh Hl. unfold ipc_respond_process. cbn [negb orb].
  rewrite Hh, Z.eqb_refl. cbn [negb]. change (zlen [] =? 0) with true. cbn [negb].
  unfold IPC_MSG_MAX_LEN in *. rewrite (proj2 (Z.leb_gt _ _)) by lia.
  by rewrite mem_write_oob by lia.
Qed.

(** An SDO message the client library packed: its size and what the handlers read. *)
Lemma packed_sdo i node idx sub d m rest :
  i ∈ [IPC_MSG_ID_SDO_READ; IPC_MSG_ID_SDO_WRITE] ->
  pack i (py_fmt i) [VInt node; VInt idx; VInt sub; VBytes d] = Some m ->
  zlen m = 7 + zlen d /\ zlen d < 256 /\
  (exists r, m = z2b IPC_MSG_VERSION :: z2b (id_val i) :: r /\ r <> []) /\
  get ipc_msg_sdo_t "node_id" (m ++ rest) = Ret node /\
  get ipc_msg_sdo_t "index" (m ++ rest) = Ret idx /\
  get ipc_msg_sdo_t "subindex" (m ++ rest) = Ret sub /\
  get_len ipc_msg_sdo_t "buffer" (m ++ rest) = Ret (zlen d) /\
  get_data ipc_msg_sdo_t "buffer" (zlen d) (m ++ rest) = Ret d.
Proof.
  intros Hi Hp. pose proof (pack_inv _ _ _ _ Hp) as (r & Hr & Hm).
  assert (py_fmt i = [U8; U16; U8; Bytes] /\ c_struct i = ipc_msg_sdo_t) as [Hfmt Hc].
  { rewrite !elem_of_cons, elem_of_nil in Hi. by destruct Hi as [-> | [-> | []]]. }
  assert (map snd (c_struct i) = map snd ipc_header_t ++ py_fmt i) as Hmatch by by rewrite Hfmt, Hc.
  pose proof (fun f v H => pack_get i _ m rest f v Hmatch Hp H) as Hget. rewrite Hc in Hget.
  rewrite Hfmt in Hr.
  apply pack_fields_cons in Hr as (? & ? & b1 & r1 & [= <- <-] & -> & Hr & _ & _ & ->).
  apply pack_fields_cons in Hr as (? & ? & b2 & r2 & [= <- <-] & -> & Hr & _ & _ & ->).
  apply pack_fields_cons in Hr as (? & ? & b3 & r3 & [= <- <-] & -> & Hr & _ & _ & ->).
  apply pack_fields_cons in Hr as (? & ? & b4 & r4 & [= <- <-] & -> & [= <-] & _ & _ & Hd & ->).
  split; [rewrite Hm; unfold zlen; simpl; rewrite length_app; simpl; lia|]. split; [done|].
  split; [by eexists|].
  pose proof (Hget "node_id" (VInt node) eq_refl). pose proof (Hget "index" (VInt idx) eq_refl).
  pose proof (Hget "subindex" (VInt sub) eq_refl). pose proof (Hget "buffer" (VBytes d) eq_refl) as [? ?].
  done.
Qed.

(** The request sent back, after a change of anything but the buffers. *)
Lemma send_echo header m st rest :
  buffers_ok st -> r_buffer_in st = m ++ rest -> 2 <= zlen m <= IPC_MSG_MAX_LEN ->
  exists st', ('(n, st) ← echo (zlen m) st; send_reply header n st) = Ret ([header; []; m], st') /\
    r_sdo st' = r_sdo st /\ r_cache st' = r_cache st /\ r_fs st' = r_fs st.
Proof.
  intros Hb Hin Hm. pose proof Hb as [Hi Ho]. rewrite echo_spec by (done || lia). run.
  assert (take (Z.to_nat (zlen m)) (r_buffer_in st) = m) as ->.
  { rewrite Hin. unfold zlen. by rewrite Nat2Z.id, take_app_length. }
  rewrite send_reply_ok; [|split; [done|]|done].
  - eexists. split; [cbn [r_buffer_out set_out]; rewrite take_app_length' by zlia; reflexivity|done].
  - cbn [r_buffer_out set_out]. unfold zlen in *. rewrite length_app, length_drop. lia.
Qed.

(** An abort message unpacks to its code. *)
Lemma send_abort header ac st :
  buffers_ok st -> in_u 32 ac ->
  exists reply st', ('(n, st) ← make_sdo_abort_msg ac st; send_reply header n st) = Ret ([header; []; reply], st') /\
    r_sdo st' = r_sdo st /\
    unpack IPC_MSG_ID_ERROR_ABORT (py_fmt IPC_MSG_ID_ERROR_ABORT) reply = Some [VInt ac].
Proof.
  intros Hb Hac. pose proof Hb as [Hi Ho]. rewrite make_sdo_abort_msg_spec by done. run.
  rewrite send_reply_ok; [|split; [done|]|unfold IPC_MSG_MAX_LEN; lia].
  - eexists _, _. split; [done|]. split; [done|]. cbn [r_buffer_out set_out].
    rewrite take_app_length' by done.
    apply (unpack_of_pack_plain IPC_MSG_ID_ERROR_ABORT _ [VInt ac] (le_bytes 4 ac)); [done|done|].
    cbn [py_fmt]. by rewrite (pack_scalar U32 32 ac [] [] []) by (done || set_solver).
  - cbn [r_buffer_out set_out]. unfold IPC_MSG_MAX_LEN, zlen in *. rewrite !length_app, !length_drop. simpl. lia.
Qed.

(** The request sent back with data after it. *)
Lemma send_echo_data header m d st rest :
  buffers_ok st -> r_buffer_in st = m ++ rest -> 2 <= zlen m -> zlen m + zlen d <= IPC_MSG_MAX_LEN ->
  exists st', ('(n, st) ← ('(_, st) ← echo (zlen m) st;
       b ← mem_write (r_buffer_out st) (zlen m) d; mret (zlen m + zlen d, set_out b st));
     send_reply header n st) = Ret ([header; []; m ++ d], st') /\ r_sdo st' = r_sdo st.
Proof.
  intros Hb Hin Hm Hd. pose proof Hb as [Hi Ho]. pose proof (zlen_nonneg d).
  rewrite echo_spec by (done || lia). run.
  assert (take (Z.to_nat (zlen m)) (r_buffer_in st) = m) as ->.
  { rewrite Hin. unfold zlen. by rewrite Nat2Z.id, take_app_length. }
  cbn [r_buffer_out set_out]. unfold IPC_MSG_MAX_LEN in *. rewrite mem_write_at by (rewrite zlen_drop; lia). run.
  rewrite send_reply_ok; [|split; [done|]|unfold IPC_MSG_MAX_LEN; lia].
  - eexists. split; [cbn [r_buffer_out set_out]; rewrite take_app_length' by zlia; reflexivity|done].
  - cbn [r_buffer_out set_out]. unfold IPC_MSG_MAX_LEN, zlen in *. rewrite !length_app, !length_drop. lia.
Qed.

(** The abort code the handler of a read reports, if any: that of the client, or one of its own
    when data does not fit the reply. *)
Definition read_abort (ac : Z) (data : option bytes) : option Z :=
  if ac =? CO_SDO_AB_NONE then
    match data with
    | Some d => if IPC_MSG_MAX_LEN <? IPC_MSG_SDO_MIN_LEN + zlen d then Some CO_SDO_AB_DATA_LONG else None
    | None => None
    end
  else Some ac.

(** C39: an SDO read the client library packs (it always packs an empty value) is one read of the
    node.  When it succeeded and its data fits the reply, the reply is the request followed by the
    data, with the length byte of the request: the library unpacks it to an empty value, whatever
    the node sent.  Otherwise the reply is an abort message that unpacks to the code of the
    client, or of data that is too long. *)
Theorem ipc_respond_sdo_read_lost `{HL : !SdoLaws D F} header node idx sub m s ac data s' st :
  buffers_ok st -> zlen header = ZMQ_HEADER_LEN -> r_sdo st = Some s -> in_u 32 ac ->
  pack IPC_MSG_ID_SDO_READ (py_fmt IPC_MSG_ID_SDO_READ) [VInt node; VInt idx; VInt sub; VBytes []] = Some m ->
  sdo_read_dynamic s node idx sub false = Ret (ac, data, s') ->
  exists reply st', ipc_respond_process true true (Some header) (Some []) (Some m) st
    = Ret ([header; []; reply], st') /\ r_sdo st' = Some s' /\
  match read_abort ac data with
  | None => reply = m ++ default [] data /\
      unpack IPC_MSG_ID_SDO_READ (py_fmt IPC_MSG_ID_SDO_READ) reply
        = Some [VInt node; VInt idx; VInt sub; VBytes []]
  | Some code => unpack IPC_MSG_ID_ERROR_ABORT (py_fmt IPC_MSG_ID_ERROR_ABORT) reply = Some [VInt code]
  end.
Proof.
  intros Hb Hh Hs Hac Hp Hread.
  destruct (packed_sdo IPC_MSG_ID_SDO_READ node idx sub [] m (drop (length m) (r_buffer_in st)))
    as (Hml & _ & (r & Hm & Hr) & H1 & H2 & H3 & _); [set_solver|done|].
  change (7 + zlen []) with 7 in Hml.
  rewrite (respond_dispatch header m (id_val IPC_MSG_ID_SDO_READ) r st) by (done || (unfold IPC_MSG_MAX_LEN; lia)).
  fold (received_in m st). pose proof (received_in_ok m st Hb ltac:(unfold IPC_MSG_MAX_LEN; lia)) as Hb1.
  change (dispatch _ _ ?st1) with (ipc_respond_sdo_read (zlen m) st1).
  unfold ipc_respond_sdo_read. change (r_sdo (received_in m st)) with (r_sdo st). rewrite Hs.
  change IPC_MSG_SDO_MIN_LEN with 7. change (sizeof ipc_msg_sdo_t) with 262.
  rewrite (proj2 (Z.ltb_ge (zlen m) 7)) by lia. rewrite (proj2 (Z.ltb_ge 262 (zlen m))) by lia. cbn [orb].
  change (r_buffer_in (received_in m st)) with (m ++ drop (length m) (r_buffer_in st)).
  rewrite H1. run. rewrite H2. run. rewrite H3. run. rewrite Hread. run.
  set (st2 := set_sdo s' (received_in m st)). assert (buffers_ok st2) as Hb2 by done.
  unfold read_abort. destruct (ac =? CO_SDO_AB_NONE).
  2:{ destruct (send_abort header ac st2 Hb2 Hac) as (reply & st' & -> & Hsd & Hu). by exists reply, st'. }
  destruct data as [d|].
  - pose proof (zlen_nonneg d). apply sdo_read_size in Hread. rewrite wrap_size, Hml by lia.
    change IPC_MSG_SDO_MIN_LEN with 7. destruct (Z.ltb_spec IPC_MSG_MAX_LEN (7 + zlen d)).
    { destruct (send_abort header CO_SDO_AB_DATA_LONG st2 Hb2 ltac:(by_compute)) as (reply & st' & -> & Hsd & Hu).
      by exists reply, st'. }
    destruct (send_echo_data header m d st2 _ Hb2 eq_refl) as (st' & He & Hsd); [lia..|].
    rewrite Hml in He. rewrite He. exists (m ++ d), st'. split_and!; [done..|].
    by eapply (unpack_of_pack_rest _ _ [VInt node; VInt idx; VInt sub; VBytes []]).
  - destruct (send_echo header m st2 _ Hb2 eq_refl) as (st' & -> & Hsd & _); [unfold IPC_MSG_MAX_LEN; lia|].
    exists m, st'. cbn [default]. rewrite app_nil_r. split_and!; [done..|].
    rewrite <- (app_nil_r m). by eapply (unpack_of_pack_rest _ _ [VInt node; VInt idx; VInt sub; VBytes []]).
Qed.

(** C25: an SDO write the client library packs is one write of the given value to the node;
    the reply is the request when it succeeded and otherwise an abort message that unpacks
    to the abort code. *)
Theorem ipc_respond_sdo_write_packed header node idx sub d m s ac s' st :
  buffers_ok st -> zlen header = ZMQ_HEADER_LEN -> r_sdo st = Some s -> in_u 32 ac ->
  pack IPC_MSG_ID_SDO_WRITE (py_fmt IPC_MSG_ID_SDO_WRITE) [VInt node; VInt idx; VInt sub; VBytes d] = Some m ->
  sdo_write s node idx sub d = Ret (ac, s') ->
  exists reply st', ipc_respond_process true true (Some header) (Some []) (Some m) st
    = Ret ([header; []; reply], st') /\ r_sdo st' = Some s' /\
    if ac =? CO_SDO_AB_NONE then reply = m
    else unpack IPC_MSG_ID_ERROR_ABORT (py_fmt IPC_MSG_ID_ERROR_ABORT) reply = Some [VInt ac].
Proof.
  intros Hb Hh Hs Hac Hp Hwrite.
  destruct (packed_sdo IPC_MSG_ID_SDO_WRITE node idx sub d m (drop (length m) (r_buffer_in st)))
    as (Hml & Hd & (r & Hm & Hr) & H1 & H2 & H3 & H4 & H5); [set_solver|done|].
  pose proof (zlen_nonneg d).
  rewrite (respond_dispatch header m (id_val IPC_MSG_ID_SDO_WRITE) r st) by (done || (unfold IPC_MSG_MAX_LEN; lia)).
  fold (received_in m st). pose proof (received_in_ok m st Hb ltac:(unfold IPC_MSG_MAX_LEN; lia)) as Hb1.
  change (dispatch _ _ ?st1) with (ipc_respond_sdo_write (zlen m) st1).
  unfold ipc_respond_sdo_write. change (r_sdo (received_in m st)) with (r_sdo st). rewrite Hs.
  change IPC_MSG_SDO_MIN_LEN with 7. change (sizeof ipc_msg_sdo_t) with 262.
  rewrite (proj2 (Z.ltb_ge (zlen m) 7)) by lia. rewrite (proj2 (Z.ltb_ge 262 (zlen m))) by lia. cbn [orb].
  change (r_buffer_in (received_in m st)) with (m ++ drop (length m) (r_buffer_in st)).
  rewrite H1. run. rewrite H2. run. rewrite H3. run. rewrite H4. run. rewrite H5. run. rewrite Hwrite. run.
  set (st2 := set_sdo s' (received_in m st)). assert (buffers_ok st2) as Hb2 by done.
  destruct (ac =? CO_SDO_AB_NONE).
  - destruct (send_echo header m st2 _ Hb2 eq_refl) as (st' & -> & Hsd & _); [unfold IPC_MSG_MAX_LEN; lia|].
    by exists m, st'.
  - destruct (send_abort header ac st2 Hb2 Hac) as (reply & st' & -> & Hsd & Hu). by exists reply, st'.
Qed.

(** The reply to an unknown id names the id, but is twice as long as its struct: its last
    three bytes are those of an earlier reply in the static buffer. *)
Theorem ipc_respond_unknown_id header id r st :
  buffers_ok st -> zlen header = ZMQ_HEADER_LEN -> in_u 8 id -> r <> [] -> zlen r <= 998 ->
  id ∉ map id_val [IPC_MSG_ID_SDO_READ; IPC_MSG_ID_SDO_WRITE; IPC_MSG_ID_ADD_FILE;
                   IPC_MSG_ID_SDO_READ_TO_FILE; IPC_MSG_ID_SDO_WRITE_FROM_FILE] ->
  let m := z2b IPC_MSG_VERSION :: z2b id :: r in
  let reply := [z2b 0; z2b 0x81; z2b id] ++ take 3 (drop 3 (r_buffer_out st)) in
  exists st', ipc_respond_process true true (Some header) (Some []) (Some m) st
    = Ret ([header; []; reply], st') /\
    unpack IPC_MSG_ID_ERROR_UNKNOWN_ID (py_fmt IPC_MSG_ID_ERROR_UNKNOWN_ID) reply = Some [VInt id].
Proof.
  intros Hb Hh Hid Hr Hl Hun m reply. pose proof Hb as [Hin Hout]. unfold IPC_MSG_MAX_LEN in *.
  assert (zlen m = 2 + zlen r) as Hml by zlia.
  rewrite (respond_dispatch header m id r st) by (done || (unfold IPC_MSG_MAX_LEN; lia)).
  set (st1 := set_in _ st).
  assert (buffers_ok st1) as Hb1.
  { split; [|done]. cbn [r_buffer_in set_in st1]. rewrite zlen_overlay; [done|lia]. }
  assert (dispatch id (zlen m) st1 = unknown_id id st1) as ->.
  { unfold dispatch. cbn [map] in Hun. rewrite !elem_of_cons in Hun.
    rewrite !(proj2 (Z.eqb_neq id _)) by tauto. done. }
  unfold unknown_id. rewrite (put_message _ IPC_MSG_ID_ERROR_UNKNOWN_ID "id_" U8) by done.
  run. change (sizeof ipc_msg_error_t) with 6.
  change (le_bytes (Z.to_nat (csize U8)) id) with [z2b id]. cbn [app].
  change (2 + Z.to_nat (csize U8))%nat with 3%nat.
  rewrite send_reply_ok; [|split; [exact (proj1 Hb1)|]|unfold IPC_MSG_MAX_LEN; lia].
  - eexists. split; [done|].
    apply (unpack_of_pack_rest _ _ [VInt id] [z2b 0; z2b 0x81; z2b id]); [done|].
    unfold pack. cbn [py_fmt]. by rewrite (pack_scalar U8 8 id [] [] []) by (done || set_solver).
  - cbn [r_buffer_out set_out st1 set_in]. unfold IPC_MSG_MAX_LEN, zlen in *.
    simpl. rewrite !length_drop. lia.
Qed.

Lemma mem_write_same m k b : 0 <= k -> m !! Z.to_nat k = Some b -> mem_write m k [b] = Ret m.
Proof.
  intros Hk Hb. pose proof (lookup_lt_Some _ _ _ Hb).
  rewrite mem_write_ok; [|done|unfold zlen; simpl; lia]. f_equal. simpl.
  rewrite Nat.add_1_r. by apply take_drop_middle.
Qed.

(** The path the handler of [ADD_FILE] finds in a message when the rest of the buffer is
    zero: it takes the fourth character for the length. *)
Lemma add_file_path (p rest : bytes) x v n id :
  wf_cstr p -> p !! 3%nat = Some x -> zlen p - 4 <= b2z x -> rest = replicate (length rest) NUL ->
  300 <= zlen rest ->
  terminate_path ipc_msg_sdo_file_t "path" ((v :: id :: n :: p) ++ rest)
  = Ret ((v :: id :: n :: p) ++ rest, drop 4 p).
Proof.
  intros Hwf Hx Hn Hrest Hl. pose proof (lookup_lt_Some _ _ _ Hx) as H4. pose proof (b2z_range x).
  set (m := v :: id :: n :: p). assert (length m = (3 + length p)%nat) as Hm by done.
  unfold terminate_path, get_len, data_offset. change (offsetof ipc_msg_sdo_file_t "path") with 6.
  assert (m !! 6%nat = Some x) as Hx' by done.
  rewrite (mem_read_1 _ 6 x) by (done || exact (lookup_app_l_Some _ _ _ _ Hx')).
  cbn [mbind res_bind mret res_ret le_val]. rewrite Z.mul_0_r, Z.add_0_r.
  rewrite mem_write_same; [|lia|].
  - run. change (Z.to_nat (6 + 1)) with 7%nat.
    assert (drop 7 (m ++ rest) = drop 4 p ++ rest) as ->.
    { rewrite drop_app_le by lia. done. }
    assert (exists r, rest = NUL :: r) as [r ->].
    { destruct rest as [|c r]; [done|]. exists r. by injection Hrest as -> _. }
    rewrite c_str_with_nul; [done|]. unfold wf_cstr in *. intros Hin. apply Hwf.
    rewrite <- (take_drop 4 p). apply elem_of_app. by right.
  - rewrite lookup_app_r by (rewrite Hm; unfold zlen in *; lia).
    rewrite Hrest. apply lookup_replicate_2. unfold zlen in *. lia.
Qed.

(** A file the client library asks to add to the cache: the handler lays the wrong struct
    over the request, so that (with a fresh buffer) the cache is asked for the path without
    its first four characters; a success is reported by a message no client can unpack, and
    a failure by the echo that stands for success. *)
Theorem ipc_respond_add_file_wrong header p m x c e fs st :
  buffers_ok st -> zlen header = ZMQ_HEADER_LEN -> r_cache st = Some c ->
  r_buffer_in st = replicate (Z.to_nat IPC_MSG_MAX_LEN) NUL ->
  pack IPC_MSG_ID_ADD_FILE (py_fmt IPC_MSG_ID_ADD_FILE) [VStr p] = Some m -> wf_cstr p ->
  p !! 3%nat = Some x -> zlen p - 4 <= b2z x ->
  fcache_add (Some c) (r_fs st) (drop 4 p) false = Ret (e, fs) ->
  exists reply st', ipc_respond_process true true (Some header) (Some []) (Some m) st
    = Ret ([header; []; reply], st') /\ r_fs st' = fs /\
    if e =? 0 then reply = [z2b 0x82; z2b 0] /\ (forall i fmt, unpack i fmt reply = None)
    else reply = m.
Proof.
  intros Hb Hh Hc Hzero Hp Hwf Hx Hn Hadd. pose proof Hb as [Hin Hout]. unfold IPC_MSG_MAX_LEN in *.
  apply pack_inv in Hp as (r & Hr & Hm).
  apply pack_fields_cons in Hr as (? & ? & b & r1 & [= <- <-] & -> & [= <-] & _ & _ & Hlp & ->).
  rewrite app_nil_r in Hm. pose proof (zlen_nonneg p).
  assert (zlen m = 3 + zlen p) as Hml by (rewrite Hm; unfold zlen; simpl; lia).
  rewrite (respond_dispatch header m (id_val IPC_MSG_ID_ADD_FILE) (z2b (zlen p) :: p) st)
    by (done || (unfold IPC_MSG_MAX_LEN; lia)).
  fold (received_in m st). pose proof (received_in_ok m st Hb ltac:(unfold IPC_MSG_MAX_LEN; lia)) as Hb1.
  set (rest := drop (length m) (r_buffer_in st)). set (st1 := received_in m st) in *.
  change (dispatch _ _ st1) with (ipc_respond_add_file (zlen m) st1).
  unfold ipc_respond_add_file. change (r_cache st1) with (r_cache st). rewrite Hc.
  change IPC_MSG_FILE_MIN_LEN with 3. change (sizeof ipc_msg_file_t) with 258.
  rewrite (proj2 (Z.ltb_ge (zlen m) 3)) by lia. rewrite (proj2 (Z.ltb_ge 258 (zlen m))) by lia. cbn [orb].
  assert (terminate_path ipc_msg_sdo_file_t "path" (r_buffer_in st1) = Ret (m ++ rest, drop 4 p)) as ->.
  { cbn [r_buffer_in set_in received_in st1]. fold rest. rewrite Hm. apply (add_file_path p rest x); [done..| |].
    - unfold rest. rewrite Hzero, drop_replicate. by rewrite length_replicate.
    - unfold rest, zlen in *. rewrite length_drop. lia. }
  run. change (set_in (m ++ rest) st1) with st1. change (r_fs st1) with (r_fs st). rewrite Hadd. run.
  assert (buffers_ok (set_fs fs st1)) as Hb2 by done.
  destruct (e =? 0) eqn:E; cbn [negb].
  - change (r_buffer_out (set_fs fs st1)) with ([] ++ r_buffer_out st).
    apply Z.eqb_eq in E as ->.
    rewrite (mem_write_at [] (r_buffer_out st)) by (change (zlen [_; _]) with 2; lia). run.
    rewrite send_reply_ok; [|split; [exact (proj1 Hb1)|]|unfold IPC_MSG_MAX_LEN; lia].
    + eexists _, _. split; [done|]. split; [done|]. split; [done|]. by intros i fmt.
    + cbn [r_buffer_out set_out]. unfold IPC_MSG_MAX_LEN, zlen in *.
      rewrite !length_app, !length_drop. simpl. lia.
  - destruct (send_echo header m (set_fs fs st1) rest Hb2 eq_refl) as (st' & -> & _ & _ & Hfs);
      [unfold IPC_MSG_MAX_LEN; lia|]. by exists m, st'.
Qed.
End RespondProps.

(** ** Witnesses: the theorems at concrete inputs *)

(** An SDO client whose node answers every read with two bytes and accepts every write but
    to node 0. *)
Definition sample_sdo : SdoOps unit memfs := {|
  sdo_read_dynamic s n i j blk := Ret (CO_SDO_AB_NONE, Some [x2a; x00], s);
  sdo_write s n i j d := Ret (if n =? 0 then 0x08000000 else CO_SDO_AB_NONE, s);
  sdo_read_to_file s fs n i j p := Ret (CO_SDO_AB_NONE, s, fs);
  sdo_write_from_file s fs n i j p := Ret (CO_SDO_AB_NONE, s);
|}.

Definition sample_sdo_laws : SdoLaws (H := sample_sdo) unit memfs.
Proof. constructor. intros s n i j blk ac d s' [= _ <- _]. by_compute. Defined.

(** The cache of [Fcache], empty, with a file to add. *)
Definition add_fs : memfs := <[cs "/tmp/f" := NFile (cs "hello")]> (<[cs "/f" := NFile (cs "hi")]> (<[cs "/d" := NDir]> ∅)).

Definition sample_responder : responder unit memfs :=
  mkResponder (replicate 1000 NUL) (replicate 1000 NUL) (Some tt) (Some sample_cache) add_fs.

Definition sample_header : bytes := cs "ident".

Definition respond (m : bytes) : res (list bytes * responder unit memfs) :=
  ipc_respond_process (HS := sample_sdo) (HP := armhf) (CE := sendfile_whole)
    true true (Some sample_header) (Some []) (Some m) sample_responder.

Lemma ipc_respond_always_replies_witness :
  exists reply st', respond [x00; x77; x01] = Ret ([sample_header; []; reply], st')
    /\ 2 <= zlen reply <= IPC_MSG_MAX_LEN /\ buffers_ok st'.
Proof.
  assert (match respond [x00; x77; x01] with Ret _ => true | Undef _ => false end = true) as Hd
    by (vm_compute; reflexivity).
  pose proof (ipc_respond_always_replies (HS := sample_sdo) (HP := armhf) (CE := sendfile_whole)
    (HL := sample_sdo_laws) sample_header [x00; x77; x01] sample_responder
    ltac:(by_compute) ltac:(by_compute) ltac:(by_compute) ltac:(by_compute)) as H.
  unfold respond in *. destruct (ipc_respond_process _ _ _ _ _ _) as [[sent st']|u]; [|discriminate Hd].
  destruct H as (reply & -> & H1 & H2 & _). exists reply, st'. split; [reflexivity|]. split; [exact H1|exact H2].
Defined.

(** A request for the root directory stops the responder. *)
Example add_root_undefined :
  ipc_respond_process (HS := sample_sdo) (HP := armhf) (CE := sendfile_whole) true true (Some sample_header) (Some [])
    (Some [x00; x05; x05; x2e; x2e; x2e; x01; x2f])
    (set_fs (<[cs "/" := NDir]> add_fs) sample_responder) = Undef UbUninit.
Proof. vm_compute. reflexivity. Qed.

Lemma ipc_respond_sdo_read_lost_witness :
  exists st', respond [x00; x03; x10; x01; x40; x00; x00]
      = Ret ([sample_header; []; [x00; x03; x10; x01; x40; x00; x00; x2a; x00]], st') /\
    unpack IPC_MSG_ID_SDO_READ (py_fmt IPC_MSG_ID_SDO_READ) [x00; x03; x10; x01; x40; x00; x00; x2a; x00]
    = Some [VInt 0x10; VInt 0x4001; VInt 0; VBytes []].
Proof.
  destruct (ipc_respond_sdo_read_lost (HS := sample_sdo) (HP := armhf) (CE := sendfile_whole) (HL := sample_sdo_laws)
    sample_header 0x10 0x4001 0 [x00; x03; x10; x01; x40; x00; x00] tt CO_SDO_AB_NONE (Some [x2a; x00]) tt
    sample_responder ltac:(by_compute) ltac:(by_compute) ltac:(by_compute) ltac:(by_compute) ltac:(by_compute)
    ltac:(by_compute)) as (reply & st' & H1 & _ & -> & H2).
  exists st'. split; [exact H1|exact H2].
Defined.

Lemma ipc_respond_sdo_write_packed_witness :
  exists reply st', respond [x00; x04; x00; x01; x40; x00; x01; x05]
      = Ret ([sample_header; []; reply], st') /\
    unpack IPC_MSG_ID_ERROR_ABORT (py_fmt IPC_MSG_ID_ERROR_ABORT) reply = Some [VInt 0x08000000].
Proof.
  destruct (ipc_respond_sdo_write_packed (HS := sample_sdo) (HP := armhf) (CE := sendfile_whole)
    sample_header 0 0x4001 0 [x05] [x00; x04; x00; x01; x40; x00; x01; x05] tt 0x08000000 tt
    sample_responder) as (reply & st' & H1 & _ & H2); [by_compute..|].
  exists reply, st'. split; [exact H1|exact H2].
Defined.

Definition added_fs : memfs := <[cs "/d/f" := NFile []]> add_fs.

Lemma can_add : can_copy add_fs (cs "/f") (dir_path sample_cache) (cs "hi") added_fs.
Proof.
  split; [vm_compute; reflexivity|]. split; [intros _; exists (cs "/d/f"); vm_compute; reflexivity|].
  split; [|split; vm_compute; reflexivity]. apply mem_fs_create_new. vm_compute. reflexivity.
Defined.

Lemma ipc_respond_add_file_wrong_witness :
  exists reply st', respond ([x00; x05; x06] ++ cs "/tmp/f") = Ret ([sample_header; []; reply], st') /\
    fs_read (r_fs st') (cs "/d/f") = inr (cs "hi") /\ (forall i fmt, unpack i fmt reply = None).
Proof.
  destruct (add_stores (CE := sendfile_whole) sample_cache add_fs added_fs (cs "/f") (cs "hi")
    ltac:(reflexivity) ltac:(vm_compute; reflexivity) can_add) as (fs & q & E & Hq & Hf & _).
  vm_compute in Hq. injection Hq as <-.
  destruct (ipc_respond_add_file_wrong (HS := sample_sdo) (HP := armhf) (CE := sendfile_whole)
    sample_header (cs "/tmp/f") ([x00; x05; x06] ++ cs "/tmp/f") "p"%byte sample_cache 0 fs sample_responder)
    as (reply & st' & H1 & H2 & H3); [by_compute..| |by_compute|by_compute|exact E|].
  - by_decide.
  - exists reply, st'. split; [exact H1|]. rewrite H2. split; [exact Hf|exact (proj2 H3)].
Defined.
