(* ===== verification/LoadConfigs.v ===== *)
(** * src/load_configs.c: the node's configuration and its object dictionary

    Two text files are read: a key-value file for the node and a CSV file of object
    dictionary entries.  The dictionary is built in place: an array of entries allocated from
    a declared count, filled row by row, in extend mode merged with the internal dictionary
    the daemon is compiled with.  An element of the array is [None] while its [index], the
    first two bytes, was never written; other memory that was never written is the section
    variable [fresh].  [realloc] is the C library's: it moves the block, so that a pointer into
    the old one is not valid any more, and gives back a block for which 0 bytes are asked.
    Left out is the member [extension] of an entry, which the code never sets. *)

From Stdlib Require Import Strings.Byte.
From S2P Require Import Prelude CLib ODInterface FileSys MemFS Str2buf.

Definition OBJECTS_COMMENT : string := ";objects=".
Definition NODE_CONFIG_ROOT_PATH : bytes := cs "/etc/oresat/node.conf".
Definition OD_CONFIG_ROOT_PATH : bytes := cs "/etc/oresat/od.csv".

Definition NEWLINE : byte := x0a.

Definition VARIABLE := 0x7.
Definition ARRAY := 0x8.
Definition RECORD := 0x9.

(** ** Object dictionary entries *)

Record od_var := mkVar {
  var_dataOrig : option bytes;
  var_attribute : Z;
  var_dataLength : Z;
  var_subIndex : Z;          (* records only *)
}.

(** The data of an array: string pointers, or the bytes of its elements. *)
Inductive arr_data :=
| APtrs (l : list (option (option bytes)))
| ABytes (l : list (option byte)).

Record od_arr := mkArr {
  arr_dataOrig0 : option bytes;
  arr_dataOrig : option arr_data;
  arr_attribute0 : Z;
  arr_attribute : Z;
  arr_dataElementSizeof : Z;
  arr_dataElementLength : Z;
}.

(** The type and the object of an entry; without an object ([odObject] is NULL) the type is not
    looked at. *)
Inductive od_object :=
| ODT_NONE
| ODT_VAR (v : od_var)
| ODT_ARR (a : od_arr)
| ODT_REC (l : list od_var).

Record OD_entry := mkEntry {
  e_index : Z;
  e_subEntriesCount : Z;
  e_object : od_object;
}.

(** The array [od_list] points to; an element is [None] while its [index] was not written. *)
Abbreviation od_array := (list (option OD_entry)).

(** [struct tmp_data_t]; [default_value] is the 256-byte buffer. *)
Record tmp_data_t := mkTmp {
  object_type : Z;
  data_type : Z;
  access_type : bytes;
  t_index : Z;
  t_subindex : Z;
  total_subindexes : Z;
  default_value : bytes;
}.

Section LoadConfigs.
Context `{HP : Platform} `{HO : ODTypes} `{HA : ODAttrs} `{HS : ODSizes} `{FS : FileSystem F}.

(** The attribute byte of a fresh, uninitialised [OD_obj_var_t]. *)
Variable fresh : Z.

(** The two [get_default_*_config_path] functions: [uid], the home path [wordexp] gives, the
    capacity [path_max]; the return value and the path written. *)
Definition default_config_path (root_path : bytes) (uid : Z) (home_path : bytes) (path_max : Z)
  : Z * option bytes :=
  let p := if uid =? 0 then root_path else home_path in
  if zlen p + 1 <? path_max then (0, Some p) else (-1, None).
Definition get_default_node_config_path := default_config_path NODE_CONFIG_ROOT_PATH.
Definition get_default_od_config_path := default_config_path OD_CONFIG_ROOT_PATH.

(** The value stored is [None] when the argument is left alone; any result of [sscanf] but 0
    is true, the [EOF] of an empty string too. *)
Definition parse_int_key (s : bytes) : bool * option Z :=
  if nth_is s 0 "0"%byte && nth_is s 1 "x"%byte then
    let '(r, v) := sscanf_x s in (negb (r =? 0), option_map (swrap 32) v)
  else let '(r, v) := sscanf_d s in (negb (r =? 0), v).

Definition parse_int (s : bytes) (old : Z) : Z :=
  match snd (parse_int_key s) with Some v => v | None => old end.

(** *** The node configuration *)

Definition make_node_config (fs : F) (p : option path) : Z * F :=
  match p with
  | None => (- EINVAL, fs)
  | Some p =>
      match fs_create fs p with
      | inl e => (- e, fs)
      | inr fs =>
          (0, fs_append fs p (cs "[Node]CanInterface=can0" ++ [NEWLINE] ++ cs "NodeId=0x7C"
                              ++ [NEWLINE] ++ cs "NetworkManager=false" ++ [NEWLINE]))
      end
  end.

(** [getline]: the lines of a file, each with its newline. *)
Fixpoint lines_from (cur : bytes) (s : bytes) : list bytes :=
  match s with
  | [] => match cur with [] => [] | _ => [cur] end
  | c :: s => if decide (c = NEWLINE) then (cur ++ [c]) :: lines_from [] s
              else lines_from (cur ++ [c]) s
  end.
Definition file_lines (s : bytes) : list bytes := lines_from [] s.

(** What the caller gets back: the interface name buffer, the node id, the flag. *)
Record node_config := mkNode { can_interface : bytes; node_id : Z; network_manager : bool }.

Definition after (prefix : string) (line : bytes) : bytes := drop (length (cs prefix)) line.

(** One line, as a C string.  [strncpy(&line[size], "true", ...)] is never NULL. *)
Definition node_config_line (line : bytes) (cfg : node_config) : res node_config :=
  if starts_with line "CanInterface=" then
    let tmp := after "CanInterface=" line in
    b ← mem_write (can_interface cfg) 0 tmp;
    b ← mem_write b (zlen tmp - 1) [NUL];
    mret (mkNode b (node_id cfg) (network_manager cfg))
  else if starts_with line "NodeId=" then
    mret (mkNode (can_interface cfg) (wrap 8 (parse_int (after "NodeId=" line) 0)) (network_manager cfg))
  else if starts_with line "NetworkManager=" then
    mret (mkNode (can_interface cfg) (node_id cfg) true)
  else mret cfg.

Fixpoint node_config_lines (lines : list bytes) (cfg : node_config) : res node_config :=
  match lines with
  | [] => mret cfg
  | line :: lines => cfg ← node_config_line (upto_nul line) cfg; node_config_lines lines cfg
  end.

Definition node_config_load (fs : F) (file_path : option path) (cfg : node_config)
  : res (Z * node_config) :=
  match file_path with
  | None => Ret (- EINVAL, cfg)
  | Some p =>
      match fs_read fs p with
      | inl _ => Ret (- EINVAL, cfg)
      | inr content => cfg ← node_config_lines (file_lines content) cfg; mret (0, cfg)
      end
  end.

(** *** Rows *)

Definition reset_tmp_data (d : tmp_data_t) : tmp_data_t :=
  mkTmp 0 0 (cs "rw") 0 (-1) 0 (NUL :: drop 1 (default_value d)).

(** [strncpy(dst, src, n)] of a string [dst] of [n] characters, as the code calls it: the
    new [dst], and whether the result (the pointer [dst]) is non-NULL. *)
Definition strncpy (dst src : bytes) (n : Z) : bytes * bool :=
  (take (Z.to_nat n) (src ++ replicate (Z.to_nat n) NUL) ++ drop (Z.to_nat n) dst, true).

(** The comparisons are copies: the string is overwritten and the tests are constant. *)
Definition get_access_attr (access_type : bytes) : Z * bytes :=
  let '(s, r1) := strncpy access_type (cs "ro") (zlen access_type) in
  let s := upto_nul s in
  if negb r1 then (ODA_SDO_R, s) else
  let '(s, r2) := strncpy s (cs "const") (zlen s) in
  let s := upto_nul s in
  if negb r2 then (ODA_SDO_R, s) else
  let '(s, r3) := strncpy s (cs "wo") (zlen s) in
  let s := upto_nul s in
  if negb r3 then (ODA_SDO_W, s) else (ODA_SDO_RW, s).

(** The scalar types of [fill_var]: the buffer, its length and the attribute bits. *)
Definition scalar_var (data_type : Z) (s : bytes) : option (option bytes * Z * Z) :=
  let mb := Z.lor ODA_MB ODA_TRPDO in
  if data_type =? BOOLEAN then Some (obj_bool (str2buf_bool (Some s)), 1, ODA_TRPDO)
  else if data_type =? INTERGER8 then Some (obj 1 (str2buf_int8 (Some s)), 1, ODA_TRPDO)
  else if data_type =? UNSIGNED8 then Some (obj 1 (str2buf_uint8 (Some s)), 1, ODA_TRPDO)
  else if data_type =? INTERGER16 then Some (obj 2 (str2buf_int16 (Some s)), 2, mb)
  else if data_type =? UNSIGNED16 then Some (obj 2 (str2buf_uint16 (Some s)), 2, mb)
  else if data_type =? INTERGER32 then Some (obj 4 (str2buf_int32 (Some s)), 4, mb)
  else if data_type =? UNSIGNED32 then Some (obj 4 (str2buf_uint32 (Some s)), 4, mb)
  else if data_type =? REAL32 then Some (obj 4 (str2buf_float32 (Some s)), 4, mb)
  else if data_type =? INTERGER64 then Some (obj 8 (str2buf_int64 (Some s)), 8, mb)
  else if data_type =? UNSIGNED64 then Some (obj 8 (str2buf_uint64 (Some s)), 8, mb)
  else if data_type =? REAL64 then Some (obj 8 (str2buf_float64 (Some s)), 8, mb)
  else None.

(** The value, its length, the attribute and the row afterwards; [None] is the result -1. *)
Definition fill_result : Type := res (option (option bytes * Z * Z * tmp_data_t)).

Definition set_default (v : bytes) (d : tmp_data_t) : tmp_data_t :=
  mkTmp (object_type d) (data_type d) (access_type d) (t_index d) (t_subindex d) (total_subindexes d) v.
Definition set_access (v : bytes) (d : tmp_data_t) : tmp_data_t :=
  mkTmp (object_type d) (data_type d) v (t_index d) (t_subindex d) (total_subindexes d) (default_value d).

Definition finish_var (value : option bytes) (length attribute : Z) (d : tmp_data_t) : fill_result :=
  let '(a, s) := get_access_attr (access_type d) in
  Ret (Some (value, length, Z.lor attribute a, set_access s d)).

Definition fill_var (d : tmp_data_t) (attribute : Z) : fill_result :=
  s ← c_str (default_value d);
  match scalar_var (data_type d) s with
  | Some (value, length, bits) =>
      let value := if zlen s =? 0
        then (if malloc_ok length then Some (replicate (Z.to_nat length) NUL) else None)
        else value in
      match value with
      | None => mret None
      | Some _ => finish_var value length (Z.lor attribute bits) d
      end
  | None =>
      if data_type d =? VISIBLE_STRING then
        let length := od_size (zlen s) in
        if length =? 0 then finish_var None 0 (Z.lor attribute ODA_STR) d
        else if malloc_ok (length + 1)
        then finish_var (Some (take (Z.to_nat (length + 1)) (with_nul s))) (length + 1)
               (Z.lor attribute ODA_STR) d
        else Undef UbNull
      else if data_type d =? OCTET_STRING then
        let '(v, non_null) := strncpy (default_value d) (cs "0") (zlen s + 1) in
        let d := set_default v d in
        if negb non_null then finish_var None 0 (Z.lor attribute ODA_STR) d
        else
          s ← c_str v;
          let '(value, len) := str2buf_bytes (Some s) (Some 0) in
          finish_var value (od_size (match len with Some l => l | None => 0 end))
            (Z.lor attribute ODA_STR) d
      else if data_type d =? DOMAIN then finish_var None 0 (Z.lor attribute ODA_MB) d
      else mret None
  end.

Definition empty_var : od_var := mkVar None 0 0 0.

(** What [fill_entry_index] leaves in the entry when its result is -1. *)
Definition failed_entry (d : tmp_data_t) : OD_entry :=
  mkEntry (wrap 16 (t_index d)) (wrap 8 (Z.max (total_subindexes d) 1)) ODT_NONE.

(** The new entry and the row afterwards, or [None] for the result -1. *)
Definition fill_entry_index (d : tmp_data_t) : res (option (OD_entry * tmp_data_t)) :=
  let index := wrap 16 (t_index d) in
  let subEntriesCount := wrap 8 (Z.max (total_subindexes d) 1) in
  if object_type d =? VARIABLE then
    if malloc_ok sizeof_OD_obj_var_t then
      r ← fill_var d fresh;
      match r with
      | None => mret None
      | Some (value, length, attribute, d) =>
          mret (Some (mkEntry index subEntriesCount (ODT_VAR (mkVar value attribute length 0)), d))
      end
    else Undef UbNull
  else if object_type d =? ARRAY then
    if malloc_ok sizeof_OD_obj_array_t
    then mret (Some (mkEntry index subEntriesCount (ODT_ARR (mkArr None None 0 0 0 0)), d))
    else mret None
  else if object_type d =? RECORD then
    let size := wrap LONG_BITS (swrap 32 (sizeof_OD_obj_record_t * total_subindexes d)) in
    if malloc_ok size
    then mret (Some (mkEntry index (wrap 8 (total_subindexes d))
                       (ODT_REC (replicate (Z.to_nat (size / sizeof_OD_obj_record_t)) empty_var)), d))
    else mret None
  else mret None.

(** [l[i] = x] of an array of [l]'s length. *)
Definition store {A} (l : list A) (i : Z) (x : A) : res (list A) :=
  if bool_decide (0 <= i < zlen l) then Ret (<[Z.to_nat i := x]> l) else Undef UbBounds.

Fixpoint store_all {A} (l : list A) (i : Z) (xs : list A) : res (list A) :=
  match xs with
  | [] => Ret l
  | x :: xs => l ← store l i x; store_all l (i + 1) xs
  end.

(** The data of an array before its first element is stored: [malloc] of [n] elements of
    [size] bytes, [None] when it fails. *)
Definition new_elements {A} (n size : Z) (x : A) : option (list A) :=
  if malloc_ok (wrap LONG_BITS (n * size)) then Some (replicate (Z.to_nat n) x) else None.

(** The cases of an array element; a string element of an array of scalars, or the
    reverse, would use one kind of memory as the other and is not modelled ([UbUninit]). *)
Definition fill_array_element (count : Z) (a : od_arr) (d : tmp_data_t) (sub_offset : Z)
  : res (option (od_arr * tmp_data_t)) :=
  if (data_type d =? OCTET_STRING) || (data_type d =? VISIBLE_STRING) then
    match (match arr_dataOrig a with
           | Some (APtrs l) => Ret l
           | Some (ABytes _) => Undef UbUninit
           | None => match new_elements (count - 1) (LONG_BITS / 8) None with
             | Some l => Ret l | None => Undef UbNull end
           end) with
    | Undef u => Undef u
    | Ret l =>
        r ← fill_var d (arr_attribute a);
        match r with
        | None => mret None
        | Some (value, length, attribute, d) =>
            l ← store l sub_offset (Some value);
            mret (Some (mkArr (arr_dataOrig0 a) (Some (APtrs l)) (arr_attribute0 a) attribute
                          length length, d))
        end
    end
  else if data_type d =? DOMAIN then
    let '(bits, s) := get_access_attr (access_type d) in
    match (match arr_dataOrig a with
           | Some x => Ret x
           | None => match new_elements (count - 1) (LONG_BITS / 8) (Some None) with
             | Some l => Ret (APtrs l) | None => Undef UbNull end
           end) with
    | Undef u => Undef u
    | Ret x => mret (Some (mkArr (arr_dataOrig0 a) (Some x) (arr_attribute0 a) (Z.lor bits ODA_MB)
                             (arr_dataElementSizeof a) (arr_dataElementSizeof a), set_access s d))
    end
  else
    r ← fill_var d (arr_attribute a);
    match r with
    | None => mret None
    | Some (value, size, attribute, d) =>
        match value with
        | None => Undef UbNull
        | Some v =>
            match (match arr_dataOrig a with
                   | Some (ABytes l) => Ret l
                   | Some (APtrs _) => Undef UbUninit
                   | None => match new_elements ((count - 1) * size) 1 None with
                     | Some l => Ret l | None => Undef UbNull end
                   end) with
            | Undef u => Undef u
            | Ret l =>
                l ← store_all l (wrap 8 (size * sub_offset)) (map Some v);
                mret (Some (mkArr (arr_dataOrig0 a) (Some (ABytes l)) (arr_attribute0 a) attribute
                              size size, d))
            end
        end
    end.

Definition fill_entry_subindex (entry : OD_entry) (d : tmp_data_t) (sub_offset : Z)
  : res (option (OD_entry * tmp_data_t)) :=
  match e_object entry with
  | ODT_ARR a =>
      if t_subindex d =? 0 then
        r ← fill_var d (arr_attribute0 a);
        match r with
        | None => mret None
        | Some (value, _, attribute, d) =>
            mret (Some (mkEntry (e_index entry) (e_subEntriesCount entry)
              (ODT_ARR (mkArr value (arr_dataOrig a) attribute (arr_attribute a)
                          (arr_dataElementSizeof a) (arr_dataElementLength a))), d))
        end
      else
        r ← fill_array_element (e_subEntriesCount entry) a d sub_offset;
        match r with
        | None => mret None
        | Some (a, d) => mret (Some (mkEntry (e_index entry) (e_subEntriesCount entry) (ODT_ARR a), d))
        end
  | ODT_REC rec =>
      match rec !! Z.to_nat sub_offset with
      | None => Undef UbBounds
      | Some v =>
          r ← fill_var d (var_attribute v);
          match r with
          | None => mret None
          | Some (value, length, attribute, d') =>
              rec ← store rec sub_offset (mkVar value attribute length (wrap 8 (t_subindex d)));
              mret (Some (mkEntry (e_index entry) (e_subEntriesCount entry) (ODT_REC rec), d'))
          end
      end
  | ODT_VAR _ | ODT_NONE => mret None
  end.

(** *** The load loop *)

(** The columns of a row: [strsep(&line, ",")] until the line is used up. *)
Fixpoint split_commas (cur s : bytes) : list bytes :=
  match s with
  | [] => [cur]
  | c :: s => if decide (c = ","%byte) then cur :: split_commas [] s else split_commas (cur ++ [c]) s
  end.

Definition set_row (d : tmp_data_t) (ty dty : Z) (acc : bytes) (idx sub tot : Z) (dv : bytes) :=
  mkTmp ty dty acc idx sub tot dv.

(** One column; copies are bounded by the members they go to. *)
Definition csv_field (count : nat) (token : bytes) (d : tmp_data_t) : res tmp_data_t :=
  match count with
  | 0%nat => mret (set_row d (parse_int token (object_type d)) (data_type d) (access_type d)
                     (t_index d) (t_subindex d) (total_subindexes d) (default_value d))
  | 1%nat => mret (set_row d (object_type d) (data_type d) (access_type d)
                     (parse_int token (t_index d)) (t_subindex d) (total_subindexes d) (default_value d))
  | 2%nat =>
      if (object_type d =? VARIABLE) && (0 <? zlen token)
      then mret (set_row d (object_type d) (data_type d) (access_type d) (t_index d)
                   (parse_int token (t_subindex d)) (total_subindexes d) (default_value d))
      else mret d
  | 3%nat =>
      if object_type d =? VARIABLE then
        if zlen token + 1 <=? 16 then mret (set_access token d) else Undef UbBounds
      else mret d
  | 4%nat =>
      if object_type d =? VARIABLE
      then mret (set_row d (object_type d) (parse_int token (data_type d)) (access_type d)
                   (t_index d) (t_subindex d) (total_subindexes d) (default_value d))
      else mret d
  | _ =>
      if object_type d =? VARIABLE then
        if decide (head token = Some NEWLINE) then mret d
        else
          b ← mem_write (default_value d) 0 token;
          b ← mem_write b (zlen token - 1) [NUL];
          mret (set_default b d)
      else mret (set_row d (object_type d) (data_type d) (access_type d) (t_index d)
                   (t_subindex d) (parse_int token (total_subindexes d)) (default_value d))
  end.

Fixpoint csv_fields (count : nat) (tokens : list bytes) (d : tmp_data_t) : res tmp_data_t :=
  match tokens with
  | [] => mret d
  | token :: tokens =>
      if (count <? 6)%nat then d ← csv_field count token d; csv_fields (S count) tokens d
      else mret d
  end.

(** The pointer [entry]: NULL, an element of [od_list], an element of a block that [od_list] no
    longer names because [realloc] failed, or a pointer to no object. *)
Inductive entry_ptr :=
| PNull
| PAt (i : Z)
| PLost (x : option (option OD_entry))
| PWild.

(** The variables of the loop. *)
Record load_state := mkLoad {
  l_size : Z;                              (* uint32_t size *)
  l_list : option od_array;                (* od_list, None for NULL *)
  l_internal_od_offset : nat;
  l_e : Z;                                 (* unsigned int e *)
  l_data : tmp_data_t;
  l_entry : entry_ptr;
  l_sub_offset : Z;
  l_last_internal_index : Z;
  l_header_skipped : bool;
  l_comment_found : bool;
}.

(** [sizeof(OD_entry_t) * (size + 1)]: [size + 1] is [uint32_t], the product [size_t]; and the
    elements that block holds. *)
Definition list_bytes (size : Z) : Z := wrap LONG_BITS (sizeof_OD_entry_t * wrap 32 (size + 1)).
Definition list_places (size : Z) : nat := Z.to_nat (list_bytes size / sizeof_OD_entry_t).

Definition resize {A} (n : nat) (l : list (option A)) : list (option A) :=
  take n l ++ replicate (n - length l) None.

(** [od_list = realloc(od_list, ...)] and what it makes of [entry].  A block of 0 bytes is freed, as
    the C library does; when memory runs out the old block stays, but [od_list] loses it. *)
Definition realloc_list (size : Z) (list : option od_array) (entry : entry_ptr)
  : option od_array * entry_ptr :=
  match list with
  | None => (if malloc_ok (list_bytes size) then Some (replicate (list_places size) None) else None, entry)
  | Some l =>
      let moved := match entry with PAt _ => PWild | _ => entry end in
      if list_bytes size =? 0 then (None, moved)
      else if malloc_ok (list_bytes size) then (Some (resize (list_places size) l), moved)
      else (None, match entry with PAt i => PLost (l !! Z.to_nat i) | _ => entry end)
  end.

(** [&od_list[e]]. *)
Definition place (list : option od_array) (e : Z) : entry_ptr :=
  match list with Some _ => PAt e | None => if e =? 0 then PNull else PWild end.

(** The element [entry] points to. *)
Definition entry_get (st : load_state) : res OD_entry :=
  match l_entry st, l_list st with
  | PNull, _ => Undef UbNull
  | PAt i, Some l =>
      match l !! Z.to_nat i with
      | Some (Some x) => Ret x
      | Some None => Undef UbUninit
      | None => Undef UbBounds
      end
  | PLost (Some (Some x)), _ => Ret x
  | PLost (Some None), _ => Undef UbUninit
  | PLost None, _ => Undef UbBounds
  | PAt _, None | PWild, _ => Undef UbLifetime
  end.

Definition set_entry (l : option od_array) (entry : entry_ptr) (st : load_state) : load_state :=
  mkLoad (l_size st) l (l_internal_od_offset st) (l_e st) (l_data st) entry (l_sub_offset st)
    (l_last_internal_index st) (l_header_skipped st) (l_comment_found st).

(** [*entry = x]. *)
Definition entry_put (st : load_state) (x : OD_entry) : res load_state :=
  match l_entry st, l_list st with
  | PNull, _ => Undef UbNull
  | PAt i, Some l => l ← store l i (Some x); mret (set_entry (Some l) (PAt i) st)
  | PLost (Some _), list => Ret (set_entry list (PLost (Some (Some x))) st)
  | PLost None, _ => Undef UbBounds
  | PAt _, None | PWild, _ => Undef UbLifetime
  end.

(** The loop that copies the internal entries up to the row's index. *)
Fixpoint copy_internal (internal : list OD_entry) (index : Z) (st : load_state) : res load_state :=
  match internal with
  | [] => mret st
  | x :: internal =>
      if e_index x <=? index then
        st ← entry_put st x;
        let e := wrap 32 (l_e st + 1) in
        copy_internal internal index
          (mkLoad (l_size st) (l_list st) (S (l_internal_od_offset st)) e (l_data st)
             (place (l_list st) e) (l_sub_offset st)
             (e_index x) (l_header_skipped st) (l_comment_found st))
      else mret st
  end.

(** How a line ends: the loop goes on, or [goto error] leaves it with the variables it has. *)
Inductive line_end := Next (st : load_state) | Error (st : load_state).

(** The check after each row. *)
Definition check (st : load_state) : res line_end :=
  if l_size st <? l_e st then mret (Error st) else mret (Next st).

(** The rest of a row: [e], the row, [sub_offset]. *)
Definition set_position (e : Z) (d : tmp_data_t) (sub_offset : Z) (st : load_state) : load_state :=
  mkLoad (l_size st) (l_list st) (l_internal_od_offset st) e d (l_entry st) sub_offset
    (l_last_internal_index st) (l_header_skipped st) (l_comment_found st).
Definition set_size (size : Z) (st : load_state) : load_state :=
  let '(l, entry) := realloc_list size (l_list st) (l_entry st) in
  mkLoad size l (l_internal_od_offset st) (l_e st) (l_data st) entry (l_sub_offset st)
    (l_last_internal_index st) (l_header_skipped st) (l_comment_found st).

(** [fill_entry_index(entry, &data)] with the [goto error] of a negative result. *)
Definition fill_new (st : load_state) : res line_end :=
  match l_entry st with
  | PNull => mret (Error st)
  | _ =>
      r ← fill_entry_index (l_data st);
      match r with
      | None => st ← entry_put st (failed_entry (l_data st)); mret (Error st)
      | Some (x, d) => st ← entry_put st x; check (set_position (l_e st) d 0 st)
      end
  end.

(** A row with its columns read.  [internal] is [OD->list], of [OD->size] entries.  A member that
    failed may have changed its entry before; the release that follows is defined in the same cases
    then, and what it gives back on an error is not a result. *)
Definition load_row (extend_internal_od : bool) (internal : list OD_entry) (st : load_state)
  : res line_end :=
  let d := l_data st in
  if t_subindex d =? -1 then
    let e := wrap 32 (l_e st + 1) in
    let st := set_entry (l_list st) (place (l_list st) e) (set_position e d (l_sub_offset st) st) in
    st ← (if extend_internal_od
          then copy_internal (drop (l_internal_od_offset st) internal) (t_index d) st else mret st);
    let skip_entry := extend_internal_od && (wrap 16 (t_index d) =? l_last_internal_index st) in
    if skip_entry then
      check (set_size (wrap 32 (l_size st - 1)) (set_position (wrap 32 (l_e st - 1)) d 0 st))
    else fill_new st
  else if object_type d =? VARIABLE then
    let skip_entry := extend_internal_od && (wrap 16 (t_index d) =? l_last_internal_index st) in
    if skip_entry then check (set_position (l_e st) d (l_sub_offset st + 1) st)
    else match l_entry st with
      | PNull => mret (Error st)           (* fill_entry_subindex(NULL, ...) *)
      | _ =>
          entry ← entry_get st;
          r ← fill_entry_subindex entry d (l_sub_offset st);
          match r with
          | None => mret (Error st)
          | Some (entry, d) =>
              st ← entry_put st entry; check (set_position (l_e st) d (l_sub_offset st + 1) st)
          end
      end
  else check st.

Definition set_row_data (d : tmp_data_t) (st : load_state) : load_state :=
  set_position (l_e st) d (l_sub_offset st) st.
Definition set_flags (header_skipped comment_found : bool) (st : load_state) : load_state :=
  mkLoad (l_size st) (l_list st) (l_internal_od_offset st) (l_e st) (l_data st) (l_entry st)
    (l_sub_offset st) (l_last_internal_index st) header_skipped comment_found.

(** One line, as a C string. *)
Definition load_line (extend_internal_od : bool) (internal : list OD_entry) (line : bytes)
    (st : load_state) : res line_end :=
  let st := set_row_data (reset_tmp_data (l_data st)) st in
  if bool_decide (head line = Some NEWLINE) || bool_decide (head line = Some ";"%byte) then
    if starts_with line OBJECTS_COMMENT then
      let size := wrap 32 (l_size st + parse_int (after OBJECTS_COMMENT line) 0) in
      mret (Next (set_size size (set_flags (l_header_skipped st) true st)))
    else mret (Next st)
  else if negb (l_header_skipped st) then mret (Next (set_flags true (l_comment_found st) st))
  else if negb (l_comment_found st) then mret (Next st)
  else
    let tokens := split_commas [] line in
    if (7 <? length tokens)%nat then Undef UbLifetime    (* getline(&line) inside the old line *)
    else
      d ← csv_fields 0 tokens (l_data st);
      load_row extend_internal_od internal (set_row_data d st).

Fixpoint load_lines (extend_internal_od : bool) (internal : list OD_entry) (lines : list bytes)
    (st : load_state) : res line_end :=
  match lines with
  | [] => mret (Next st)
  | line :: lines =>
      r ← load_line extend_internal_od internal (upto_nul line) st;
      match r with
      | Error st => mret (Error st)
      | Next st => load_lines extend_internal_od internal lines st
      end
  end.

(** The list of extend mode before the file is read: [memset] clears as many bytes as [size + 1]
    values of type [OD_size_t] have, and an element is an empty entry when its index, the first two
    bytes, is among them. *)
Definition zero_entry : OD_entry := mkEntry 0 0 ODT_NONE.
Definition clear_list (size : Z) : od_array :=
  let cleared := OD_SIZE_BITS / 8 * (size + 1) in
  map (fun i => if sizeof_OD_entry_t * Z.of_nat i + 2 <=? cleared then Some zero_entry else None)
    (seq 0 (list_places size)).

(** [od_list] is allocated at once in extend mode and otherwise still NULL. *)
Definition load_init (extend_internal_od : bool) (size : Z) (junk : bytes) : load_state :=
  mkLoad size (if extend_internal_od then Some (clear_list size) else None)
    0 (2 ^ 32 - 1) (mkTmp 0 0 [] 0 0 0 junk) PNull 0 0 false false.

(** *** The release

    The blocks [od_config_free] gives back, named by the entry and the element that hold the
    pointer.  The loader stores a pointer in one place only, each from an allocation of its own,
    but for those of the internal dictionary, which it copies and the release leaves alone: two
    names are two blocks. *)
Inductive block :=
| BDataOrig (i : nat)
| BDataOrig0 (i : nat)
| BElement (i j : nat)
| BRecord (i : nat)
| BList
| BOD.

Definition free_if {A} (p : option A) (b : block) : list block :=
  match p with Some _ => [b] | None => [] end.

(** The members of a record, [n] to go. *)
Fixpoint free_elements (n j i : nat) (rec : list od_var) : res (list block) :=
  match n with
  | O => Ret []
  | S n =>
      match rec !! j with
      | None => Undef UbBounds
      | Some v => rest ← free_elements n (S j) i rec; mret (free_if (var_dataOrig v) (BElement i j) ++ rest)
      end
  end.

Definition free_entry (extend_internal_od : bool) (internal : list OD_entry) (i : nat) (entry : OD_entry)
  : res (list block) :=
  if extend_internal_od && existsb (fun x => e_index entry =? e_index x) internal then Ret []
  else match e_object entry with
    | ODT_NONE => Ret []
    | ODT_VAR v => Ret (free_if (var_dataOrig v) (BDataOrig i))
    | ODT_ARR a => Ret (free_if (arr_dataOrig0 a) (BDataOrig0 i) ++ free_if (arr_dataOrig a) (BDataOrig i))
    | ODT_REC rec =>
        l ← free_elements (Z.to_nat (e_subEntriesCount entry)) 0 i rec; mret (l ++ [BRecord i])
    end.

(** The loop over the list, up to an entry with index 0. *)
Fixpoint free_loop (extend_internal_od : bool) (internal : list OD_entry) (i : nat)
    (l : list (option OD_entry)) : res (list block) :=
  match l with
  | [] => Undef UbBounds
  | None :: _ => Undef UbUninit
  | Some entry :: l =>
      if e_index entry =? 0 then mret []
      else
        b ← free_entry extend_internal_od internal i entry;
        rest ← free_loop extend_internal_od internal (S i) l;
        mret (b ++ rest)
  end.

(** [od] is NULL, or its list is. *)
Definition od_config_free (od : option (option od_array)) (extend_internal_od : bool)
    (internal : list OD_entry) : res (list block) :=
  match od with
  | None => Ret []
  | Some None => Ret [BOD]
  | Some (Some l) =>
      b ← free_loop extend_internal_od internal 0 l; mret (b ++ [BList; BOD])
  end.

(** The list and the size, [None] for the result -1, after which the dictionary was released.  [junk]
    is what the 256 bytes of [data.default_value] hold before they are written. *)
Definition od_config_load (fs : F) (file_path : option path) (od : bool) (extend_internal_od : bool)
    (internal : list OD_entry) (junk : bytes) : res (option (option od_array * Z)) :=
  match file_path, od with
  | Some p, true =>
      let size := if extend_internal_od then zlen internal else 0 in
      if extend_internal_od && negb (malloc_ok (list_bytes size)) then mret None
      else match fs_read fs p with
        | inl _ => mret None
        | inr content =>
            if negb (malloc_ok sizeof_OD_t) then mret None else
            let error st := _ ← od_config_free (Some (l_list st)) extend_internal_od internal; mret None in
            r ← load_lines extend_internal_od internal (file_lines content) (load_init extend_internal_od size junk);
            match r with
            | Error st => error st
            | Next st => if l_comment_found st then mret (Some (l_list st, l_size st)) else error st
            end
        end
  | _, _ => mret None
  end.
End LoadConfigs.

(** ** Properties *)

Section ConfigProps.
Context `{HP : Platform} `{HO : ODTypes} `{HA : ODAttrs} `{HS : ODSizes} `{FS : FileSystem F}.
Variable fresh : Z.

(** A printed number is read back up to the first byte that is not a digit. *)
Lemma print_nat_not_0x n rest : 0 <= n -> no_digit 10 rest -> head rest <> Some "x"%byte ->
  nth_is (print_nat 10 n ++ rest) 0 "0"%byte && nth_is (print_nat 10 n ++ rest) 1 "x"%byte = false.
Proof.
  intros Hn Hr Hx. destruct (print_nat_head 10 n) as (d & r & E & Hd & Hall); [by left|done|].
  rewrite E. apply andb_false_iff. right. unfold nth_is. apply bool_decide_eq_false_2. cbn.
  destruct r as [|d2 r]; cbn.
  - by destruct rest.
  - inversion Hall; subst. intros [= E2]. apply (digit_char_ne d2 "x"%byte) in E2; [done|lia|].
    right. vm_compute. done.
Qed.

(** [parse_int_key] reads back every [int] printed in decimal and every 32-bit number
    printed in [0x] hexadecimal (as the [int] of the same bits), whatever follows that is
    not a digit. *)
Theorem parse_int_key_roundtrip n rest :
  no_digit 16 rest -> head rest <> Some "x"%byte ->
  (in_s 32 n -> parse_int_key (print_dec n ++ rest) = (true, Some n)) /\
  (in_u 32 n -> parse_int_key (print_hex n ++ rest) = (true, Some (swrap 32 n))).
Proof.
  intros Hr Hx. pose proof LONG_BITS_range as Hb.
  assert (no_digit 10 rest) as Hr10.
  { destruct rest as [|b rest]; [done|]. cbn in Hr |- *. unfold digit_val in *.
    repeat case_match; simplify_eq; try done; lia. }
  split.
  - intros Hn. unfold parse_int_key, print_dec.
    assert (in_s LONG_BITS n) as Hn'.
    { unfold in_s in *. assert (2 ^ 31 <= 2 ^ (LONG_BITS - 1)) by (apply Z.pow_le_mono_r; lia).
      change (32 - 1) with 31 in *. lia. }
    unfold in_s in Hn'. unfold sscanf_d, strtol.
    destruct (Z.ltb_spec n 0).
    + change (nth_is ((cs "-" ++ print_nat 10 (- n)) ++ rest) 0 "0"%byte) with false. cbn [andb].
      rewrite <- app_assoc, scan_number_neg_dec by (done || lia).
      rewrite (proj2 (Z.ltb_ge _ _)) by lia. cbn [fst]. rewrite Z.opp_involutive.
      by rewrite swrap_small by (done || lia).
    + rewrite print_nat_not_0x by done. rewrite scan_number_dec by done.
      rewrite (proj2 (Z.ltb_ge _ _)) by lia. cbn [fst]. by rewrite swrap_small by (done || lia).
  - intros Hn. unfold parse_int_key.
    change (nth_is (print_hex n ++ rest) 0 "0"%byte) with true.
    change (nth_is (print_hex n ++ rest) 1 "x"%byte) with true. cbn [andb].
    unfold in_u in Hn. assert (2 ^ 32 <= 2 ^ LONG_BITS) by (apply Z.pow_le_mono_r; lia).
    unfold sscanf_x, strtoul. rewrite scan_number_hex by (done || lia).
    rewrite (proj2 (Z.ltb_ge _ _)) by lia. cbn [fst]. by rewrite wrap_small.
Qed.

(** The access type of the configuration is never read. *)
Lemma get_access_attr_rw s : fst (get_access_attr s) = ODA_SDO_RW.
Proof. reflexivity. Qed.

Lemma finish_var_rw value length attribute d :
  exists acc, finish_var value length attribute d
    = Ret (Some (value, length, Z.lor attribute ODA_SDO_RW, set_access acc d)).
Proof.
  unfold finish_var. pose proof (get_access_attr_rw (access_type d)) as E.
  destruct (get_access_attr (access_type d)) as [a s]. cbn in E. subst a. by eexists.
Qed.

Lemma scalar_var_dtype ty s :
  match scalar_var ty s with
  | Some (value, length, bits) =>
      dtype_size ty = Some (Z.to_nat length) /\ 0 < length /\
      str2buf_dtype_int ty (Some s) 0
        = Ret (value, match value with Some _ => length | None => 0 end) /\
      bits = (if length =? 1 then ODA_TRPDO else Z.lor ODA_MB ODA_TRPDO)
  | None => dtype_size ty = None
  end.
Proof.
  unfold scalar_var, dtype_size, str2buf_dtype_int.
  repeat match goal with |- context [ty =? ?c] => destruct (Z.eqb_spec ty c); [subst ty; done|] end.
  done.
Qed.

(** The attribute bits of a scalar of [n] bytes. *)
Definition scalar_bits (n : nat) : Z := if (n =? 1)%nat then ODA_TRPDO else Z.lor ODA_MB ODA_TRPDO.

Lemma fill_var_value d attribute s n :
  (forall k, malloc_ok k = true) ->
  c_str (default_value d) = Ret s -> dtype_size (data_type d) = Some n ->
  exists acc, fill_var d attribute
    = match (if zlen s =? 0 then Ret (Some (replicate n NUL), Z.of_nat n)
             else str2buf_dtype_int (data_type d) (Some s) 0) with
      | Ret (Some v, len) =>
          Ret (Some (Some v, len, Z.lor (Z.lor attribute (scalar_bits n)) ODA_SDO_RW, set_access acc d))
      | Ret (None, _) => Ret None
      | Undef u => Undef u
      end.
Proof.
  intros Hm Hs Hn. unfold fill_var. rewrite Hs. run.
  pose proof (scalar_var_dtype (data_type d) s) as Hsc.
  destruct (scalar_var (data_type d) s) as [[[value len] bits]|]; [|congruence].
  destruct Hsc as (Hsize & Hpos & Hint & Hbits). rewrite Hint.
  assert (n = Z.to_nat len) as -> by congruence.
  destruct (finish_var_rw (if zlen s =? 0 then Some (replicate (Z.to_nat len) NUL) else value)
    len (Z.lor attribute bits) d) as [acc Hf].
  exists acc. assert (scalar_bits (Z.to_nat len) = bits) as ->.
  { rewrite Hbits. unfold scalar_bits. destruct (Z.eqb_spec len 1), (Nat.eqb_spec (Z.to_nat len) 1); done || lia. }
  rewrite Hm. destruct (zlen s =? 0).
  - rewrite Z2Nat.id by lia. exact Hf.
  - destruct value; [exact Hf|done].
Qed.

(** C22: when memory can be allocated, the value of a scalar entry is what [str2buf] makes of the default
    of the row (zero when there is none), with the length of its type, and readable and writable
    over SDO whatever access type the row has; a default that [str2buf] rejects is an error. *)
Theorem fill_var_scalar d attribute s n :
  (forall k, malloc_ok k = true) ->
  c_str (default_value d) = Ret s -> dtype_size (data_type d) = Some n ->
  exists bits d', fill_var d attribute
    = match (if zlen s =? 0 then Ret (Some (replicate n NUL), Z.of_nat n)
             else str2buf_dtype_int (data_type d) (Some s) 0) with
      | Ret (Some v, len) => Ret (Some (Some v, len, Z.lor (Z.lor attribute bits) ODA_SDO_RW, d'))
      | Ret (None, _) => Ret None
      | Undef u => Undef u
      end /\ bits = (if (n =? 1)%nat then ODA_TRPDO else Z.lor ODA_MB ODA_TRPDO).
Proof.
  intros Hm Hs Hn. destruct (fill_var_value d attribute s n Hm Hs Hn) as [acc ->].
  by exists (scalar_bits n), (set_access acc d).
Qed.

(** The default of an octet string is lost: the comparison with "0" is a copy that
    overwrites the text, so that the entry has no data, whatever bytes the row gives. *)
Theorem fill_var_octet_string d attribute s :
  data_type d = OCTET_STRING -> c_str (default_value d) = Ret s -> s <> [] ->
  exists d', fill_var d attribute
    = Ret (Some (None, 0, Z.lor (Z.lor attribute ODA_STR) ODA_SDO_RW, d')).
Proof.
  intros Hty Hs Hne. unfold fill_var. rewrite Hs. run. rewrite Hty.
  change (scalar_var OCTET_STRING s) with (@None (option bytes * Z * Z)).
  change (OCTET_STRING =? VISIBLE_STRING) with false. rewrite Z.eqb_refl. cbn [negb].
  pose proof (zlen_pos s Hne).
  unfold strncpy. set (v := take _ _ ++ _).
  assert (exists r, v = "0"%byte :: NUL :: r) as [r ->].
  { subst v. assert (exists k, Z.to_nat (zlen s + 1) = S (S k)) as [k ->].
    { exists (Z.to_nat (zlen s - 1)). lia. }
    cbn. by eexists. }
  assert (c_str ("0"%byte :: NUL :: r) = Ret (cs "0")) as ->.
  { apply (c_str_with_nul (cs "0") r). unfold wf_cstr. cbn. set_solver. }
  cbn [mbind res_bind negb]. unfold str2buf_bytes. cbn [zlen length cs].
  change ((zlen (cs "0") =? 0) || negb (zlen (cs "0") mod 2 =? 0)) with true. cbv iota.
  assert (od_size 0 = 0) as ->.
  { apply od_size_id, is_od_size_16. lia. }
  destruct (finish_var_rw None 0 (Z.lor attribute ODA_STR) (set_default ("0"%byte :: NUL :: r) d)) as [acc ->].
  by eexists.
Qed.

(** *** Entries *)

Lemma store_ok {A} (l : list A) i x : 0 <= i < zlen l -> store l i x = Ret (<[Z.to_nat i := x]> l).
Proof. intros. unfold store. by rewrite bool_decide_eq_true_2. Qed.

Lemma store_oob {A} (l : list A) i x : zlen l <= i -> store l i x = Undef UbBounds.
Proof. intros. unfold store. by rewrite bool_decide_eq_false_2 by lia. Qed.

Lemma zlen_insert {A} (l : list A) i x : zlen (<[i := x]> l) = zlen l.
Proof. unfold zlen. by rewrite length_insert. Qed.

Lemma store_all_ok {A} (l xs : list A) i :
  0 <= i -> i + zlen xs <= zlen l ->
  store_all l i xs = Ret (take (Z.to_nat i) l ++ xs ++ drop (Z.to_nat i + length xs) l).
Proof.
  revert l i. induction xs as [|x xs IH]; intros l i Hi Hl; cbn [store_all].
  { simpl. by rewrite Nat.add_0_r, take_drop. }
  assert (zlen (x :: xs) = zlen xs + 1) as Hx by zlia.
  pose proof (zlen_nonneg xs).
  rewrite store_ok by lia. run. rewrite IH by (rewrite ?zlen_insert; lia). f_equal.
  replace (Z.to_nat (i + 1)) with (S (Z.to_nat i)) by lia.
  rewrite (take_S_r _ _ x) by (apply list_lookup_insert_eq; unfold zlen in *; lia).
  rewrite take_insert_ge by lia. rewrite drop_insert_lt by lia.
  rewrite <- app_assoc. simpl. do 4 f_equal. lia.
Qed.

(** The element of an array is stored by the number of its row, counted from the row of
    subindex 0: the value of subindex [j] lands in the place of subindex [j + 1], and the
    last element is written past the end of the array. *)
Theorem fill_entry_subindex_array_shift entry a d j v k attribute d' l :
  e_object entry = ODT_ARR a -> t_subindex d <> 0 -> dtype_size (data_type d) <> None ->
  fill_var d (arr_attribute a) = Ret (Some (Some v, k, attribute, d')) -> zlen v = k -> 0 < k ->
  arr_dataOrig a = Some (ABytes l) -> zlen l = (e_subEntriesCount entry - 1) * k ->
  1 <= j <= e_subEntriesCount entry - 1 -> k * j < 256 ->
  fill_entry_subindex entry d j
  = if j =? e_subEntriesCount entry - 1 then Undef UbBounds
    else Ret (Some (mkEntry (e_index entry) (e_subEntriesCount entry)
      (ODT_ARR (mkArr (arr_dataOrig0 a)
        (Some (ABytes (take (Z.to_nat (k * j)) l ++ map Some v ++ drop (Z.to_nat (k * (j + 1))) l)))
        (arr_attribute0 a) attribute k k)), d')).
Proof.
  intros Ha Hsub Hty Hv Hk Hpos Hdata Hl Hj H256. unfold fill_entry_subindex. rewrite Ha.
  rewrite (proj2 (Z.eqb_neq _ _)) by done. unfold fill_array_element.
  assert ((data_type d =? OCTET_STRING) || (data_type d =? VISIBLE_STRING) = false) as ->.
  { apply orb_false_iff. split; apply Z.eqb_neq; by intros E; rewrite E in Hty. }
  assert ((data_type d =? DOMAIN) = false) as -> by (apply Z.eqb_neq; by intros E; rewrite E in Hty).
  rewrite Hv. run. rewrite Hdata, wrap_small by (split; [nia|exact H256]).
  assert (zlen (map Some v) = k) as Hm by (unfold zlen in *; by rewrite length_map).
  destruct (Z.eqb_spec j (e_subEntriesCount entry - 1)) as [E|E].
  - destruct (map Some v) as [|x xs]; [unfold zlen in Hm; simpl in Hm; lia|]. cbn [store_all].
    by rewrite store_oob by nia.
  - rewrite store_all_ok by nia. run.
    assert (length (map Some v) = Z.to_nat k) as -> by (unfold zlen in Hm; lia).
    replace (Z.to_nat (k * j) + Z.to_nat k)%nat with (Z.to_nat (k * (j + 1))) by nia. done.
Qed.

(** A member of a record is stored at the number of its row with its subindex, data,
    length and attributes; the other members stay. *)
Theorem fill_entry_subindex_record entry rec d j v0 value k attribute d' :
  e_object entry = ODT_REC rec -> 0 <= j -> rec !! Z.to_nat j = Some v0 ->
  fill_var d (var_attribute v0) = Ret (Some (value, k, attribute, d')) ->
  exists rec', fill_entry_subindex entry d j
    = Ret (Some (mkEntry (e_index entry) (e_subEntriesCount entry) (ODT_REC rec'), d')) /\
    rec' !! Z.to_nat j = Some (mkVar value attribute k (wrap 8 (t_subindex d))) /\
    (forall i, i <> Z.to_nat j -> rec' !! i = rec !! i) /\ length rec' = length rec.
Proof.
  intros Hr Hj Hv0 Hv. unfold fill_entry_subindex. rewrite Hr, Hv0, Hv. run.
  pose proof (lookup_lt_Some _ _ _ Hv0).
  rewrite store_ok by zlia. run.
  eexists. split; [done|]. split_and!.
  - by apply list_lookup_insert_eq.
  - intros i Hi. by apply list_lookup_insert_ne.
  - apply length_insert.
Qed.

(** *** The load loop *)

(** A row of a new entry is stored in the next place of the list while there is one, the
    place of the terminator included; the row after that is written past the end, before the
    check of the entry number that follows can report it. *)
Theorem load_row_index internal st l entry d' :
  t_subindex (l_data st) = -1 -> fill_entry_index fresh (l_data st) = Ret (Some (entry, d')) ->
  l_list st = Some l -> zlen l = l_size st + 1 ->
  let e := wrap 32 (l_e st + 1) in
  load_row fresh false internal st
  = if e <=? l_size st then
      Ret (Next (mkLoad (l_size st) (Some (<[Z.to_nat e := Some entry]> l))
                   (l_internal_od_offset st) e d' (PAt e) 0 (l_last_internal_index st)
                   (l_header_skipped st) (l_comment_found st)))
    else Undef UbBounds.
Proof.
  intros Hsub Hfill Hl Hlen e. unfold load_row. rewrite Hsub, Z.eqb_refl. fold e.
  cbn [mbind res_bind mret res_ret andb]. unfold fill_new, entry_put, place, set_entry, set_position.
  cbn [l_entry l_list l_data]. rewrite Hl, Hfill. cbn [mbind res_bind l_entry l_list].
  pose proof (wrap_range 32 (l_e st + 1) ltac:(lia)) as [He _]. fold e in He.
  destruct (Z.leb_spec e (l_size st)).
  - rewrite store_ok by lia. run. unfold check. cbn [l_size l_e].
    by rewrite (proj2 (Z.ltb_ge _ _)) by lia.
  - by rewrite store_oob by lia.
Qed.

Lemma copy_internal_all internal index st pre rest :
  Forall (fun x => e_index x <= index) internal ->
  l_list st = Some (pre ++ rest) -> zlen internal <= zlen rest -> l_e st = zlen pre ->
  l_entry st = PAt (zlen pre) -> zlen pre + zlen internal < 2 ^ 32 ->
  copy_internal internal index st
  = Ret (mkLoad (l_size st) (Some (pre ++ map Some internal ++ drop (length internal) rest))
           (l_internal_od_offset st + length internal) (zlen pre + zlen internal) (l_data st)
           (PAt (zlen pre + zlen internal)) (l_sub_offset st)
           (match list.last internal with Some x => e_index x | None => l_last_internal_index st end)
           (l_header_skipped st) (l_comment_found st)).
Proof.
  revert st pre rest. induction internal as [|x internal IH]; intros st pre rest Hall Hl Hlen He Hp H32.
  { simpl. destruct st; cbn in *. subst. unfold zlen. simpl. rewrite Nat.add_0_r, Z.add_0_r, drop_0. done. }
  apply list.Forall_cons in Hall as [Hx Hall]. cbn [copy_internal].
  rewrite (proj2 (Z.leb_le _ _)) by done.
  assert (zlen (x :: internal) = zlen internal + 1) as Hz by zlia.
  pose proof (zlen_nonneg internal). pose proof (zlen_nonneg pre).
  destruct rest as [|y rest]; [unfold zlen in Hlen; simpl in Hlen; lia|].
  assert (zlen (y :: rest) = zlen rest + 1) as Hz' by zlia.
  unfold entry_put. rewrite Hp, Hl. rewrite store_ok by (rewrite zlen_app; pose proof (zlen_nonneg rest); lia).
  cbn [mbind res_bind mret res_ret set_entry l_size l_list l_internal_od_offset l_e l_data l_entry
       l_sub_offset l_last_internal_index l_header_skipped l_comment_found].
  rewrite He, (wrap_small 32) by (unfold in_u; lia).
  rewrite (IH _ (pre ++ [Some x]) rest); cbn [l_list l_e l_entry place].
  - cbn [l_size l_internal_od_offset l_data l_entry l_sub_offset l_last_internal_index
         l_header_skipped l_comment_found].
    assert (zlen (pre ++ [Some x]) + zlen internal = zlen pre + zlen (x :: internal)) as ->.
    { rewrite zlen_app, Hz. change (zlen [Some x]) with 1. lia. }
    f_equal. f_equal.
    + rewrite <- app_assoc. done.
    + simpl. lia.
    + destruct internal as [|z internal]; [done|].
      change (list.last (x :: z :: internal)) with (list.last (z :: internal)).
      destruct (list.last (z :: internal)) eqn:E; [done|by apply last_None in E].
  - done.
  - unfold zlen. rewrite Nat2Z.id, insert_app_r_alt, Nat.sub_diag by lia.
    rewrite <- app_assoc. done.
  - lia.
  - rewrite zlen_app. change (zlen [Some x]) with 1. lia.
  - rewrite zlen_app. change (zlen [Some x]) with 1. done.
  - rewrite zlen_app. change (zlen [Some x]) with 1. lia.
Qed.

(** The first row of a new entry in extend mode, and what is known of the loop after it. *)
Lemma load_row_first internal st l entry d' :
  internal <> [] -> Forall (fun x => e_index x < wrap 16 (t_index (l_data st))) internal ->
  in_u 16 (t_index (l_data st)) -> t_subindex (l_data st) = -1 ->
  fill_entry_index fresh (l_data st) = Ret (Some (entry, d')) ->
  l_e st = 2 ^ 32 - 1 -> l_internal_od_offset st = 0%nat -> l_list st = Some l ->
  zlen internal <= l_size st < 2 ^ 32 -> zlen l = l_size st + 1 ->
  load_row fresh true internal st
  = Ret (Next (mkLoad (l_size st) (Some (map Some internal ++ Some entry :: drop (S (length internal)) l))
      (length internal) (zlen internal) d' (PAt (zlen internal)) 0
      (match list.last internal with Some x => e_index x | None => 0 end)
      (l_header_skipped st) (l_comment_found st))).
Proof.
  intros Hne Hall Hidx Hsub Hfill He Hoff Hl Hsize Hlen. unfold load_row.
  rewrite Hsub, Z.eqb_refl, He.
  rewrite (wrap_small 16) in Hall by done.
  assert (wrap 32 (2 ^ 32 - 1 + 1) = 0) as -> by done.
  pose proof (zlen_nonneg internal).
  unfold set_entry, set_position, place; cbn [l_list l_e l_entry l_size l_internal_od_offset l_data
    l_sub_offset l_last_internal_index l_header_skipped l_comment_found]. rewrite Hl, Hoff, drop_0.
  rewrite (copy_internal_all internal _ _ [] l); cbn [l_list l_e l_entry l_data].
  2:{ eapply list.Forall_impl; [exact Hall|]. intros x Hx. cbn in Hx. lia. }
  2-6: change (zlen []) with 0; (done || lia).
  cbn [mbind res_bind l_size l_list l_internal_od_offset l_e l_data l_entry l_sub_offset
       l_last_internal_index l_header_skipped l_comment_found andb].
  rewrite (wrap_small 16) by done. change (zlen []) with 0. rewrite Z.add_0_l, Nat.add_0_l.
  destruct (list.last internal) as [y|] eqn:Hlast; [|by apply last_None in Hlast].
  assert (e_index y < t_index (l_data st)) as Hy.
  { rewrite list.Forall_forall in Hall. apply Hall. by apply last_Some_elem_of. }
  rewrite (proj2 (Z.eqb_neq _ _)) by lia. unfold fill_new, entry_put.
  cbn [l_entry l_list l_data]. rewrite Hfill. cbn [mbind res_bind app l_entry l_list].
  rewrite store_ok by (rewrite zlen_app; unfold zlen in *; rewrite length_map, length_drop; lia).
  run. unfold check, set_entry, set_position. cbn [l_size l_e].
  rewrite (proj2 (Z.ltb_ge _ _)) by lia.
  cbn [l_size l_list l_internal_od_offset l_e l_data l_entry l_sub_offset l_last_internal_index
       l_header_skipped l_comment_found]. do 4 f_equal.
  rewrite insert_app_r_alt by (rewrite length_map; unfold zlen; lia).
  rewrite length_map. unfold zlen. rewrite Nat2Z.id, Nat.sub_diag.
  destruct (lookup_lt_is_Some_2 l (length internal)) as [o Ho]; [unfold zlen in *; lia|].
  by rewrite (drop_S _ _ _ Ho).
Qed.

(** C21: in extend mode the first entry of the configuration, when its index is beyond the
    internal dictionary, is stored right after a copy of all internal entries in their
    order; the places behind it stay as they are. *)
Theorem load_row_extends internal st l entry d' k :
  internal <> [] -> Forall (fun x => e_index x < wrap 16 (t_index (l_data st))) internal ->
  in_u 16 (t_index (l_data st)) -> t_subindex (l_data st) = -1 ->
  fill_entry_index fresh (l_data st) = Ret (Some (entry, d')) ->
  l_e st = 2 ^ 32 - 1 -> l_internal_od_offset st = 0%nat ->
  l_size st = zlen internal + Z.of_nat k -> zlen internal + Z.of_nat k < 2 ^ 31 ->
  l_list st = Some l -> length l = (length internal + S k)%nat ->
  exists st', load_row fresh true internal st = Ret (Next st') /\
    l_list st' = Some (map Some internal ++ Some entry :: drop (S (length internal)) l) /\
    l_e st' = zlen internal /\ l_size st' = l_size st.
Proof.
  intros Hne Hall Hidx Hsub Hfill He Hoff Hsize H31 Hl Hlen. eexists.
  split; [apply load_row_first with (l := l); try done; unfold zlen in *; lia|done].
Qed.

(** The list has the elements the code computes for its size; without a list there are none. *)
Definition sized (st : load_state) : Prop :=
  match l_list st with Some l => length l = list_places (l_size st) | None => True end.

Lemma store_length {A} (l : list A) i x l' : store l i x = Ret l' -> length l' = length l.
Proof. unfold store. case_bool_decide; [|done]. intros [= <-]. apply length_insert. Qed.

Lemma length_resize {A} n (l : list (option A)) : length (resize n l) = n.
Proof. unfold resize. rewrite length_app, length_take, length_replicate. lia. Qed.

Lemma set_size_sized size st : sized (set_size size st).
Proof.
  unfold set_size, sized, realloc_list. destruct (l_list st) as [l|].
  - destruct (_ =? 0); [done|]. destruct (malloc_ok _); [|done]. apply length_resize.
  - destruct (malloc_ok _); [|done]. apply length_replicate.
Qed.

Lemma entry_put_sized st x st' : entry_put st x = Ret st' -> sized st -> sized st'.
Proof.
  unfold entry_put, sized. destruct (l_entry st) as [|i|[o|]|], (l_list st) as [l|]; try done.
  - intros (l' & Hl & [= <-])%res_bind_Ret_inv. cbn. by rewrite (store_length _ _ _ _ Hl).
  - by intros [= <-].
  - by intros [= <-].
Qed.

Lemma entry_put_size st x st' : entry_put st x = Ret st' -> l_size st' = l_size st.
Proof.
  unfold entry_put. destruct (l_entry st) as [|i|[o|]|], (l_list st) as [l|]; try done.
  - by intros (l' & Hl & [= <-])%res_bind_Ret_inv.
  - by intros [= <-].
  - by intros [= <-].
Qed.

Lemma copy_internal_sized internal index st st' :
  copy_internal internal index st = Ret st' -> sized st -> sized st'.
Proof.
  revert st. induction internal as [|x internal IH]; intros st; cbn [copy_internal].
  { by intros [= <-]. }
  destruct (e_index x <=? index); [|by intros [= <-]].
  intros (st1 & Hput & Hrest)%res_bind_Ret_inv Hs. apply (IH _ Hrest).
  by apply (entry_put_sized _ _ _ Hput) in Hs.
Qed.

Lemma check_next st st' : check st = Ret (Next st') -> st' = st.
Proof. unfold check. case_match; [done|]. by intros [= ->]. Qed.

Lemma load_row_sized ext internal st st' :
  load_row fresh ext internal st = Ret (Next st') -> sized st -> sized st'.
Proof.
  unfold load_row. destruct (_ =? -1).
  - intros (st1 & Hst1 & Hrest)%res_bind_Ret_inv Hs.
    assert (sized st1) as Hs1.
    { destruct ext; [|by injection Hst1 as <-]. by apply (copy_internal_sized _ _ _ _ Hst1). }
    destruct (ext && _).
    + apply check_next in Hrest as ->. apply set_size_sized.
    + unfold fill_new in Hrest. destruct (l_entry st1); [done|..];
        (apply res_bind_Ret_inv in Hrest as ([[y d]|] & _ & Hrest);
         [|by apply res_bind_Ret_inv in Hrest as (? & ? & ?)];
         apply res_bind_Ret_inv in Hrest as (st2 & Hput & Hrest); apply check_next in Hrest as ->;
         by apply (entry_put_sized _ _ _ Hput)).
  - destruct (_ =? VARIABLE); [|by intros ->%check_next].
    destruct (ext && _); [by intros ->%check_next|].
    destruct (l_entry st); [done|..];
      (intros (entry & _ & Hrest)%res_bind_Ret_inv Hs;
       apply res_bind_Ret_inv in Hrest as ([[y d]|] & _ & Hrest); [|done];
       apply res_bind_Ret_inv in Hrest as (st2 & Hput & Hrest); apply check_next in Hrest as ->;
       by apply (entry_put_sized _ _ _ Hput)).
Qed.

Lemma load_line_sized ext internal line st st' :
  load_line fresh ext internal line st = Ret (Next st') -> sized st -> sized st'.
Proof.
  unfold load_line. intros H Hs. revert H. destruct (bool_decide (head line = Some NEWLINE) || _).
  - destruct (starts_with _ _); intros [= <-]; [apply set_size_sized|done].
  - destruct (negb (l_header_skipped _)); [by intros [= <-]|].
    destruct (negb (l_comment_found _)); [by intros [= <-]|]. destruct (_ <? _)%nat; [done|].
    intros (d & _ & Hrow)%res_bind_Ret_inv. by apply load_row_sized in Hrow.
Qed.

Lemma length_clear_list size : length (clear_list size) = list_places size.
Proof. unfold clear_list. by rewrite length_map, length_seq. Qed.

Lemma list_places_exact size :
  0 <= size < 2 ^ 32 - 1 -> sizeof_OD_entry_t * (size + 1) < 2 ^ LONG_BITS ->
  list_places size = Z.to_nat (size + 1) /\ list_bytes size <> 0.
Proof.
  intros Hs Hb. pose proof sizeof_OD_entry_t_pos. unfold list_places, list_bytes.
  rewrite (wrap_small 32), wrap_small by (unfold in_u; nia).
  rewrite Z.mul_comm, Z.div_mul by lia. split; [done|nia].
Qed.

(** Whatever the file says, the list of a loaded dictionary has the elements that fit the bytes the
    code computes for its size: one more than the size, for the terminator, unless the computation
    wraps ([list_places_exact]). *)
Theorem od_config_load_sized fs p ext internal junk l n :
  od_config_load fresh fs (Some p) true ext internal junk = Ret (Some (Some l, n)) ->
  length l = list_places n.
Proof.
  unfold od_config_load. destruct (ext && _); [done|]. destruct (fs_read fs p) as [|content]; [done|].
  destruct (negb _); [done|]. intros ([st|st] & Hload & Hres)%res_bind_Ret_inv;
    [|by apply res_bind_Ret_inv in Hres as (? & ? & ?)].
  destruct (l_comment_found st); [|by apply res_bind_Ret_inv in Hres as (? & ? & ?)].
  injection Hres as Hl <-.
  assert (sized st) as Hs; [|by unfold sized in Hs; rewrite Hl in Hs].
  clear Hl. revert Hload. generalize (file_lines content).
  assert (sized (load_init ext (if ext then zlen internal else 0) junk)) as Hs0.
  { destruct ext; [|done]. apply length_clear_list. }
  revert Hs0. generalize (load_init ext (if ext then zlen internal else 0) junk).
  intros st0 Hs0 lines. revert st0 Hs0. induction lines as [|line lines IH]; intros st0 Hs0; cbn [load_lines].
  { by intros [= <-]. }
  intros ([st1|] & Hline & Hrest)%res_bind_Ret_inv; [|done]. apply (IH st1); [|done].
  by eapply load_line_sized.
Qed.

Lemma parse_int_dec n rest old : no_digit 16 rest -> head rest <> Some "x"%byte -> in_s 32 n ->
  parse_int (print_dec n ++ rest) old = n.
Proof. intros Hr Hx Hn. unfold parse_int. by rewrite (proj1 (parse_int_key_roundtrip n rest Hr Hx)). Qed.

Lemma parse_int_hex n rest old : no_digit 16 rest -> head rest <> Some "x"%byte -> in_u 31 n ->
  parse_int (print_hex n ++ rest) old = n.
Proof.
  intros Hr Hx Hn. unfold parse_int.
  rewrite (proj2 (parse_int_key_roundtrip n rest Hr Hx)) by (unfold in_u in *; lia). cbn.
  apply swrap_small; [lia|]. unfold in_u, in_s in *. cbn. lia.
Qed.

(** The line with the number of objects. *)
Definition objects_line (n : Z) : bytes := cs OBJECTS_COMMENT ++ print_dec n ++ [NEWLINE].

Lemma load_line_objects ext internal st n :
  in_s 32 n ->
  load_line fresh ext internal (objects_line n) st
  = Ret (Next (set_size (wrap 32 (l_size st + n)) (set_flags (l_header_skipped st) true
      (set_row_data (reset_tmp_data (l_data st)) st)))).
Proof.
  intros Hn. unfold load_line, objects_line.
  rewrite (bool_decide_eq_true_2 (head _ = Some ";"%byte)) by done.
  rewrite orb_true_r, starts_with_app. unfold after. rewrite drop_app_length, parse_int_dec by done. done.
Qed.

(** The internal entries are copied only up to the index of a row of the configuration: a
    configuration without rows gives a dictionary of the internal size whose list is as it was
    allocated. *)
Theorem od_config_load_internal_lost fs p internal junk :
  (forall k, malloc_ok k = true) -> zlen internal < 2 ^ 31 ->
  sizeof_OD_entry_t * (zlen internal + 1) < 2 ^ LONG_BITS ->
  fs_read fs p = inr (objects_line 0) ->
  od_config_load fresh fs (Some p) true true internal junk
  = Ret (Some (Some (clear_list (zlen internal)), zlen internal)).
Proof.
  intros Hm Hl Hb Hread. unfold od_config_load. rewrite !Hm, Hread. cbn [negb andb].
  change (file_lines (objects_line 0)) with [objects_line 0].
  cbn [load_lines]. change (upto_nul (objects_line 0)) with (objects_line 0).
  rewrite load_line_objects by done. pose proof (zlen_nonneg internal).
  cbn [mbind res_bind load_init set_size set_flags set_row_data set_position l_size l_list l_entry].
  rewrite Z.add_0_r, wrap_small by (unfold in_u; lia). unfold set_size. cbn [l_list l_entry set_flags set_row_data set_position].
  destruct (list_places_exact (zlen internal)) as [_ H0]; [lia|done|].
  unfold realloc_list. rewrite (proj2 (Z.eqb_neq _ _) H0), Hm. cbn.
  do 4 f_equal. unfold resize. rewrite <- length_clear_list, firstn_all, Nat.sub_diag. apply app_nil_r.
Qed.

(** *** The node configuration *)

Lemma lines_from_line cur line rest :
  NEWLINE ∉ line -> lines_from cur (line ++ NEWLINE :: rest) = (cur ++ line ++ [NEWLINE]) :: lines_from [] rest.
Proof.
  revert cur. induction line as [|c line IH]; intros cur Hn; cbn [lines_from app].
  - by rewrite decide_True.
  - rewrite decide_False by set_solver. rewrite IH by set_solver. by rewrite <- app_assoc.
Qed.

Lemma file_lines_line line rest :
  NEWLINE ∉ line -> lines_from [] (line ++ NEWLINE :: rest) = (line ++ [NEWLINE]) :: lines_from [] rest.
Proof. intros. by rewrite lines_from_line. Qed.

(** The configuration file the daemon writes is not read back as it was written: the name
    of the interface is missed, because it shares the line of the section header, and the
    flag "NetworkManager=false" is read as true. *)
Theorem make_node_config_misread fs p fs1 cfg :
  fs_create fs p = inr fs1 ->
  exists fs2, make_node_config fs (Some p) = (0, fs2) /\
    node_config_load fs2 (Some p) cfg = Ret (0, mkNode (can_interface cfg) 0x7C true).
Proof.
  intros Hc. unfold make_node_config. rewrite Hc. eexists. split; [done|].
  unfold node_config_load.
  rewrite (fs_append_read fs1 p []); [|by eapply fs_create_read|by eapply fs_create_file].
  cbn [app]. set (lines := file_lines _).
  assert (lines = [cs "[Node]CanInterface=can0" ++ [NEWLINE]; cs "NodeId=0x7C" ++ [NEWLINE];
                   cs "NetworkManager=false" ++ [NEWLINE]]) as -> by reflexivity.
  cbn [node_config_lines].
  assert (node_config_line (upto_nul (cs "[Node]CanInterface=can0" ++ [NEWLINE])) cfg = Ret cfg)
    as -> by reflexivity. run.
  assert (node_config_line (upto_nul (cs "NodeId=0x7C" ++ [NEWLINE])) cfg
          = Ret (mkNode (can_interface cfg) 0x7C (network_manager cfg))) as ->.
  { unfold node_config_line. change (starts_with _ "CanInterface=") with false.
    change (starts_with _ "NodeId=") with true. cbv iota. cbn [mret res_ret]. do 2 f_equal.
    transitivity (wrap 8 124); [|reflexivity]. apply f_equal.
    transitivity (parse_int (cs "0x7C" ++ [NEWLINE]) 0); [reflexivity|].
    unfold parse_int, parse_int_key, sscanf_x, strtoul. pose proof LONG_BITS_range.
    assert (2 ^ 32 <= 2 ^ LONG_BITS) by (apply Z.pow_le_mono_r; lia).
    change (nth_is (cs "0x7C" ++ [NEWLINE]) 0 "0"%byte && nth_is (cs "0x7C" ++ [NEWLINE]) 1 "x"%byte) with true.
    assert (scan_number 16 (cs "0x7C" ++ [NEWLINE]) = Some (false, 0x7C, 4%nat)) as -> by reflexivity.
    by rewrite (proj2 (Z.ltb_ge _ _)) by lia. }
  reflexivity.
Qed.

(** A hexadecimal numeral has no characters below the digits. *)
Lemma print_hex_clean n c : 0 <= n -> b2z c < 48 -> c ∉ print_hex n.
Proof.
  intros Hn Hc Hin. unfold print_hex in Hin. apply elem_of_app in Hin as [Hin|Hin].
  - change (cs "0x") with ["0"%byte; "x"%byte] in Hin. rewrite !elem_of_cons, elem_of_nil in Hin.
    destruct Hin as [-> | [-> | []]]; by vm_compute in Hc.
  - destruct (print_nat_head 16 n) as (d & r & E & Hd & Hall); [by right|done|]. rewrite E in Hin.
    change (digit_char d :: (digit_char <$> r)) with (digit_char <$> (d :: r)) in Hin.
    apply list_elem_of_fmap in Hin as (d' & -> & Hin).
    assert (0 <= d' < 16) as Hd'.
    { rewrite list.Forall_forall in Hall. apply elem_of_cons in Hin as [-> |Hin]; [done|by apply Hall]. }
    by apply (digit_char_ne d' (digit_char d')); [|left|].
Qed.

Lemma mem_write_twice buf name b :
  zlen name + 1 <= zlen buf ->
  (x ← mem_write buf 0 (name ++ [b]); mem_write x (zlen (name ++ [b]) - 1) [NUL])
  = Ret (name ++ NUL :: drop (length name + 1) buf).
Proof.
  intros Hl. pose proof (zlen_nonneg name). rewrite zlen_app. change (zlen [b]) with 1.
  rewrite mem_write_ok by (rewrite ?zlen_app; change (zlen [b]) with 1; lia). run.
  change (Z.to_nat 0) with 0%nat. cbn [take app]. rewrite length_app. cbn [length Nat.add].
  replace (zlen name + 1 - 1) with (zlen name) by lia.
  rewrite mem_write_ok; [|lia|].
  - unfold zlen. rewrite Nat2Z.id. change (take 0 buf) with (@nil byte); cbn [app]. rewrite <- app_assoc, take_app_length. f_equal. f_equal. cbn [app length].
    rewrite drop_app, drop_ge by lia. replace (length name + 1 - length name)%nat with 1%nat by lia. done.
  - unfold zlen in *. rewrite !length_app, length_drop. simpl. lia.
Qed.

Lemma node_config_line_name name cfg :
  node_config_line ((cs "CanInterface=" ++ name) ++ [NEWLINE]) cfg
  = (b ← (x ← mem_write (can_interface cfg) 0 (name ++ [NEWLINE]);
          mem_write x (zlen (name ++ [NEWLINE]) - 1) [NUL]);
     mret (mkNode b (node_id cfg) (network_manager cfg))).
Proof.
  unfold node_config_line, after. rewrite <- app_assoc, starts_with_app, drop_app_length.
  by destruct (mem_write _ _ _).
Qed.

Lemma node_config_line_id id cfg :
  node_config_line ((cs "NodeId=" ++ id) ++ [NEWLINE]) cfg
  = mret (mkNode (can_interface cfg) (wrap 8 (parse_int (id ++ [NEWLINE]) 0)) (network_manager cfg)).
Proof.
  unfold node_config_line, after. rewrite <- app_assoc.
  assert (starts_with (cs "NodeId=" ++ id ++ [NEWLINE]) "CanInterface=" = false) as -> by reflexivity.
  by rewrite starts_with_app, drop_app_length.
Qed.

(** C38: of a configuration file of two lines, CanInterface= with a name and NodeId= with an id in
    hexadecimal, both are read as they were written, for every name that fits the caller's buffer. *)
Theorem node_config_roundtrip fs p name id cfg :
  wf_cstr name -> NEWLINE ∉ name -> in_u 8 id -> zlen name + 1 <= zlen (can_interface cfg) ->
  fs_read fs p = inr (cs "CanInterface=" ++ name ++ NEWLINE :: cs "NodeId=" ++ print_hex id ++ [NEWLINE]) ->
  exists buf, node_config_load fs (Some p) cfg = Ret (0, mkNode buf id (network_manager cfg)) /\
    c_str buf = Ret name /\ zlen buf = zlen (can_interface cfg).
Proof.
  intros Hwf Hnl Hid Hcap Hread. unfold node_config_load. rewrite Hread. unfold file_lines.
  pose proof Hid as [Hid0 _].
  rewrite (app_assoc (cs "CanInterface=") name), file_lines_line.
  2:{ apply not_elem_of_app. split; [by_decide|done]. }
  rewrite (app_assoc (cs "NodeId=")), file_lines_line.
  2:{ apply not_elem_of_app. split; [by_decide|by apply print_hex_clean]. }
  cbn [lines_from node_config_lines].
  rewrite (upto_nul_id ((cs "CanInterface=" ++ name) ++ [NEWLINE])).
  2:{ unfold wf_cstr in *. rewrite !not_elem_of_app. split_and!; [by_decide|done|by_decide]. }
  rewrite node_config_line_name, mem_write_twice by done. run.
  rewrite (upto_nul_id ((cs "NodeId=" ++ print_hex id) ++ [NEWLINE])).
  2:{ unfold wf_cstr in *. rewrite !not_elem_of_app.
      split_and!; [by_decide|by apply print_hex_clean|by_decide]. }
  rewrite node_config_line_id.
  rewrite parse_int_hex by (done || (unfold in_u in *; lia)). cbn [mbind res_bind mret res_ret can_interface network_manager].
  rewrite wrap_small by done. eexists. split; [done|]. split; [by apply c_str_with_nul|].
  unfold zlen in *. rewrite length_app. simpl. rewrite length_drop. lia.
Qed.
End ConfigProps.

(** ** Properties of [od_config_free] *)

Section FreeProps.
Variable extend_internal_od : bool.
Variable internal : list OD_entry.

(** In extend mode an entry is the internal dictionary's when its index is. *)
Definition is_internal (e : OD_entry) : Prop :=
  extend_internal_od = true /\ exists x, x ∈ internal /\ e_index x = e_index e.

(** The blocks of entry number [i] that the release looks for, the entry's own object excepted
    (only a record is given back). *)
Definition owns (i : nat) (e : OD_entry) (b : block) : Prop :=
  match e_object e with
  | ODT_NONE => False
  | ODT_VAR v => is_Some (var_dataOrig v) /\ b = BDataOrig i
  | ODT_ARR a => is_Some (arr_dataOrig0 a) /\ b = BDataOrig0 i \/ is_Some (arr_dataOrig a) /\ b = BDataOrig i
  | ODT_REC rec =>
      b = BRecord i \/
      exists j v, (j < Z.to_nat (e_subEntriesCount e))%nat /\ rec !! j = Some v /\
        is_Some (var_dataOrig v) /\ b = BElement i j
  end.

(** The members of a record are all there. *)
Definition complete (e : OD_entry) : Prop :=
  match e_object e with ODT_REC rec => (Z.to_nat (e_subEntriesCount e) <= length rec)%nat | _ => True end.

Lemma elem_of_free_if {A} (p : option A) b x : x ∈ free_if p b <-> is_Some p /\ x = b.
Proof.
  destruct p; cbn.
  - rewrite list_elem_of_singleton. split; [intros ->; split; [by eexists|done]|by intros [_ ->]].
  - rewrite elem_of_nil. split; [done|by intros [[? ?] _]].
Qed.

Lemma free_if_nodup {A} (p : option A) b : NoDup (free_if p b).
Proof. destruct p; cbn; [apply NoDup_singleton|apply base.NoDup_nil_2]. Qed.

(** The release of members [j] to [j + n - 1]. *)
Lemma free_elements_spec n j i rec :
  match free_elements n j i rec with
  | Undef _ => (length rec < j + n)%nat
  | Ret l => (j + n <= length rec \/ n = 0)%nat /\ NoDup l /\ forall b, b ∈ l <->
      exists k v, (j <= k < j + n)%nat /\ rec !! k = Some v /\ is_Some (var_dataOrig v) /\ b = BElement i k
  end.
Proof.
  revert j. induction n as [|n IH]; intros j; cbn.
  { split; [by right|]. split; [apply base.NoDup_nil_2|]. intros b. rewrite elem_of_nil.
    split; [done|]. intros (k & v & ? & _). lia. }
  destruct (rec !! j) as [v|] eqn:Hv; [|apply lookup_ge_None in Hv; lia].
  pose proof (lookup_lt_Some _ _ _ Hv). specialize (IH (S j)).
  destruct (free_elements n (S j) i rec) as [l|u]; cbn; [|lia]. destruct IH as (Hlen & Hd & Hb).
  split; [lia|]. split.
  - apply list.NoDup_app. split; [apply free_if_nodup|]. split; [|done].
    intros x (_ & ->)%elem_of_free_if (k & w & Hk & _ & _ & [= ->])%Hb. lia.
  - intros b. rewrite elem_of_app, elem_of_free_if, Hb. split.
    + intros [[Hp ->]|(k & w & Hk & Hrest)]; [exists j, v|exists k, w]; (split; [lia|done]).
    + intros (k & w & Hk & Hw & Hp & ->). destruct (decide (k = j)) as [->|].
      * left. split; [by simplify_eq|done].
      * right. exists k, w. split; [lia|done].
Qed.

(** What an entry gives back. *)
Lemma free_entry_spec i e :
  match free_entry extend_internal_od internal i e with
  | Undef _ => ~ is_internal e /\ ~ complete e
  | Ret l => (is_internal e \/ complete e) /\ NoDup l /\ forall b, b ∈ l <-> ~ is_internal e /\ owns i e b
  end.
Proof.
  unfold free_entry.
  assert (extend_internal_od && existsb (fun x => e_index e =? e_index x) internal = true <-> is_internal e) as Hi.
  { rewrite andb_true_iff, existsb_exists. unfold is_internal. setoid_rewrite Z.eqb_eq.
    split; intros [? (x & Hx & E)]; (split; [done|exists x; split; [by apply list_elem_of_In|done]]). }
  destruct (_ && _).
  { assert (is_internal e) as H by (by apply Hi). split; [by left|]. split; [apply base.NoDup_nil_2|].
    intros b. rewrite elem_of_nil. tauto. }
  assert (~ is_internal e) as Hn by (intros H%Hi; done). unfold owns, complete.
  destruct (e_object e) as [|v|a|rec].
  - split; [by right|]. split; [apply base.NoDup_nil_2|]. intros b. rewrite elem_of_nil. tauto.
  - split; [by right|]. split; [apply free_if_nodup|]. intros b. rewrite elem_of_free_if. tauto.
  - split; [by right|]. split.
    + apply list.NoDup_app. split; [apply free_if_nodup|]. split; [|apply free_if_nodup].
      by intros b (_ & ->)%elem_of_free_if (_ & ?)%elem_of_free_if.
    + intros b. rewrite elem_of_app, !elem_of_free_if. tauto.
  - pose proof (free_elements_spec (Z.to_nat (e_subEntriesCount e)) 0 i rec) as H.
    destruct (free_elements _ _ _ _) as [l|u]; cbn; [|split; [done|lia]].
    destruct H as (Hlen & Hd & Hb). split; [right; lia|]. split.
    + apply list.NoDup_app. split; [done|]. split; [|apply NoDup_singleton].
      by intros b (k & v & _ & _ & _ & ->)%Hb ?%list_elem_of_singleton.
    + intros b. rewrite elem_of_app, list_elem_of_singleton, Hb. split.
      * intros [(k & v & Hk & H)| ->]; (split; [done|]); [right|by left]. exists k, v. split; [lia|done].
      * intros (_ & [-> |(k & v & Hk & H)]); [by right|left]. exists k, v. split; [lia|done].
Qed.

(** The entries before the first one with index 0. *)
Definition terminated (l : od_array) (es : list OD_entry) : Prop :=
  exists e0 rest, l = map Some es ++ Some e0 :: rest /\ e_index e0 = 0 /\
    Forall (fun e => e_index e <> 0) es.

Definition owned (i : nat) (es : list OD_entry) (b : block) : Prop :=
  exists j e, es !! j = Some e /\ ~ is_internal e /\ owns (i + j) e b.

Lemma owns_entry i e b : owns i e b ->
  b = BDataOrig i \/ b = BDataOrig0 i \/ b = BRecord i \/ exists j, b = BElement i j.
Proof.
  unfold owns. destruct (e_object e); [done|by intros [_ ->]; left|..].
  - intros [[_ ->]|[_ ->]]; [by right; left|by left].
  - intros [-> |(j & v & _ & _ & _ & ->)]; [by do 2 right; left|]. do 3 right. by eexists.
Qed.

Lemma owns_inj i j e e' b : owns i e b -> owns j e' b -> i = j.
Proof.
  intros H%owns_entry H'%owns_entry. repeat destruct H as [-> |H]; try destruct H as [? ->];
    repeat destruct H' as [[=]|H']; try destruct H' as [? [=]]; done.
Qed.

Lemma free_loop_spec i l :
  match free_loop extend_internal_od internal i l with
  | Undef _ => forall es, terminated l es -> exists e, e ∈ es /\ ~ is_internal e /\ ~ complete e
  | Ret bs => exists es, terminated l es /\ Forall (fun e => is_internal e \/ complete e) es /\
      NoDup bs /\ forall b, b ∈ bs <-> owned i es b
  end.
Proof.
  revert i. induction l as [|[e|] l IH]; intros i; cbn.
  { by intros [|] (e0 & rest & ? & _). }
  2:{ by intros [|] (e0 & rest & ? & _). }
  destruct (Z.eqb_spec (e_index e) 0) as [He|He].
  { exists []. split; [by exists e, l|]. split; [done|]. split; [apply base.NoDup_nil_2|].
    intros b. rewrite elem_of_nil. split; [done|]. by intros (j & e' & ? & _). }
  pose proof (free_entry_spec i e) as Hfe. specialize (IH (S i)).
  assert (forall es, terminated (Some e :: l) es -> exists es', es = e :: es' /\ terminated l es') as Hterm.
  { intros [|e' es] (e0 & rest & [= -> Hl] & H0 & Hall); [done|]. exists es. split; [done|].
    exists e0, rest. by apply list.Forall_cons in Hall as [_ Hall]. }
  destruct (free_entry _ _ _ _) as [b1|u1]; cbn.
  2:{ intros es (es' & -> & _)%Hterm. exists e. split; [left|done]. }
  destruct (free_loop _ _ _ l) as [b2|u2]; cbn.
  2:{ intros es (es' & -> & Ht)%Hterm. destruct (IH es' Ht) as (e' & ? & ?). exists e'. split; [by right|done]. }
  destruct IH as (es & (e0 & rest & Hl & H0 & Hall) & Hc & Hd2 & Hb2), Hfe as (Hc1 & Hd1 & Hb1).
  exists (e :: es). split; [exists e0, rest; rewrite Hl; split; [done|]; split; [done|by constructor]|].
  split; [by constructor|]. split.
  - apply list.NoDup_app. split; [done|]. split; [|done].
    intros b [_ Ho]%Hb1 (j & e' & _ & _ & Ho')%Hb2. pose proof (owns_inj _ _ _ _ _ Ho Ho'). lia.
  - intros b. rewrite elem_of_app, Hb1, Hb2. split.
    + intros [[Hn Ho]|(j & e' & Hj & Hn & Ho)].
      * exists 0%nat, e. by rewrite Nat.add_0_r.
      * exists (S j), e'. by rewrite Nat.add_succ_r.
    + intros ([|j] & e' & Hj & Hn & Ho); cbn in Hj.
      * left. simplify_eq. by rewrite Nat.add_0_r in Ho.
      * right. exists j, e'. by rewrite Nat.add_succ_r in Ho.
Qed.

(** C23: the release of a dictionary with a list is defined exactly when an entry with index 0 ends
    the list and the records before it, those of the internal dictionary apart, have all their
    members; it gives back every block once: the list, the dictionary, the data of all its own
    variables, arrays and records, and the records; nothing of an entry of the internal
    dictionary, and of variables and arrays not the objects themselves. *)
Theorem od_config_free_exact l :
  match od_config_free (Some (Some l)) extend_internal_od internal with
  | Ret bs => exists es, terminated l es /\ Forall (fun e => is_internal e \/ complete e) es /\
      NoDup bs /\ forall b, b ∈ bs <-> owned 0 es b \/ b = BList \/ b = BOD
  | Undef _ => forall es, terminated l es -> ~ Forall (fun e => is_internal e \/ complete e) es
  end.
Proof.
  cbn. pose proof (free_loop_spec 0 l) as H. destruct (free_loop _ _ _ _) as [bs|u]; cbn.
  - destruct H as (es & Ht & Hc & Hd & Hb). exists es. split; [done|]. split; [done|].
    assert (forall b, b ∈ [BList; BOD] <-> b = BList \/ b = BOD) as Hlast.
    { intros b. by rewrite elem_of_cons, list_elem_of_singleton. }
    split.
    + apply list.NoDup_app. split; [done|]. split.
      * intros b (j & e & _ & _ & Ho%owns_entry)%Hb Hin%Hlast.
        repeat destruct Ho as [-> |Ho]; try destruct Ho as [? ->]; by destruct Hin.
      * apply list.NoDup_cons. split; [by intros ?%list_elem_of_singleton|apply NoDup_singleton].
    + intros b. by rewrite elem_of_app, Hb, Hlast.
  - intros es Ht Hall. destruct (H es Ht) as (e & He & Hi & Hc). rewrite list.Forall_forall in Hall.
    by destruct (Hall e He).
Qed.

(** The loop looks for an entry with index 0, which the loader never writes behind the entries: on
    a list whose entries all have an index, as a configuration file makes it, the release reads
    behind the last entry. *)
Theorem od_config_free_unterminated l :
  Forall (fun o => match o with Some e => e_index e <> 0 | None => True end) l ->
  exists u, od_config_free (Some (Some l)) extend_internal_od internal = Undef u.
Proof.
  intros Hl. assert (forall i, exists u, free_loop extend_internal_od internal i l = Undef u) as H.
  { induction Hl as [|[e|] l He Hl IH]; intros i; cbn; [by eexists| |by eexists].
    rewrite (proj2 (Z.eqb_neq _ _)) by done.
    destruct (free_entry _ _ i e) as [b|u]; [|by eexists]. destruct (IH (S i)) as [u Hu]. exists u. cbn. by rewrite Hu. }
  destruct (H 0%nat) as [u Hu]. exists u. cbn. by rewrite Hu.
Qed.
End FreeProps.

(** ** Witnesses: the theorems at concrete inputs *)

Definition oda : ODAttrs.
Proof.
  refine {| ODA_SDO_R := 1; ODA_SDO_W := 2; ODA_SDO_RW := 3; ODA_TRPDO := 0x0C; ODA_MB := 0x40;
            ODA_STR := 0x80 |}. reflexivity.
Defined.
Definition ilp32_sizes : ODSizes := {|
  sizeof_OD_t := 8; sizeof_OD_entry_t := 16; sizeof_OD_obj_var_t := 12; sizeof_OD_obj_array_t := 20;
  sizeof_OD_obj_record_t := 12;
  sizeof_OD_entry_t_pos := eq_refl |}.

Definition nl : bytes := [NEWLINE].
Definition sample_csv : bytes :=
  cs ";objects=2" ++ nl ++ cs "object_type,index,subindex,access,data_type,default" ++ nl
  ++ cs "7,0x4000,,rw,5,5" ++ nl ++ cs "9,0x4001,,,,2" ++ nl
  ++ cs "7,0x4001,0,ro,5,1" ++ nl ++ cs "7,0x4001,1,rw,6,500" ++ nl.

Definition load_text (text : bytes) (ext : bool) (internal : list OD_entry) :=
  od_config_load (HP := armhf) (HO := od_u32) (HA := oda) (HS := ilp32_sizes) 0
    (<[cs "/od.csv" := NFile text]> sample_fs : memfs) (Some (cs "/od.csv")) true ext internal (replicate 256 NUL).
Definition load_sample := load_text sample_csv.

Definition internal_entry : OD_entry := mkEntry 0x1000 1 (ODT_VAR (mkVar (Some [x07]) 0x0D 1 0)).

(** The dictionary of the sample file, alone and after an internal entry. *)
Example load_sample_entries :
  load_sample false [] = Ret (Some (Some [
    Some (mkEntry 0x4000 1 (ODT_VAR (mkVar (Some [x05]) 0x0F 1 0)));
    Some (mkEntry 0x4001 2 (ODT_REC [mkVar (Some [x01]) 0x0F 1 0; mkVar (Some [xf4; x01]) 0x4F 2 1]));
    None], 2)).
Proof. vm_compute. reflexivity. Qed.

Example load_sample_extends :
  match load_sample true [internal_entry] with
  | Ret (Some (Some l, n)) => map (fun e => e_index <$> e) l = [Some 0x1000; Some 0x4000; Some 0x4001; None] /\ n = 3
  | _ => False
  end.
Proof. vm_compute. split; reflexivity. Qed.

(** A negative number of objects wraps: the size is 4294967295 and the list is a block of 0 bytes. *)
Example load_negative_objects : load_text (objects_line (-1)) false [] = Ret (Some (Some [], 2 ^ 32 - 1)).
Proof. vm_compute. reflexivity. Qed.

(** A second such comment moves the list: [entry] dangles when the members of the record before it
    follow. *)
Example load_stale_entry :
  load_text (cs ";objects=1" ++ nl ++ cs "header" ++ nl ++ cs "9,0x4001,,,,2" ++ nl ++ cs ";objects=1" ++ nl
    ++ cs "7,0x4001,0,ro,5,1" ++ nl) false [] = Undef UbLifetime.
Proof. vm_compute. reflexivity. Qed.

(** So does the list when a row redefines an internal entry. *)
Example load_stale_redefined :
  load_text (cs ";objects=1" ++ nl ++ cs "header" ++ nl ++ cs "7,0x1000,,ro,5,1" ++ nl
    ++ cs "7,0x4001,1,ro,5,1" ++ nl) true [internal_entry] = Undef UbLifetime.
Proof. vm_compute. reflexivity. Qed.

(** A file with a bad row is refused, and the release of what was loaded so far reads behind it. *)
Example load_error_free :
  load_text (cs ";objects=1" ++ nl ++ cs "header" ++ nl ++ cs "1,0x4000,,,," ++ nl) false [] = Undef UbUninit.
Proof. vm_compute. reflexivity. Qed.

(** The first row of the sample file, read. *)
Definition sample_row : tmp_data_t := mkTmp 7 5 (cs "rw") 0x4000 (-1) 0 (cs "5" ++ replicate 255 NUL).
(** A row after its access type was compared (and overwritten). *)
Definition compared (d : tmp_data_t) : tmp_data_t := set_access (cs "wo") d.
Definition sample_entry : OD_entry := mkEntry 0x4000 1 (ODT_VAR (mkVar (Some [x05]) 0x0F 1 0)).
Definition start_state (size : Z) (l : list (option OD_entry)) (e : Z) (d : tmp_data_t) : load_state :=
  mkLoad size (Some l) 0 e d PNull 0 0 true true.

Lemma load_row_extends_witness :
  exists st', load_row (HP := armhf) (HO := od_u32) (HA := oda) (HS := ilp32_sizes) 0 true [internal_entry]
      (start_state 2 (replicate 3 None) (2 ^ 32 - 1) sample_row) = Ret (Next st')
    /\ l_list st' = Some [Some internal_entry; Some sample_entry; None] /\ l_e st' = 1 /\ l_size st' = 2.
Proof.
  apply (load_row_extends (HP := armhf) (HO := od_u32) (HA := oda) (HS := ilp32_sizes) 0 [internal_entry]
    (start_state 2 (replicate 3 None) (2 ^ 32 - 1) sample_row) (replicate 3 None) sample_entry
    (compared sample_row) 1); by_compute.
Defined.

Lemma load_row_index_witness :
  load_row (HP := armhf) (HO := od_u32) (HA := oda) (HS := ilp32_sizes) 0 false []
    (start_state 0 [Some internal_entry] 0 sample_row) = Undef UbBounds.
Proof.
  exact (load_row_index (HP := armhf) (HO := od_u32) (HA := oda) (HS := ilp32_sizes) 0 []
    (start_state 0 [Some internal_entry] 0 sample_row) [Some internal_entry] sample_entry (compared sample_row)
    eq_refl ltac:(vm_compute; reflexivity) eq_refl eq_refl).
Defined.

Lemma fill_var_scalar_witness :
  exists d', fill_var (HP := armhf) (HO := od_u32) (HA := oda) sample_row 0
    = Ret (Some (Some [x05], 1, 0x0F, d')).
Proof.
  destruct (fill_var_scalar (HP := armhf) (HO := od_u32) (HA := oda) sample_row 0 (cs "5") 1
    (fun _ => eq_refl) ltac:(vm_compute; reflexivity) eq_refl) as (bits & d' & H & Hb).
  exists d'. rewrite H, Hb. vm_compute. reflexivity.
Defined.

Definition record_entry : OD_entry := mkEntry 0x4001 2 (ODT_REC [empty_var; empty_var]).
Definition member_row : tmp_data_t := mkTmp 7 6 (cs "rw") 0x4001 1 0 (cs "500" ++ replicate 253 NUL).

Lemma fill_entry_subindex_record_witness :
  exists rec', fill_entry_subindex (HP := armhf) (HO := od_u32) (HA := oda) record_entry member_row 1
      = Ret (Some (mkEntry 0x4001 2 (ODT_REC rec'), compared member_row))
    /\ rec' !! 1%nat = Some (mkVar (Some [xf4; x01]) 0x4F 2 1).
Proof.
  destruct (fill_entry_subindex_record (HP := armhf) (HO := od_u32) (HA := oda) record_entry
    [empty_var; empty_var] member_row 1 empty_var (Some [xf4; x01]) 2 0x4F (compared member_row))
    as (rec' & H1 & H2 & _); [by_compute..|].
  exists rec'. split; [exact H1|exact H2].
Defined.

Definition array_entry : OD_entry :=
  mkEntry 0x4002 3 (ODT_ARR (mkArr (Some [x02]) (Some (ABytes (replicate 4 None))) 0x0F 0x4F 2 2)).
Definition element_row : tmp_data_t := mkTmp 7 6 (cs "rw") 0x4002 2 0 (cs "500" ++ replicate 253 NUL).

Lemma fill_entry_subindex_array_shift_witness :
  fill_entry_subindex (HP := armhf) (HO := od_u32) (HA := oda) array_entry element_row 2 = Undef UbBounds.
Proof.
  exact (fill_entry_subindex_array_shift (HP := armhf) (HO := od_u32) (HA := oda) array_entry
    (mkArr (Some [x02]) (Some (ABytes (replicate 4 None))) 0x0F 0x4F 2 2) element_row 2 [xf4; x01] 2 0x4F
    (compared element_row) (replicate 4 None) eq_refl ltac:(by_compute) ltac:(by_compute)
    ltac:(vm_compute; reflexivity) eq_refl ltac:(by_compute) eq_refl eq_refl ltac:(by_compute) ltac:(by_compute)).
Defined.

Lemma parse_int_key_roundtrip_witness :
  parse_int_key (HP := armhf) (cs "-42" ++ nl) = (true, Some (-42)) /\
  parse_int_key (HP := armhf) (cs "0x1a" ++ nl) = (true, Some 26).
Proof.
  split.
  - apply (proj1 (parse_int_key_roundtrip (HP := armhf) (-42) nl ltac:(by_compute) ltac:(by_compute))).
    by_compute.
  - apply (proj2 (parse_int_key_roundtrip (HP := armhf) 26 nl ltac:(by_compute) ltac:(by_compute))).
    by_compute.
Defined.

Definition node_fs : memfs :=
  <[cs "/node.conf" := NFile (cs "CanInterface=can1" ++ nl ++ cs "NodeId=0x7c" ++ nl)]> sample_fs.

Lemma node_config_roundtrip_witness :
  exists buf, node_config_load (HP := armhf) node_fs (Some (cs "/node.conf"))
      (mkNode (replicate 20 NUL) 0 false) = Ret (0, mkNode buf 0x7C false)
    /\ c_str buf = Ret (cs "can1").
Proof.
  destruct (node_config_roundtrip (HP := armhf) node_fs (cs "/node.conf") (cs "can1") 0x7C
    (mkNode (replicate 20 NUL) 0 false)) as (buf & H1 & H2 & _);
    [by_decide|by_decide|by_compute|by_compute|by_compute|].
  exists buf. split; [exact H1|exact H2].
Defined.

(** The release where it is defined: an internal entry, one of the daemon's own, a terminator. *)
Example od_config_free_sample :
  od_config_free (Some (Some [Some internal_entry; Some (mkEntry 0x4000 1 (ODT_VAR (mkVar (Some [NUL]) 0 1 0)));
    Some zero_entry; None])) true [internal_entry] = Ret [BDataOrig 1; BList; BOD].
Proof. reflexivity. Qed.

Lemma od_config_free_unterminated_witness :
  exists u, od_config_free (Some (Some [Some (mkEntry 0x4000 1 (ODT_VAR (mkVar None 0 1 0))); None])) true [] = Undef u.
Proof. apply (od_config_free_unterminated true [] [Some (mkEntry 0x4000 1 (ODT_VAR (mkVar None 0 1 0))); None]). by_compute. Defined.
