(* ===== verification/CanConfig.v ===== *)
(** * src/canopenlinux/config.c: what the CANopen stack is created for

    [fill_config] looks the entries of the stack's objects up in the object dictionary and
    counts the PDOs by walking the list of entries from the first of them on.  The
    dictionary is the list [LoadConfigs] makes, its terminating element included; an entry
    pointer is an index of that list. *)

From Stdlib Require Import Sorting.Sorted.
From S2P Require Import Prelude CLib ODInterface LoadConfigs.

Module Config.
(** The members of CANopenNode's [CO_config_t] the function fills. *)
Record CO_config_t := mkConfig {
  ENTRY_H1017 : option nat; CNT_NMT : Z;
  ENTRY_H1016 : option nat; CNT_HB_CONS : Z; CNT_ARR_1016 : Z;
  ENTRY_H1003 : option nat; CNT_EM : Z; CNT_ARR_1003 : Z;
  ENTRY_H1001 : option nat; ENTRY_H1014 : option nat; ENTRY_H1015 : option nat;
  ENTRY_H1200 : option nat; CNT_SDO_SRV : Z;
  ENTRY_H1280 : option nat; CNT_SDO_CLI : Z;
  ENTRY_H1012 : option nat; CNT_TIME : Z;
  ENTRY_H1005 : option nat; CNT_SYNC : Z;
  ENTRY_H1006 : option nat; ENTRY_H1007 : option nat; ENTRY_H1019 : option nat;
  CNT_RPDO : Z; ENTRY_H1400 : option nat; ENTRY_H1600 : option nat;
  CNT_TPDO : Z; ENTRY_H1800 : option nat; ENTRY_H1A00 : option nat;
  CNT_LEDS : Z; CNT_GFC : Z; ENTRY_H1300 : option nat; CNT_SRDO : Z;
  ENTRY_H1301 : option nat; ENTRY_H1381 : option nat; ENTRY_H13FE : option nat; ENTRY_H13FF : option nat;
  CNT_LSS_SLV : Z; CNT_LSS_MST : Z; CNT_GTWA : Z; CNT_TRACE : Z;
}.
End Config.
Import Config.

Abbreviation od_list := (list (option OD_entry)).

(** [OD_find] of CANopenNode, and the widths of the two kinds of counts. *)
Class OdFind := {
  OD_find : od_list -> Z -> option nat;
  CNT_ARR_BITS : Z;
  CNT_PDO_BITS : Z;
  cnt_bits_ok : 8 <= CNT_ARR_BITS /\ 16 <= CNT_PDO_BITS;
}.

(** The entry an index leads to; behind the list, or not initialised, it is undefined. *)
Definition entry_at (od : od_list) (k : nat) : res OD_entry :=
  match od !! k with
  | Some (Some e) => Ret e
  | Some None => Undef UbUninit
  | None => Undef UbBounds
  end.

Section CanConfig.
Context `{OdFind}.

Definition present (entry : option nat) : Z := match entry with Some _ => 1 | None => 0 end.

(** [dataElementLength] of the object of an entry, taken to be an array. *)
Definition array_length (od : od_list) (entry : option nat) : res Z :=
  match entry with
  | None => Ret 0
  | Some k =>
      e ← entry_at od k;
      match e_object e with
      | ODT_ARR a => Ret (wrap CNT_ARR_BITS (arr_dataElementLength a))
      | _ => Undef UbBounds
      end
  end.

(** The loop that counts entries below [bound]; [od] is the list from [entry] on. *)
Fixpoint count_below (od : od_list) (bound cnt : Z) : res Z :=
  match od with
  | [] => Undef UbBounds
  | None :: _ => Undef UbUninit
  | Some e :: od => if e_index e <? bound then count_below od bound (wrap CNT_PDO_BITS (cnt + 1)) else Ret cnt
  end.

Definition count_pdos (od : od_list) (entry : option nat) (bound : Z) : res Z :=
  match entry with None => Ret 0 | Some k => count_below (drop k od) bound 0 end.

(** The return value and [*config]. *)
Definition fill_config (od : option od_list) (config : option CO_config_t)
  : res (Z * option CO_config_t) :=
  match od, config with
  | Some od, Some _ =>
      let find := OD_find od in
      cnt_1016 ← array_length od (find 0x1016);
      cnt_1003 ← array_length od (find 0x1003);
      rpdo ← count_pdos od (find 0x1400) 0x1600;
      tpdo ← count_pdos od (find 0x1800) 0x1A00;
      mret (0, Some
        {| ENTRY_H1017 := find 0x1017; CNT_NMT := present (find 0x1017);
           ENTRY_H1016 := find 0x1016; CNT_HB_CONS := present (find 0x1016); CNT_ARR_1016 := cnt_1016;
           ENTRY_H1003 := find 0x1003; CNT_EM := present (find 0x1003); CNT_ARR_1003 := cnt_1003;
           ENTRY_H1001 := find 0x1001; ENTRY_H1014 := find 0x1014; ENTRY_H1015 := find 0x1015;
           ENTRY_H1200 := find 0x1200; CNT_SDO_SRV := present (find 0x1200);
           ENTRY_H1280 := find 0x1280; CNT_SDO_CLI := present (find 0x1280);
           ENTRY_H1012 := find 0x1012; CNT_TIME := present (find 0x1012);
           ENTRY_H1005 := find 0x1005; CNT_SYNC := present (find 0x1005);
           ENTRY_H1006 := find 0x1006; ENTRY_H1007 := find 0x1007; ENTRY_H1019 := find 0x1019;
           CNT_RPDO := rpdo; ENTRY_H1400 := find 0x1400; ENTRY_H1600 := find 0x1600;
           CNT_TPDO := tpdo; ENTRY_H1800 := find 0x1800; ENTRY_H1A00 := find 0x1A00;
           CNT_LEDS := 0; CNT_GFC := 0; ENTRY_H1300 := None; CNT_SRDO := 0;
           ENTRY_H1301 := None; ENTRY_H1381 := None; ENTRY_H13FE := None; ENTRY_H13FF := None;
           CNT_LSS_SLV := 0; CNT_LSS_MST := 0; CNT_GTWA := 0; CNT_TRACE := 0 |})
  | _, _ => Ret (-1, config)
  end.
End CanConfig.

(** ** Properties *)

(** What [OD_find] promises: the entry with the index, when the list has one. *)
Class OdFindLaws `{OdFind} := {
  OD_find_some : forall od i k, OD_find od i = Some k ->
    exists e, od !! k = Some (Some e) /\ e_index e = i;
  OD_find_none : forall od i k e, OD_find od i = None -> od !! k = Some (Some e) -> e_index e <> i;
}.

(** The indexes of a dictionary in ascending order, as the search requires, with nothing
    uninitialised between them. *)
Definition indexes (l : list OD_entry) : list Z := e_index <$> l.
Definition ascending (l : list OD_entry) : Prop := StronglySorted Z.lt (indexes l).

(** The entries with an index from [lo] to below [hi]: what a count is meant to be. *)
Definition entries_in (lo hi : Z) (l : list OD_entry) : list OD_entry :=
  filter (fun e => lo <= e_index e < hi) l.

Lemma filter_none {A} (P : A -> Prop) `{forall x, Decision (P x)} (l : list A) :
  Forall (fun x => ~ P x) l -> filter P l = [].
Proof. induction 1; [done|]. by rewrite filter_cons_False. Qed.

Lemma filter_same {A} (P Q : A -> Prop) `{forall x, Decision (P x)} `{forall x, Decision (Q x)} (l : list A) :
  Forall (fun x => P x <-> Q x) l -> filter P l = filter Q l.
Proof.
  induction 1 as [|x l Hx _ IH]; [done|]. destruct (decide (P x)).
  - by rewrite !filter_cons_True, IH by tauto.
  - by rewrite !filter_cons_False, IH by tauto.
Qed.

Lemma ascending_app l1 e l2 :
  ascending (l1 ++ e :: l2) ->
  Forall (fun x => e_index x < e_index e) l1 /\ Forall (fun x => e_index e < e_index x) l2 /\
  ascending (e :: l2).
Proof.
  unfold ascending, indexes. rewrite fmap_app. induction l1 as [|x l1 IH]; cbn; intros Hs.
  - inversion Hs; subst. rewrite Forall_fmap in *. done.
  - inversion Hs as [|? ? Hs' Hx]; subst. destruct (IH Hs') as (H1 & H2 & H3). split_and!; [|done..].
    constructor; [|done]. apply Forall_app in Hx as [_ Hx]. by inversion Hx.
Qed.

(** What ends the list: an element that was never written, or one with index 0. *)
Definition terminator (t : option OD_entry) : Prop :=
  match t with None => True | Some e => e_index e = 0 end.

Section ConfigProps.
Context `{HL : OdFindLaws}.

Lemma count_below_sorted l tail bound cnt :
  ascending l -> Exists (fun e => bound <= e_index e) l ->
  0 <= cnt -> in_u CNT_PDO_BITS (cnt + zlen l) ->
  count_below ((Some <$> l) ++ tail) bound cnt = Ret (cnt + zlen (filter (fun e => e_index e < bound) l)).
Proof.
  revert cnt. induction l as [|e l IH]; intros cnt Hs He Hc Hfit; [by apply Exists_nil in He|].
  cbn [fmap list_fmap app count_below].
  assert (zlen (e :: l) = 1 + zlen l) as El by zlia. pose proof (zlen_nonneg l).
  destruct (ascending_app [] e l Hs) as (_ & Hall & _).
  destruct (Z.ltb_spec (e_index e) bound) as [Hb|Hb].
  - rewrite filter_cons_True by done. unfold in_u in *. rewrite wrap_small by (unfold in_u; lia).
    apply Exists_cons in He as [He|He]; [lia|]. inversion Hs; subst. rewrite IH by (done || lia). f_equal. zlia.
  - rewrite filter_none; [f_equal; zlia|]. constructor; [lia|].
    eapply list.Forall_impl; [exact Hall|]. cbn. lia.
Qed.

(** Past the last entry the loop goes on. *)
Lemma count_below_past l t bound cnt :
  0 < bound -> Forall (fun e => e_index e < bound) l -> terminator t ->
  exists u, count_below ((Some <$> l) ++ [t]) bound cnt = Undef u.
Proof.
  intros Hb Hl Ht. revert cnt. induction Hl as [|e l He Hl IH]; intros cnt; cbn.
  - destruct t as [e|]; [|by eexists]. cbn in Ht. rewrite Ht, (proj2 (Z.ltb_lt _ _)) by done. by eexists.
  - by rewrite (proj2 (Z.ltb_lt _ _)) by done.
Qed.

(** A found entry splits the dictionary. *)
Lemma find_split l t i k :
  terminator t -> i <> 0 -> OD_find ((Some <$> l) ++ [t]) i = Some k ->
  exists l1 e l2, l = l1 ++ e :: l2 /\ length l1 = k /\ e_index e = i.
Proof.
  intros Ht Hi (e & Hk & He)%OD_find_some.
  apply lookup_app_Some in Hk as [Hk|[Hlen Hk]].
  - rewrite list_lookup_fmap in Hk. destruct (l !! k) as [e'|] eqn:El; [|done]. injection Hk as ->.
    apply list_elem_of_split_length in El as (l1 & l2 & -> & ->). by exists l1, e, l2.
  - destruct (k - _)%nat; [|done]. cbn in Hk. injection Hk as ->. cbn in Ht. congruence.
Qed.

Lemma count_pdos_spec l t lo hi :
  ascending l -> terminator t -> 0 < lo < hi -> in_u CNT_PDO_BITS (zlen l) ->
  Exists (fun e => hi <= e_index e) l ->
  count_pdos ((Some <$> l) ++ [t]) (OD_find ((Some <$> l) ++ [t]) lo) hi
  = Ret (match OD_find ((Some <$> l) ++ [t]) lo with Some _ => zlen (entries_in lo hi l) | None => 0 end).
Proof.
  intros Hs Ht Hlo Hfit Hex. unfold count_pdos. destruct (OD_find _ lo) as [k|] eqn:Ef; [|done].
  apply find_split in Ef as (l1 & e & l2 & -> & Hk & He); [|done|lia].
  destruct (ascending_app _ _ _ Hs) as (H1 & H2 & H3).
  rewrite fmap_app, <- app_assoc, drop_app_length' by (rewrite length_fmap; lia).
  change (Some e :: (Some <$> l2)) with (Some <$> (e :: l2)). apply Exists_app in Hex.
  assert (zlen (l1 ++ e :: l2) = zlen l1 + zlen (e :: l2)) as El by apply zlen_app.
  pose proof (zlen_nonneg l1). pose proof (zlen_nonneg (e :: l2)).
  rewrite count_below_sorted; [|done| |done|unfold in_u in *; lia].
  - unfold entries_in. rewrite list.filter_app, (filter_none _ l1).
    + cbn [app]. rewrite Z.add_0_l. do 2 f_equal. apply filter_same. constructor; [lia|].
      eapply list.Forall_impl; [exact H2|]. cbn. lia.
    + eapply list.Forall_impl; [exact H1|]. cbn. lia.
  - destruct Hex as [Hex|]; [|done]. exfalso. revert Hex. apply Forall_not_Exists.
    eapply list.Forall_impl; [exact H1|]. cbn. lia.
Qed.

(** The two entries whose object is read as an array. *)
Definition arrays_ok (od : od_list) : Prop :=
  forall i, i = 0x1016 \/ i = 0x1003 -> defined (array_length od (OD_find od i)).

(** The number of PDOs of a kind, as the code counts them: none when the first is missing. *)
Definition pdos_from (lo hi : Z) (l : list OD_entry) (first : option nat) : Z :=
  match first with Some _ => zlen (entries_in lo hi l) | None => 0 end.

(** C19: in an ascending dictionary that goes on beyond the PDO mappings and whose two array entries are
    arrays, the counts are the numbers of communication parameters of the receive and of the transmit
    PDOs (none when the first of them is missing). *)
Theorem fill_config_counts l t config :
  ascending l -> terminator t -> in_u CNT_PDO_BITS (zlen l) ->
  Exists (fun e => 0x1A00 <= e_index e) l -> arrays_ok ((Some <$> l) ++ [t]) ->
  exists c, fill_config (Some ((Some <$> l) ++ [t])) (Some config) = Ret (0, Some c) /\
    CNT_RPDO c = pdos_from 0x1400 0x1600 l (ENTRY_H1400 c) /\
    CNT_TPDO c = pdos_from 0x1800 0x1A00 l (ENTRY_H1800 c).
Proof.
  intros Hs Ht Hfit Hex Ha. unfold fill_config.
  destruct (Ha 0x1016 ltac:(by left)) as [n1 ->]. destruct (Ha 0x1003 ltac:(by right)) as [n2 ->]. run.
  rewrite (count_pdos_spec l t 0x1400); [|done|done|done|done|eapply Exists_impl; [|exact Hex]; cbn; lia].
  rewrite (count_pdos_spec l t 0x1800); [|done..]. run. by eexists.
Qed.

(** When the dictionary ends with the PDOs (its first receive PDO is there and no entry from 0x1600
    on), the count of PDOs does not stop at the terminating element: it reads past the list. *)
Theorem fill_config_runs_past l t config :
  terminator t -> Forall (fun e => e_index e < 0x1600) l -> arrays_ok ((Some <$> l) ++ [t]) ->
  is_Some (OD_find ((Some <$> l) ++ [t]) 0x1400) ->
  exists u, fill_config (Some ((Some <$> l) ++ [t])) (Some config) = Undef u.
Proof.
  intros Ht Hl Ha [k Hk]. unfold fill_config.
  destruct (Ha 0x1016 ltac:(by left)) as [n1 ->]. destruct (Ha 0x1003 ltac:(by right)) as [n2 ->]. run.
  rewrite Hk. unfold count_pdos.
  apply find_split in Hk as (l1 & e & l2 & -> & Hk & He); [|done|lia].
  rewrite fmap_app, <- app_assoc, drop_app_length' by (rewrite length_fmap; lia).
  apply Forall_app in Hl as [_ Hl].
  destruct (count_below_past (e :: l2) t 0x1600 0) as [u Hu]; [done..|].
  exists u. change (Some <$> e :: l2) with (Some e :: (Some <$> l2)) in *. by rewrite Hu.
Qed.
End ConfigProps.

(** ** Witnesses: the theorems at concrete inputs *)

(** A linear search. *)
Definition has_index (i : Z) (o : option OD_entry) : Prop :=
  match o with Some e => e_index e = i | None => False end.

#[export] Instance has_index_dec i o : Decision (has_index i o).
Proof. destruct o; cbn; apply _. Defined.

Definition linear_find : OdFind.
Proof.
  refine {| OD_find od i := fst <$> list_find (has_index i) od; CNT_ARR_BITS := 8; CNT_PDO_BITS := 16 |}.
  lia.
Defined.

Lemma linear_find_laws : OdFindLaws (H := linear_find).
Proof.
  split.
  - intros od i k. cbn. destruct (list_find _ _) as [[k' o]|] eqn:E; [|done]. intros [= <-].
    apply list_find_Some in E as (Hk & Hi & _). destruct o as [e|]; [|done]. by exists e.
  - intros od i k e. cbn. destruct (list_find _ _) eqn:E; [done|]. intros _ Hk.
    apply list_find_None in E. eapply Forall_lookup_1 in E; [|exact Hk]. done.
Qed.

Definition var_entry (i : Z) : OD_entry := mkEntry i 1 (ODT_VAR (mkVar None 0 4 0)).
Definition sample_entries : list OD_entry := var_entry <$> [0x1000; 0x1400; 0x1401; 0x1600; 0x1601; 0x1800; 0x1A00].
Definition no_config : CO_config_t :=
  mkConfig None 0 None 0 0 None 0 0 None None None None 0 None 0 None 0 None 0 None None None
    0 None None 0 None None 0 0 None 0 None None None None 0 0 0 0.

Lemma fill_config_counts_witness :
  exists c, fill_config (H := linear_find) (Some ((Some <$> sample_entries) ++ [None])) (Some no_config)
      = Ret (0, Some c) /\ CNT_RPDO c = 2 /\ CNT_TPDO c = 1.
Proof.
  destruct (fill_config_counts (H := linear_find) (HL := linear_find_laws) sample_entries None no_config)
    as (c & Hc & Hr & Ht).
  - repeat constructor.
  - done.
  - by_compute.
  - by_decide.
  - intros i [-> | ->]; by eexists.
  - exists c. split; [exact Hc|]. injection Hc as <-. split; [exact Hr|exact Ht].
Defined.

Lemma fill_config_runs_past_witness :
  exists u, fill_config (H := linear_find) (Some ((Some <$> (var_entry <$> [0x1000; 0x1400])) ++ [Some (var_entry 0)]))
    (Some no_config) = Undef u.
Proof.
  apply (fill_config_runs_past (H := linear_find) (HL := linear_find_laws) (var_entry <$> [0x1000; 0x1400])
    (Some (var_entry 0)) no_config).
  - reflexivity.
  - by_decide.
  - intros i [-> | ->]; by eexists.
  - by eexists.
Defined.
