(* ===== verification/Main.v ===== *)
(** * src/main.c, up to the main loop: callbacks, the node's identity, start-up

    What [main] does before it enters its loop, as functions of what the system answers:
    the node configuration and the command line give interface, node id and priority; the
    dictionary is loaded and its PDO identifiers are made those of the node; the caches are
    opened.  The callbacks CANopenNode calls are here too.  Access to the values of the
    dictionary is CANopenNode's, the class [OdAccess]. *)

From Stdlib Require Import Strings.Byte.
From S2P Require Import Prelude CLib Str2buf ODInterface FileSys MemFS System Fcache IpcMsg IpcBroadcast LoadConfigs.

Definition DEFAULT_NODE_ID : Z := 0x7C.
Definition DEFAULT_CAN_INTERFACE : bytes := cs "can0".
Definition CACHE_BASE_ROOT_PATH : bytes := cs "/var/cache/oresat".
Definition FREAD_CACHE_DIR : bytes := cs "fread".
Definition FWRITE_CACHE_DIR : bytes := cs "fwrite".
Definition FREAD_CACHE_ROOT_PATH : bytes := CACHE_BASE_ROOT_PATH ++ [SLASH] ++ FREAD_CACHE_DIR.
Definition FWRITE_CACHE_ROOT_PATH : bytes := CACHE_BASE_ROOT_PATH ++ [SLASH] ++ FWRITE_CACHE_DIR.

(** ** Callbacks *)

(** The node an emergency comes from; identifier 0 stands for the node itself. *)
Definition emcy_node (ident node_id : Z) : Z :=
  swrap 16 (if negb (ident =? 0) then Z.land ident 0x7F else node_id).

Definition EmergencyRxCallback (node_id ident errorCode infoCode : Z) (st : bc_state) : res (list bytes) :=
  ipc_broadcast_emcy (wrap 8 (emcy_node ident node_id)) errorCode infoCode st.

(** The states of CANopenNode's [CO_NMT_internalState_t] the code names. *)
Inductive nmt_state := CO_NMT_INITIALIZING | CO_NMT_PRE_OPERATIONAL | CO_NMT_OPERATIONAL | CO_NMT_STOPPED | CO_NMT_UNKNOWN.

Definition NmtState2Str (state : nmt_state) : bytes :=
  match state with
  | CO_NMT_INITIALIZING => cs "initializing"
  | CO_NMT_PRE_OPERATIONAL => cs "pre-operational"
  | CO_NMT_OPERATIONAL => cs "operational"
  | CO_NMT_STOPPED => cs "stopped"
  | CO_NMT_UNKNOWN => cs "unknown"
  end.

(** [state_val] is the number of a state. *)
Definition HeartbeatNmtChangedCallback (state_val : nmt_state -> Z) (nodeId : Z) (state : nmt_state)
    (st : bc_state) : res (list bytes) :=
  ipc_broadcast_hb nodeId (state_val state) st.

(** ** Identifiers of the PDOs *)

(** The dictionary as the loop sees it: the number of entries, their indexes, and 32-bit
    values by entry and subindex. *)
Class OdAccess (D : Type) := {
  od_size : D -> nat;
  od_index : D -> nat -> Z;
  OD_get_u32 : D -> nat -> Z -> option Z;
  OD_set_u32 : D -> nat -> Z -> Z -> D;
}.

Section FixCobIds.
Context `{HA : OdAccess D}.

(** The default identifier of PDO [i] of a kind. *)
Definition default_cob_id (base i : Z) : Z := base + (0x100 * (i mod 4) + i / 4).

(** One of the two blocks of the loop: [cob_id] keeps its value when the entry has none. *)
Definition fix_entry (base i : Z) (e : nat) (node_id : Z) (cob_id : option Z) (od : D)
  : res (option Z * D) :=
  let cob_id := match OD_get_u32 od e 1 with Some v => Some v | None => cob_id end in
  match cob_id with
  | None => Undef UbUninit
  | Some c =>
      if Z.land c 0x7FF =? default_cob_id base i
      then Ret (cob_id, OD_set_u32 od e 1 (wrap 32 (c + node_id)))
      else Ret (cob_id, od)
  end.

(** The body of the loop for entry [e]. *)
Definition fix_pdo_entry (e : nat) (node_id : Z) (cob_id : option Z) (od : D) : res (option Z * D) :=
  let index := od_index od e in
  '(cob_id, od) ←
    (if (0x1400 <=? index) && (index <? 0x1600)
     then fix_entry 0x200 (index - 0x1400) e node_id cob_id od else Ret (cob_id, od));
  if (0x1800 <=? index) && (index <? 0x1A00)
  then fix_entry 0x180 (index - 0x1800) e node_id cob_id od else Ret (cob_id, od).

Fixpoint fix_cob_ids_loop (n e : nat) (node_id : Z) (cob_id : option Z) (od : D) : res D :=
  match n with
  | O => Ret od
  | S n =>
      '(cob_id, od) ← fix_pdo_entry e node_id cob_id od;
      fix_cob_ids_loop n (S e) node_id cob_id od
  end.

Definition fix_cob_ids (od : option D) (node_id : Z) : res (option D) :=
  match od with
  | None => Ret None
  | Some od => od ← fix_cob_ids_loop (od_size od) 0 node_id None od; mret (Some od)
  end.
End FixCobIds.

(** ** The command line *)

(** What [getopt] returns, in order. *)
Inductive opt := Opt_h | Opt_i (optarg : bytes) | Opt_m | Opt_n (optarg : bytes) | Opt_p (optarg : bytes)
  | Opt_v | Opt_other.

Record settings := mkSettings {
  s_node : node_config;
  rtPriority : Z;
  verbose : bool;
}.

Definition EXIT_SUCCESS : Z := 0.
Definition EXIT_FAILURE : Z := 1.

Section Options.
Context `{HP : Platform}.

(** The base [strtol] takes when it is given 0. *)
Definition auto_base (s : bytes) : Z :=
  let s := snd (scan_sign (snd (skip_space s))) in
  if nth_is s 0 "0"%byte then
    match scan_prefix 16 s with (O, _) => 8 | _ => 16 end
  else 10.

(** An [int] from [strtol(optarg, NULL, base)]. *)
Definition opt_int (base : Z) (s : bytes) : Z :=
  swrap 32 (fst (strtol LONG_BITS (if base =? 0 then auto_base s else base) s)).

(** [inl] is a call of [exit].  [strncpy] with the length of the argument copies no
    terminator. *)
Definition parse_option (o : opt) (s : settings) : res (Z + settings) :=
  let n := s_node s in
  match o with
  | Opt_h => Ret (inl EXIT_SUCCESS)
  | Opt_i optarg =>
      b ← mem_write (can_interface n) 0 optarg;
      mret (inr (mkSettings (mkNode b (node_id n) (network_manager n)) (rtPriority s) (verbose s)))
  | Opt_m => Ret (inr (mkSettings (mkNode (can_interface n) (node_id n) true) (rtPriority s) (verbose s)))
  | Opt_n optarg =>
      let id := wrap 8 (fst (strtol LONG_BITS 16 optarg)) in
      Ret (inr (mkSettings (mkNode (can_interface n) id (network_manager n)) (rtPriority s) (verbose s)))
  | Opt_p optarg => Ret (inr (mkSettings n (opt_int 0 optarg) (verbose s)))
  | Opt_v => Ret (inr (mkSettings n (rtPriority s) true))
  | Opt_other => Ret (inl EXIT_FAILURE)
  end.

Fixpoint parse_options (l : list opt) (s : settings) : res (Z + settings) :=
  match l with
  | [] => Ret (inr s)
  | o :: l =>
      r ← parse_option o s;
      match r with inl status => mret (inl status) | inr s => parse_options l s end
  end.

(** [lo] and [hi] are the priorities of [SCHED_FIFO]. *)
Definition check_priority (lo hi : Z) (s : settings) : Z + settings :=
  if negb (rtPriority s =? -1) && ((rtPriority s <? lo) || (hi <? rtPriority s))
  then inl EXIT_FAILURE else inr s.
End Options.

(** ** Start-up *)

Section Startup.
Context `{HP : Platform} `{HO : ODTypes} `{HA : ODAttrs} `{HS : ODSizes} `{FS : FileSystem F}.

(** The variables before the configuration is read. *)
Definition default_node : node_config :=
  mkNode (DEFAULT_CAN_INTERFACE ++ replicate (20 - length DEFAULT_CAN_INTERFACE) NUL) DEFAULT_NODE_ID false.

(** The node configuration, or a new file when there is none.  [home_path] is what [wordexp]
    makes of the path in the home directory. *)
Definition load_node (uid : Z) (home_path : bytes) (fs : F) : res (node_config * F) :=
  let node_path := match snd (get_default_node_config_path uid home_path 256) with Some p => p | None => [] end in
  if is_file fs node_path then
    '(_, cfg) ← node_config_load fs (Some node_path) default_node; mret (cfg, fs)
  else
    let '(_, fs) := make_node_config fs (Some node_path) in Ret (default_node, fs).

(** [inl] is the exit status. *)
Definition load_settings (uid : Z) (home_path : bytes) (opts : list opt) (lo hi : Z) (fs : F)
  : res ((Z + settings) * F) :=
  '(cfg, fs) ← load_node uid home_path fs;
  r ← parse_options opts (mkSettings cfg (-1) false);
  mret (match r with inl status => inl status | inr s => check_priority lo hi s end, fs).

(** The loop that waits for the interface: the answers of [if_nametoindex], every 250 ms. *)
Fixpoint wait_interface (answers : list Z) : option Z :=
  match answers with
  | [] => None
  | i :: answers => if i =? 0 then wait_interface answers else Some i
  end.

(** The dictionary, and whether it is a loaded one.  [internal_od] is the memory of [OD->list]
    and [internal] its entries; the list of a loaded one may be NULL. *)
Definition load_dictionary (fresh : Z) (od_path : bytes) (network_manager : bool) (internal : list OD_entry)
    (internal_od : list (option OD_entry)) (junk : bytes) (fs : F) : res (option (list (option OD_entry)) * bool) :=
  if decide (od_path = []) then Ret (Some internal_od, false)
  else
    r ← od_config_load fresh fs (Some od_path) true (negb network_manager) internal junk;
    match r with
    | Some (l, _) => mret (l, true)
    | None => mret (Some internal_od, false)
    end.

(** [sprintf(tmp_path, "%s/%s", home, dir)] into 256 bytes. *)
Definition home_cache_path (home dir : bytes) : res bytes :=
  let p := home ++ [SLASH] ++ dir in
  if zlen p + 1 <=? 256 then Ret p else Undef UbBounds.

(** The two caches; their paths are logged, so that a cache that could not be made is used
    through NULL. *)
Definition open_both (mutex_size : Z) (fread_path fwrite_path : res bytes) (fs : F)
  : res (fcache_t * fcache_t * F) :=
  p ← fread_path;
  '(fread_cache, fs) ← fcache_init mutex_size fs p;
  p ← fwrite_path;
  '(fwrite_cache, fs) ← fcache_init mutex_size fs p;
  match fread_cache, fwrite_cache with
  | Some r, Some w => mret (r, w, fs)
  | _, _ => Undef UbNull
  end.

(** [home] is what [wordexp] makes of the directory in the home directory. *)
Definition open_caches (mutex_size uid : Z) (home : bytes) (fs : F) : res (fcache_t * fcache_t * F) :=
  open_both mutex_size
    (if uid =? 0 then Ret FREAD_CACHE_ROOT_PATH else home_cache_path home FREAD_CACHE_DIR)
    (if uid =? 0 then Ret FWRITE_CACHE_ROOT_PATH else home_cache_path home FWRITE_CACHE_DIR) fs.
End Startup.

(** ** Properties of the callbacks and the identifiers *)

(** An emergency received from node [n] reaches the applications as one of node [n], and one with
    identifier 0, the daemon's own, as one of the daemon's node. *)
Theorem emergency_reaches_clients node_id n code info st :
  clients st <> 0 -> broadcaster st = true -> 1 <= n <= 127 -> 0 <= node_id <= 127 ->
  EmergencyRxCallback node_id (0x80 + n) code info st
    = Ret [[z2b 0; z2b 7; z2b n] ++ le_bytes 2 code ++ le_bytes 4 info] /\
  EmergencyRxCallback node_id 0 code info st
    = Ret [[z2b 0; z2b 7; z2b node_id] ++ le_bytes 2 code ++ le_bytes 4 info].
Proof.
  intros Hc Hb Hn Hid. unfold EmergencyRxCallback, ipc_broadcast_emcy.
  rewrite (proj2 (Z.eqb_neq _ _) Hc), Hb. cbn [orb negb].
  assert (forall k, 0 <= k <= 127 -> wrap 8 (swrap 16 k) = k) as Hw.
  { intros k Hk. rewrite swrap_small by (unfold in_s; cbn; lia). apply wrap_small. unfold in_u. lia. }
  unfold emcy_node. rewrite (proj2 (Z.eqb_neq (0x80 + n) 0)) by lia. cbn [negb Z.eqb].
  assert (Z.land (0x80 + n) 0x7F = n) as ->.
  { change 0x7F with (Z.ones 7). rewrite Z.land_ones by lia.
    replace (0x80 + n) with (n + 1 * 2 ^ 7) by lia. rewrite Z.mod_add by lia. apply Z.mod_small. lia. }
  rewrite !Hw, !put_scalars_emcy by lia. done.
Qed.

(** What reading and writing values of the dictionary mean. *)
Class OdAccessLaws D `{OdAccess D} := {
  od_size_set : forall od e s v, od_size (OD_set_u32 od e s v) = od_size od;
  od_index_set : forall od e s v k, od_index (OD_set_u32 od e s v) k = od_index od k;
  od_get_set : forall od e s v old, OD_get_u32 od e s = Some old -> OD_get_u32 (OD_set_u32 od e s v) e s = Some v;
  od_get_other : forall od e s v e' s', (e', s') <> (e, s) -> OD_get_u32 (OD_set_u32 od e s v) e' s' = OD_get_u32 od e' s';
}.

(** The identifier an entry has after the daemon started. *)
Definition node_cob_id (index node_id c : Z) : Z :=
  let fix_value base i := if Z.land c 0x7FF =? default_cob_id base i then wrap 32 (c + node_id) else c in
  if (0x1400 <=? index) && (index <? 0x1600) then fix_value 0x200 (index - 0x1400)
  else if (0x1800 <=? index) && (index <? 0x1A00) then fix_value 0x180 (index - 0x1800)
  else c.

Section FixProps.
Context `{HL : OdAccessLaws D}.

(** The parameters of a PDO have an identifier. *)
Definition pdos_have_ids (od : D) : Prop :=
  forall k, (k < od_size od)%nat -> 0x1400 <= od_index od k < 0x1600 \/ 0x1800 <= od_index od k < 0x1A00 ->
    is_Some (OD_get_u32 od k 1).

(** What a change of the identifier of entry [e] leaves alone. *)
Definition only_id_of (e : nat) (od od' : D) : Prop :=
  od_size od' = od_size od /\ (forall k, od_index od' k = od_index od k) /\
  forall k s, (k, s) <> (e, 1) -> OD_get_u32 od' k s = OD_get_u32 od k s.

Lemma fix_entry_spec base i e node_id cob_id (od : D) c :
  OD_get_u32 od e 1 = Some c ->
  exists od', fix_entry base i e node_id cob_id od = Ret (Some c, od') /\ only_id_of e od od' /\
    OD_get_u32 od' e 1
    = Some (if Z.land c 0x7FF =? default_cob_id base i then wrap 32 (c + node_id) else c).
Proof.
  intros Hc. unfold fix_entry. rewrite Hc. destruct (_ =? _); eexists; (split; [done|]); split.
  - split_and!; [apply od_size_set|intros; apply od_index_set|intros; by apply od_get_other].
  - by eapply od_get_set.
  - by split_and!.
  - done.
Qed.

Lemma fix_pdo_entry_spec (od : D) e node_id cob_id :
  (0x1400 <= od_index od e < 0x1600 \/ 0x1800 <= od_index od e < 0x1A00 -> is_Some (OD_get_u32 od e 1)) ->
  exists cob' od', fix_pdo_entry e node_id cob_id od = Ret (cob', od') /\ only_id_of e od od' /\
    OD_get_u32 od' e 1 = node_cob_id (od_index od e) node_id <$> OD_get_u32 od e 1.
Proof.
  intros Hid. unfold fix_pdo_entry, node_cob_id.
  destruct ((0x1400 <=? od_index od e) && (od_index od e <? 0x1600)) eqn:E1.
  - apply andb_true_iff in E1 as [E1%Z.leb_le E2%Z.ltb_lt]. destruct Hid as [c Hc]; [by left|].
    destruct (fix_entry_spec 0x200 (od_index od e - 0x1400) e node_id cob_id od c Hc) as (od' & -> & Ho & Hv).
    rewrite (proj2 (Z.leb_gt _ _)) by lia. exists (Some c), od'. by rewrite Hc.
  - run. destruct ((0x1800 <=? od_index od e) && (od_index od e <? 0x1A00)) eqn:E3.
    + apply andb_true_iff in E3 as [E3%Z.leb_le E4%Z.ltb_lt]. destruct Hid as [c Hc]; [by right|].
      destruct (fix_entry_spec 0x180 (od_index od e - 0x1800) e node_id cob_id od c Hc) as (od' & -> & Ho & Hv).
      exists (Some c), od'. by rewrite Hc.
    + exists cob_id, od. split; [done|]. split; [by split_and!|]. by destruct (OD_get_u32 od e 1).
Qed.

Lemma fix_loop_spec n e node_id cob_id (od : D) :
  (forall k, (e <= k < e + n)%nat -> 0x1400 <= od_index od k < 0x1600 \/ 0x1800 <= od_index od k < 0x1A00 ->
     is_Some (OD_get_u32 od k 1)) ->
  exists od', fix_cob_ids_loop n e node_id cob_id od = Ret od' /\
    od_size od' = od_size od /\ (forall k, od_index od' k = od_index od k) /\
    forall k s, OD_get_u32 od' k s
      = if bool_decide ((e <= k < e + n)%nat /\ s = 1)
        then node_cob_id (od_index od k) node_id <$> OD_get_u32 od k s else OD_get_u32 od k s.
Proof.
  revert e cob_id od. induction n as [|n IH]; intros e cob_id od Hid; cbn [fix_cob_ids_loop].
  { exists od. split_and!; try done. intros k s. rewrite bool_decide_eq_false_2 by lia. done. }
  destruct (fix_pdo_entry_spec od e node_id cob_id) as (cob' & od1 & -> & (Hs & Hi & Ho) & Hv).
  { intros Hr. apply Hid; [lia|done]. }
  run. destruct (IH (S e) cob' od1) as (od2 & -> & Hs2 & Hi2 & Hv2).
  { intros k Hk. rewrite Hi, Ho by (intros [= ->]; lia). apply Hid. lia. }
  exists od2. split; [done|]. split; [congruence|]. split; [intros; by rewrite Hi2, Hi|].
  intros k s. rewrite Hv2, Hi. destruct (decide ((k, s) = (e, 1))) as [[= -> ->]|Hne].
  - rewrite bool_decide_eq_false_2 by lia. rewrite bool_decide_eq_true_2 by lia. exact Hv.
  - rewrite Ho by done. destruct (bool_decide ((S e <= k < S e + n)%nat /\ s = 1)) eqn:E.
    + apply bool_decide_eq_true in E. rewrite bool_decide_eq_true_2 by lia. done.
    + apply bool_decide_eq_false in E. rewrite bool_decide_eq_false_2; [done|].
      intros [Hk ->]. apply E. split; [|done]. assert (k <> e) by congruence. lia.
Qed.

(** C18: start-up gives every PDO of the dictionary that has the default identifier the node's, and
    leaves every other value of the dictionary as it is. *)
Theorem fix_cob_ids_spec (od : D) node_id :
  pdos_have_ids od -> 1 <= node_id <= 0x7F ->
  exists od', fix_cob_ids (Some od) node_id = Ret (Some od') /\
    (forall k s, OD_get_u32 od' k s
       = if bool_decide ((k < od_size od)%nat /\ s = 1)
         then node_cob_id (od_index od k) node_id <$> OD_get_u32 od k s else OD_get_u32 od k s).
Proof.
  intros Hid Hn. unfold fix_cob_ids.
  destruct (fix_loop_spec (od_size od) 0 node_id None od) as (od' & -> & _ & _ & Hv).
  { intros k Hk. apply Hid. lia. }
  run. exists od'. split; [done|]. intros k s. rewrite Hv.
  destruct (decide ((k < od_size od)%nat /\ s = 1)).
  - by rewrite !bool_decide_eq_true_2 by lia.
  - by rewrite !bool_decide_eq_false_2 by lia.
Qed.
End FixProps.

(** The identifier of a PDO in the ranges of the code, with the flags above bit 10. *)
Lemma default_cob_id_range base i :
  0 <= i < 0x200 -> 0x180 <= base <= 0x200 -> base <= default_cob_id base i <= 0x57F.
Proof.
  intros Hi Hb. unfold default_cob_id. pose proof (Z.mod_pos_bound i 4 ltac:(lia)).
  assert (0 <= i / 4 <= 127) by (split; [apply Z.div_pos; lia|apply Z.lt_succ_r, Z.div_lt_upper_bound; lia]).
  lia.
Qed.

(** The identifiers of the predefined connection set of CiA 301, without the node's id: four of a
    kind; the ones after them are not in it and follow the code's formula. *)
Example default_cob_ids :
  map (default_cob_id 0x200) [0; 1; 2; 3; 4] = [0x200; 0x300; 0x400; 0x500; 0x201] /\
  map (default_cob_id 0x180) [0; 1; 2; 3; 4] = [0x180; 0x280; 0x380; 0x480; 0x181].
Proof. split; reflexivity. Qed.

(** The node's id is added to a default identifier without touching the flags above it, and
    doing it twice is doing it once: the result is not a default identifier any more. *)
Theorem node_cob_id_default index node_id flags :
  0x1400 <= index < 0x1600 \/ 0x1800 <= index < 0x1A00 ->
  1 <= node_id <= 0x7F -> 0 <= flags < 2 ^ 21 ->
  let d := if index <? 0x1600 then default_cob_id 0x200 (index - 0x1400)
           else default_cob_id 0x180 (index - 0x1800) in
  node_cob_id index node_id (flags * 2 ^ 11 + d) = flags * 2 ^ 11 + (d + node_id) /\
  d + node_id < 2 ^ 11 /\
  node_cob_id index node_id (flags * 2 ^ 11 + (d + node_id)) = flags * 2 ^ 11 + (d + node_id).
Proof.
  intros Hi Hn Hf d.
  assert (0 < d <= 0x57F) as Hd.
  { subst d. destruct (Z.ltb_spec index 0x1600).
    - pose proof (default_cob_id_range 0x200 (index - 0x1400)). lia.
    - pose proof (default_cob_id_range 0x180 (index - 0x1800)). lia. }
  assert (forall x, 0 <= x < 2 ^ 11 -> Z.land (flags * 2 ^ 11 + x) 0x7FF = x) as Hland.
  { intros x Hx. change 0x7FF with (Z.ones 11). rewrite Z.land_ones by lia.
    rewrite Z.add_comm, Z.mod_add by lia. by apply Z.mod_small. }
  assert (forall x, 0 <= x < 2 ^ 11 -> node_cob_id index node_id (flags * 2 ^ 11 + x)
    = if x =? d then wrap 32 (flags * 2 ^ 11 + x + node_id) else flags * 2 ^ 11 + x) as Hnode.
  { intros x Hx. unfold node_cob_id. rewrite Hland by done. subst d.
    destruct (Z.leb_spec 0x1400 index), (Z.ltb_spec index 0x1600), (Z.leb_spec 0x1800 index),
      (Z.ltb_spec index 0x1A00); cbn [andb]; try done; lia. }
  rewrite !Hnode by lia. rewrite Z.eqb_refl, (proj2 (Z.eqb_neq _ _)) by lia.
  rewrite wrap_small by (unfold in_u; lia). split_and!; lia.
Qed.

(** ** Properties of the command line and the start *)

Section StartProps.
Context `{HP : Platform} `{HO : ODTypes} `{HA : ODAttrs} `{HS : ODSizes} `{FS : FileSystem F}.

(** The name of an interface given with [-i] is copied over the old name without its terminator:
    of an old name that is longer the end is kept, a name of 20 characters leaves the buffer
    without a terminator, and a longer one runs past it. *)
Theorem parse_option_interface old a s :
  wf_cstr old -> wf_cstr a -> zlen old < 20 ->
  can_interface (s_node s) = old ++ replicate (20 - length old) NUL ->
  match parse_option (Opt_i a) s with
  | Ret (inr s') =>
      zlen a <= 20 /\
      c_str (can_interface (s_node s'))
      = (if zlen a <? 20 then Ret (a ++ drop (length a) old) else Undef UbBounds) /\
      node_id (s_node s') = node_id (s_node s) /\ network_manager (s_node s') = network_manager (s_node s)
  | Ret (inl _) => False
  | Undef u => 20 < zlen a /\ u = UbBounds
  end.
Proof.
  intros Hold Ha Hl Hb. unfold parse_option. rewrite Hb. set (b := old ++ _).
  assert (zlen b = 20) as Hb20 by (subst b; unfold zlen in *; rewrite length_app, length_replicate; lia).
  destruct (Z.ltb_spec 20 (zlen a)) as [Hlong|Hfit].
  { rewrite mem_write_oob by lia. done. }
  rewrite mem_write_ok by lia. run. cbn [s_node can_interface node_id network_manager firstn app].
  change (take (Z.to_nat 0) b) with (@nil byte). cbn [app]. change (Z.to_nat 0 + length a)%nat with (length a).
  split; [done|]. split; [|done]. destruct (Z.ltb_spec (zlen a) 20) as [H|H].
  - assert (exists k, drop (length a) b = drop (length a) old ++ NUL :: replicate k NUL) as [k ->].
    { subst b. destruct (decide (length a <= length old)%nat).
      - rewrite drop_app_le by lia. exists (20 - length old - 1)%nat. f_equal.
        destruct (20 - length old)%nat eqn:E; [unfold zlen in *; lia|]. by rewrite Nat.sub_1_r.
      - rewrite drop_app_ge, (drop_ge old), drop_replicate by lia.
        exists (20 - length old - (length a - length old) - 1)%nat.
        destruct (20 - length old - (length a - length old))%nat eqn:E; [unfold zlen in *; lia|].
        by rewrite Nat.sub_1_r. }
    rewrite app_assoc. apply c_str_with_nul. unfold wf_cstr in *. rewrite elem_of_app.
    intros [?|Hin]; [done|]. apply Hold. by eapply subseteq_drop.
  - rewrite drop_ge by (unfold zlen in *; lia). rewrite app_nil_r. unfold c_str.
    by rewrite decide_False.
Qed.

(** The node id given with [-n] in hexadecimal is the node's, for every id. *)
Theorem parse_option_node_id n s :
  0 <= n < 256 ->
  parse_option (Opt_n (print_hex n)) s
  = Ret (inr (mkSettings (mkNode (can_interface (s_node s)) n (network_manager (s_node s)))
                (rtPriority s) (verbose s))).
Proof.
  intros Hn. unfold parse_option. do 4 f_equal. unfold strtol.
  rewrite <- (app_nil_r (print_hex n)), scan_number_hex by (done || lia).
  assert (2 ^ 31 <= 2 ^ (LONG_BITS - 1)) by (apply Z.pow_le_mono_r; pose proof LONG_BITS_range; lia).
  rewrite (proj2 (Z.ltb_ge _ _)) by lia. apply wrap_small. unfold in_u. cbn [fst]. lia.
Qed.

(** On a machine without a node configuration the daemon starts with the defaults and writes them to
    a file.  The same start again reads that file, and makes the node a network manager: the
    daemon then runs without caches and extensions. *)
Theorem second_start fs fs1 home_path node_path :
  get_default_node_config_path 1 home_path 256 = (0, Some node_path) ->
  is_file fs node_path = false -> fs_create fs node_path = inr fs1 ->
  exists fs2, load_node 1 home_path fs = Ret (default_node, fs2) /\
    load_node 1 home_path fs2
    = Ret (mkNode (can_interface default_node) DEFAULT_NODE_ID true, fs2).
Proof.
  intros Hp Hf Hc. unfold load_node. rewrite Hp. cbn [snd]. rewrite Hf.
  destruct (make_node_config_misread fs node_path fs1 default_node Hc) as (fs2 & Hmake & Hload).
  exists fs2. change (@Some bytes node_path) with (@Some path node_path). rewrite Hmake. split; [done|].
  assert (is_file fs2 node_path = true) as ->.
  { unfold is_file. unfold node_config_load in Hload. by destruct (fs_read fs2 node_path). }
  rewrite Hload. done.
Qed.

Lemma fcache_init_fails mutex_size fs (dir : path) r fs1 :
  mkdir_path fs (Some dir) = (r, fs1) -> r < 0 -> fcache_init mutex_size fs dir = Ret (None, fs1).
Proof. intros Hm Hr. unfold fcache_init. by rewrite Hm, (proj2 (Z.ltb_lt _ _)). Qed.

Lemma open_both_null mutex_size p q fs r fs1 w fs2 :
  mkdir_path fs (@Some path p) = (r, fs1) -> r < 0 -> fcache_init mutex_size fs1 q = Ret (w, fs2) ->
  open_both mutex_size (Ret p) (Ret q) fs = Undef UbNull.
Proof.
  intros Hm Hr Hw. unfold open_both. run. rewrite (fcache_init_fails mutex_size fs p r fs1 Hm Hr). run.
  by rewrite Hw.
Qed.

(** When the directory of a cache cannot be made, the daemon logs its path through NULL. *)
Theorem open_caches_null mutex_size home fs r fs1 w fs2 :
  mkdir_path fs (@Some path FREAD_CACHE_ROOT_PATH) = (r, fs1) -> r < 0 ->
  fcache_init mutex_size fs1 FWRITE_CACHE_ROOT_PATH = Ret (w, fs2) ->
  open_caches mutex_size 0 home fs = Undef UbNull.
Proof. apply open_both_null. Qed.
End StartProps.

(** ** Witnesses: the theorems at concrete inputs *)

Lemma emergency_reaches_clients_witness :
  EmergencyRxCallback 0x7C 0x85 0x1000 7 (mkBc true true 1)
    = Ret [[z2b 0; z2b 7; z2b 5] ++ le_bytes 2 0x1000 ++ le_bytes 4 7] /\
  EmergencyRxCallback 0x7C 0 0x1000 7 (mkBc true true 1)
    = Ret [[z2b 0; z2b 7; z2b 0x7C] ++ le_bytes 2 0x1000 ++ le_bytes 4 7].
Proof. apply (emergency_reaches_clients 0x7C 5 0x1000 7 (mkBc true true 1)); by_compute. Defined.

(** A dictionary of indexes with the value of subindex 1. *)
#[export] Instance pair_access : OdAccess (list (Z * option Z)) := {
  od_size od := length od;
  od_index od k := match od !! k with Some (i, _) => i | None => 0 end;
  OD_get_u32 od k s := if s =? 1 then match od !! k with Some (_, v) => v | None => None end else None;
  OD_set_u32 od k s v := if s =? 1 then alter (fun '(i, _) => (i, Some v)) k od else od;
}.

#[export] Instance pair_access_laws : OdAccessLaws (list (Z * option Z)).
Proof.
  split; cbn.
  - intros od e s v. destruct (s =? 1); [|done]. apply length_alter.
  - intros od e s v k. destruct (s =? 1); [|done]. destruct (decide (k = e)) as [->|Hne].
    + rewrite list_lookup_alter_eq. by destruct (od !! e) as [[]|].
    + by rewrite list_lookup_alter_ne by done.
  - intros od e s v old. destruct (s =? 1); [|done]. rewrite list_lookup_alter_eq.
    by destruct (od !! e) as [[]|].
  - intros od e s v e' s' Hne. destruct (Z.eqb_spec s' 1) as [->|]; [|done].
    destruct (Z.eqb_spec s 1) as [->|]; [|done].
    destruct (decide (e' = e)) as [->|]; [done|]. by rewrite list_lookup_alter_ne by done.
Qed.

Definition sample_pdos : list (Z * option Z) :=
  [(0x1000, Some 7); (0x1400, Some 0x80000200); (0x1401, Some 0x181); (0x1600, None); (0x1800, Some 0x180)].

Lemma fix_cob_ids_spec_witness :
  exists od', fix_cob_ids (Some sample_pdos) 0x10 = Ret (Some od') /\
    forall k s, OD_get_u32 od' k s
       = if bool_decide ((k < od_size sample_pdos)%nat /\ s = 1)
         then node_cob_id (od_index sample_pdos k) 0x10 <$> OD_get_u32 sample_pdos k s
         else OD_get_u32 sample_pdos k s.
Proof.
  apply (fix_cob_ids_spec sample_pdos 0x10); [|by_compute].
  intros k Hk. do 5 (destruct k as [|k]; [cbn; by eauto || lia|]). cbn in Hk. lia.
Defined.

Lemma node_cob_id_default_witness :
  node_cob_id 0x1400 0x10 (2 ^ 20 * 2 ^ 11 + 0x200) = 2 ^ 20 * 2 ^ 11 + (0x200 + 0x10) /\
  0x200 + 0x10 < 2 ^ 11 /\
  node_cob_id 0x1400 0x10 (2 ^ 20 * 2 ^ 11 + (0x200 + 0x10)) = 2 ^ 20 * 2 ^ 11 + (0x200 + 0x10).
Proof. apply (node_cob_id_default 0x1400 0x10 (2 ^ 20)); [left|..]; by_compute. Defined.

Lemma parse_option_interface_witness :
  match parse_option (HP := armhf) (Opt_i (cs "vc")) (mkSettings default_node (-1) false) with
  | Ret (inr s') => zlen (cs "vc") <= 20 /\ c_str (can_interface (s_node s')) = Ret (cs "vcn0") /\
      node_id (s_node s') = 0x7C /\ network_manager (s_node s') = false
  | Ret (inl _) => False
  | Undef u => 20 < zlen (cs "vc") /\ u = UbBounds
  end.
Proof.
  apply (parse_option_interface (HP := armhf) (cs "can0") (cs "vc") (mkSettings default_node (-1) false));
    by_compute || by_decide.
Defined.

Lemma parse_option_node_id_witness :
  parse_option (HP := armhf) (Opt_n (print_hex 0x2C)) (mkSettings default_node (-1) false)
  = Ret (inr (mkSettings (mkNode (can_interface default_node) 0x2C false) (-1) false)).
Proof. apply (parse_option_node_id (HP := armhf) 0x2C (mkSettings default_node (-1) false)). by_compute. Defined.

Lemma second_start_witness :
  exists fs2, load_node (HP := armhf) 1 (cs "/n") sample_fs = Ret (default_node, fs2) /\
    load_node (HP := armhf) 1 (cs "/n") fs2 = Ret (mkNode (can_interface default_node) 0x7C true, fs2).
Proof.
  apply (second_start (HP := armhf) sample_fs (<[cs "/n" := NFile []]> sample_fs) (cs "/n") (cs "/n"));
    (by apply mem_fs_create_new) || by_compute.
Defined.

(** A machine where a file is in the place of the directory for the caches. *)
Definition blocked_fs : memfs :=
  <[cs "/var" := NDir]> (<[cs "/var/cache" := NDir]> (<[cs "/var/cache/oresat" := NFile []]> ∅)).

Lemma open_caches_null_witness : open_caches (HP := armhf) 24 0 (cs "/n") blocked_fs = Undef UbNull.
Proof.
  apply (open_caches_null (HP := armhf) 24 (cs "/n") blocked_fs
    (fst (mkdir_path blocked_fs (Some FREAD_CACHE_ROOT_PATH)))
    (snd (mkdir_path blocked_fs (Some FREAD_CACHE_ROOT_PATH))) None
    (snd (mkdir_path (snd (mkdir_path blocked_fs (Some FREAD_CACHE_ROOT_PATH))) (Some FWRITE_CACHE_ROOT_PATH)))).
  - apply surjective_pairing.
  - vm_compute. reflexivity.
  - apply (fcache_init_fails (HP := armhf) 24 _ _
      (fst (mkdir_path (snd (mkdir_path blocked_fs (Some FREAD_CACHE_ROOT_PATH))) (Some FWRITE_CACHE_ROOT_PATH)))).
    + apply surjective_pairing.
    + vm_compute. reflexivity.
Defined.
