(* ===== verification/MainLoop.v ===== *)
(** * src/main.c: the main loop, its threads and the end of the program

    One pass of the outer loop resets the communication and runs the inner loop until a reset
    is asked for or [CO_endProgram] is raised.  What the system and CANopenNode answer is the
    input: a [pass] for one turn of the outer loop, a [tick] for one of the inner loop.  The
    flag [CO_endProgram] is shared with the signal handler and the other threads: an input says
    when one of them has raised it.  Calls that others can see are events. *)

From Stdlib Require Import Strings.Byte.
From Stdlib Require Import Sorting.Sorted.
From S2P Require Import Prelude CLib ODInterface FileSys MemFS System SdoClient Fcache IpcMsg IpcBroadcast IpcConsume IpcRespond Main.

Definition BUS_CHECK_INTERVAL_S : Z := 5.

(** CANopenNode's [CO_NMT_reset_cmd_t], and the values of [CO_ReturnError_t] the code tells
    apart. *)
Inductive reset_cmd := CO_RESET_NOT | CO_RESET_COMM | CO_RESET_APP | CO_RESET_QUIT.
Inductive co_error := CO_ERROR_NO | CO_ERROR_OD_PARAMETERS | CO_ERROR_OTHER.

#[export] Instance reset_cmd_eq_dec : EqDecision reset_cmd.
Proof. solve_decision. Defined.
#[export] Instance co_error_eq_dec : EqDecision co_error.
Proof. solve_decision. Defined.

Inductive thread := rt_thread_id | ipc_responder_thread_id | ipc_consumer_thread_id | ipc_broadcaster_thread_id.

#[export] Instance thread_eq_dec : EqDecision thread.
Proof. solve_decision. Defined.

Inductive log_msg := LogError (what : string) (err : co_error) | LogOdEntry (errInfo : Z)
  | LogErrno (what : string) | LogInfo (what : string).

Inductive event :=
| ECANnormalOff
| ECANmodule_disable
| EErrorReport (errInfo : Z)
| ECallbackEmcy
| ECallbackNmt
| ECallbackHb
| EThread (t : thread)
| ESetNormalMode
| EProcess
| EBusStatus (uptime_s : Z)
| EIpcFree
| EJoin (t : thread)
| EFreeExtensions
| EDelete
| EConfigFree (records : bool)
| ELog (l : log_msg).

(** A turn of the inner loop: the command [CO_epoll_processMain] leaves, the time
    [get_uptime_s] gives, and whether the flag has been raised meanwhile. *)
Record tick := mkTick { t_reset : reset_cmd; t_uptime : Z; t_end : bool }.

(** A turn of the outer loop. *)
Record pass := mkPass {
  p_can_init : co_error;
  p_canopen_init : co_error;
  p_errInfo : Z;
  p_unconfigured : bool;
  p_create : thread -> bool;
  p_setsched : bool;
  p_init_pdo : co_error;
  p_pdo_errInfo : Z;
  p_end : bool;
  p_ticks : list tick;
}.

(** The variables of [main] (and [last_check], static) the loop changes; [ids] holds the thread
    identifiers [pthread_create] has written. *)
Record main_state := mkMain {
  firstRun : bool;
  reset : reset_cmd;
  CO_endProgram : bool;
  programExit : Z;
  last_check : Z;
  ids : list thread;
}.

(** The state in which the loop starts. *)
Definition main_start : main_state := mkMain true CO_RESET_NOT false EXIT_SUCCESS 0 [].

Definition set_firstRun (b : bool) (st : main_state) : main_state :=
  mkMain b (reset st) (CO_endProgram st) (programExit st) (last_check st) (ids st).
Definition set_reset_cmd (r : reset_cmd) (st : main_state) : main_state :=
  mkMain (firstRun st) r (CO_endProgram st) (programExit st) (last_check st) (ids st).
Definition raise_end (b : bool) (st : main_state) : main_state :=
  mkMain (firstRun st) (reset st) (CO_endProgram st || b) (programExit st) (last_check st) (ids st).
Definition set_last_check (t : Z) (st : main_state) : main_state :=
  mkMain (firstRun st) (reset st) (CO_endProgram st) (programExit st) t (ids st).
Definition add_id (t : thread) (st : main_state) : main_state :=
  mkMain (firstRun st) (reset st) (CO_endProgram st) (programExit st) (last_check st) (ids st ++ [t]).

(** A part of a pass: the state, what others see, and whether the pass goes on; a [continue] in
    the code ends it. *)
Definition step_result : Type := main_state * list event * bool.

Definition go_on (ev : list event) (st : main_state) : step_result := (st, ev, true).

Definition and_then (r : step_result) (k : main_state -> step_result) : step_result :=
  let '(st, ev, go) := r in
  if go then let '(st, ev', go) := k st in (st, ev ++ ev', go) else (st, ev, false).

(** The three statements before a [continue]. *)
Definition fail_exit (l : log_msg) (st : main_state) : step_result :=
  (mkMain (firstRun st) (reset st) true EXIT_FAILURE (last_check st) (ids st), [ELog l], false).

Definition init_log (what : string) (err : co_error) (errInfo : Z) : log_msg :=
  if decide (err = CO_ERROR_OD_PARAMETERS) then LogOdEntry errInfo else LogError what err.

(** [pthread_create] of one thread. *)
Definition create (t : thread) (name : string) (p : pass) (st : main_state) : step_result :=
  if p_create p t then go_on [EThread t] (add_id t st) else fail_exit (LogErrno name) st.

Section MainLoop.
(** [rtPriority], and the numbers of the configuration the loop tests. *)
Context (rtPriority CNT_EM CNT_HB_CONS : Z).

(** The threads, started in the first pass. *)
Definition start_threads (p : pass) (st : main_state) : step_result :=
  if negb (firstRun st) then go_on [] st
  else
    and_then (create rt_thread_id "pthread_create(rt_thread)" p (set_firstRun false st)) (fun st =>
    if (rtPriority >? 0) && negb (p_setsched p) then fail_exit (LogErrno "pthread_setschedparam()") st
    else
      and_then (create ipc_responder_thread_id "pthread_create(ipc_responder_thread)" p st) (fun st =>
      and_then (create ipc_consumer_thread_id "pthread_create(ipc_consumer_thread)" p st)
        (create ipc_broadcaster_thread_id "pthread_create(ipc_broadcaster_thread)" p))).

(** The callbacks of a node with an identifier. *)
Definition register_callbacks (p : pass) : list event :=
  if p_unconfigured p then [ELog (LogInfo "node-id not initialized")]
  else (if negb (p_errInfo p =? 0) then [EErrorReport (p_errInfo p)] else [])
    ++ (if negb (CNT_EM =? 0) then [ECallbackEmcy] else [])
    ++ [ECallbackNmt]
    ++ (if negb (CNT_HB_CONS =? 0) then [ECallbackHb] else [])
    ++ [ELog (LogInfo "communication reset")].

(** Up to the callbacks: configuration mode, [CO_CANinit] and [CO_CANopenInit]. *)
Definition init_canopen (p : pass) (st : main_state) : step_result :=
  let ev := (if negb (firstRun st) then [ECANnormalOff] else []) ++ [ECANmodule_disable] in
  and_then (go_on ev st) (fun st =>
  if decide (p_can_init p <> CO_ERROR_NO) then fail_exit (LogError "CO_CANinit()" (p_can_init p)) st
  else if decide (p_canopen_init p <> CO_ERROR_NO)
  then fail_exit (init_log "CO_CANopenInit()" (p_canopen_init p) (p_errInfo p)) st
  else go_on (register_callbacks p) st).

Definition init_pdo (p : pass) (st : main_state) : step_result :=
  if decide (p_init_pdo p <> CO_ERROR_NO)
  then fail_exit (init_log "CO_CANopenInitPDO()" (p_init_pdo p) (p_pdo_errInfo p)) st
  else go_on [ESetNormalMode; ELog (LogInfo "running ...")] (set_reset_cmd CO_RESET_NOT st).

(** A pass up to its inner loop. *)
Definition comm_reset (p : pass) (st : main_state) : step_result :=
  and_then (init_canopen p st) (fun st => and_then (start_threads p st) (init_pdo p)).

(** The bus status is checked every [BUS_CHECK_INTERVAL_S] seconds. *)
Definition bus_check (uptime_s : Z) (st : main_state) : main_state * list event :=
  if uptime_s >? wrap 32 (last_check st + BUS_CHECK_INTERVAL_S)
  then (set_last_check uptime_s st, [EBusStatus uptime_s]) else (st, []).

Definition run_tick (t : tick) (st : main_state) : main_state * list event :=
  let '(st, ev) := bus_check (t_uptime t) (set_reset_cmd (t_reset t) st) in
  (raise_end (t_end t) st, EProcess :: ev).

(** The loops stop at the end of their input when nothing has ended them: the last component
    says whether the loop was done_. *)
Fixpoint inner_loop (ticks : list tick) (st : main_state) : main_state * list event * bool :=
  if bool_decide (reset st = CO_RESET_NOT) && negb (CO_endProgram st) then
    match ticks with
    | [] => (st, [], false)
    | t :: ticks =>
        let '(st, ev) := run_tick t st in
        let '(st, ev', done_) := inner_loop ticks st in (st, ev ++ ev', done_)
    end
  else (st, [], true).

(** The condition of the outer loop. *)
Definition looping (st : main_state) : bool :=
  negb (bool_decide (reset st = CO_RESET_APP)) && negb (bool_decide (reset st = CO_RESET_QUIT))
  && negb (CO_endProgram st).

(** One pass; [continue] goes back to the condition of the outer loop. *)
Definition run_pass (p : pass) (st : main_state) : main_state * list event * bool :=
  let '(st, ev, go) := comm_reset p st in
  if go then
    let '(st, ev', done_) := inner_loop (p_ticks p) (raise_end (p_end p) st) in (st, ev ++ ev', done_)
  else (st, ev, true).

Fixpoint main_loop (passes : list pass) (st : main_state) : main_state * list event * bool :=
  if looping st then
    match passes with
    | [] => (st, [], false)
    | p :: passes =>
        let '(st, ev, done_) := run_pass p st in
        if done_ then let '(st, ev', done_) := main_loop passes st in (st, ev ++ ev', done_)
        else (st, ev, false)
    end
  else (st, [], true).
End MainLoop.

(** ** Before the loop *)

(** The calls between the dictionary and the caches; the program exits at the first that fails. *)
Inductive start_call := SCONew | SSignalInt | SSignalTerm | SEpollMain | SEpollRt.

Fixpoint start_calls (ok : start_call -> bool) (l : list start_call) : option Z * list start_call :=
  match l with
  | [] => (None, [])
  | c :: l =>
      if ok c then let '(r, done_) := start_calls ok l in (r, c :: done_) else (Some EXIT_FAILURE, [c])
  end.

(** The exit status, if the program ends here, and the calls made. *)
Definition start_up (ok : start_call -> bool) : option Z * list start_call :=
  start_calls ok [SCONew; SSignalInt; SSignalTerm; SEpollMain; SEpollRt].

(** ** The end of the program *)

(** The threads in the order they are joined. *)
Definition all_threads : list thread :=
  [rt_thread_id; ipc_responder_thread_id; ipc_consumer_thread_id; ipc_broadcaster_thread_id].

(** [pthread_join] with an identifier [pthread_create] has not written has no defined
    behaviour; [inl] is a call of [exit]. *)
Fixpoint join_threads (join_ok : thread -> bool) (l ids : list thread) : res (Z * list event + list event) :=
  match l with
  | [] => Ret (inr [])
  | t :: l =>
      if decide (t ∈ ids) then
        if join_ok t then
          r ← join_threads join_ok l ids;
          mret (match r with
                | inl (code, ev) => inl (code, EJoin t :: ev)
                | inr ev => inr (EJoin t :: ev)
                end)
        else Ret (inl (EXIT_FAILURE, [ELog (LogErrno "pthread_join()")]))
      else Undef UbUninit
  end.

(** From the end of the loop to [exit]: its argument and the events. *)
Definition shutdown (network_manager_node loaded_od_conf od : bool) (join_ok : thread -> bool) (st : main_state)
  : res (Z * list event) :=
  r ← join_threads join_ok all_threads (ids st);
  match r with
  | inl (code, ev) => mret (code, EIpcFree :: ev)
  | inr ev =>
      mret (programExit st,
            EIpcFree :: ev
            ++ (if negb network_manager_node then [EFreeExtensions] else [])
            ++ [EDelete]
            ++ (if loaded_od_conf && od then [EConfigFree (negb network_manager_node)] else [])
            ++ [ELog (LogInfo "finished")])
  end.

(** The loop and the end; [None] when the input leaves the program running. *)
Definition run_main (rtPriority CNT_EM CNT_HB_CONS : Z) (network_manager_node loaded_od_conf od : bool)
    (join_ok : thread -> bool) (passes : list pass) : res (option (Z * list event)) :=
  let '(st, ev, done_) := main_loop rtPriority CNT_EM CNT_HB_CONS passes main_start in
  if done_ then
    '(code, ev') ← shutdown network_manager_node loaded_od_conf od join_ok st;
    mret (Some (code, ev ++ ev'))
  else mret None.

(** ** The threads *)

Section Threads.
Context `{HZ : ZmqEvents} `{FS : FileSystem F} `{HP : Platform} `{CE : CopyEnv} `{HS : SdoOps D F}.

(** [ipc_responder_thread]: a request is the three frames; the flag is tested before each. *)
Fixpoint ipc_responder_thread (l : list (bool * (option bytes * option bytes * option bytes)))
    (st : responder D F) : res (list (list bytes) * responder D F) :=
  match l with
  | [] => Ret ([], st)
  | (ended, (f1, f2, f3)) :: l =>
      if (ended : bool) then Ret ([], st)
      else
        '(sent, st) ← ipc_respond_process true true f1 f2 f3 st;
        '(rest, st) ← ipc_responder_thread l st;
        mret (sent :: rest, st)
  end.

(** [ipc_broadcaster_thread]: an event is what [zmq_msg_recv] delivers. *)
Fixpoint ipc_broadcaster_thread (l : list (bool * option bytes)) (st : bc_state) : res bc_state :=
  match l with
  | [] => Ret st
  | (ended, msg) :: l =>
      if (ended : bool) then Ret st else st ← ipc_broadcast_process msg st; ipc_broadcaster_thread l st
  end.

(** What the consumer's thread gets: a message, the number of clients connected when it
    comes, [errno] and whether another thread has raised the flag. *)
Record consumer_input := mkIn { i_msg : option bytes; i_clients : Z; i_errno : Z; i_ended : bool }.

(** [ipc_consumer_thread]: it raises the flag when a message has asked for a reset.  The last
    components are the flag and the messages it has not taken. *)
Fixpoint ipc_consumer_thread (base_config config : CO_config) (crc32 : bytes -> Z) (od_path : path)
    (l : list consumer_input) (endProgram : bool) (st : consumer F)
  : res (consumer F * list co_event * bool * list consumer_input) :=
  match l with
  | [] => Ret (st, [], endProgram, [])
  | i :: l' =>
      if endProgram || i_ended i then Ret (st, [], true, l)
      else
        '(st, ev) ← ipc_consume_process true (i_msg i) (i_clients i) base_config config crc32 (i_errno i) od_path st;
        '(st, ev', e, rest) ← ipc_consumer_thread base_config config crc32 od_path l' (c_reset st) st;
        mret (st, ev ++ ev', e, rest)
  end.
End Threads.

(** ** What a run leaves behind *)

(** The threads created, the bus statuses sent and the failures logged, in order. *)
Definition created (l : list event) : list thread :=
  omap (fun e => match e with EThread t => Some t | _ => None end) l.
Definition statuses (l : list event) : list Z :=
  omap (fun e => match e with EBusStatus u => Some u | _ => None end) l.
Definition is_failure (e : event) : bool :=
  match e with ELog (LogInfo _) => false | ELog _ => true | _ => false end.

(** The exit status after the events, when it was [code] before them. *)
Definition exit_of (l : list event) (code : Z) : Z := if existsb is_failure l then EXIT_FAILURE else code.

(** More than [BUS_CHECK_INTERVAL_S] between two of the times, and after [t]. *)
Fixpoint spaced (t : Z) (l : list Z) : Prop :=
  match l with [] => True | u :: l => t + BUS_CHECK_INTERVAL_S < u /\ spaced u l end.

Definition last_of (t : Z) (l : list Z) : Z := default t (list.last l).

(** The times fit 32 bits, five seconds and more before the counter wraps. *)
Definition uptime_ok (t : Z) : Prop := 0 <= t < 2 ^ 32 - BUS_CHECK_INTERVAL_S.
Definition uptimes_ok (p : pass) : Prop := Forall (fun t => uptime_ok (t_uptime t)) (p_ticks p).

(** What the events say of a change of the state. *)
Record effect (st : main_state) (ev : list event) (st' : main_state) : Prop := {
  effect_ids : ids st' = ids st ++ created ev;
  effect_exit : programExit st' = exit_of ev (programExit st);
  effect_last : last_check st' = last_of (last_check st) (statuses ev);
  effect_mono : CO_endProgram st = true -> CO_endProgram st' = true;
  effect_end : existsb is_failure ev = true -> CO_endProgram st' = true;
}.

Lemma created_app l k : created (l ++ k) = created l ++ created k.
Proof. apply omap_app. Qed.

Lemma statuses_app l k : statuses (l ++ k) = statuses l ++ statuses k.
Proof. apply omap_app. Qed.

Lemma last_of_app t l k : last_of t (l ++ k) = last_of (last_of t l) k.
Proof. unfold last_of. rewrite last_app. by destruct (list.last k). Qed.

Lemma spaced_app t l k : spaced t (l ++ k) <-> spaced t l /\ spaced (last_of t l) k.
Proof.
  revert t. induction l as [|u l IH]; intros t; simpl; [tauto|]. rewrite IH.
  enough (last_of t (u :: l) = last_of u l) as -> by tauto.
  change (u :: l) with ([u] ++ l). by rewrite last_of_app.
Qed.

Lemma exit_of_app l k c : exit_of (l ++ k) c = exit_of k (exit_of l c).
Proof. unfold exit_of. rewrite existsb_app. by destruct (existsb _ k), (existsb _ l). Qed.

Lemma effect_trans st1 ev1 st2 ev2 st3 :
  effect st1 ev1 st2 -> effect st2 ev2 st3 -> effect st1 (ev1 ++ ev2) st3.
Proof.
  intros [H1 H2 H3 Hm H4] [K1 K2 K3 Km K4]. split.
  - by rewrite K1, H1, created_app, app_assoc.
  - by rewrite K2, H2, exit_of_app.
  - by rewrite K3, H3, statuses_app, last_of_app.
  - auto.
  - rewrite existsb_app. intros [?|?]%orb_true_iff; auto.
Qed.

Lemma effect_refl st : effect st [] st.
Proof. split; [by rewrite app_nil_r|done..]. Qed.

(** The state, the events and the flag of a part of a pass. *)
Definition effects (st : main_state) (r : step_result) : Prop := effect st r.1.2 r.1.1.

Create HintDb main.

Lemma go_on_effects ev st : created ev = [] -> existsb is_failure ev = false -> statuses ev = [] -> effects st (go_on ev st).
Proof.
  intros Hc Hf Hs. split; cbn [go_on fst snd].
  - by rewrite Hc, app_nil_r.
  - unfold exit_of. by rewrite Hf.
  - by rewrite Hs.
  - done.
  - by rewrite Hf.
Qed.

Lemma fail_exit_effects l st : is_failure (ELog l) = true -> effects st (fail_exit l st).
Proof.
  intros Hf. split; cbn [fst snd fail_exit ids programExit last_check CO_endProgram].
  - by rewrite app_nil_r.
  - unfold exit_of. cbn [existsb]. by rewrite Hf.
  - done.
  - done.
  - done.
Qed.

Lemma and_then_effects st r k :
  effects st r -> (forall st', effects st' (k st')) -> effects st (and_then r k).
Proof.
  destruct r as [[st1 ev] go]. unfold effects, and_then. cbn [fst snd]. intros H Hk.
  destruct go; [|done]. specialize (Hk st1). destruct (k st1) as [[st2 ev2] go2]. by eapply effect_trans.
Qed.

Lemma create_effects t name p st : effects st (create t name p st).
Proof. unfold create. destruct (p_create p t); [by split|by apply fail_exit_effects]. Qed.

Lemma set_firstRun_effects st r : effects (set_firstRun false st) r -> effects st r.
Proof. intros [H1 H2 H3 H4]. by split. Qed.

Lemma init_log_failure what err n : is_failure (ELog (init_log what err n)) = true.
Proof. unfold init_log. by case_decide. Qed.

#[export] Hint Resolve go_on_effects fail_exit_effects and_then_effects create_effects set_firstRun_effects
  init_log_failure : main.

Section LoopProps.
Context (rtPriority CNT_EM CNT_HB_CONS : Z).

Lemma start_threads_effects p st : effects st (start_threads rtPriority p st).
Proof.
  unfold start_threads. destruct (negb _); [by apply go_on_effects|].
  apply and_then_effects; [apply set_firstRun_effects; auto with main|intros st1].
  case_match; auto with main.
Qed.

Lemma register_callbacks_quiet p :
  let ev := register_callbacks CNT_EM CNT_HB_CONS p in
  created ev = [] /\ existsb is_failure ev = false /\ statuses ev = [].
Proof. cbv zeta. unfold register_callbacks. destruct (p_unconfigured p), (p_errInfo p =? 0), (CNT_EM =? 0), (CNT_HB_CONS =? 0); done. Qed.

Lemma init_canopen_effects p st : effects st (init_canopen CNT_EM CNT_HB_CONS p st).
Proof.
  unfold init_canopen. apply and_then_effects.
  - by apply go_on_effects; destruct (firstRun st).
  - intros st1. case_decide; [by apply fail_exit_effects|]. case_decide; [auto with main|].
    destruct (register_callbacks_quiet p) as (? & ? & ?). by apply go_on_effects.
Qed.

Lemma init_pdo_effects p st : effects st (init_pdo p st).
Proof. unfold init_pdo. case_decide; [auto with main|]. split; [by rewrite app_nil_r|done..]. Qed.
#[local] Hint Resolve start_threads_effects init_canopen_effects init_pdo_effects : main.

Lemma comm_reset_effects p st : effects st (comm_reset rtPriority CNT_EM CNT_HB_CONS p st).
Proof. unfold comm_reset. eauto with main. Qed.

Lemma raise_end_effect b st : effect st [] (raise_end b st).
Proof. split; [by rewrite app_nil_r|done..| |done]. cbn. by intros ->. Qed.

Lemma run_tick_effect t st : effect st (run_tick t st).2 (run_tick t st).1.
Proof.
  unfold run_tick, bus_check. destruct (_ >? _); cbn [fst snd]; (split; [by rewrite app_nil_r|done|done| |done]).
  all: cbn; by intros ->.
Qed.

Lemma inner_loop_effects ticks st : effects st (inner_loop ticks st).
Proof.
  revert st. induction ticks as [|t ticks IH]; intros st; cbn [inner_loop]; case_match; try apply effect_refl.
  pose proof (run_tick_effect t st) as H1. destruct (run_tick t st) as [st1 ev1]. cbn [fst snd] in H1.
  specialize (IH st1). unfold effects in *. destruct (inner_loop ticks st1) as [[st2 ev2] b].
  by eapply effect_trans.
Qed.

Lemma run_pass_effects p st : effects st (run_pass rtPriority CNT_EM CNT_HB_CONS p st).
Proof.
  unfold run_pass. pose proof (comm_reset_effects p st) as H. unfold effects in *.
  destruct (comm_reset _ _ _ p st) as [[st1 ev1] go]. destruct go; [|done].
  pose proof (inner_loop_effects (p_ticks p) (raise_end (p_end p) st1)) as H2. unfold effects in *.
  destruct (inner_loop _ _) as [[st2 ev2] b]. eapply effect_trans; [done|].
  eapply (effect_trans _ [] _ ev2); [apply raise_end_effect|done].
Qed.

Lemma main_loop_effects ps st : effects st (main_loop rtPriority CNT_EM CNT_HB_CONS ps st).
Proof.
  revert st. induction ps as [|p ps IH]; intros st; cbn [main_loop]; case_match; try apply effect_refl.
  pose proof (run_pass_effects p st) as H1. unfold effects in *.
  destruct (run_pass _ _ _ p st) as [[st1 ev1] go]. destruct go; [|done]. specialize (IH st1).
  destruct (main_loop _ _ _ ps st1) as [[st2 ev2] b]. by eapply effect_trans.
Qed.

(** A property of the state every part of a pass keeps. *)
Lemma and_then_keeps (P : main_state -> Prop) r k :
  P r.1.1 -> (forall st, P st -> P (k st).1.1) -> P (and_then r k).1.1.
Proof.
  destruct r as [[st ev] go]. cbn [fst snd]. intros H Hk. unfold and_then. destruct go; [|done].
  specialize (Hk st H). by destruct (k st) as [[st2 ev2] go2].
Qed.

(** Once the first pass has begun, no thread is created any more. *)
Definition settled (l : list thread) (st : main_state) : Prop := firstRun st = false /\ ids st = l.

Lemma comm_reset_settled l p st :
  settled l st -> settled l (comm_reset rtPriority CNT_EM CNT_HB_CONS p st).1.1.
Proof.
  intros H. unfold comm_reset. apply and_then_keeps.
  - unfold init_canopen. apply and_then_keeps; [done|]. intros st1 H1. by repeat case_decide.
  - intros st1 H1. apply and_then_keeps.
    + unfold start_threads. by rewrite (proj1 H1).
    + intros st2 H2. unfold init_pdo. by case_decide.
Qed.

Lemma inner_loop_settled l ticks st : settled l st -> settled l (inner_loop ticks st).1.1.
Proof.
  revert st. induction ticks as [|t ticks IH]; intros st H; cbn [inner_loop]; case_match; [done..| |done].
  assert (settled l (run_tick t st).1) as H1.
  { unfold run_tick, bus_check. by destruct (_ >? _). }
  destruct (run_tick t st) as [st1 ev1]. specialize (IH st1 H1).
  by destruct (inner_loop ticks st1) as [[st2 ev2] b].
Qed.

Lemma run_pass_settled l p st :
  settled l (comm_reset rtPriority CNT_EM CNT_HB_CONS p st).1.1 ->
  settled l (run_pass rtPriority CNT_EM CNT_HB_CONS p st).1.1.
Proof.
  unfold run_pass. destruct (comm_reset _ _ _ p st) as [[st1 ev1] go]. cbn [fst snd].
  intros H. destruct go; [|done].
  pose proof (inner_loop_settled l (p_ticks p) (raise_end (p_end p) st1) H) as H2.
  by destruct (inner_loop _ _) as [[st2 ev2] b].
Qed.

Lemma main_loop_settled l ps st :
  settled l st -> settled l (main_loop rtPriority CNT_EM CNT_HB_CONS ps st).1.1.
Proof.
  revert st. induction ps as [|p ps IH]; intros st H; cbn [main_loop]; case_match; [done..| |done].
  pose proof (run_pass_settled l p st (comm_reset_settled l p st H)) as H1.
  destruct (run_pass _ _ _ p st) as [[st1 ev1] go]. destruct go; [|done]. specialize (IH st1 H1).
  by destruct (main_loop _ _ _ ps st1) as [[st2 ev2] b].
Qed.

(** The first pass starts every thread. *)
Definition starts (p : pass) : bool :=
  bool_decide (p_can_init p = CO_ERROR_NO) && bool_decide (p_canopen_init p = CO_ERROR_NO)
  && forallb (p_create p) all_threads && ((rtPriority <=? 0) || p_setsched p).

Ltac not_started :=
  cbn; split_and!; [done | done | first [apply prefix_nil | by eexists]
    | cbn; rewrite ?elem_of_cons, ?elem_of_nil; intuition congruence].

Lemma init_canopen_spec p st :
  p_can_init p = CO_ERROR_NO -> p_canopen_init p = CO_ERROR_NO ->
  exists ev, init_canopen CNT_EM CNT_HB_CONS p st = (st, ev, true).
Proof.
  intros H1 H2. unfold init_canopen, and_then, go_on. cbn beta iota. rewrite !decide_False by (by intros []). by eexists.
Qed.

Lemma init_canopen_fails p st :
  p_can_init p <> CO_ERROR_NO \/ p_canopen_init p <> CO_ERROR_NO ->
  exists ev, init_canopen CNT_EM CNT_HB_CONS p st
    = (mkMain (firstRun st) (reset st) true EXIT_FAILURE (last_check st) (ids st), ev, false).
Proof.
  intros H. unfold init_canopen, and_then, go_on. cbn beta iota. case_decide; [by eexists|]. rewrite decide_True by tauto. by eexists.
Qed.

Lemma start_threads_first p :
  let r := start_threads rtPriority p main_start in
  if forallb (p_create p) all_threads && ((rtPriority <=? 0) || p_setsched p)
  then settled all_threads r.1.1 /\ r.2 = true
  else r.2 = false /\ CO_endProgram r.1.1 = true /\ ids r.1.1 `prefix_of` all_threads
       /\ ipc_broadcaster_thread_id ∉ ids r.1.1.
Proof.
  unfold start_threads, create. cbn [forallb all_threads]. rewrite Z.leb_antisym, Z.gtb_ltb.
  destruct (p_create p rt_thread_id); cbn; [|not_started].
  destruct (0 <? rtPriority), (p_setsched p); cbn; rewrite ?andb_false_r; try not_started.
  all: destruct (p_create p ipc_responder_thread_id); cbn; [|not_started].
  all: destruct (p_create p ipc_consumer_thread_id); cbn; [|not_started].
  all: by destruct (p_create p ipc_broadcaster_thread_id); cbn; [|not_started].
Qed.

Lemma comm_reset_first p :
  let r := comm_reset rtPriority CNT_EM CNT_HB_CONS p main_start in
  if starts p then settled all_threads r.1.1
  else r.2 = false /\ CO_endProgram r.1.1 = true /\ ids r.1.1 `prefix_of` all_threads
       /\ ipc_broadcaster_thread_id ∉ ids r.1.1.
Proof.
  unfold comm_reset, starts.
  destruct (decide (p_can_init p = CO_ERROR_NO /\ p_canopen_init p = CO_ERROR_NO)) as [[H1 H2]|H].
  - rewrite !bool_decide_true by done. destruct (init_canopen_spec p main_start H1 H2) as [ev ->].
    cbn [andb and_then]. pose proof (start_threads_first p) as H3. cbv zeta in H3.
    destruct (start_threads _ p main_start) as [[st2 ev2] go]. cbn [fst snd] in H3. destruct (_ && _).
    + destruct H3 as [H3 ->]. cbn [and_then]. unfold init_pdo. by case_decide.
    + destruct H3 as (-> & ? & ? & ?). done.
  - destruct (init_canopen_fails p main_start) as [ev ->].
    { destruct (decide (p_can_init p = CO_ERROR_NO)); tauto. }
    assert (bool_decide (p_can_init p = CO_ERROR_NO) && bool_decide (p_canopen_init p = CO_ERROR_NO) = false) as ->.
    { apply andb_false_iff. rewrite !bool_decide_eq_false. destruct (decide (p_can_init p = CO_ERROR_NO)); tauto. }
    not_started.
Qed.

Lemma main_loop_first p ps :
  let r := main_loop rtPriority CNT_EM CNT_HB_CONS (p :: ps) main_start in
  if starts p then ids r.1.1 = all_threads
  else r.2 = true /\ ids r.1.1 `prefix_of` all_threads /\ ipc_broadcaster_thread_id ∉ ids r.1.1.
Proof.
  pose proof (comm_reset_first p) as H1. pose proof (run_pass_settled all_threads p main_start) as H2.
  unfold run_pass in H2. cbn [main_loop]. change (looping main_start) with true. cbv iota. unfold run_pass.
  destruct (comm_reset _ _ _ p main_start) as [[st1 ev1] go]. cbn [fst snd] in *. destruct (starts p).
  - specialize (H2 H1).
    assert (forall st ev, settled all_threads st ->
      let r := let '(st3, ev3, b) := main_loop rtPriority CNT_EM CNT_HB_CONS ps st in (st3, ev ++ ev3, b) in
      ids r.1.1 = all_threads) as Hrest.
    { intros st ev [_ H3]%(main_loop_settled _ ps).
      by destruct (main_loop rtPriority CNT_EM CNT_HB_CONS ps st) as [[st3 ev3] b]. }
    destruct go; [|by apply Hrest].
    destruct (inner_loop _ _) as [[st2 ev2] b]. destruct b; [by apply Hrest|]. apply H2.
  - destruct H1 as (-> & Hend & Hpre & Hnot).
    assert (looping st1 = false) as Hl by (unfold looping; rewrite Hend; apply andb_false_r).
    destruct ps; cbn [main_loop]; rewrite Hl; done.
Qed.

(** Every thread is started at most once, in the order of the code, however many passes there
    are; when the first pass started all of them they are all there. *)
Theorem threads_started_once ps :
  let r := main_loop rtPriority CNT_EM CNT_HB_CONS ps main_start in
  created r.1.2 `prefix_of` all_threads /\
  (forall p ps', ps = p :: ps' -> starts p = true -> created r.1.2 = all_threads).
Proof.
  intros r. pose proof (effect_ids _ _ _ (main_loop_effects ps main_start)) as Hids.
  fold r in Hids. cbn [ids main_start app] in Hids. rewrite <- Hids.
  destruct ps as [|p ps]; [by split; [apply prefix_nil|]|].
  pose proof (main_loop_first p ps) as H. cbv zeta in H. fold r in H. destruct (starts p) eqn:Hs.
  - by rewrite H.
  - split; [tauto|]. intros ? ? [= <- <-]. congruence.
Qed.

(** *** The bus status *)

Lemma bus_check_spaced u st :
  uptime_ok u -> uptime_ok (last_check st) -> spaced (last_check st) (statuses (bus_check u st).2).
Proof.
  unfold uptime_ok, BUS_CHECK_INTERVAL_S. intros Hu Hl. unfold bus_check, BUS_CHECK_INTERVAL_S.
  rewrite wrap_small by (unfold in_u; lia). destruct (Z.gtb_spec u (last_check st + 5)); [|done].
  split; [unfold BUS_CHECK_INTERVAL_S; lia|done].
Qed.

Lemma run_tick_spaced t st :
  uptime_ok (t_uptime t) -> uptime_ok (last_check st) ->
  spaced (last_check st) (statuses (run_tick t st).2) /\ uptime_ok (last_check (run_tick t st).1).
Proof.
  intros Hu Hl. pose proof (bus_check_spaced (t_uptime t) (set_reset_cmd (t_reset t) st) Hu Hl) as H.
  unfold run_tick. destruct (bus_check _ _) as [st1 ev] eqn:E. cbn [fst snd] in *. split; [exact H|].
  unfold bus_check in E. destruct (_ >? _); by simplify_eq.
Qed.

(** Parts of a run one after the other. *)
Definition spaced_part (st : main_state) (ev : list event) (st' : main_state) : Prop :=
  spaced (last_check st) (statuses ev) /\ uptime_ok (last_check st').

Lemma spaced_trans st1 ev1 st2 ev2 st3 :
  effect st1 ev1 st2 -> spaced_part st1 ev1 st2 -> spaced_part st2 ev2 st3 -> spaced_part st1 (ev1 ++ ev2) st3.
Proof.
  intros He [H1 _] [H2 H3]. split; [|done]. rewrite statuses_app, spaced_app.
  by rewrite <- (effect_last _ _ _ He).
Qed.

Lemma inner_loop_spaced ticks st :
  Forall (fun t => uptime_ok (t_uptime t)) ticks -> uptime_ok (last_check st) ->
  let r := inner_loop ticks st in spaced_part st r.1.2 r.1.1.
Proof.
  revert st. induction ticks as [|t ticks IH]; intros st Ht Hl; cbn [inner_loop]; case_match; [done..| |done].
  apply list.Forall_cons in Ht as [Hu Ht].
  pose proof (run_tick_effect t st) as He. pose proof (run_tick_spaced t st Hu Hl) as Hs.
  destruct (run_tick t st) as [st1 ev1]. cbn [fst snd] in *. specialize (IH st1 Ht (proj2 Hs)). cbv zeta in IH.
  destruct (inner_loop ticks st1) as [[st2 ev2] b]. cbn [fst snd] in *. by eapply spaced_trans.
Qed.

(** Resetting the communication sends no status. *)
Lemma comm_reset_statuses p st : statuses (comm_reset rtPriority CNT_EM CNT_HB_CONS p st).1.2 = [].
Proof.
  assert (forall r k, statuses r.1.2 = [] -> (forall st, statuses (k st).1.2 = []) -> statuses (and_then r k).1.2 = [])
    as Hthen.
  { intros [[st1 ev] go] k Hr Hk. unfold and_then. destruct go; [|done]. specialize (Hk st1).
    destruct (k st1) as [[st2 ev2] go2]. cbn [fst snd] in *. by rewrite statuses_app, Hr, Hk. }
  unfold comm_reset. apply Hthen; [|intros st1; apply Hthen].
  - unfold init_canopen. apply Hthen; [by destruct (firstRun st)|]. intros st1.
    case_decide; [done|]. case_decide; [done|]. apply register_callbacks_quiet.
  - unfold start_threads. case_match; [done|]. unfold create. apply Hthen; [by case_match|]. intros st2.
    case_match; [done|]. apply Hthen; [by case_match|]. intros st3. apply Hthen; [by case_match|].
    intros st4. by case_match.
  - intros st2. unfold init_pdo. by case_decide.
Qed.

Lemma run_pass_spaced p st :
  uptimes_ok p -> uptime_ok (last_check st) ->
  let r := run_pass rtPriority CNT_EM CNT_HB_CONS p st in spaced_part st r.1.2 r.1.1.
Proof.
  intros Hp Hl. unfold run_pass. pose proof (comm_reset_effects p st) as He. unfold effects in He.
  pose proof (comm_reset_statuses p st) as Hs. destruct (comm_reset _ _ _ p st) as [[st1 ev1] go].
  cbn [fst snd] in *. pose proof (effect_last _ _ _ He) as Hl1. rewrite Hs in Hl1. cbn in Hl1.
  assert (spaced_part st ev1 st1) as H1 by (split; [by rewrite Hs|by rewrite Hl1]).
  destruct go; [|done]. pose proof (inner_loop_spaced (p_ticks p) (raise_end (p_end p) st1) Hp (proj2 H1)) as H2.
  cbv zeta in H2. destruct (inner_loop _ _) as [[st2 ev2] b]. by eapply spaced_trans.
Qed.

(** C27: the bus status is never broadcast twice within [BUS_CHECK_INTERVAL_S] seconds, over all
    communication resets, nor in the first five seconds, as long as the uptime stays five seconds
    below 2^32. *)
Theorem bus_status_spaced ps :
  Forall uptimes_ok ps -> spaced 0 (statuses (main_loop rtPriority CNT_EM CNT_HB_CONS ps main_start).1.2).
Proof.
  intros Hps. change 0 with (last_check main_start).
  assert (uptime_ok (last_check main_start)) as Hl by done. revert Hl. generalize main_start.
  induction ps as [|p ps IH]; intros st Hl; cbn [main_loop]; case_match; try done.
  apply list.Forall_cons in Hps as [Hp Hps].
  pose proof (run_pass_effects p st) as He. pose proof (run_pass_spaced p st Hp Hl) as Hs. unfold effects in He.
  cbv zeta in Hs. destruct (run_pass _ _ _ p st) as [[st1 ev1] go]. cbn [fst snd] in *.
  destruct go; [|apply Hs]. specialize (IH Hps st1 (proj2 Hs)).
  destruct (main_loop _ _ _ ps st1) as [[st2 ev2] b]. cbn [fst snd] in *.
  rewrite statuses_app, spaced_app. split; [apply Hs|]. by rewrite <- (effect_last _ _ _ He).
Qed.
(** *** Leaving the loops *)

(** The inner loop is left after the tick; the outer loop too. *)
Definition tick_leaves (t : tick) : bool := t_end t || negb (bool_decide (t_reset t = CO_RESET_NOT)).
Definition tick_quits (t : tick) : bool :=
  t_end t || bool_decide (t_reset t = CO_RESET_APP) || bool_decide (t_reset t = CO_RESET_QUIT).

(** The first tick of a pass after which its inner loop is left. *)
Definition leaving (p : pass) : option tick := list_find tick_leaves (p_ticks p) ≫= fun x => Some x.2.

Lemma run_tick_flags t st :
  reset (run_tick t st).1 = t_reset t /\ CO_endProgram (run_tick t st).1 = CO_endProgram st || t_end t.
Proof. unfold run_tick, bus_check. by destruct (_ >? _). Qed.

(** However many ticks follow, the inner loop ends at the first that leaves it. *)
Lemma inner_loop_leaves ticks st i t :
  list_find tick_leaves ticks = Some (i, t) -> reset st = CO_RESET_NOT ->
  let r := inner_loop ticks st in
  r.2 = true /\ (tick_quits t = true -> looping r.1.1 = false).
Proof.
  revert st i. induction ticks as [|t0 ticks IH]; intros st i Hf Hr; [done|]. cbn [inner_loop].
  rewrite Hr, bool_decide_true by done. cbn [andb]. destruct (CO_endProgram st) eqn:Hend; cbn [negb].
  { split; [done|]. intros _. cbn. unfold looping. by rewrite Hend, andb_false_r. }
  pose proof (run_tick_flags t0 st) as [H1 H2]. rewrite Hend in H2.
  destruct (run_tick t0 st) as [st1 ev1]. cbn [fst snd orb] in H1, H2.
  cbn [list_find] in Hf. destruct (decide (tick_leaves t0)) as [Hl|Hl].
  - injection Hf as <- <-.
    assert (inner_loop ticks st1 = (st1, [], true)) as ->.
    { destruct ticks; cbn [inner_loop]; rewrite H1, H2; unfold tick_leaves in Hl;
        destruct (t_end t0), (bool_decide (t_reset t0 = CO_RESET_NOT)); done. }
    cbn [fst snd]. split; [done|]. intros Hq. unfold looping. rewrite H1, H2. unfold tick_quits in Hq.
    destruct (t_end t0), (bool_decide (t_reset t0 = CO_RESET_APP)), (bool_decide (t_reset t0 = CO_RESET_QUIT)); done.
  - destruct (list_find tick_leaves ticks) as [[j t1]|] eqn:Hf1; [|done]. injection Hf as <- <-.
    assert (t_reset t0 = CO_RESET_NOT) as Hr0.
    { unfold tick_leaves in Hl. destruct (decide (t_reset t0 = CO_RESET_NOT)) as [|Hn]; [done|]. destruct Hl.
      rewrite bool_decide_false by done. by rewrite orb_true_r. }
    rewrite <- H1 in Hr0. specialize (IH st1 j eq_refl Hr0). cbv zeta in IH.
    destruct (inner_loop ticks st1) as [[st2 ev2] b]. exact IH.
Qed.

Lemma and_then_go (P : main_state -> Prop) r k :
  (forall st, (k st).2 = true -> P (k st).1.1) -> (and_then r k).2 = true -> P (and_then r k).1.1.
Proof.
  destruct r as [[st ev] go]. unfold and_then. intros Hk. destruct go; [|done]. specialize (Hk st).
  by destruct (k st) as [[st2 ev2] go2].
Qed.

(** A reset that succeeded cleared the command; one that failed raised the flag. *)
Lemma comm_reset_flags p st :
  let r := comm_reset rtPriority CNT_EM CNT_HB_CONS p st in
  if r.2 then reset r.1.1 = CO_RESET_NOT else looping r.1.1 = false.
Proof.
  assert (forall r k, (r.2 = false -> looping r.1.1 = false) ->
      (forall st, (k st).2 = false -> looping (k st).1.1 = false) ->
      (and_then r k).2 = false -> looping (and_then r k).1.1 = false) as Hthen.
  { intros [[st1 ev] go] k Hr Hk. unfold and_then. destruct go; [|by intros _; apply Hr].
    specialize (Hk st1). by destruct (k st1) as [[st2 ev2] go2]. }
  assert (forall l st, looping (fail_exit l st).1.1 = false) as Hfail by (intros; apply andb_false_r).
  cbv zeta. destruct (comm_reset _ _ _ p st).2 eqn:Hgo.
  - revert Hgo. unfold comm_reset. apply (and_then_go (fun st => reset st = CO_RESET_NOT)). intros st1.
    apply (and_then_go (fun st => reset st = CO_RESET_NOT)). intros st2.
    unfold init_pdo. by case_decide.
  - revert Hgo. unfold comm_reset. apply Hthen; [|intros st1; apply Hthen].
    + unfold init_canopen. apply Hthen; [done|]. intros st1. by repeat case_decide.
    + unfold start_threads. case_match; [done|]. unfold create. apply Hthen; [by case_match|]. intros st2.
      case_match; [done|]. apply Hthen; [by case_match|]. intros st3. apply Hthen; [by case_match|].
      intros st4. by case_match.
    + intros st2. unfold init_pdo. by case_decide.
Qed.

Lemma run_pass_leaves p t st :
  leaving p = Some t ->
  let r := run_pass rtPriority CNT_EM CNT_HB_CONS p st in
  r.2 = true /\ (tick_quits t = true -> looping r.1.1 = false).
Proof.
  unfold leaving. intros Ht. destruct (list_find tick_leaves (p_ticks p)) as [[i t0]|] eqn:Hf; [|done].
  injection Ht as ->. unfold run_pass. pose proof (comm_reset_flags p st) as H. cbv zeta in H.
  destruct (comm_reset _ _ _ p st) as [[st1 ev1] go]. cbn [fst snd] in *. destruct go; [|done].
  pose proof (inner_loop_leaves (p_ticks p) (raise_end (p_end p) st1) i t Hf H) as H2. cbv zeta in H2.
  by destruct (inner_loop _ _) as [[st2 ev2] b].
Qed.

(** C5: the program comes to an end: when every pass has a tick that leaves its loop, and the
    one of the last pass raises the flag or asks for a restart, the outer loop is left, whatever
    the initialisations gave. *)
Theorem main_loop_ends ps p t :
  Forall (fun p => exists t, leaving p = Some t) ps -> leaving p = Some t -> tick_quits t = true ->
  let r := main_loop rtPriority CNT_EM CNT_HB_CONS (ps ++ [p]) main_start in
  r.2 = true /\ looping r.1.1 = false.
Proof.
  intros Hps Hp Ht. generalize main_start. cbv zeta.
  induction ps as [|p0 ps IH]; intros st; cbn [app main_loop]; case_match eqn:Hl; try done.
  - pose proof (run_pass_leaves p t st Hp) as [H1 H2]. specialize (H2 Ht).
    destruct (run_pass _ _ _ p st) as [[st1 ev1] go]. cbn [fst snd] in *. rewrite H1, H2. done.
  - apply list.Forall_cons in Hps as [[t0 H0] Hps]. pose proof (run_pass_leaves p0 t0 st H0) as [H1 _].
    destruct (run_pass _ _ _ p0 st) as [[st1 ev1] go]. cbn [fst snd] in *. subst go.
    specialize (IH Hps st1). by destruct (main_loop _ _ _ (ps ++ [p]) st1) as [[st2 ev2] b].
Qed.
End LoopProps.

(** ** The end of the program *)

Lemma join_threads_all join_ok l ids :
  Forall (fun t => t ∈ ids) l -> defined (join_threads join_ok l ids).
Proof.
  induction 1 as [|t l Ht _ [r IH]]; cbn [join_threads]; [by eexists|].
  rewrite decide_True by done. destruct (join_ok t); [|by eexists]. rewrite IH. by eexists.
Qed.

Lemma join_threads_missing l ids t :
  t ∈ l -> t ∉ ids -> join_threads (fun _ => true) l ids = Undef UbUninit.
Proof.
  intros Ht Hids. induction l as [|t0 l IH]; [by apply not_elem_of_nil in Ht|]. cbn [join_threads].
  destruct (decide (t0 ∈ ids)) as [Hin|]; [|done]. apply elem_of_cons in Ht as [<-|Ht]; [done|].
  by rewrite IH.
Qed.

(** [exit] gets the failure when joining failed. *)
Lemma join_threads_failure join_ok l ids :
  match join_threads join_ok l ids with
  | Ret (inl (code, ev)) => code = EXIT_FAILURE /\ existsb is_failure ev = true
  | Ret (inr ev) => existsb is_failure ev = false
  | Undef _ => True
  end.
Proof.
  induction l as [|t l IH]; cbn [join_threads]; [done|]. case_decide; [|done]. destruct (join_ok t); [|done].
  by destruct (join_threads join_ok l ids) as [[[code ev]|ev]|].
Qed.

Section EndProps.
Context (rtPriority CNT_EM CNT_HB_CONS : Z) (network_manager_node loaded_od_conf od : bool).

(** C6: the program ends in an orderly way exactly when the first pass has started all the threads:
    after a failure of that pass ([CO_CANinit] without an interface, say) the identifiers of
    threads that were never created are joined. *)
Theorem run_main_defined p ps :
  let r := run_main rtPriority CNT_EM CNT_HB_CONS network_manager_node loaded_od_conf od (fun _ => true) (p :: ps) in
  if starts rtPriority p then defined r else r = Undef UbUninit.
Proof.
  unfold run_main. pose proof (main_loop_first rtPriority CNT_EM CNT_HB_CONS p ps) as H. cbv zeta in H |- *.
  destruct (main_loop _ _ _ (p :: ps) main_start) as [[st ev] b]. cbn [fst snd] in H.
  destruct (starts rtPriority p).
  - destruct b; [|by eexists]. unfold shutdown. rewrite H.
    destruct (join_threads_all (fun _ => true) all_threads all_threads) as [r ->].
    { by apply list.Forall_forall. }
    destruct r as [[code ev']|ev']; by eexists.
  - destruct H as (-> & _ & Hnot). unfold shutdown.
    by rewrite (join_threads_missing all_threads (ids st) ipc_broadcaster_thread_id) by (done || set_solver).
Qed.

Lemma shutdown_status join_ok st code ev :
  shutdown network_manager_node loaded_od_conf od join_ok st = Ret (code, ev) -> code = exit_of ev (programExit st).
Proof.
  unfold shutdown. pose proof (join_threads_failure join_ok all_threads (ids st)) as H.
  destruct (join_threads _ _ _) as [[[c e]|e]|]; run; [| |done].
  - intros [= <- <-]. destruct H as [-> H]. unfold exit_of. cbn [existsb is_failure orb]. by rewrite H.
  - intros [= <- <-]. unfold exit_of. cbn [existsb is_failure orb]. rewrite existsb_app, H.
    by destruct network_manager_node, loaded_od_conf, od.
Qed.

(** The exit status is a failure exactly when a failure was logged, in the loop (where the
    program then stops) or while the threads are joined. *)
Theorem run_main_status join_ok ps code ev :
  run_main rtPriority CNT_EM CNT_HB_CONS network_manager_node loaded_od_conf od join_ok ps = Ret (Some (code, ev)) ->
  code = if existsb is_failure ev then EXIT_FAILURE else EXIT_SUCCESS.
Proof.
  unfold run_main. pose proof (main_loop_effects rtPriority CNT_EM CNT_HB_CONS ps main_start) as [_ H _ _ _].
  destruct (main_loop _ _ _ ps main_start) as [[st ev1] b]. cbn [fst snd] in H. destruct b; [|done].
  destruct (shutdown _ _ _ _ _) as [[c ev2]|] eqn:Hs; run; [|done]. intros [= <- <-].
  apply shutdown_status in Hs as ->. fold (exit_of (ev1 ++ ev2) EXIT_SUCCESS).
  by rewrite exit_of_app, H.
Qed.
End EndProps.

(** ** The threads of the interface *)

Section ThreadProps.
Context `{FS : FileSystem F} `{HP : Platform} `{CE : CopyEnv} `{HS : SdoOps D F} `{HL : !SdoLaws D F}.

(** A request the responder answers, as its three frames, with the flag down. *)
Definition request (hm : bytes * bytes) : bool * (option bytes * option bytes * option bytes) :=
  (false, (Some hm.1, Some [], Some hm.2)).
Definition well_formed (hm : bytes * bytes) : Prop :=
  zlen hm.1 = ZMQ_HEADER_LEN /\ 2 < zlen hm.2 <= IPC_MSG_MAX_LEN /\ hm.2 !! 0%nat = Some (z2b IPC_MSG_VERSION).

(** One reply to the client that asked. *)
Definition answers (hm : bytes * bytes) (sent : list bytes) : Prop :=
  exists reply, sent = [hm.1; []; reply] /\ 2 <= zlen reply <= IPC_MSG_MAX_LEN.

Definition thread_of (l : list (bytes * bytes)) := ipc_responder_thread (map request l).

(** The thread answers all requests, or those before the first whose operation is undefined. *)
Lemma responder_thread_outcome l st :
  buffers_ok st -> Forall well_formed l ->
  (exists replies st', thread_of l st = Ret (replies, st') /\ Forall2 answers l replies /\ buffers_ok st') \/
  exists l1 hm l2 replies st1 id u, l = l1 ++ hm :: l2 /\ thread_of l1 st = Ret (replies, st1) /\
    Forall2 answers l1 replies /\ r_cache st1 = r_cache st /\ hm.2 !! 1%nat = Some id /\
    dispatch_undefined (received_in hm.2 st1) (b2z id) u /\ thread_of l st = Undef u.
Proof.
  intros Hb Hl. revert st Hb. induction Hl as [|[h m] l (Hh & Hm & Hv) Hl IH]; intros st Hb.
  - left. exists [], st. by repeat constructor; apply Hb.
  - unfold thread_of. cbn [map request ipc_responder_thread fst snd].
    pose proof (respond_outcome h m st Hb Hh Hm Hv) as Ho. unfold outcome in Ho.
    destruct (ipc_respond_process _ _ _ _ _ st) as [[sent st1]|u] eqn:Hp; run.
    2:{ right. destruct Ho as (id & Hid & Hu). exists [], (h, m), l, [], st, id, u.
        split_and!; [done|done|by constructor|done..]. }
    destruct Ho as (reply & -> & Hlen & Hb1 & Hc). assert (answers (h, m) [h; []; reply]) as Ha by by exists reply.
    destruct (IH st1 Hb1) as [(replies & st2 & Ht & Hall & Hb2)|(l1 & hm & l2 & replies & st2 & id & u & -> & Ht & Hall & Hc2 & Hid & Hu & He)].
    + left. unfold thread_of in Ht. rewrite Ht. run. eexists _, _. split; [done|]. split; [by constructor|done].
    + right. exists ((h, m) :: l1), hm, l2, ([h; []; reply] :: replies), st2, id, u.
      unfold thread_of in Ht, He |- *. cbn [app map request ipc_responder_thread fst snd].
      rewrite Hp. run. rewrite Ht, He. run.
      split_and!; [done|done|by constructor|congruence|done..].
Qed.

(** The operations of the SDO client return, on data of the size of a message. *)
Definition sdo_returns : Prop :=
  (forall s n i j b, defined (sdo_read_dynamic s n i j b)) /\
  (forall s n i j d, zlen d <= 255 -> defined (sdo_write s n i j d)) /\
  (forall s fs n i j p, defined (sdo_read_to_file s fs n i j p)) /\
  (forall s fs n i j p, defined (sdo_write_from_file s fs n i j p)).

Lemma not_undefined {A} (r : res A) u : defined r -> r <> Undef u.
Proof. by intros [a ->]. Qed.

Lemma returns_not_undefined st i u :
  sdo_returns -> call_undefined st i u -> i = IPC_MSG_ID_ADD_FILE /\ r_cache st <> None.
Proof.
  intros (H1 & H2 & H3 & H4) Hu. destruct Hu as [s n k j u _ _ _ _ E|s n k j d u _ _ _ _ _ Hd E|c b p u Hc _ _|s b p n k j u _ _ E|s b p n k j u _ _ E].
  - by destruct (not_undefined _ u (H1 s n k j false)).
  - by destruct (not_undefined _ u (H2 s n k j d Hd)).
  - split; [done|congruence].
  - by destruct (not_undefined _ u (H3 s (r_fs st) n k j p)).
  - by destruct (not_undefined _ u (H4 s (r_fs st) n k j p)).
Qed.

(** C3: the responder's thread answers a sequence of well-formed requests, each client's with one
    reply to it, in the order of the requests, up to the first whose operation (of the SDO
    client or the cache) is undefined on its arguments: no other content of a request keeps a
    later one from being answered.  All are answered when the operations of the SDO client return
    and there is no cache or no request to add a file to it. *)
Theorem responder_thread_answers l st :
  buffers_ok st -> Forall well_formed l ->
  ((exists replies st', thread_of l st = Ret (replies, st') /\ Forall2 answers l replies /\ buffers_ok st') \/
   exists l1 hm l2 replies st1 id u, l = l1 ++ hm :: l2 /\ thread_of l1 st = Ret (replies, st1) /\
     Forall2 answers l1 replies /\ r_cache st1 = r_cache st /\ hm.2 !! 1%nat = Some id /\
     dispatch_undefined (received_in hm.2 st1) (b2z id) u /\ thread_of l st = Undef u) /\
  (sdo_returns ->
   r_cache st = None \/ Forall (fun hm => hm.2 !! 1%nat <> Some (z2b (id_val IPC_MSG_ID_ADD_FILE))) l ->
   exists replies st', thread_of l st = Ret (replies, st') /\ Forall2 answers l replies /\ buffers_ok st').
Proof.
  intros Hb Hl. pose proof (responder_thread_outcome l st Hb Hl) as H. split; [exact H|].
  intros Hret Hcache. destruct H as [H|(l1 & hm & l2 & replies & st1 & id & u & -> & _ & _ & Hc & Hid & (i & Hi & Hu) & _)]; [done|].
  destruct (returns_not_undefined _ _ _ Hret Hu) as [-> Hsome]. destruct Hcache as [Hn|Hall].
  - destruct Hsome. change (r_cache (received_in _ st1)) with (r_cache st1). congruence.
  - apply Forall_app in Hall as [_ Hall]. apply list.Forall_cons in Hall as [Hne _].
    destruct Hne. by rewrite Hid, <- Hi, z2b_b2z.
Qed.

(** A message that is no configuration update, with the flag down. *)
Definition plain_input (i : consumer_input) : Prop :=
  i_ended i = false /\
  forall m, i_msg i = Some m -> m !! 1%nat <> Some (z2b (id_val IPC_MSG_ID_CONFIG)).

Context (base_config config : CO_config) (crc32 : bytes -> Z) (od_path : path).

Definition consumer_ok (st : consumer F) : Prop :=
  zlen (c_buffer_in st) = IPC_MSG_MAX_LEN /\ zlen (c_sendRequest st) = CNT_TPDO config /\ c_reset st = false.

(** What happens to messages of other kinds before the rest. *)
Lemma consumer_thread_app l rest st :
  CNT_TPDO base_config = CNT_TPDO config -> consumer_ok st -> Forall plain_input l ->
  exists st' ev, consumer_ok st' /\ c_fs st' = c_fs st /\
    ipc_consumer_thread base_config config crc32 od_path (l ++ rest) false st
    = ('(st, ev', e, r) ← ipc_consumer_thread base_config config crc32 od_path rest false st';
       Ret (st, ev ++ ev', e, r)).
Proof.
  intros Heq Hst Hl. revert st Hst. induction Hl as [|i l [He Hi] Hl IH]; intros st Hst.
  - exists st, ([] : list co_event). split; [done|]. split; [done|]. cbn [app].
    by destruct (ipc_consumer_thread _ _ _ _ rest false st) as [[[[? ?] ?] ?]|].
  - pose proof Hst as (Hb & Hs & Hr). cbn [app ipc_consumer_thread]. rewrite He. cbn [orb].
    destruct (process_handled (i_msg i) (i_clients i) base_config config crc32 (i_errno i) od_path st)
      as (st1 & ev1 & -> & Hb1 & Hs1 & Hf1 & Hr1); [done..|]. run. rewrite Hr1, Hr.
    assert (consumer_ok st1) as Hst1 by (unfold consumer_ok; rewrite Hs1, Hr1; done).
    destruct (IH st1 Hst1) as (st2 & ev2 & Hst2 & Hf2 & ->).
    exists st2, (ev1 ++ ev2). split; [done|]. split; [congruence|].
    destruct (ipc_consumer_thread _ _ _ _ rest false st2) as [[[[? ?] ?] ?]|]; run; [|done].
    by rewrite app_assoc.
Qed.


(** Without such an update the thread takes every message and leaves files and flag alone. *)
Theorem consumer_thread_runs_on l st :
  CNT_TPDO base_config = CNT_TPDO config -> consumer_ok st -> Forall plain_input l ->
  exists st' ev, ipc_consumer_thread base_config config crc32 od_path l false st = Ret (st', ev, false, [])
    /\ c_fs st' = c_fs st.
Proof.
  intros Heq Hst Hl. destruct (consumer_thread_app l [] st Heq Hst Hl) as (st1 & ev1 & Hst1 & Hf & H).
  rewrite app_nil_r in H. rewrite H. cbn [ipc_consumer_thread]. run. by eexists _, _.
Qed.
End ThreadProps.

(** ** Witnesses: the theorems at concrete inputs *)

(** A pass in which all goes well: three ticks, the last of which is left by [r]. *)
Definition good_pass (r : reset_cmd) : pass :=
  mkPass CO_ERROR_NO CO_ERROR_NO 0 false (fun _ => true) true CO_ERROR_NO 0 false
    [mkTick CO_RESET_NOT 3 false; mkTick CO_RESET_NOT 7 false; mkTick r 14 false].

(** The interface cannot be opened. *)
Definition bad_pass : pass :=
  mkPass CO_ERROR_OTHER CO_ERROR_NO 0 false (fun _ => true) true CO_ERROR_NO 0 false [].

Example run_example :
  run_main 1 1 1 false true true (fun _ => true) [good_pass CO_RESET_COMM; good_pass CO_RESET_QUIT]
  = Ret (Some (0,
      ECANmodule_disable :: register_callbacks 1 1 (good_pass CO_RESET_COMM) ++ map EThread all_threads
      ++ [ESetNormalMode; ELog (LogInfo "running ..."); EProcess; EProcess; EBusStatus 7; EProcess; EBusStatus 14]
      ++ [ECANnormalOff; ECANmodule_disable] ++ register_callbacks 1 1 (good_pass CO_RESET_QUIT)
      ++ [ESetNormalMode; ELog (LogInfo "running ..."); EProcess; EProcess; EProcess]
      ++ [EIpcFree] ++ map EJoin all_threads ++ [EFreeExtensions; EDelete; EConfigFree true; ELog (LogInfo "finished")])).
Proof. by_compute. Qed.

Example failed_start : run_main 1 1 1 false true true (fun _ => true) [bad_pass] = Undef UbUninit.
Proof. by_compute. Qed.

Lemma threads_started_once_witness :
  created (main_loop 1 1 1 [good_pass CO_RESET_COMM; good_pass CO_RESET_QUIT] main_start).1.2 = all_threads.
Proof.
  exact (proj2 (threads_started_once 1 1 1 [good_pass CO_RESET_COMM; good_pass CO_RESET_QUIT]) _ _ eq_refl eq_refl).
Defined.

Lemma bus_status_spaced_witness :
  spaced 0 (statuses (main_loop 1 1 1 [good_pass CO_RESET_COMM; good_pass CO_RESET_QUIT] main_start).1.2).
Proof.
  apply (bus_status_spaced 1 1 1). repeat constructor; cbn; lia.
Defined.

Lemma main_loop_ends_witness :
  (main_loop 1 1 1 ([good_pass CO_RESET_COMM] ++ [good_pass CO_RESET_QUIT]) main_start).2 = true.
Proof.
  apply (main_loop_ends 1 1 1 [good_pass CO_RESET_COMM] (good_pass CO_RESET_QUIT) (mkTick CO_RESET_QUIT 14 false));
    [|by_compute|by_compute].
  constructor; [|constructor]. by exists (mkTick CO_RESET_COMM 14 false).
Defined.

Lemma run_main_status_witness :
  exists ev, run_main 1 1 1 false true true (fun _ => false) [good_pass CO_RESET_QUIT] = Ret (Some (EXIT_FAILURE, ev))
    /\ EXIT_FAILURE = if existsb is_failure ev then EXIT_FAILURE else EXIT_SUCCESS.
Proof.
  eexists. split; [by_compute|].
  eapply (run_main_status 1 1 1 false true true (fun _ => false) [good_pass CO_RESET_QUIT]). by_compute.
Defined.

Definition sample_requests : list (bytes * bytes) := [(sample_header, [x00; x77; x01]); (sample_header, [x00; x03; x01])].

Lemma responder_thread_answers_witness :
  exists replies st', thread_of (HS := sample_sdo) (HP := armhf) (CE := sendfile_whole) sample_requests sample_responder
    = Ret (replies, st') /\ Forall2 answers sample_requests replies /\ buffers_ok st'.
Proof.
  apply (responder_thread_answers (HS := sample_sdo) (HP := armhf) (CE := sendfile_whole)
    (HL := sample_sdo_laws) sample_requests sample_responder).
  - by_compute.
  - repeat constructor; by_compute.
  - split_and!; intros; by eexists.
  - right. repeat constructor; by_compute.
Defined.

Definition sync_input : consumer_input := mkIn (Some [x00; x0b; x00]) 1 0 false.

Lemma sync_plain : plain_input sync_input.
Proof. split; [done|]. by intros m [= <-]. Qed.


Lemma consumer_thread_runs_on_witness :
  exists st' ev, ipc_consumer_thread (HP := armhf) (CE := sendfile_whole) config3 config3 len_crc (cs "/d/od.csv")
      [sync_input; sync_input] false sample_consumer = Ret (st', ev, false, []) /\ c_fs st' = sample_fs.
Proof.
  apply (consumer_thread_runs_on (HP := armhf) (CE := sendfile_whole) config3 config3 len_crc (cs "/d/od.csv")
    [sync_input; sync_input] sample_consumer); [by_compute..|].
  repeat (constructor; [apply sync_plain|]). constructor.
Defined.
