(* ===== verification/Scripts.v ===== *)
(** * src/scripts: the command line programs

    Each [main] is a function of its arguments (without the program's name), of what
    [sdo_client_node_start] left for a client ([None] when it failed) and of the file system; it
    gives the lines printed and the exit status.  The indexes of the dictionary are those of
    the generated OD.h, the class [ToolOd].  The life of the client's node and its thread is
    modelled at the end. *)

From Stdlib Require Import Strings.Byte.
From stdpp Require Import relations.
From S2P Require Import Prelude CLib Str2buf FileSys MemFS System Fcache SdoClient SdoValues FileTransfer Main.

(** What a program prints: messages by kind, [printf("%s\n", b)] as [LText b].  The text of an
    abort code is NULL when the table does not have it. *)
Inductive line :=
| LUsage
| LInvalid (what : string) (arg : bytes)
| LNodeFailure
| LAbort (code : Z) (text : option string)
| LText (b : bytes).

Definition abort_line (code : Z) : line := LAbort code (get_sdo_abort_string code).

(** [printf] with [%X] and, for a byte, [%02X]. *)
Definition upper_digit (d : Z) : byte := if d <? 10 then z2b (48 + d) else z2b (55 + d).
Definition print_X (n : Z) : bytes := upper_digit <$> to_digits (Z.to_nat (Z.log2 n)) 16 n [].
Definition print_02X (b : byte) : bytes := [upper_digit (b2z b / 16); upper_digit (b2z b mod 16)].

Definition COMMA : byte := ","%byte.

Class ToolOd := {
  OD_INDEX_FREAD_CACHE : Z;
  OD_INDEX_FWRITE_CACHE : Z;
  OD_INDEX_OS_COMMAND : Z;
  OD_SUBINDEX_FILES_JSON : Z;
  OD_SUBINDEX_FILE_NAME : Z;
  OD_SUBINDEX_FILE_DATA : Z;
  OD_SUBINDEX_OS_COMMAND_COMMAND : Z;
  OD_SUBINDEX_OS_COMMAND_STATUS : Z;
  OD_SUBINDEX_OS_COMMAND_REPLY : Z;
  OS_COMMAND_STATUS_EXECUTING : Z;
  OS_COMMAND_STATUS_NO_ERROR_REPLY : Z;
  OS_COMMAND_STATUS_ERROR_REPLY : Z;
}.

(** ** Arguments *)

Section Arguments.
Context `{HP : Platform}.

Definition parse_int_arg (arg : bytes) : option Z :=
  let '(tmp, endptr) :=
    if nth_is arg 0 "0"%byte && nth_is arg 1 "x"%byte then strtoul LONG_BITS 16 arg
    else strtoul LONG_BITS 10 arg in
  if (endptr =? 0)%nat then None else Some (swrap 32 tmp).

(** The object at [data] as an integer, as [printf] shows it: [%d (0x%X)], where an integer of
    less than 32 bits has been promoted to [int]. *)
Definition show_int (signed : bool) (w : Z) (data : option bytes) : res bytes :=
  match data with
  | None => Undef UbNull
  | Some d =>
      b ← mem_read d 0 (w / 8);
      let v := if signed then swrap w (le_val b) else le_val b in
      mret (print_dec (swrap 32 v) ++ cs " (0x" ++ print_X (wrap 32 v) ++ cs ")")
  end.

(** [%ld (0x%lX)] with a 64-bit argument: where [long] has 32 bits, [printf] takes another
    type than it was given. *)
Definition show_int64 (data : option bytes) : res bytes :=
  match data with
  | None => Undef UbNull
  | Some d =>
      b ← mem_read d 0 8;
      if LONG_BITS =? 64
      then mret (print_dec (swrap 64 (le_val b)) ++ cs " (0x" ++ print_X (le_val b) ++ cs ")")
      else Undef UbUninit
  end.

Definition show_bool (data : option bytes) : res bytes :=
  match data with
  | None => Undef UbNull
  | Some d => b ← mem_read d 0 1; mret (print_dec (le_val b))
  end.

(** [printf] of a floating point number from its bits. *)
Context (printf_float printf_double : Z -> bytes).

Definition show_float (w : Z) (data : option bytes) : res bytes :=
  match data with
  | None => Undef UbNull
  | Some d =>
      b ← mem_read d 0 (w / 8);
      mret (if w =? 32 then printf_float (le_val b) else printf_double (le_val b))
  end.

Definition show_string (data : option bytes) : res bytes :=
  match data with None => Undef UbNull | Some d => c_str d end.

(** The end of [sdo_read_main]: [data] is the object of the value (a NUL follows the
    [data_size] bytes), [dtype] the last argument.  A [dtype] that names no type prints
    nothing. *)
Definition show_value (dtype : option bytes) (data : option bytes) : res (list line) :=
  let obj := option_map with_nul data in
  let text r := b ← r; mret [LText b] in
  match dtype with
  | None => Ret [LText (from_option (mbind print_02X) [] data)]
  | Some dtype =>
      if is_dtype dtype "bytes" then Ret [LText (from_option (mbind print_02X) [] data)]
      else if is_dtype dtype "bool" then text (show_bool obj)
      else if is_dtype dtype "int8" then text (show_int true 8 obj)
      else if is_dtype dtype "int16" then text (show_int true 16 obj)
      else if is_dtype dtype "int32" then text (show_int true 32 obj)
      else if is_dtype dtype "int64" then text (show_int64 obj)
      else if is_dtype dtype "uint8" then text (show_int false 8 obj)
      else if is_dtype dtype "uint16" then text (show_int false 16 obj)
      else if is_dtype dtype "uint32" then text (show_int false 32 obj)
      else if is_dtype dtype "uint64" then text (show_int64 obj)
      else if is_dtype dtype "float32" then text (show_float 32 obj)
      else if is_dtype dtype "float64" then text (show_float 64 obj)
      else if is_dtype dtype "string" then text (show_string obj)
      else Ret []
  end.
End Arguments.

(** ** Tokens of a listing *)

Fixpoint skip_commas (s : bytes) : nat :=
  match s with b :: s => if decide (b = COMMA) then S (skip_commas s) else O | [] => O end.
Fixpoint token_len (s : bytes) : nat :=
  match s with b :: s => if decide (b = COMMA \/ b = NUL) then O else S (token_len s) | [] => O end.

(** [strtok(_, ",")] from position [pos] of [buf]: where the token begins, its length, the buffer
    with the terminator of the token, and where the next search begins. *)
Definition strtok (buf : bytes) (pos : nat) : res (option (nat * nat * bytes * nat)) :=
  let start := (pos + skip_commas (drop pos buf))%nat in
  match buf !! start with
  | None => Undef UbBounds
  | Some b =>
      if decide (b = NUL) then Ret None else
      let len := token_len (drop start buf) in
      match buf !! (start + len)%nat with
      | None => Undef UbBounds
      | Some e =>
          if decide (e = NUL) then Ret (Some (start, len, buf, (start + len)%nat))
          else
            buf ← mem_write buf (Z.of_nat (start + len)) [NUL];
            mret (Some (start, len, buf, S (start + len)))
      end
  end.

(** The loop over the tokens of [buf]: the lines printed.  Every round begins at a later position
    of the buffer. *)
Fixpoint list_tokens (fuel : nat) (buf : bytes) (pos : nat) : res (list bytes) :=
  match fuel with
  | O => Undef UbDeadlock
  | S fuel =>
      t ← strtok buf pos;
      match t with
      | None => mret []
      | Some (start, len, buf, next) =>
          let e := Z.of_nat (start + len) in
          last ← mem_read buf (e - 1) 1;
          buf ← mem_write buf (if decide (last = cs "]") then e - 2 else e - 1) [NUL];
          name ← (if bool_decide (start + 2 <= length buf)%nat then c_str (drop (start + 2) buf) else Undef UbBounds);
          rest ← list_tokens fuel buf next;
          mret (name :: rest)
      end
  end.

(** What is printed of the text of a cache's files. *)
Definition list_files (json : bytes) : res (list bytes) :=
  if strncmp_eq json (cs "[]") (length json) then Ret []
  else list_tokens (S (length json)) (with_nul json) 0.

(** ** The programs *)

Section Programs.
Context `{HL : SdoLib C} `{HP : Platform} `{FS : FileSystem F} `{TO : ToolOd}.
Variable junk : byte.

(** A program's result: the lines printed, the exit status, and the file system. *)
Definition program : Type := res (list line * Z * F).
Definition fails (l : list line) (fs : F) : program := Ret (l, EXIT_FAILURE, fs).
Definition succeeds (l : list line) (fs : F) : program := Ret (l, EXIT_SUCCESS, fs).

(** An argument that has to be a number. *)
Definition with_int (what : string) (arg : bytes) (fs : F) (k : Z -> program) : program :=
  match parse_int_arg arg with
  | None => fails [LInvalid what arg] fs
  | Some n => k n
  end.

(** A transfer; after an abort the program prints it and fails. *)
Definition or_abort {A} (fs : F) (r : res (Z * A)) (k : A -> program) : program :=
  '(abort_code, a) ← r;
  if negb (abort_code =? 0) then fails [abort_line abort_code] fs else k a.

(** [node_id], [index] and [subindex] are converted to the [uint8_t], [uint16_t] and [uint8_t]
    of the parameters. *)
Definition fread_main (argv : list bytes) (start : option C) (fs : F) : program :=
  match argv with
  | [interface; node; src] =>
      with_int "node id" node fs (fun node_id =>
      match start with
      | None => fails [LNodeFailure] fs
      | Some c =>
          or_abort fs (sdo_write_str c (wrap 8 node_id) OD_INDEX_FREAD_CACHE OD_SUBINDEX_FILE_NAME src) (fun c =>
          '(abort_code, _, fs) ←
            Sdo.sdo_read_to_file junk c fs (wrap 8 node_id) OD_INDEX_FREAD_CACHE OD_SUBINDEX_FILE_DATA src;
          if negb (abort_code =? 0) then fails [abort_line abort_code] fs else succeeds [] fs)
      end)
  | _ => fails [LUsage] fs
  end.

(** [basename] works in [argv[3]]; [is_file] and the transfer see what it left. *)
Definition fwrite_main (argv : list bytes) (start : option C) (fs : F) : program :=
  let transfer (node src : bytes) (dest : option bytes) : program :=
    with_int "node id" node fs (fun node_id =>
      '(m, file) ← (match dest with None => basename_in (with_nul src) | Some d => Ret (with_nul src, d) end);
      src ← c_str m;
      if negb (is_file fs src) then fails [LInvalid "file" src] fs else
      match start with
      | None => fails [LNodeFailure] fs
      | Some c =>
          or_abort fs (sdo_write_str c (wrap 8 node_id) OD_INDEX_FWRITE_CACHE OD_SUBINDEX_FILE_NAME file) (fun c =>
          or_abort fs (Sdo.sdo_write_from_file junk c fs (wrap 8 node_id) OD_INDEX_FWRITE_CACHE OD_SUBINDEX_FILE_DATA src)
            (fun _ => succeeds [] fs))
      end) in
  match argv with
  | [interface; node; src] => transfer node src None
  | [interface; node; src; dest] => transfer node src (Some dest)
  | _ => fails [LUsage] fs
  end.

(** The status is read until it is another than EXECUTING; the node decides how often, at most
    [polls] times here: [None] when it still executes then. *)
Fixpoint poll_status (polls : nat) (c : C) (node_id status : Z) : res (option (Z * Z * C)) :=
  if status =? OS_COMMAND_STATUS_EXECUTING then
    match polls with
    | O => Ret None
    | S polls =>
        '(abort_code, status, c) ←
          sdo_read_uint8 c node_id OD_INDEX_OS_COMMAND OD_SUBINDEX_OS_COMMAND_STATUS status;
        if negb (abort_code =? 0) then Ret (Some (abort_code, status, c))
        else poll_status polls c node_id status
    end
  else Ret (Some (CO_SDO_AB_NONE, status, c)).

(** [printf("%s\n", reply)] of a NULL reply is undefined. *)
Definition os_command_main (polls : nat) (argv : list bytes) (start : option C) (fs : F) : res (option (list line * Z * F)) :=
  let some (p : program) : res (option (list line * Z * F)) := r ← p; mret (Some r) in
  match argv with
  | [interface; node; command] =>
      match parse_int_arg node, start with
      | None, _ => some (fails [LInvalid "node id" node] fs)
      | Some _, None => some (fails [LNodeFailure] fs)
      | Some n, Some c =>
          let node_id := wrap 8 n in
          '(abort_code, c) ← sdo_write_str c node_id OD_INDEX_OS_COMMAND OD_SUBINDEX_OS_COMMAND_COMMAND command;
          if negb (abort_code =? 0) then some (fails [abort_line abort_code] fs) else
          r ← poll_status polls c node_id OS_COMMAND_STATUS_EXECUTING;
          match r with
          | None => Ret None
          | Some (abort_code, status, c) =>
              if negb (abort_code =? 0) then some (fails [abort_line abort_code] fs)
              else if (status =? OS_COMMAND_STATUS_NO_ERROR_REPLY) || (status =? OS_COMMAND_STATUS_ERROR_REPLY) then
                '(abort_code, reply, _) ←
                  sdo_read_str junk c node_id OD_INDEX_OS_COMMAND OD_SUBINDEX_OS_COMMAND_REPLY true;
                if negb (abort_code =? 0) then some (fails [abort_line abort_code] fs)
                else b ← show_string reply; some (succeeds [LText b] fs)
              else some (succeeds [LText (cs "no reply")] fs)
          end
      end
  | _ => some (fails [LUsage] fs)
  end.

Definition fcache_list_main (argv : list bytes) (start : option C) (fs : F) : program :=
  match argv with
  | [interface; node; cache] =>
      with_int "node id" node fs (fun node_id =>
      match start with
      | None => fails [LNodeFailure] fs
      | Some c =>
          let list_of index : program :=
            '(abort_code, buf, _) ← sdo_read_str junk c (wrap 8 node_id) index OD_SUBINDEX_FILES_JSON false;
            if negb (abort_code =? 0) then fails [abort_line abort_code] fs else
            match buf with
            | None => succeeds [] fs
            | Some buf => json ← c_str buf; names ← list_files json; succeeds (LText <$> names) fs
            end in
          if strncmp_eq cache (cs "fread") (S (length cache)) then list_of OD_INDEX_FREAD_CACHE
          else if strncmp_eq cache (cs "fwrite") (S (length cache)) then list_of OD_INDEX_FWRITE_CACHE
          else fails [LInvalid "cache" cache] fs
      end)
  | _ => fails [LUsage] fs
  end.

(** The numbers the two SDO programs share. *)
Definition with_entry (node index subindex : bytes) (fs : F) (k : Z -> Z -> Z -> program) : program :=
  with_int "node id" node fs (fun n =>
  with_int "index" index fs (fun i =>
  with_int "subindex" subindex fs (fun s => k (wrap 8 n) (wrap 16 i) (wrap 8 s)))).

(** An abort is printed, but the status is that of success. *)
Definition sdo_read_main (printf_float printf_double : Z -> bytes) (argv : list bytes) (start : option C) (fs : F) : program :=
  let read node index subindex dtype : program :=
    with_entry node index subindex fs (fun n i s =>
      match start with
      | None => fails [LNodeFailure] fs
      | Some c =>
          '(abort_code, data, _) ← Sdo.sdo_read_dynamic junk c n i s false;
          if abort_code =? 0 then
            l ← show_value printf_float printf_double dtype data; succeeds l fs
          else succeeds [abort_line abort_code] fs
      end) in
  match argv with
  | [interface; node; index; subindex] => read node index subindex None
  | [interface; node; index; subindex; dtype] => read node index subindex (Some dtype)
  | _ => fails [LUsage] fs
  end.

Definition sdo_write_main (argv : list bytes) (start : option C) (fs : F) : program :=
  match argv with
  | [interface; node; index; subindex; dtype; value] =>
      with_entry node index subindex fs (fun n i s =>
        '(data, data_size) ← str2buf_dtype_str dtype (Some value) 0;
        match data with
        | None => fails [LInvalid "dtype or value" value] fs
        | Some data =>
            match start with
            | None => fails [] fs
            | Some c =>
                '(abort_code, _) ← Sdo.sdo_write c n i s data data_size;
                if negb (abort_code =? 0) then succeeds [abort_line abort_code] fs else succeeds [] fs
            end
        end)
  | _ => fails [LUsage] fs
  end.
End Programs.

(** ** sdo_client_node.c: the client's node

    Starting it is a sequence of calls that can fail; its thread runs beside [main]. *)

(** The steps of [sdo_client_node_start] in order, and whether each succeeded.  A failure before
    the thread is started releases everything and gives -1; the thread's own creation is
    logged only. *)
Inductive node_call := N_if_nametoindex | N_CO_new | N_signal_int | N_signal_term | N_epoll_create
  | N_CANinit | N_SDOclient_init | N_pthread_create.

#[export] Instance node_call_eq_dec : EqDecision node_call.
Proof. solve_decision. Defined.

Inductive node_event := NCall (c : node_call) | NEpollClose | NDelete.

Fixpoint node_calls (ok : node_call -> bool) (l : list node_call) : Z * list node_event :=
  match l with
  | [] => (0, [NCall N_pthread_create])
  | c :: l =>
      if ok c then let '(r, ev) := node_calls ok l in (r, NCall c :: ev)
      else (-1, [NCall c; NEpollClose; NDelete])
  end.

Definition sdo_client_node_start (ok : node_call -> bool) : Z * list node_event :=
  node_calls ok [N_if_nametoindex; N_CO_new; N_signal_int; N_signal_term; N_epoll_create; N_CANinit; N_SDOclient_init].

(** The thread: before [running = true], in its loop, or ended; [main]: before [running = false],
    in [pthread_join], or past it.  The node's state is these and the variable [running]. *)
Inductive thread_pc := TStart | TLoop | TEnd.
Inductive main_pc := MWork | MJoin | MStopped.

Record node_state := mkNodeState { n_running : bool; n_thread : thread_pc; n_main : main_pc }.

(** The node when [pthread_create] has returned; [running] is initially true. *)
Definition node_init : node_state := mkNodeState true TStart MWork.

Inductive node_step : node_state -> node_state -> Prop :=
| step_start r m : node_step (mkNodeState r TStart m) (mkNodeState true TLoop m)
| step_loop m : node_step (mkNodeState true TLoop m) (mkNodeState true TLoop m)
| step_exit m : node_step (mkNodeState false TLoop m) (mkNodeState false TEnd m)
| step_stop r t : node_step (mkNodeState r t MWork) (mkNodeState false t MJoin)
| step_join r : node_step (mkNodeState r TEnd MJoin) (mkNodeState r TEnd MStopped).

(** A signal clears [running] too. *)
Inductive node_step_sig : node_state -> node_state -> Prop :=
| sig_step s s' : node_step s s' -> node_step_sig s s'
| sig_handler r t m : node_step_sig (mkNodeState r t m) (mkNodeState false t m).

(** ** Properties *)

Section ArgumentProps.
Context `{HP : Platform}.

Lemma hex_digits_prefix n : 0 <= n ->
  nth_is (print_hex n) 0 "0"%byte && nth_is (print_hex n) 1 "x"%byte = true.
Proof. intros. unfold print_hex. by vm_compute. Qed.

Lemma dec_no_prefix n : nth_is (print_dec n) 0 "0"%byte && nth_is (print_dec n) 1 "x"%byte = false.
Proof.
  unfold print_dec. destruct (Z.ltb_spec n 0); [done|].
  destruct (print_nat_head 10 n) as (d & r & -> & Hd & Hr); [by left|done|].
  apply andb_false_iff. right. apply bool_decide_eq_false_2. destruct r as [|e r]; [done|].
  inversion_clear Hr. intros [= E]. apply (digit_char_ne e "x"%byte) in E; [done|lia|right; vm_compute; done].
Qed.

Lemma strtoul_neg_dec w n : 0 < n -> strtoul w 10 (cs "-" ++ print_nat 10 n)
  = (if 2 ^ w - 1 <? n then 2 ^ w - 1 else wrap w (- n), S (length (print_nat 10 n))).
Proof.
  intros Hn. unfold strtoul. rewrite <- (app_nil_r (print_nat 10 n)) at 1.
  rewrite scan_number_neg_dec by (done || lia). by destruct (_ <? _).
Qed.

Lemma swrap_wrap_32 w z : 32 <= w -> swrap 32 (wrap w z) = swrap 32 z.
Proof.
  intros Hw. unfold swrap, wrap. f_equal.
  rewrite <- Zplus_mod_idemp_l, <- (Zplus_mod_idemp_l z).
  replace (2 ^ w) with (2 ^ 32 * 2 ^ (w - 32)) by (rewrite <- Z.pow_add_r by lia; f_equal; lia).
  rewrite Z.rem_mul_r by (apply Z.pow_nonzero || apply Z.pow_pos_nonneg; lia).
  rewrite Z.mul_comm, Z.mod_add by lia. by rewrite Zmod_mod.
Qed.

(** A number printed in decimal, negative ones too, or in [0x] hexadecimal is the value the
    programs take it for. *)
Theorem parse_int_arg_roundtrip n :
  (in_s 32 n -> parse_int_arg (print_dec n) = Some n) /\
  (in_u 32 n -> parse_int_arg (print_hex n) = Some (swrap 32 n)).
Proof.
  pose proof LONG_BITS_range as HL.
  assert (2 ^ 32 <= 2 ^ LONG_BITS) by (apply Z.pow_le_mono_r; lia). split; intros Hn.
  - unfold parse_int_arg. rewrite dec_no_prefix. unfold print_dec, in_s in *. destruct (Z.ltb_spec n 0).
    + rewrite strtoul_neg_dec by lia. rewrite (proj2 (Z.ltb_ge _ _)) by lia. cbn [Nat.eqb].
      f_equal. rewrite Z.opp_involutive, swrap_wrap_32 by lia. by apply swrap_small.
    + rewrite strtoul_dec by done. pose proof (length_print_nat 10 n ltac:(by left) ltac:(done)).
      destruct (length (print_nat 10 n)); [lia|]. cbn [Nat.eqb]. f_equal.
      rewrite Z.min_l by lia. by apply swrap_small.
  - unfold parse_int_arg, in_u in *. rewrite hex_digits_prefix by lia. rewrite strtoul_hex by lia.
    rewrite Z.min_l by lia. done.
Qed.

Context (Hmalloc : forall n, malloc_ok n = true) (printf_float printf_double : Z -> bytes).

(** What is shown of an integer: as a signed one of [w] bits, and in hexadecimal. *)
Definition shown (w n : Z) : bytes := print_dec (swrap w n) ++ cs " (0x" ++ print_X (wrap w n) ++ cs ")".

(** The text of a value in one program, the number of its bytes, and what the other prints of
    these bytes. *)
Definition prints (name : string) (value : bytes) (size : Z) (shows : res (list line)) : Prop :=
  exists buf, str2buf_dtype_str (cs name) (Some value) 0 = Ret (Some buf, size) /\
    show_value printf_float printf_double (Some (cs name)) (Some (take (Z.to_nat size) buf)) = shows.

Lemma read_object w n :
  width w -> mem_read (with_nul (le_bytes (osize w) n)) 0 (w / 8) = Ret (le_bytes (osize w) n).
Proof.
  intros Hw. unfold with_nul. destruct (width_size w Hw) as (Hs & _).
  rewrite mem_read_ok; [|lia|pose proof (zlen_le_bytes w n Hw); lia|].
  2:{ rewrite zlen_app, zlen_le_bytes by done. change (zlen [NUL]) with 1. lia. }
  by rewrite drop_0, take_app_length' by (rewrite length_le_bytes; lia).
Qed.

Lemma show_int_le (signed : bool) w n :
  width w -> (if signed then in_s w n else in_u w n) ->
  show_int signed w (Some (with_nul (le_bytes (osize w) n))) = Ret (shown 32 n).
Proof.
  intros Hw Hn. unfold show_int. rewrite read_object by done. destruct (width_size w Hw) as (_ & Hpow & _).
  run. rewrite le_val_le_bytes, Hpow. unfold shown. destruct signed.
  - assert (swrap w (n mod 2 ^ w) = n) as ->; [|done].
    unfold swrap. rewrite Zplus_mod_idemp_l. apply swrap_small; [destruct Hw as [-> | [-> | [-> | ->]]]; lia|done].
  - by rewrite Z.mod_small.
Qed.

Lemma show_int64_le n :
  show_int64 (Some (with_nul (le_bytes 8 n)))
  = if LONG_BITS =? 64 then Ret (shown 64 n) else Undef UbUninit.
Proof.
  unfold show_int64. pose proof (read_object 64 n ltac:(unfold width; lia)) as H.
  change (64 / 8) with 8 in H. change (osize 64) with 8%nat in H. rewrite H. run. destruct (LONG_BITS =? 64); [|done].
  rewrite le_val_le_bytes. change (256 ^ Z.of_nat 8) with (2 ^ 64). unfold shown.
  fold (wrap 64 n). unfold swrap. unfold wrap at 1. by rewrite Zplus_mod_idemp_l.
Qed.

Lemma take_object w n : width w -> take (Z.to_nat (w / 8)) (le_bytes (osize w) n) = le_bytes (osize w) n.
Proof. intros Hw. apply take_ge. rewrite length_le_bytes. destruct (width_size w Hw) as (Hs & _). lia. Qed.

Lemma written_shown (signed : bool) w name n v :
  width w -> (if signed then in_s w n else in_u w n) ->
  str2buf_dtype_str (cs name) (Some v) 0 = Ret (Some (le_bytes (osize w) n), w / 8) ->
  show_value printf_float printf_double (Some (cs name)) (Some (le_bytes (osize w) n))
    = (b ← show_int signed w (Some (with_nul (le_bytes (osize w) n))); mret [LText b]) ->
  prints name v (w / 8) (Ret [LText (shown 32 n)]).
Proof. intros Hw Hn Hs Hv. eexists. split; [done|]. by rewrite take_object, Hv, show_int_le. Qed.

(** An integer of 64 bits is shown where [long] has as many. *)
Definition shown64 (n : Z) : res (list line) :=
  if LONG_BITS =? 64 then Ret [LText (shown 64 n)] else Undef UbUninit.

Lemma written_shown64 name n v :
  str2buf_dtype_str (cs name) (Some v) 0 = Ret (Some (le_bytes 8 n), 8) ->
  show_value printf_float printf_double (Some (cs name)) (Some (le_bytes 8 n))
    = (b ← show_int64 (Some (with_nul (le_bytes 8 n))); mret [LText b]) ->
  prints name v 8 (shown64 n).
Proof.
  intros Hs Hv. eexists. split; [done|]. unfold shown64.
  change (take (Z.to_nat 8) (le_bytes 8 n)) with (take (Z.to_nat (64 / 8)) (le_bytes (osize 64) n)).
  rewrite take_object by (unfold width; lia). change (le_bytes (osize 64) n) with (le_bytes 8 n).
  rewrite Hv, show_int64_le. by destruct (LONG_BITS =? 64).
Qed.

Lemma prints_signed n :
  (in_s 8 n -> prints "int8" (print_dec n) 1 (Ret [LText (shown 32 n)])) /\
  (in_s 16 n -> prints "int16" (print_dec n) 2 (Ret [LText (shown 32 n)])) /\
  (in_s 32 n -> prints "int32" (print_dec n) 4 (Ret [LText (shown 32 n)])) /\
  (in_s 64 n -> prints "int64" (print_dec n) 8 (shown64 n)).
Proof.
  destruct (signed_roundtrip Hmalloc n) as (S1 & S2 & S3 & S4). split_and!.
  - intros H. apply (written_shown true 8); [unfold width; lia|done| |done].
    change (str2buf_dtype_str _ _ _) with (dtype_result 0 (Ret (obj 1 (str2buf_int8 (Some (print_dec n))), 1))).
    by rewrite S1.
  - intros H. apply (written_shown true 16); [unfold width; lia|done| |done].
    change (str2buf_dtype_str _ _ _) with (dtype_result 0 (Ret (obj 2 (str2buf_int16 (Some (print_dec n))), 2))).
    by rewrite S2.
  - intros H. apply (written_shown true 32); [unfold width; lia|done| |done].
    change (str2buf_dtype_str _ _ _) with (dtype_result 0 (Ret (obj 4 (str2buf_int32 (Some (print_dec n))), 4))).
    by rewrite S3.
  - intros H. apply written_shown64; [|done].
    change (str2buf_dtype_str _ _ _) with (dtype_result 0 (Ret (obj 8 (str2buf_int64 (Some (print_dec n))), 8))).
    by rewrite S4.
Qed.

Lemma prints_unsigned s n :
  0 <= n -> numeral s n ->
  (in_u 8 n -> prints "uint8" s 1 (Ret [LText (shown 32 n)])) /\
  (in_u 16 n -> prints "uint16" s 2 (Ret [LText (shown 32 n)])) /\
  (in_u 32 n -> prints "uint32" s 4 (Ret [LText (shown 32 n)])) /\
  (in_u 64 n -> prints "uint64" s 8 (shown64 n)).
Proof.
  intros Hn Hs. destruct (unsigned_roundtrip Hmalloc s n Hn Hs) as (U1 & U2 & U3 & U4). split_and!.
  - intros H. apply (written_shown false 8); [unfold width; lia|done| |done].
    change (str2buf_dtype_str _ _ _) with (dtype_result 0 (Ret (obj 1 (str2buf_uint8 (Some s)), 1))).
    by rewrite U1.
  - intros H. apply (written_shown false 16); [unfold width; lia|done| |done].
    change (str2buf_dtype_str _ _ _) with (dtype_result 0 (Ret (obj 2 (str2buf_uint16 (Some s)), 2))).
    by rewrite U2.
  - intros H. apply (written_shown false 32); [unfold width; lia|done| |done].
    change (str2buf_dtype_str _ _ _) with (dtype_result 0 (Ret (obj 4 (str2buf_uint32 (Some s)), 4))).
    by rewrite U3.
  - intros H. apply written_shown64; [|done].
    change (str2buf_dtype_str _ _ _) with (dtype_result 0 (Ret (obj 8 (str2buf_uint64 (Some s)), 8))).
    by rewrite U4.
Qed.

(** An unsigned number shown as a signed one. *)
Lemma swrap_unsigned w n : 0 < w -> in_u w n -> swrap w n = if n <? 2 ^ (w - 1) then n else n - 2 ^ w.
Proof.
  intros Hw Hn. pose proof (pow2_double w Hw). unfold in_u, swrap in *. destruct (Z.ltb_spec n (2 ^ (w - 1))).
  - rewrite Z.mod_small; lia.
  - replace (n + 2 ^ (w - 1)) with ((n - 2 ^ (w - 1)) + 1 * 2 ^ w) by lia. rewrite Z.mod_add by lia.
    rewrite Z.mod_small; lia.
Qed.

(** C33: a value given to [sdo_write_main] as text becomes bytes that [sdo_read_main] shows as the
    same value, when memory can be allocated: integers of every width (unsigned ones in decimal
    or in [0x] hexadecimal), truth values, strings and byte strings.  Unsigned numbers of 32
    and 64 bits are shown as signed ones, so that from half of their range on they appear
    negative; those of 64 bits are shown where [long] has 64 bits, and elsewhere the call of [printf] has
    no defined meaning. *)
Theorem sdo_tools_roundtrip :
  (forall n,
    (in_s 8 n -> prints "int8" (print_dec n) 1 (Ret [LText (shown 32 n)])) /\
    (in_s 16 n -> prints "int16" (print_dec n) 2 (Ret [LText (shown 32 n)])) /\
    (in_s 32 n -> prints "int32" (print_dec n) 4 (Ret [LText (shown 32 n)]) /\ swrap 32 n = n) /\
    (in_s 64 n -> prints "int64" (print_dec n) 8 (shown64 n) /\ swrap 64 n = n)) /\
  (forall s n, 0 <= n -> numeral s n ->
    (in_u 8 n -> prints "uint8" s 1 (Ret [LText (shown 32 n)])) /\
    (in_u 16 n -> prints "uint16" s 2 (Ret [LText (shown 32 n)])) /\
    (in_u 32 n -> prints "uint32" s 4 (Ret [LText (shown 32 n)]) /\
       swrap 32 n = if n <? 2 ^ 31 then n else n - 2 ^ 32) /\
    (in_u 64 n -> prints "uint64" s 8 (shown64 n) /\
       swrap 64 n = if n <? 2 ^ 63 then n else n - 2 ^ 64)) /\
  prints "bool" (cs "true") 1 (Ret [LText (cs "1")]) /\ prints "bool" (cs "false") 1 (Ret [LText (cs "0")]) /\
  (forall s, wf_cstr s -> prints "string" s (zlen s) (Ret [LText s])) /\
  (forall l, l <> [] -> prints "bytes" (print_bytes l) (zlen l) (Ret [LText (l ≫= print_02X)])).
Proof.
  split; [|split; [|split; [|split; [|split]]]].
  - intros n. destruct (prints_signed n) as (H1 & H2 & H3 & H4). split_and!; [done..|split|split]; auto.
    + by apply swrap_small.
    + by apply swrap_small.
  - intros s n Hn Hs. destruct (prints_unsigned s n Hn Hs) as (H1 & H2 & H3 & H4).
    split_and!; [done..|split|split]; auto.
    + by apply (swrap_unsigned 32).
    + by apply (swrap_unsigned 64).
  - exists [x01]. split; [|done]. cbn. unfold obj_bool, str2buf_bool. by rewrite Hmalloc.
  - exists [x00]. split; [|done]. cbn. unfold obj_bool, str2buf_bool. by rewrite Hmalloc.
  - intros s Hs. exists (with_nul s). split.
    + change (str2buf_dtype_str _ _ _) with (dtype_result 0 (copy_string (Some s))). unfold copy_string. by rewrite Hmalloc.
    + unfold with_nul. rewrite take_app_length' by (unfold zlen; lia).
      change (show_value _ _ _ _) with (b ← show_string (Some (with_nul s)); mret [LText b]).
      unfold show_string, with_nul. by rewrite (c_str_with_nul s []).
  - intros l Hl. exists l. split; [|by rewrite take_ge by (unfold zlen; lia)].
    change (str2buf_dtype_str _ _ _) with (dtype_result 0 (Ret (bytes_result (Some (print_bytes l))))).
    unfold bytes_result. by rewrite bytes_roundtrip.
Qed.
End ArgumentProps.

(** ** The listing of a cache *)

Definition plain_name (n : bytes) : Prop := (COMMA ∉ n) /\ (NUL ∉ n).

Lemma token_len_plain s e r : plain_name s -> e = COMMA \/ e = NUL -> token_len (s ++ e :: r) = length s.
Proof.
  intros [Hc Hn] He. induction s as [|b s IH]; cbn [app token_len length].
  - by rewrite decide_True.
  - apply not_elem_of_cons in Hc as [? Hc]. apply not_elem_of_cons in Hn as [? Hn].
    rewrite decide_False by (intros [-> | ->]; done). by rewrite IH.
Qed.

(** The search finds a token that begins where it starts. *)
Lemma strtok_token pre b s e r :
  plain_name (b :: s) -> e = COMMA \/ e = NUL ->
  strtok (pre ++ (b :: s) ++ e :: r) (length pre)
  = Ret (Some (length pre, S (length s), pre ++ (b :: s) ++ NUL :: r,
               if decide (e = NUL) then (length pre + S (length s))%nat else S (length pre + S (length s)))).
Proof.
  intros Hp He. unfold strtok. rewrite drop_app_length. destruct Hp as [Hc Hn].
  assert (skip_commas ((b :: s) ++ e :: r) = O) as ->.
  { cbn [app skip_commas]. apply not_elem_of_cons in Hc as [? _]. by rewrite decide_False by congruence. }
  rewrite Nat.add_0_r.
  assert ((pre ++ (b :: s) ++ e :: r) !! length pre = Some b) as -> by (by apply list_lookup_middle).
  rewrite decide_False by (apply not_elem_of_cons in Hn as [? _]; congruence).
  rewrite drop_app_length, token_len_plain by done. cbn [length].
  assert ((pre ++ (b :: s) ++ e :: r) !! (length pre + S (length s))%nat = Some e) as ->.
  { rewrite app_assoc. apply list_lookup_middle. by rewrite length_app. }
  case_decide as Hd; [by rewrite Hd|]. rewrite app_assoc.
  assert (Z.of_nat (length pre + S (length s)) = zlen (pre ++ b :: s)) as -> by (unfold zlen; by rewrite length_app).
  rewrite mem_write_at by (unfold zlen; simpl; lia). run. change (drop (length [NUL]) (e :: r)) with r. do 4 f_equal.
  by rewrite <- !app_assoc.
Qed.

(** The bytes a token ends with are cut off, and its first two are skipped. *)
Lemma cut_token pre a b n cut r :
  plain_name n -> cut <> [] ->
  mem_write (pre ++ (a :: b :: n ++ cut) ++ r) (zlen pre + 2 + zlen n) [NUL]
  = Ret (pre ++ (a :: b :: n ++ NUL :: drop 1 cut) ++ r) /\
  c_str (drop (length pre + 2) (pre ++ (a :: b :: n ++ NUL :: drop 1 cut) ++ r)) = Ret n.
Proof.
  intros [_ Hn] Hcut. destruct cut as [|x cut]; [done|]. split.
  - replace (pre ++ (a :: b :: n ++ x :: cut) ++ r) with ((pre ++ a :: b :: n) ++ (x :: cut) ++ r)
      by (by repeat (rewrite <- app_assoc; cbn [app])).
    assert (zlen pre + 2 + zlen n = zlen (pre ++ a :: b :: n)) as ->.
    { unfold zlen. rewrite length_app. cbn [length]. lia. }
    rewrite mem_write_at by (unfold zlen; simpl; lia). cbn [drop length app skipn].
    f_equal. by repeat (rewrite <- app_assoc; cbn [app]).
  - rewrite drop_app_ge by lia. replace (length pre + 2 - length pre)%nat with 2%nat by lia. cbn [drop skipn app].
    rewrite <- app_assoc. cbn [app]. by apply c_str_with_nul.
Qed.

Lemma token_end pre a b n cut r :
  cut <> [] -> mem_read (pre ++ (a :: b :: n ++ cut) ++ r) (zlen pre + 2 + zlen n + zlen cut - 1) 1
  = Ret (drop (length cut - 1) cut).
Proof.
  intros Hcut. pose proof (zlen_pos cut Hcut). pose proof (zlen_nonneg pre). pose proof (zlen_nonneg n).
  pose proof (zlen_nonneg r).
  rewrite mem_read_ok; [|lia|lia|].
  2:{ rewrite !zlen_app. unfold zlen in *. cbn [length]. rewrite length_app. lia. }
  replace (pre ++ (a :: b :: n ++ cut) ++ r) with ((pre ++ a :: b :: n) ++ cut ++ r)
    by (by repeat (rewrite <- app_assoc; cbn [app])).
  rewrite drop_app_ge by (rewrite length_app; unfold zlen in *; cbn [length]; lia).
  replace (Z.to_nat (zlen pre + 2 + zlen n + zlen cut - 1) - length (pre ++ a :: b :: n))%nat with (length cut - 1)%nat
    by (rewrite length_app; unfold zlen in *; cbn [length]; lia).
  rewrite drop_app_le by lia. change (Z.to_nat 1) with 1%nat.
  f_equal. apply take_app_length'. rewrite length_drop. unfold zlen in *. lia.
Qed.

(** One round of the loop on a token of two bytes, a name and the two that end it. *)
Lemma list_tokens_name fuel pre a b n cut e r :
  plain_name (a :: b :: n ++ cut) -> plain_name n -> cut = [DQUOTE] \/ cut = cs "]" \/ cut = DQUOTE :: cs "]" ->
  cut <> cs "]" -> e = COMMA \/ e = NUL ->
  list_tokens (S fuel) (pre ++ (a :: b :: n ++ cut) ++ e :: r) (length pre)
  = (rest ← list_tokens fuel (pre ++ (a :: b :: n ++ NUL :: drop 1 cut) ++ NUL :: r)
      (if decide (e = NUL) then (length pre + length (a :: b :: n ++ cut))%nat
       else S (length pre + length (a :: b :: n ++ cut)));
     Ret (n :: rest)).
Proof.
  intros Hp Hn Hcut Hne He. cbn [list_tokens].
  assert (cut <> []) as Hcne by (by destruct Hcut as [-> | [-> | ->]]).
  rewrite (strtok_token pre a (b :: n ++ cut) e r Hp He). run.
  assert (Z.of_nat (length pre + S (length (b :: n ++ cut))) = zlen pre + 2 + zlen n + zlen cut) as Hend.
  { unfold zlen. cbn [length]. rewrite length_app. lia. }
  rewrite Hend. change (a :: b :: n ++ cut) with (a :: b :: (n ++ cut)).
  rewrite (token_end pre a b n cut (NUL :: r) Hcne). run.
  destruct (cut_token pre a b n cut (NUL :: r) Hn Hcne) as [Hw Hs].
  assert ((if decide (drop (length cut - 1) cut = cs "]") then zlen pre + 2 + zlen n + zlen cut - 2
           else zlen pre + 2 + zlen n + zlen cut - 1) = zlen pre + 2 + zlen n) as ->.
  { destruct Hcut as [-> | [-> | ->]]; [|done|].
    - rewrite decide_False by done. change (zlen [DQUOTE]) with 1. lia.
    - rewrite decide_True by done. change (zlen (DQUOTE :: cs "]")) with 2. lia. }
  rewrite Hw. run. rewrite bool_decide_true by (rewrite length_app; simpl; lia). rewrite Hs. run. done.
Qed.

(** The rest of a listing: what follows the name. *)
Definition listed_rest (names : list bytes) : bytes :=
  (names ≫= fun n => cs ", " ++ quoted n) ++ cs "]".

Lemma plain_app s t : plain_name s -> plain_name t -> plain_name (s ++ t).
Proof. intros [? ?] [? ?]. split; apply not_elem_of_app; done. Qed.

Lemma plain_quoted n : plain_name n -> plain_name (cs "[" ++ quoted n) /\ plain_name (cs " " ++ quoted n)
  /\ plain_name (cs "[" ++ quoted n ++ cs "]") /\ plain_name (cs " " ++ quoted n ++ cs "]").
Proof.
  intros Hp. unfold quoted. change (DQUOTE :: n ++ [DQUOTE]) with ([DQUOTE] ++ n ++ [DQUOTE]).
  split_and!; repeat apply plain_app; try done; split; by_decide.
Qed.

Lemma list_tokens_names fuel pre (a : byte) n names :
  (S (length names) < fuel)%nat -> a = "["%byte \/ a = " "%byte -> Forall plain_name (n :: names) ->
  list_tokens fuel (pre ++ (a :: quoted n) ++ listed_rest names ++ [NUL]) (length pre) = Ret (n :: names).
Proof.
  revert fuel pre a n. induction names as [|n2 names IH]; intros fuel pre a n Hfuel Ha Hp;
    (destruct fuel as [|fuel]; [simpl in Hfuel; lia|]); apply list.Forall_cons in Hp as [Hn Hp].
  - change (listed_rest []) with (cs "]").
    replace ((a :: quoted n) ++ cs "]" ++ [NUL]) with ((a :: DQUOTE :: n ++ DQUOTE :: cs "]") ++ NUL :: [])
      by (unfold quoted; cbn; by rewrite <- !app_assoc).
    rewrite (list_tokens_name fuel pre a DQUOTE n (DQUOTE :: cs "]") NUL []); [|..|by right].
    + rewrite decide_True by done. destruct fuel as [|fuel]; [simpl in Hfuel; lia|]. cbn [list_tokens]. unfold strtok.
      rewrite <- length_app.
      assert (length (pre ++ a :: DQUOTE :: n ++ DQUOTE :: cs "]") = length (pre ++ a :: DQUOTE :: n ++ NUL :: drop 1 (DQUOTE :: cs "]"))) as ->.
      { rewrite !length_app. cbn [length]. by rewrite !length_app. }
      rewrite app_assoc, drop_app_length. cbn [skip_commas]. rewrite decide_False by done.
      rewrite Nat.add_0_r, list_lookup_middle by done. by rewrite decide_True by done.
    + destruct (plain_quoted n Hn) as (_ & _ & H1 & H2). unfold quoted in *. cbn [cs String.list_byte_of_string app] in *.
      rewrite <- app_assoc in H1, H2. by destruct Ha as [-> | ->].
    + done.
    + by right; right.
    + done.
  - replace ((a :: quoted n) ++ listed_rest (n2 :: names) ++ [NUL])
      with ((a :: DQUOTE :: n ++ [DQUOTE]) ++ COMMA :: (" "%byte :: quoted n2) ++ listed_rest names ++ [NUL]).
    2:{ unfold listed_rest. cbn [mbind list_bind app cs String.list_byte_of_string]. unfold quoted. cbn [app].
        f_equal. rewrite <- !app_assoc. cbn [app]. by rewrite <- !app_assoc. }
    rewrite (list_tokens_name fuel pre a DQUOTE n [DQUOTE] COMMA _); [|..|by left].
    + rewrite decide_False by done. change (drop 1 [DQUOTE]) with (@nil byte).
      replace (pre ++ (a :: DQUOTE :: n ++ [NUL]) ++ NUL :: (" "%byte :: quoted n2) ++ listed_rest names ++ [NUL])
        with ((pre ++ (a :: DQUOTE :: n ++ [NUL]) ++ [NUL]) ++ (" "%byte :: quoted n2) ++ listed_rest names ++ [NUL])
        by (rewrite <- !app_assoc; done).
      assert (S (length pre + length (a :: DQUOTE :: n ++ [DQUOTE])) = length (pre ++ (a :: DQUOTE :: n ++ [NUL]) ++ [NUL])) as ->.
      { rewrite !length_app. cbn [length]. rewrite !length_app. cbn [length]. lia. }
      rewrite IH; [done|simpl in *; lia|by right|done].
    + destruct (plain_quoted n Hn) as (H1 & H2 & _). unfold quoted in *. cbn [cs String.list_byte_of_string app] in *.
      by destruct Ha as [-> | ->].
    + done.
    + by left.
    + done.
Qed.

Lemma listed_length names : (length names <= length (names ≫= fun n => cs ", " ++ quoted n))%nat.
Proof. induction names as [|n names IH]; [done|]. rewrite bind_cons, length_app. simpl in *. lia. Qed.

(** C34: the program that lists a cache prints exactly the names in the text the cache makes of
    them, when no name has a comma. *)
Theorem list_files_json names : Forall plain_name names -> list_files (json_of names) = Ret names.
Proof.
  intros Hp. unfold list_files. destruct names as [|n names]; [done|].
  assert (json_of (n :: names) = ("["%byte :: quoted n) ++ listed_rest names) as E.
  { unfold json_of, listed_rest. cbn [quoted_list]. unfold quoted. cbn. by rewrite <- !app_assoc. }
  assert (strncmp_eq (json_of (n :: names)) (cs "[]") (length (json_of (n :: names))) = false) as ->.
  { rewrite E. done. }
  unfold with_nul. rewrite E, <- app_assoc. apply (list_tokens_names _ []); [|by left|done].
  rewrite length_app. unfold listed_rest. rewrite length_app.
  pose proof (listed_length names) as Hl. change (length ("["%byte :: quoted n)) with (S (length (quoted n))).
  change (length (cs "]")) with 1%nat. lia.
Qed.

(** ** Fetching a file *)

Section FetchProps.
Context `{HL : SdoLib C} `{HLL : !SdoLibLaws C} `{HP : Platform} `{FS : FileSystem F} `{TO : ToolOd}.
Variable junk : byte.

(** C35: a program that fetches a file, when the queue of its client has space for the name, ends
    after two transfers: one that hands the client exactly the name with its terminator, and one
    from the node it left, into the local file of that name.  It ends with success exactly when both do, and then the file
    holds exactly what the client received in the second; when one fails, its abort is printed. *)
Theorem fread_main_fetches interface node src n c c1 (fs : F) :
  parse_int_arg node = Some n ->
  download_started c (wrap 8 n) OD_INDEX_FREAD_CACHE OD_SUBINDEX_FILE_NAME (zlen src + 1) c1 ->
  zlen src + 1 <= CO_fifo_getSpace c1 ->
  exists ac1 cw, sdo_write_str c (wrap 8 n) OD_INDEX_FREAD_CACHE OD_SUBINDEX_FILE_NAME src = Ret (ac1, cw) /\
    if ac1 =? CO_SDO_AB_NONE then
      accepted cw = with_nul src /\
      exists ac2 cr fs',
        Sdo.sdo_read_to_file junk cw fs (wrap 8 n) OD_INDEX_FREAD_CACHE OD_SUBINDEX_FILE_DATA src = Ret (ac2, cr, fs') /\
        if ac2 =? CO_SDO_AB_NONE then
          fs_read fs' src = inr (received cr) /\
          fread_main junk [interface; node; src] (Some c) fs = Ret ([], EXIT_SUCCESS, fs')
        else fread_main junk [interface; node; src] (Some c) fs = Ret ([abort_line ac2], EXIT_FAILURE, fs')
    else fread_main junk [interface; node; src] (Some c) fs = Ret ([abort_line ac1], EXIT_FAILURE, fs).
Proof.
  intros Hnode Hd Hsp. unfold fread_main, with_int, or_abort, sdo_write_str. rewrite Hnode.
  assert (zlen (with_nul src) = zlen src + 1) as Hl by (unfold with_nul; rewrite zlen_app; done).
  rewrite <- Hl in Hd, Hsp |- *.
  destruct (write_sends c _ _ _ (with_nul src) c1 Hd) as (ac & cw & Hw & Hacc); [by destruct src|done|].
  exists ac, cw. split; [done|]. rewrite Hw. run. destruct (Z.eqb_spec ac CO_SDO_AB_NONE) as [->|Hac].
  2:{ by rewrite (proj2 (Z.eqb_neq ac 0)). }
  split; [by apply Hacc|].
  destruct (read_to_file_receives junk cw fs (wrap 8 n) OD_INDEX_FREAD_CACHE OD_SUBINDEX_FILE_DATA src)
    as (ac & cr & fs' & Hr & Hread). exists ac, cr, fs'. split; [done|]. cbn [Z.eqb negb CO_SDO_AB_NONE]. rewrite Hr. run.
  destruct (Z.eqb_spec ac CO_SDO_AB_NONE) as [->|Hac]; [by split; [apply Hread|]|].
  by rewrite (proj2 (Z.eqb_neq ac 0)).
Qed.

(** An aborted read is reported, but the exit status of the program is that of success. *)
Theorem sdo_read_main_abort printf_float printf_double interface node index subindex n i s c ac data c' (fs : F) :
  parse_int_arg node = Some n -> parse_int_arg index = Some i -> parse_int_arg subindex = Some s ->
  Sdo.sdo_read_dynamic junk c (wrap 8 n) (wrap 16 i) (wrap 8 s) false = Ret (ac, data, c') ->
  ac <> CO_SDO_AB_NONE ->
  sdo_read_main junk printf_float printf_double [interface; node; index; subindex] (Some c) fs
  = Ret ([abort_line ac], EXIT_SUCCESS, fs).
Proof.
  intros Hn Hi Hs Hread Hac. unfold sdo_read_main, with_entry, with_int. rewrite Hn, Hi, Hs, Hread. run.
  by rewrite (proj2 (Z.eqb_neq ac 0)).
Qed.
End FetchProps.

(** ** The node's thread *)

(** When the thread is in its loop, stopping the node ends it: whatever the order of the
    steps, at most two follow, and then the thread has been joined. *)
Theorem node_stop_joins r s :
  let stopped := mkNodeState false TLoop MJoin in
  node_step (mkNodeState r TLoop MWork) stopped /\
  (forall n, nsteps node_step n stopped s -> (n <= 2)%nat /\ (nf node_step s -> n_main s = MStopped)).
Proof.
  intros stopped. split; [constructor|]. intros n Hn. unfold nf, red.
  inversion Hn as [|? ? s1 ? H1 Hr1]; subst.
  { split; [lia|]. intros Hnf. destruct Hnf. exists (mkNodeState false TEnd MJoin). constructor. }
  inversion H1; subst. inversion Hr1 as [|? ? s2 ? H2 Hr2]; subst.
  { split; [lia|]. intros Hnf. destruct Hnf. exists (mkNodeState false TEnd MStopped). constructor. }
  inversion H2; subst. inversion Hr2 as [|? ? s3 ? H3 Hr3]; subst; [|by inversion H3].
  split; [lia|done].
Qed.

(** C36: when the node is stopped before its thread has begun, the thread sets [running] again: it
    runs on, and [pthread_join] does not return until a signal comes. *)
Theorem node_stop_lost :
  let lost := mkNodeState true TLoop MJoin in
  rtc node_step node_init lost /\ (forall s, rtc node_step lost s -> s = lost) /\
  rtc node_step_sig lost (mkNodeState false TEnd MStopped).
Proof.
  intros lost. split_and!.
  - eapply rtc_l; [apply step_stop|]. eapply rtc_l; [apply step_start|]. apply rtc_refl.
  - intros s H. remember lost as l eqn:El. induction H as [|x y z Hs Hr IH]; [done|]. subst x.
    inversion Hs; subst. by apply IH.
  - eapply rtc_l; [apply sig_handler|]. eapply rtc_l; [apply sig_step, step_exit|].
    eapply rtc_l; [apply sig_step, step_join|]. apply rtc_refl.
Qed.

(** ** Witnesses: the theorems at concrete inputs *)

Lemma parse_int_arg_roundtrip_witness :
  parse_int_arg (HP := armhf) (print_dec (-5)) = Some (-5) /\ parse_int_arg (HP := lp64) (print_hex 0x7C) = Some 0x7C.
Proof.
  split.
  - exact (proj1 (parse_int_arg_roundtrip (HP := armhf) (-5)) ltac:(by_compute)).
  - exact (proj2 (parse_int_arg_roundtrip (HP := lp64) 0x7C) ltac:(by_compute)).
Defined.

Definition no_float (bits : Z) : bytes := [].

Lemma sdo_tools_roundtrip_witness :
  prints (HP := armhf) no_float no_float "int16" (print_dec (-2)) 2 (Ret [LText (shown 32 (-2))]) /\
  shown 32 (-2) = cs "-2 (0xFFFFFFFE)".
Proof.
  split; [|by_compute].
  destruct (sdo_tools_roundtrip (HP := armhf) (fun _ => eq_refl) no_float no_float) as (H & _).
  exact (proj1 (proj2 (H (-2))) ltac:(by_compute)).
Defined.

Lemma list_files_json_witness :
  list_files (json_of [cs "a.txt"; cs "b"]) = Ret [cs "a.txt"; cs "b"].
Proof. apply list_files_json. repeat constructor; by_decide. Defined.

Definition tool_od : ToolOd := {|
  OD_INDEX_FREAD_CACHE := 0x3003; OD_INDEX_FWRITE_CACHE := 0x3004; OD_INDEX_OS_COMMAND := 0x1023;
  OD_SUBINDEX_FILES_JSON := 2; OD_SUBINDEX_FILE_NAME := 3; OD_SUBINDEX_FILE_DATA := 4;
  OD_SUBINDEX_OS_COMMAND_COMMAND := 1; OD_SUBINDEX_OS_COMMAND_STATUS := 2; OD_SUBINDEX_OS_COMMAND_REPLY := 3;
  OS_COMMAND_STATUS_EXECUTING := 255; OS_COMMAND_STATUS_NO_ERROR_REPLY := 1; OS_COMMAND_STATUS_ERROR_REPLY := 3;
|}.

Lemma fread_main_fetches_witness :
  exists fs', fread_main (HP := armhf) (TO := tool_od) NUL [cs "can0"; cs "0x10"; cs "/n"] (Some (sends [cs "hey"])) sample_fs
      = Ret ([], EXIT_SUCCESS, fs') /\ fs_read fs' (cs "/n") = inr (cs "hey").
Proof.
  destruct (fread_main_fetches (HLL := sim_laws) (HP := armhf) (TO := tool_od) NUL (cs "can0") (cs "0x10") (cs "/n") 0x10
    (sends [cs "hey"]) (sends [cs "hey"]) sample_fs) as (ac1 & cw & Hw & H); [by_compute| |by_compute|].
  { exists (sends [cs "hey"]). split; reflexivity. }
  assert (sdo_write_str (sends [cs "hey"]) (wrap 8 0x10) 0x3003 3 (cs "/n")
    = Ret (0, mkSim [cs "hey"] [] [] 0 (with_nul (cs "/n")) 4)) as E by (vm_compute; reflexivity).
  assert (Ret (ac1, cw) = Ret (0, mkSim [cs "hey"] [] [] 0 (with_nul (cs "/n")) 4)) as E1 by (rewrite <- Hw; exact E).
  injection E1 as -> ->. destruct H as (_ & ac2 & cr & fs' & Hr & H).
  assert (ac2 = 0 /\ s_received cr = cs "hey") as [-> Hrec].
  { unfold Sdo.sdo_read_to_file in Hr. cbn in Hr. injection Hr as <- <- _. by_compute. }
  destruct H as [Hf Hm]. exists fs'. split; [exact Hm|]. rewrite Hf. f_equal. exact Hrec.
Defined.

(** A node that has no answer aborts. *)
Lemma sdo_read_main_abort_witness :
  sdo_read_main (HP := armhf) NUL no_float no_float [cs "can0"; cs "0x10"; cs "0x4000"; cs "1"]
    (Some (sends [cs "123456789"])) sample_fs
  = Ret ([LAbort 0x05040005 (Some "Out of memory"%string)], EXIT_SUCCESS, sample_fs).
Proof.
  apply (sdo_read_main_abort (HP := armhf) NUL no_float no_float (cs "can0") (cs "0x10") (cs "0x4000") (cs "1")
    0x10 0x4000 1 (sends [cs "123456789"]) 0x05040005 None (sends [cs "123456789"]) sample_fs); by_compute.
Defined.

Lemma node_stop_joins_witness :
  forall n s, nsteps node_step n (mkNodeState false TLoop MJoin) s -> (n <= 2)%nat.
Proof.
  intros n s H. exact (proj1 (proj2 (node_stop_joins true s) n H)).
Defined.
